(* ===== verification/_CoqProject ===== *)
-Q . S2P
Prelude.v
Machine.v
CString.v
Range.v
Handover.v
Stivale.v
FrameAllocator.v
Pmm.v
Vmm.v
Spaces.v
Memory.v
Itoa.v
CStdlib.v
Fmt.v
Services.v
Vec.v
Sched.v
Process.v
Elf.v
Devices.v
Symbols.v
Kernel.v
Syscall.v
Interrupt.v
Gdt.v
Stubs.v
Map.v
Dll.v
Liballoc.v
LiballocSpec.v
Compat.v
KernelHeap.v
KernelMemory.v
Ipc.v
User.v
Isolation.v
TestIpc.v
TestRun.v
TestSystem.v
Running.v
Ubsan.v
Acpi.v
Spawn.v
Ledger.v
UserView.v
Boot.v
Erasure.v
Booting.v
