(* ===== verification/Prelude.v ===== *)
(** * The Navy microkernel

    A model of the kernel of Navy (C, x86-64) and of the C library it is built
    with, and the theorems that make it correct.  All paths are under
    src/sources/.

    ** How the program is modelled

    C integers are [Z] with the conversions of [Prelude] ([u64], [s32], ...)
    where the source stores or converts.  A function that only computes is a
    function to [res]: a value or a [fault] ([BadAccess]: an access outside an
    object or through NULL; [AssertFailed]; [DivideError]; [Spinning]: a lock
    that is never released; [OutOfFuel]).  A function with effects is a
    computation in the state monad [M S], [S] being a record of the statics of
    its file with the memory below it; [zoom] runs a component's operation on
    the part of a larger state that belongs to it.  [for] loops are [forZ];
    loops without an obvious bound take fuel, and the theorems say how much is
    enough: one lap of the table for the scheduler ([Sched.next_running]), twice
    the blocks and three for [Liballoc.MALLOC_FUEL], the 16 bits of e_phnum for
    [Elf.PHNUM_FUEL], one level for [Pmm.FIND_FUEL].  Loops that wait for a
    device or never end take the number of turns.

    Memory is bytes by address ([Machine.memory]) where the code works on bytes
    (bitmap, page tables, heap contents, ELF images, user messages); objects
    only reached through their C type (processes, heap headers, map nodes) are
    in maps by address, so that every pointer of the source is a number and
    aliasing is as in the source.

    ** The parts

    - [Machine], [CString], [Range], [CStdlib], [Itoa], [Vec], [Fmt], [Map]:
      the library (libs/ansi, libs/navy).
    - [Handover], [Stivale]: what the boot loader says (libs/navy/handover.c,
      arch/x86_64/stivale2_handover.c).
    - [FrameAllocator] is the interface of a frame allocator; [Pmm]
      (arch/x86_64/pmm.c) implements it, [Vmm] (arch/x86_64/vmm.c) is written and
      proved against it, [Spaces] is about several address spaces at once, and
      [Memory] puts the allocator and the page tables together.
    - [Liballoc] (libs/liballoc/liballoc.c) over the interface [PageProvider];
      [Dll] has the lists its headers form, [LiballocSpec] the specification and
      the refinement; [Compat] (libs/liballoc/compat.c, kernel/kmalloc.c) is the
      page provider of the kernel and the resulting [KernelServices];
      [KernelHeap] proves that it satisfies the laws [LiballocSpec] asks for, and
      [KernelMemory] what the heap and the frame allocator promise together.
    - [Services] is what the scheduler asks of the memory subsystem; [Sched] and
      [Process] (kernel/sched.c), [Elf] (kernel/elf.c) and [Spawn] (both
      together) are written against it, with the laws [KernelServicesLaws],
      [LoaderServices] and [SpawnServices], in which [LoaderView] names what the
      services keep for their clients.
    - [Devices] (asm.c, pic.c, pit.c, rtc.c and serial.c of arch/cross-x86) and
      [Acpi] (acpi.c), over a device that answers reads and writes.
    - [Symbols] (kernel/symbols.c), [Kernel] (kernel/debug.c, assert.c and the
      console of arch.c), [Syscall] (kernel/syscall.c with unistd.c and ipc.c),
      [Interrupt] (arch/x86_64/interrupt.c), [Gdt] (gdt.c, idt.c and the
      system-call registers), [Stubs] (idt.s, syscall.s and gdt.s: how the handlers
      are entered and left), [Ubsan] (kernel/tinyubsan.c).
    - [Ipc]: the machine of processes (state, mailbox, memory) the system calls
      implement; [User] (pkg/test/main.c, libs/ansi/crt0.c, libs/navy/debug.c):
      user programs as interaction trees of system calls and memory accesses, and
      the machine that runs them under interrupts; [Isolation]: any programs on
      it; [TestIpc], [TestRun] and [TestSystem]: the test program's stages, what a
      step does to them, and the whole runs; [Running]: the processes on the
      kernel's own allocators.
    - [Boot]: the order in which all this starts (arch_init of arch.c,
      kernel/entry.c, stivale_bootsrap.c).  [Ledger] puts next to the kernel's
      memory a record of what is held and of the mappings made, with which it has
      the laws above; [UserView] is what a process then finds at its addresses;
      [Erasure] shows that the record changes nothing in what [kmain] does, and
      [Booting] joins the start of the kernel to the runs of the processes.

    ** What is proved

    - Frames.  What is handed out is never free nor handed out twice, whatever
      the order of calls ([Pmm.pmm_live_disjoint]); the search is first fit from
      the last position; freeing undoes allocating; when nothing fits the search
      never returns; the set of free pages after [pmm_init].
    - Page tables.  Mapping a range maps exactly its pages
      ([Vmm.vmm_map_range_maps]), and in another space what is seen of it is
      behind a shared table: nothing in the user's half
      ([Spaces.vmm_map_range_spaces]); a new space shares the kernel's half;
      unmapping clears; what destroying a space leaks.
    - Heap.  On every well-formed heap malloc, free and realloc terminate and
      refine a set of disjoint live areas whose contents are kept
      ([LiballocSpec]); a double free is counted and changes nothing; pages are
      never given back ([Compat.liballoc_free_leaks]).  On the kernel's own
      allocators, heap areas, frames, the tables of all address spaces and the
      bitmap stay apart in every order of requests, mappings, writes and of
      creating, switching and destroying spaces ([KernelMemory]).
    - Processes.  One tick of the timer switches to the next running entry;
      every running process gets the processor in bounded time
      ([Sched.sched_fair]); pushing appends and keeps the table well formed; an
      ELF image becomes mapped frames with its bytes ([Elf]); [kmain] ends with
      the kernel and three running user processes, on any services
      ([Boot.kmain_spawns]) and on the kernel's own ([Booting.kmain_boots]), where
      the page tables show each process the image at its addresses and nothing
      another process can reach, and where the processes satisfy what the next two
      groups start from.
    - Messages.  A message sent is the one received ([Syscall]).  Every system
      call refines the machine of processes ([Ipc.syscall_refines]), so that no
      process touches another but by messages ([Isolation.processes_isolated]);
      the mailboxes keep apart in the kernel's memory, and the processes' addresses
      lead where they led at the start ([Running.mailboxes_apart]).
    - The whole.  Under every interleaving of the three processes of the test
      program with the interrupts, each prints its line and nothing else, no
      system call or interrupt fails, and all three end if the timer keeps coming
      ([TestSystem]).
    - Interrupts.  The panic screen ends in a halted processor, unless the fault
      came with the console's lock held; tables and selectors agree with what the
      processor reads ([Gdt]).  The stub of every interrupt hands the handler the
      registers as they were and goes on with those the handler names; that of a
      system call comes back with the result and the other registers ([Stubs]),
      so that the handlers can be modelled from registers to registers.
    - Library.  The map refines a finite map, [print_format] a reference
      rendering; itoa and atoi; strings; vectors; symbol lookup; the local APIC's
      address.

    Where the code does not do what it means to, the theorem says what it does.

    ** Assumptions

    One processor.  Kernel code is not interrupted between two steps of the
    model: a timer interrupt is an explicit step of [Sched.run_ticks], and the
    turns of a waiting system call are explicit ([Syscall.Wait]).  [kmain] is
    followed up to the loop of the reaper.  The memory the kernel works in is
    seen through its own mapping of physical memory; user memory is one memory
    per address space, in which the pointers given to system calls are looked up:
    the code does not test that they are in the user's half, and what it does with
    one of the kernel's half is not modelled (the theorems of [Isolation] and
    [Running] exclude it).  What a C compiler may do with undefined behaviour is not
    modelled: such accesses are [BadAccess].

    In the runs of [TestSystem] an event of a process (a system call, or an
    access to its memory) is one step; between two events any interrupt of the
    controllers may come.  They start when the process table is filled and the
    timer is on, and the kernel's own process only waits for interrupts: the
    turns of its reaper, which releases a process that has ended again in every
    turn, are in [Process].

    ** Not modelled

    Log lines, except where a theorem is about what is printed; the debug dump
    of liballoc; the code a compiler makes of C (in [Stubs] any function that keeps
    the calling convention); the macros of libs/map-macro, result.h and reader.h,
    which nothing uses; the boot loader, the boot protocol's header and the build. *)
From stdpp Require Export base numbers list gmap.
From Stdlib Require Export ZArith Lia.

#[global] Open Scope Z_scope.

(** ** Machine integers

    A C integer is a [Z]; the conversions below are the ones the C abstract
    machine performs when a value is stored in an object of that type. *)

Definition u8 (z : Z) : Z := z mod 0x100.
Definition u16 (z : Z) : Z := z mod 0x10000.
Definition u32 (z : Z) : Z := z mod 0x100000000.
Definition u64 (z : Z) : Z := z mod 0x10000000000000000.
Definition s8 (z : Z) : Z := (z + 0x80) mod 0x100 - 0x80.
Definition s32 (z : Z) : Z := (z + 0x80000000) mod 0x100000000 - 0x80000000.
Definition s64 (z : Z) : Z :=
  (z + 0x8000000000000000) mod 0x10000000000000000 - 0x8000000000000000.

(** Truth value of a C condition. *)
Definition truth (z : Z) : bool := negb (z =? 0).

(** [word_lia] decides linear goals that mention the conversions: the modulos are
    by literal constants, so their Euclidean equations are linear. *)
Ltac unfold_words := unfold u8, u16, u32, u64, s8, s32, s64 in *.
Ltac word_lia := unfold_words; Z.div_mod_to_equations; lia.

Lemma u64_small z : 0 ≤ z < 0x10000000000000000 → u64 z = z.
Proof. apply Z.mod_small. Qed.
Lemma u32_small z : 0 ≤ z < 0x100000000 → u32 z = z.
Proof. apply Z.mod_small. Qed.
Lemma u8_small z : 0 ≤ z < 0x100 → u8 z = z.
Proof. apply Z.mod_small. Qed.
Lemma u64_range z : 0 ≤ u64 z < 0x10000000000000000.
Proof. by apply Z.mod_pos_bound. Qed.
Lemma u32_range z : 0 ≤ u32 z < 0x100000000.
Proof. by apply Z.mod_pos_bound. Qed.
Lemma u8_range z : 0 ≤ u8 z < 0x100.
Proof. by apply Z.mod_pos_bound. Qed.
Lemma s32_range z : -0x80000000 ≤ s32 z < 0x80000000.
Proof. word_lia. Qed.
Lemma s32_small z : -0x80000000 ≤ z < 0x80000000 → s32 z = z.
Proof. word_lia. Qed.
Lemma s8_small z : -0x80 ≤ z < 0x80 → s8 z = z.
Proof. word_lia. Qed.
Lemma u64_u64 z : u64 (u64 z) = u64 z.
Proof. apply u64_small, u64_range. Qed.
Lemma u64_add_l a b : u64 (u64 a + b) = u64 (a + b).
Proof. apply Zplus_mod_idemp_l. Qed.
Lemma u64_add_r a b : u64 (a + u64 b) = u64 (a + b).
Proof. apply Zplus_mod_idemp_r. Qed.
Lemma u64_sub_l a b : u64 (u64 a - b) = u64 (a - b).
Proof. apply Zminus_mod_idemp_l. Qed.

Create HintDb words.
#[export] Hint Resolve u64_range u32_range u8_range s32_range : words.
#[export] Hint Rewrite u64_u64 u64_add_l u64_add_r u64_sub_l : words.

(** ** Bits *)

Lemma testbit_pow2 b i : 0 ≤ b → Z.testbit (Z.shiftl 1 b) i = (i =? b).
Proof.
  intros Hb. rewrite Z.shiftl_1_l. destruct (Z.eqb_spec i b) as [->|Hne].
  - by apply Z.pow2_bits_true.
  - apply Z.pow2_bits_false. lia.
Qed.

Lemma land_pow2_truth x b :
  0 ≤ b → truth (Z.land x (Z.shiftl 1 b)) = Z.testbit x b.
Proof.
  intros Hb. unfold truth. destruct (Z.testbit x b) eqn:Hx.
  - destruct (Z.eqb_spec (Z.land x (Z.shiftl 1 b)) 0) as [H|]; [|done].
    apply (f_equal (λ z, Z.testbit z b)) in H.
    rewrite Z.land_spec, testbit_pow2, Z.eqb_refl, Hx, Z.bits_0 in H; done.
  - replace (Z.land x (Z.shiftl 1 b)) with 0; [done|].
    apply Z.bits_inj'. intros i Hi.
    rewrite Z.land_spec, testbit_pow2, Z.bits_0 by done.
    destruct (Z.eqb_spec i b) as [->|]; [by rewrite Hx|by rewrite andb_false_r].
Qed.

Lemma testbit_u8 x i : 0 ≤ i < 8 → Z.testbit (u8 x) i = Z.testbit x i.
Proof. intros Hi. apply (Z.mod_pow2_bits_low x 8 i). lia. Qed.

Lemma testbit_above x n i : 0 ≤ n → 0 ≤ x < 2 ^ n → n ≤ i → Z.testbit x i = false.
Proof.
  intros Hn Hx Hi. rewrite <- (Z.mod_small x (2 ^ n)) by done.
  by apply Z.mod_pow2_bits_high.
Qed.

(** [x & ~(2^n - 1)] clears the low [n] bits. *)
Lemma land_lnot_ones x n : 0 ≤ n → Z.land x (Z.lnot (Z.ones n)) = x / 2 ^ n * 2 ^ n.
Proof.
  intros Hn. rewrite <- Z.ldiff_land, Z.ldiff_ones_r by done.
  by rewrite Z.shiftl_mul_pow2, Z.shiftr_div_pow2 by done.
Qed.

(** The first value, counting from 1, at which a test holds. *)
Lemma least_positive (P : Z → bool) m :
  1 ≤ m → P m = true → ∃ d, 1 ≤ d ≤ m ∧ P d = true ∧ ∀ e, 1 ≤ e < d → P e = false.
Proof.
  intros Hm HP. assert (∀ k : nat, Z.of_nat k < m →
    (∀ e, 1 ≤ e ≤ Z.of_nat k → P e = false) →
    ∃ d, 1 ≤ d ≤ m ∧ P d = true ∧ ∀ e, 1 ≤ e < d → P e = false) as Hgen.
  { intros k. remember (Z.to_nat m - k)%nat as j eqn:Hj. revert k Hj.
    induction j as [|j IH]; intros k Hj Hk Hno; [lia|].
    destruct (P (Z.of_nat k + 1)) eqn:Hp.
    - exists (Z.of_nat k + 1). split_and!; try lia; try done. intros e He. apply Hno. lia.
    - apply (IH (S k)); try lia.
      + assert (Z.of_nat k + 1 ≠ m) by congruence. lia.
      + intros e He. destruct (decide (e = Z.of_nat k + 1)) as [->|]; [done|]. apply Hno. lia. }
  apply (Hgen 0%nat); [lia|intros e He; lia].
Qed.

(** ** Faults and the state-and-fault monad

    A C function that runs to completion is [Ok]; one that stops or never
    returns is [Err] with the reason. *)

Inductive fault : Type :=
| AssertFailed   (** the condition of an [assert] was false *)
| Spinning       (** a loop whose condition can no longer change *)
| BadAccess      (** an index outside its object, or NULL dereferenced *)
| DivideError    (** division by zero *)
| OutOfFuel.     (** the fuel of a recursive definition ran out *)

#[export] Instance fault_eq_dec : EqDecision fault.
Proof. solve_decision. Defined.

Inductive res (A : Type) : Type :=
| Ok (a : A)
| Err (f : fault).
Arguments Ok {A} a.
Arguments Err {A} f.

#[export] Instance res_ret : MRet res := λ A a, Ok a.
#[export] Instance res_bind : MBind res := λ A B f r,
  match r with Ok a => f a | Err e => Err e end.

Definition M (S A : Type) : Type := S → res (A * S).

#[export] Instance M_ret {S} : MRet (M S) := λ A a s, Ok (a, s).
#[export] Instance M_bind {S} : MBind (M S) := λ A B f m s,
  match m s with Ok (a, s') => f a s' | Err e => Err e end.

Definition gets {S A} (f : S → A) : M S A := λ s, Ok (f s, s).
Definition modify {S} (f : S → S) : M S unit := λ s, Ok (tt, f s).
Definition fail {S A} (e : fault) : M S A := λ _, Err e.
Definition lift {S A} (r : res A) : M S A := λ s,
  match r with Ok a => Ok (a, s) | Err e => Err e end.
(** [assert(c)] of libs/ansi/assert.h: the failing branch never comes back
    (the kernel raises the debug exception and halts). *)
Definition assert_ {S} (c : bool) : M S unit := if c then mret tt else fail AssertFailed.
Definition when {S} (c : bool) (m : M S unit) : M S unit := if c then m else mret tt.

(** Run a computation on a part of the state. *)
Definition zoom {S T A} (get : S → T) (set : T → S → S) (m : M T A) : M S A := λ s,
  match m (get s) with Ok (a, t) => Ok (a, set t s) | Err e => Err e end.

(** [n] iterations of a [for] loop whose variable starts at [i]. *)
Fixpoint forZ {S} (n : nat) (i : Z) (body : Z → M S unit) : M S unit :=
  match n with
  | O => mret tt
  | S n => body i ≫= λ _, forZ n (i + 1) body
  end.

(** Weakest precondition for total correctness: [m] returns from [s] in a
    state and with a value that satisfy [Q]. *)
Definition wp {S A} (m : M S A) (Q : A → S → Prop) (s : S) : Prop :=
  match m s with Ok (a, s') => Q a s' | Err _ => False end.

Section wp.
Context {S : Type}.

Lemma wp_ret {A} (a : A) Q (s : S) : Q a s → wp (mret a) Q s.
Proof. done. Qed.
Lemma wp_bind {A B} (m : M S A) (f : A → M S B) Q s :
  wp m (λ a, wp (f a) Q) s → wp (m ≫= f) Q s.
Proof. unfold wp, mbind, M_bind. by destruct (m s) as [[]|]. Qed.
Lemma wp_mono {A} (m : M S A) (P Q : A → S → Prop) s :
  (∀ a s', P a s' → Q a s') → wp m P s → wp m Q s.
Proof. unfold wp. destruct (m s) as [[]|]; eauto. Qed.
Lemma wp_gets {A} (f : S → A) Q s : Q (f s) s → wp (gets f) Q s.
Proof. done. Qed.
Lemma wp_modify (f : S → S) Q s : Q tt (f s) → wp (modify f) Q s.
Proof. done. Qed.
Lemma wp_assert c Q (s : S) : c = true → Q tt s → wp (assert_ c) Q s.
Proof. by intros ->. Qed.
Lemma wp_intro {A} (m : M S A) Q s a s' : m s = Ok (a, s') → Q a s' → wp m Q s.
Proof. unfold wp. by intros ->. Qed.
Lemma wp_elim {A} (m : M S A) Q s : wp m Q s → ∃ a s', m s = Ok (a, s') ∧ Q a s'.
Proof. unfold wp. destruct (m s) as [[]|]; naive_solver. Qed.
Lemma wp_forZ (I : Z → S → Prop) n i body s :
  I i s →
  (∀ j s', i ≤ j < i + Z.of_nat n → I j s' → wp (body j) (λ _, I (j + 1)) s') →
  wp (forZ n i body) (λ _, I (i + Z.of_nat n)) s.
Proof.
  revert i s. induction n as [|n IH]; intros i s Hi Hstep; cbn [forZ].
  - apply wp_ret. by replace (i + Z.of_nat 0) with i by lia.
  - apply wp_bind. eapply wp_mono; [|apply Hstep; [lia|done]].
    intros [] s' Hs'. replace (i + Z.of_nat (Datatypes.S n)) with (i + 1 + Z.of_nat n) by lia.
    apply IH; [done|]. intros j s'' Hj. apply Hstep. lia.
Qed.

Lemma bind_Ok {A B} (m : M S A) (f : A → M S B) s r :
  (m ≫= f) s = Ok r ↔ ∃ a s', m s = Ok (a, s') ∧ f a s' = Ok r.
Proof.
  unfold mbind, M_bind. destruct (m s) as [[a s']|e]; naive_solver.
Qed.
Lemma bind_eq {A B} (m : M S A) (f : A → M S B) s a s' :
  m s = Ok (a, s') → (m ≫= f) s = f a s'.
Proof. unfold mbind, M_bind. by intros ->. Qed.
Lemma lift_Ok {A} (r : res A) a (s : S) : r = Ok a → lift r s = Ok (a, s).
Proof. by intros ->. Qed.
Lemma bind_Err {A B} (m : M S A) (f : A → M S B) s e :
  m s = Err e → (m ≫= f) s = Err e.
Proof. unfold mbind, M_bind. by intros ->. Qed.
Lemma assert_Ok c (s s' : S) r : assert_ c s = Ok (r, s') ↔ c = true ∧ s' = s.
Proof. destruct c, r; cbv; naive_solver. Qed.
Lemma forZ_Ok_S n i body (s : S) r :
  forZ (Datatypes.S n) i body s = Ok r ↔
  ∃ s', body i s = Ok (tt, s') ∧ forZ n (i + 1) body s' = Ok r.
Proof.
  cbn [forZ]. rewrite bind_Ok. split; [intros ([] & s' & ?)|intros (s' & ?)]; eauto.
Qed.
End wp.

(** [m] returns with [Q], or stops with an error in [E]. *)
Definition runs {S A} (E : fault → Prop) (m : M S A) (Q : A → S → Prop) (s : S) : Prop :=
  match m s with Ok (a, s') => Q a s' | Err e => E e end.
Section runs.
Context {S : Type}.
Lemma runs_bind {A B} E (m : M S A) (f : A → M S B) Q s : runs E m (λ a, runs E (f a) Q) s → runs E (m ≫= f) Q s.
Proof. unfold runs, mbind, M_bind. by destruct (m s) as [[]|]. Qed.
Lemma runs_mono {A} (E E' : fault → Prop) (m : M S A) (P Q : A → S → Prop) s :
  (∀ e, E e → E' e) → (∀ a s', P a s' → Q a s') → runs E m P s → runs E' m Q s.
Proof. unfold runs. destruct (m s) as [[]|]; eauto. Qed.
Lemma runs_post {A} E (m : M S A) (P Q : A → S → Prop) s : (∀ a s', P a s' → Q a s') → runs E m P s → runs E m Q s.
Proof. by apply runs_mono. Qed.
Lemma runs_ret {A} E (a : A) Q (s : S) : Q a s → runs E (mret a) Q s.
Proof. done. Qed.
Lemma runs_eq {A B} E (m : M S A) (f : A → M S B) Q s a s' : m s = Ok (a, s') → runs E (f a) Q s' → runs E (m ≫= f) Q s.
Proof. unfold runs, mbind, M_bind. by intros ->. Qed.
Lemma runs_wp {A} E (m : M S A) Q s : (∀ e, ¬ E e) → runs E m Q s → wp m Q s.
Proof. unfold runs, wp. destruct (m s) as [[]|e]; [done|]. intros Hno He. by apply (Hno e). Qed.
Lemma runs_forZ (I : Z → S → Prop) E n i body s :
  I i s → (∀ j s', i ≤ j < i + Z.of_nat n → I j s' → runs E (body j) (λ _, I (j + 1)) s') →
  runs E (forZ n i body) (λ _, I (i + Z.of_nat n)) s.
Proof.
  revert i s. induction n as [|n IH]; intros i s Hi Hstep; cbn [forZ].
  - cbv [runs mret M_ret]. by replace (i + Z.of_nat 0) with i by lia.
  - apply runs_bind. eapply runs_mono; [done| |apply Hstep; [lia|done]].
    intros [] s' Hs'. replace (i + Z.of_nat (Datatypes.S n)) with (i + 1 + Z.of_nat n) by lia.
    apply IH; [done|]. intros j s'' Hj. apply Hstep. lia.
Qed.
End runs.

(** [wp_step] runs the next statement of a computation in a [wp] goal. *)
Ltac wp_step :=
  first [ apply wp_bind | apply wp_ret | apply wp_gets | apply wp_modify
        | apply wp_assert ].

(** [inv_bind] splits hypotheses that say a sequence of statements returned. *)
Ltac inv_bind :=
  repeat match goal with
  | H : (_ ≫= _) _ = Ok _ |- _ =>
      apply bind_Ok in H; destruct H as (?a & ?s & ?H & H); cbn beta in H
  | H : assert_ _ _ = Ok (_, _) |- _ => apply assert_Ok in H; destruct H as [?H ->]
  | H : mret _ _ = Ok _ |- _ => cbv [mret M_ret] in H; simplify_eq
  | H : gets _ _ = Ok _ |- _ => cbv [gets] in H; simplify_eq
  | H : modify _ _ = Ok _ |- _ => cbv [modify] in H; simplify_eq
  end.

(** ** Reflexive transitive closure of a step relation *)

Inductive star {S : Type} (step : S → S → Prop) : S → S → Prop :=
| star_refl s : star step s s
| star_step s1 s2 s3 : step s1 s2 → star step s2 s3 → star step s1 s3.

Lemma star_inv {S} (step : S → S → Prop) (I : S → Prop) :
  (∀ s s', step s s' → I s → I s') →
  ∀ s s', star step s s' → I s → I s'.
Proof. intros Hstep s s' Hstar. induction Hstar; eauto. Qed.
