(* ===== verification/Machine.v ===== *)
(** The machine under the kernel: byte-addressed memory with the little-endian
    accesses the C code makes, the block operations of libs/ansi/string.c
    ([memset], [memmove], [memcpy]) over it, the processor state the memory
    manager touches, and the spin lock of arch/cross-x86/lock.s. *)
From S2P Require Import Prelude.

(** ** Memory

    A byte at every 64-bit address the kernel can dereference.  An address is
    reduced modulo 2^64 at each access, as pointer arithmetic is on x86-64. *)

Definition memory : Type := Z → Z.

Definition load8 (m : memory) (a : Z) : Z := u8 (m (u64 a)).
Definition store8 (a v : Z) (m : memory) : memory :=
  λ x, if x =? u64 a then u8 v else m x.

Fixpoint load_le (n : nat) (m : memory) (a : Z) : Z :=
  match n with
  | O => 0
  | S n => load8 m a + 0x100 * load_le n m (a + 1)
  end.
Fixpoint store_le (n : nat) (a v : Z) (m : memory) : memory :=
  match n with
  | O => m
  | S n => store_le n (a + 1) (v / 0x100) (store8 a v m)
  end.

Definition load16 := load_le 2.
Definition load32 := load_le 4.
Definition load64 := load_le 8.
Definition store64 := store_le 8.

(** [memset]: [while (n--) *d++ = c]. *)
Fixpoint memset_loop (n : nat) (d c : Z) (m : memory) : memory :=
  match n with
  | O => m
  | S n => memset_loop n (d + 1) c (store8 d c m)
  end.
Definition memset (s c n : Z) (m : memory) : memory :=
  if truth n then memset_loop (Z.to_nat n) s c m else m.

(** The ascending byte loop [for (i = 0; i < n; i++) dest[i] = src[i]] that
    [memcpy] and [memmove] share. *)
Fixpoint copy_loop (k : nat) (i dest src : Z) (m : memory) : memory :=
  match k with
  | O => m
  | S k => copy_loop k (i + 1) dest src (store8 (dest + i) (load8 m (src + i)) m)
  end.
Definition memmove (dest src n : Z) (m : memory) : memory :=
  copy_loop (Z.to_nat n) 0 dest src m.
(** [memcpy] returns the pointer it hands back with the new memory. *)
Definition memcpy (dest src n : Z) (m : memory) : Z * memory :=
  if src =? 0 then (0, m) else (dest, copy_loop (Z.to_nat n) 0 dest src m).

(** Memories that hold the same byte at every address. *)
Definition mem_eq (m1 m2 : memory) : Prop := ∀ a, 0 ≤ a < 0x10000000000000000 → m1 a = m2 a.
Infix "≡ₘ" := mem_eq (at level 70).

(** [in_block a n x]: [x] is one of the [n] addresses from [a]. *)
Definition in_block (a n x : Z) : Prop := a ≤ x < a + n.
Definition block_ok (a n : Z) : Prop := 0 ≤ a ∧ 0 ≤ n ∧ a + n ≤ 0x10000000000000000.
Definition blocks_disjoint (a n b k : Z) : Prop := a + n ≤ b ∨ b + k ≤ a.

#[export] Instance mem_eq_equiv : Equivalence mem_eq.
Proof.
  split; [by intros m a|by intros m1 m2 H a Ha; symmetry; apply H|].
  intros m1 m2 m3 H1 H2 a Ha. etrans; [by apply H1|by apply H2].
Qed.
#[export] Instance load8_proper : Proper (mem_eq ==> eq ==> eq) load8.
Proof. intros m1 m2 H a ? <-. unfold load8. f_equal. apply H, u64_range. Qed.
#[export] Instance store8_proper : Proper (eq ==> eq ==> mem_eq ==> mem_eq) store8.
Proof.
  intros a ? <- v ? <- m1 m2 H x Hx. unfold store8. by destruct (x =? u64 a); [|apply H].
Qed.
#[export] Instance load_le_proper n : Proper (mem_eq ==> eq ==> eq) (load_le n).
Proof.
  intros m1 m2 H a ? <-. revert a. induction n as [|n IH]; intros a; [done|].
  cbn [load_le]. by rewrite IH, (load8_proper m1 m2 H a a eq_refl).
Qed.
#[export] Instance store_le_proper n : Proper (eq ==> eq ==> mem_eq ==> mem_eq) (store_le n).
Proof.
  intros a ? <- v ? <-. revert a v. induction n as [|n IH]; intros a v m1 m2 H; [done|].
  cbn [store_le]. apply IH. by apply store8_proper.
Qed.

Lemma load8_range m a : 0 ≤ load8 m a < 0x100.
Proof. apply u8_range. Qed.
Lemma load8_store8_eq m a v : load8 (store8 a v m) a = u8 v.
Proof. unfold load8, store8. rewrite Z.eqb_refl. apply Z.mod_mod. lia. Qed.
Lemma load8_store8_ne m a b v : u64 a ≠ u64 b → load8 (store8 b v m) a = load8 m a.
Proof. intros H. unfold load8, store8. by destruct (Z.eqb_spec (u64 a) (u64 b)). Qed.
Lemma load8_store8 m a b v :
  0 ≤ a < 0x10000000000000000 → 0 ≤ b < 0x10000000000000000 →
  load8 (store8 b v m) a = if a =? b then u8 v else load8 m a.
Proof.
  intros Ha Hb. destruct (Z.eqb_spec a b) as [->|Hne]; [apply load8_store8_eq|].
  apply load8_store8_ne. by rewrite !u64_small.
Qed.

Lemma load_le_ext n m1 m2 a :
  (∀ x, in_block a (Z.of_nat n) x → load8 m1 x = load8 m2 x) →
  load_le n m1 a = load_le n m2 a.
Proof.
  revert a. induction n as [|n IH]; intros a H; [done|].
  cbn [load_le]. rewrite (H a) by (unfold in_block; lia).
  rewrite (IH (a + 1)); [done|]. intros x Hx. apply H. unfold in_block in *. lia.
Qed.

Lemma load_le_range n m a : 0 ≤ load_le n m a < 0x100 ^ Z.of_nat n.
Proof.
  revert a. induction n as [|n IH]; intros a; [done|]. cbn [load_le].
  rewrite Nat2Z.inj_succ, Z.pow_succ_r by lia.
  pose proof (load8_range m a). specialize (IH (a + 1)). lia.
Qed.
Lemma load64_range m a : 0 ≤ load64 m a < 0x10000000000000000.
Proof. apply (load_le_range 8). Qed.

Lemma load8_store_le_ne n m a v x :
  block_ok a (Z.of_nat n) → 0 ≤ x < 0x10000000000000000 → ¬ in_block a (Z.of_nat n) x →
  load8 (store_le n a v m) x = load8 m x.
Proof.
  revert m a v. induction n as [|n IH]; intros m a v [Ha [Hn Hb]] Hx Hout; [done|].
  cbn [store_le]. unfold in_block in *.
  rewrite IH; [|unfold block_ok; lia|done|lia].
  rewrite load8_store8 by lia. by destruct (Z.eqb_spec x a); [lia|].
Qed.

Lemma load_store_le_eq n m a v :
  block_ok a (Z.of_nat n) → load_le n (store_le n a v m) a = v mod 0x100 ^ Z.of_nat n.
Proof.
  revert m a v. induction n as [|n IH]; intros m a v [Ha [Hn Hb]].
  - cbn. by rewrite Z.mod_1_r.
  - cbn [load_le store_le].
    rewrite load8_store_le_ne; [|unfold block_ok; lia|lia|unfold in_block; lia].
    rewrite load8_store8_eq, IH by (unfold block_ok; lia).
    rewrite Nat2Z.inj_succ, Z.pow_succ_r by lia. unfold u8.
    by rewrite Z.rem_mul_r by (try apply Z.pow_pos_nonneg; lia).
Qed.

Lemma load_store_le_ne n k m a b v :
  block_ok a (Z.of_nat n) → block_ok b (Z.of_nat k) →
  blocks_disjoint a (Z.of_nat n) b (Z.of_nat k) →
  load_le n (store_le k b v m) a = load_le n m a.
Proof.
  intros Ha Hb Hd. apply load_le_ext. intros x Hx.
  unfold block_ok, blocks_disjoint, in_block in *.
  apply load8_store_le_ne; unfold block_ok, in_block; lia.
Qed.

Lemma load64_store64_eq m a v :
  block_ok a 8 → load64 (store64 a v m) a = u64 v.
Proof. intros H. apply (load_store_le_eq 8). exact H. Qed.
Lemma load64_store64_ne m a b v :
  block_ok a 8 → block_ok b 8 → blocks_disjoint a 8 b 8 →
  load64 (store64 b v m) a = load64 m a.
Proof. apply (load_store_le_ne 8 8). Qed.

(** *** Block operations *)

Lemma load8_memset_loop n d c m x :
  block_ok d (Z.of_nat n) → 0 ≤ x < 0x10000000000000000 →
  load8 (memset_loop n d c m) x =
    if decide (in_block d (Z.of_nat n) x) then u8 c else load8 m x.
Proof.
  unfold block_ok, in_block. revert d m. induction n as [|n IH]; intros d m Hd Hx; cbn [memset_loop].
  - by rewrite decide_False by lia.
  - rewrite IH by lia. destruct (decide (d ≤ x < d + Z.of_nat (S n))) as [Hin|Hout].
    + case_decide; [done|]. assert (x = d) as -> by lia. apply load8_store8_eq.
    + rewrite decide_False by lia. apply load8_store8_ne. rewrite !u64_small; lia.
Qed.

Lemma load8_memset s c n m x :
  block_ok s n → 0 ≤ x < 0x10000000000000000 →
  load8 (memset s c n m) x = if decide (in_block s n x) then u8 c else load8 m x.
Proof.
  intros Hs Hx. unfold memset, truth. destruct (Z.eqb_spec n 0) as [->|Hn]; cbn [negb].
  - unfold in_block. by rewrite decide_False by lia.
  - rewrite load8_memset_loop; rewrite ?Z2Nat.id; unfold block_ok in *; auto; lia.
Qed.

Lemma load_le_zero n m a :
  (∀ x, in_block a (Z.of_nat n) x → load8 m x = 0) → load_le n m a = 0.
Proof.
  revert a. induction n as [|n IH]; intros a H; [done|]. cbn [load_le].
  rewrite (H a) by (unfold in_block; lia). rewrite IH; [done|].
  intros x Hx. apply H. unfold in_block in *. lia.
Qed.

(** A 64-bit load sees a [memset] either not at all or completely. *)
Lemma load64_memset_out s c n m a :
  block_ok s n → block_ok a 8 → blocks_disjoint a 8 s n →
  load64 (memset s c n m) a = load64 m a.
Proof.
  intros Hs Ha Hd. apply load_le_ext. intros x Hx.
  unfold block_ok, blocks_disjoint, in_block in *.
  rewrite load8_memset by (unfold block_ok; lia).
  rewrite decide_False; [done|unfold in_block; lia].
Qed.
Lemma load64_memset_zero s n m a :
  block_ok s n → s ≤ a → a + 8 ≤ s + n → load64 (memset s 0 n m) a = 0.
Proof.
  intros Hs H1 H2. apply load_le_zero. intros x Hx.
  unfold block_ok, in_block in *.
  rewrite load8_memset by (unfold block_ok; lia).
  by rewrite decide_True by (unfold in_block; lia).
Qed.

(** What one run of the copying loop does, stated so that both the copy that
    works and the overlapping copy that does not follow from it. *)
Lemma load8_copy_loop k i dest src m x :
  block_ok (dest + i) (Z.of_nat k) → block_ok (src + i) (Z.of_nat k) →
  (dest ≤ src ∨ src + i + Z.of_nat k ≤ dest + i) → 0 ≤ x < 0x10000000000000000 →
  load8 (copy_loop k i dest src m) x =
    if decide (in_block (dest + i) (Z.of_nat k) x) then load8 m (src + (x - dest))
    else load8 m x.
Proof.
  unfold block_ok, in_block. revert i m.
  induction k as [|k IH]; intros i m Hd Hs Ho Hx; cbn [copy_loop].
  - by rewrite decide_False by lia.
  - rewrite IH by lia.
    destruct (decide (dest + i ≤ x < dest + i + Z.of_nat (S k))) as [Hin|Hout].
    + case_decide.
      * rewrite load8_store8 by lia. destruct (Z.eqb_spec (src + (x - dest)) (dest + i)); [lia|done].
      * assert (x = dest + i) as -> by lia. rewrite load8_store8_eq.
        replace (src + (dest + i - dest)) with (src + i) by lia.
        apply u8_small, load8_range.
    + rewrite decide_False by lia. rewrite load8_store8 by lia.
      destruct (Z.eqb_spec x (dest + i)); [lia|done].
Qed.

(** ** Processor state of the memory manager *)

Record hw : Type := mk_hw {
  hw_mem : memory;
  hw_if : bool;          (** RFLAGS.IF, cleared by [cli] and set by [sti] *)
  hw_cr3 : Z;
  hw_invlpg : list Z     (** addresses given to [invlpg], oldest first *)
}.

Definition hw_set_mem (f : memory → memory) (h : hw) : hw :=
  mk_hw (f (hw_mem h)) (hw_if h) (hw_cr3 h) (hw_invlpg h).
Definition hw_set_if (b : bool) (h : hw) : hw :=
  mk_hw (hw_mem h) b (hw_cr3 h) (hw_invlpg h).
(** [load_cr3] and [asm_invlpg] of arch/cross-x86/asm.c. *)
Definition load_cr3 (v : Z) (h : hw) : hw :=
  mk_hw (hw_mem h) (hw_if h) v (hw_invlpg h).
Definition asm_invlpg (a : Z) (h : hw) : hw :=
  mk_hw (hw_mem h) (hw_if h) (hw_cr3 h) (hw_invlpg h ++ [a]).

(** ** Spin lock

    [arch_acquire]: [cli], then test-and-set bit 0 of the lock word.  When the
    bit was set the processor spins on [test; jnz] with interrupts off; nothing
    else runs on this processor, so on the one processor the kernel starts the
    word never changes. [arch_release]: clear the word, [sti]. *)
Definition arch_acquire (lock : Z) (h : hw) : res (Z * hw) :=
  if Z.testbit lock 0 then Err Spinning
  else Ok (Z.lor lock 1, hw_set_if false h).
Definition arch_release (h : hw) : Z * hw := (0, hw_set_if true h).

Lemma arch_acquire_free h : arch_acquire 0 h = Ok (1, hw_set_if false h).
Proof. done. Qed.
Lemma arch_acquire_twice lock h lock' h' :
  arch_acquire lock h = Ok (lock', h') → arch_acquire lock' h' = Err Spinning.
Proof.
  unfold arch_acquire. destruct (Z.testbit lock 0) eqn:Hb; [done|].
  intros [= <- <-]. by rewrite Z.lor_spec, Hb.
Qed.

Create HintDb memory.
#[export] Hint Resolve load8_range load64_range : memory.
