(* ===== verification/CString.v ===== *)
(** libs/ansi/string.c, the functions on NUL-terminated strings.

    A [char const *] is the list of the bytes from the pointer to the end of
    the object it points into, [None] being NULL; reading past the object is
    [BadAccess].  The block functions [memset], [memmove] and [memcpy] are in
    [Machine], over the flat memory.  [strtok] writes into its argument and
    keeps a pointer between calls: its state is the buffer it is working on and
    the saved position in it. *)
From S2P Require Import Prelude Machine.

Abbreviation charp := (option (list Z)).

(** [p[i]] *)
Definition deref (p : charp) (i : Z) : res Z :=
  match p with
  | None => Err BadAccess
  | Some l =>
      if i <? 0 then Err BadAccess
      else match l !! Z.to_nat i with Some c => Ok c | None => Err BadAccess end
  end.

(** [while (s[i++] != '\0'); return i - 1]: [i] counts the characters passed. *)
Fixpoint strlen_loop (s : list Z) (i : Z) : res Z :=
  match s with
  | [] => Err BadAccess
  | c :: s => if c =? 0 then Ok i else strlen_loop s (i + 1)
  end.
Definition strlen (s : charp) : res Z :=
  match s with None => Ok 0 | Some s => strlen_loop s 0 end.

(** [while (s[pos] != c && pos-- > 0)]: the loop leaves with [pos] at the match,
    or wrapped around to [SIZE_MAX] when it ran off the start. *)
Fixpoint strrchr_loop (s : charp) (c : Z) (pos : nat) : res Z :=
  x ← deref s (Z.of_nat pos);
  if s8 x =? c then mret (Z.of_nat pos)
  else match pos with O => mret (u64 (0 - 1)) | S pos => strrchr_loop s c pos end.
(** The result is the offset from [s], [None] for NULL. *)
Definition strrchr (s : charp) (c : Z) : res (option Z) :=
  length ← strlen s;
  pos ← strrchr_loop s c (Z.to_nat length);
  mret (if pos =? length then None else Some pos).

Fixpoint strncmp_loop (k : nat) (i : Z) (s1 s2 : charp) : res Z :=
  match k with
  | O => mret 0
  | S k =>
      a ← deref s1 i;
      b ← deref s2 i;
      if negb (s8 a =? s8 b) then
        a1 ← deref s1 1;
        b1 ← deref s2 1;
        mret (if s8 a1 <? s8 b1 then -1 else 1)
      else if a =? 0 then mret 0
      else strncmp_loop k (i + 1) s1 s2
  end.
Definition strncmp (s1 s2 : charp) (n : Z) : res Z :=
  strncmp_loop (Z.to_nat n) 0 s1 s2.

Definition strcmp (s1 s2 : charp) : res Z :=
  l1 ← strlen s1;
  l2 ← strlen s2;
  if negb (l1 =? l2) then mret (s32 (u64 (l1 - l2)))
  else strncmp s1 s2 l1.

Definition strchrcount (s : charp) (c : Z) : res Z :=
  length ← strlen s;
  mret (u64 (Z.of_nat (List.length (filter (λ x, s8 x = s8 c)
    (take (Z.to_nat length) (default [] s)))))).

(** [strdup]: [malloc] gives the bytes of a fresh object of the size it was
    asked for, or NULL; [memcpy] overwrites its first [len] bytes. *)
Definition strdup (malloc : Z → charp) (s : charp) : res charp :=
  match s with
  | None => mret None
  | Some l =>
      n ← strlen s;
      let len := u64 (n + 1) in
      match malloc len with
      | None => mret None
      | Some new =>
          mret (Some (take (Z.to_nat len) l ++ drop (Z.to_nat len) new))
      end
  end.

(** ** [strtok] *)

Record strtok_state : Type := mk_strtok {
  tok_buf : list Z;       (** the object [str] points into *)
  tok_p : option Z        (** [static char *p], as an offset; [None] is NULL *)
}.

(** The inner loop [for (i = 0; i < strlen(delim); i++)]. *)
Definition is_delim (c : Z) (delim : charp) : res bool :=
  n ← strlen delim;
  mret (bool_decide (c ∈ take (Z.to_nat n) (default [] delim))).

(** The second loop, from position [pos]: [None] when it met the terminator. *)
Fixpoint strtok_scan (fuel : nat) (buf : list Z) (pos : Z) (delim : charp)
    : res (Z * bool) :=
  match fuel with
  | O => Err OutOfFuel
  | S fuel =>
      c ← deref (Some buf) pos;
      if c =? 0 then mret (pos, false)
      else
        d ← is_delim c delim;
        if (d : bool) then mret (pos, true) else strtok_scan fuel buf (pos + 1) delim
  end.

Definition strtok (str : option Z) (delim : charp) : M strtok_state (option Z) := λ st,
  match str, tok_p st with
  | None, None => Ok (None, st)
  | _, _ =>
      let cur := match str with Some q => q | None => default 0 (tok_p st) end in
      let p := match str with Some q => Some q | None => tok_p st end in
      c ← deref (Some (tok_buf st)) cur;
      d ← is_delim c delim;
      let cur := if (d : bool) then cur + 1 else cur in
      c ← deref (Some (tok_buf st)) cur;
      if c =? 0 then mret (None, mk_strtok (tok_buf st) p)
      else
        '(pos, hit) ← strtok_scan (S (length (tok_buf st))) (tok_buf st) cur delim;
        mret (Some cur,
          if (hit : bool) then mk_strtok (<[Z.to_nat pos := 0]> (tok_buf st)) (Some (pos + 1))
          else mk_strtok (tok_buf st) (Some pos))
  end.

(** ** C strings *)

(** [s] holds the string [t]: its characters, then a NUL. *)
Definition is_char (c : Z) : Prop := 0 < c < 0x100.
Definition cstr (t s : list Z) : Prop :=
  Forall is_char t ∧ ∃ rest, s = t ++ 0 :: rest.

Lemma deref_Some l i c : 0 ≤ i → l !! Z.to_nat i = Some c → deref (Some l) i = Ok c.
Proof. intros Hi Hl. cbn. rewrite Hl. by destruct (Z.ltb_spec i 0); [lia|]. Qed.
Lemma deref_nat l (i : nat) c : l !! i = Some c → deref (Some l) (Z.of_nat i) = Ok c.
Proof. intros Hl. apply deref_Some; [lia|]. by rewrite Nat2Z.id. Qed.

Lemma deref_oob l i : Z.of_nat (length l) ≤ i → deref (Some l) i = Err BadAccess.
Proof.
  intros Hi. cbn. destruct (Z.ltb_spec i 0); [done|]. by rewrite (proj2 (lookup_ge_None l _)) by lia.
Qed.

Lemma strlen_loop_cstr t s i : cstr t s → strlen_loop s i = Ok (i + Z.of_nat (length t)).
Proof.
  intros [Ht [rest ->]]. revert i. induction Ht as [|c t Hc Ht IH]; intros i; cbn.
  - f_equal. lia.
  - destruct (Z.eqb_spec c 0); [unfold is_char in Hc; lia|].
    rewrite IH. f_equal. lia.
Qed.
Lemma strlen_cstr t s : cstr t s → strlen (Some s) = Ok (Z.of_nat (length t)).
Proof. intros H. cbn. by rewrite (strlen_loop_cstr t). Qed.

Lemma cstr_app t rest : Forall is_char t → cstr t (t ++ 0 :: rest).
Proof. intros Ht. split; [done|by exists rest]. Qed.
Lemma cstr_lookup t s i : cstr t s → (i < length t)%nat → s !! i = t !! i.
Proof. intros [_ [rest ->]] Hi. by rewrite lookup_app_l. Qed.
Lemma cstr_nul t s : cstr t s → s !! length t = Some 0.
Proof. intros [_ [rest ->]]. by rewrite lookup_app_r, Nat.sub_diag. Qed.
Lemma cstr_take t s : cstr t s → take (length t) s = t.
Proof. intros [_ [rest ->]]. by rewrite take_app_length. Qed.

Lemma s8_inj a b : 0 ≤ a < 0x100 → 0 ≤ b < 0x100 → s8 a = s8 b → a = b.
Proof. word_lia. Qed.

Lemma is_delim_spec c d ds : cstr d ds →
  is_delim c (Some ds) = Ok (bool_decide (c ∈ d)).
Proof.
  intros H. unfold is_delim. rewrite (strlen_cstr _ _ H). cbn.
  by rewrite Nat2Z.id, (cstr_take d).
Qed.

(** One comparison step at a position where both strings have a character. *)
Lemma strncmp_loop_prefix k (i : nat) t1 t2 s1 s2 :
  cstr t1 s1 → cstr t2 s2 → length t1 = length t2 → (i + k = length t1)%nat →
  ∃ r, strncmp_loop k (Z.of_nat i) (Some s1) (Some s2) = Ok r ∧
    (r = 0 ↔ drop i t1 = drop i t2).
Proof.
  intros H1 H2 Hlen. revert i. induction k as [|k IH]; intros i Hi.
  - exists 0. split; [done|]. rewrite !drop_ge; [done|lia..].
  - destruct (lookup_lt_is_Some_2 t1 i) as [a Ha]; [lia|].
    destruct (lookup_lt_is_Some_2 t2 i) as [b Hb]; [lia|].
    assert (is_char a) as Ha' by (destruct H1 as [H1 _]; by eapply Forall_lookup_1).
    assert (is_char b) as Hb' by (destruct H2 as [H2 _]; by eapply Forall_lookup_1).
    cbn [strncmp_loop].
    rewrite (deref_nat s1 i a), (deref_nat s2 i b); [|rewrite (cstr_lookup t2); auto; lia
      |rewrite (cstr_lookup t1); auto; lia].
    cbn [mbind res_bind]. unfold is_char in *.
    rewrite (drop_S _ a _ Ha), (drop_S _ b _ Hb).
    destruct (Z.eqb_spec (s8 a) (s8 b)) as [Heq|Hne]; cbn [negb].
    + apply s8_inj in Heq as ->; [|lia..]. destruct (Z.eqb_spec b 0); [lia|].
      replace (Z.of_nat i + 1) with (Z.of_nat (S i)) by lia.
      destruct (IH (S i)) as (r & Hr & Hiff); [lia|]. exists r. split; [done|].
      rewrite Hiff. split; congruence.
    + assert (∃ a1, s1 !! 1%nat = Some a1) as [a1 Ha1].
      { apply lookup_lt_is_Some_2. destruct H1 as [_ [rest ->]]. rewrite length_app. cbn. lia. }
      assert (∃ b1, s2 !! 1%nat = Some b1) as [b1 Hb1].
      { apply lookup_lt_is_Some_2. destruct H2 as [_ [rest ->]]. rewrite length_app. cbn. lia. }
      rewrite (deref_Some s1 1 a1), (deref_Some s2 1 b1) by done. cbn.
      exists (if s8 a1 <? s8 b1 then -1 else 1). split; [done|].
      split; [by case_match|]. congruence.
Qed.

Lemma strcmp_cstr t1 t2 s1 s2 :
  cstr t1 s1 → cstr t2 s2 →
  Z.of_nat (length t1) < 0x80000000 → Z.of_nat (length t2) < 0x80000000 →
  ∃ r, strcmp (Some s1) (Some s2) = Ok r ∧ (r = 0 ↔ t1 = t2).
Proof.
  intros H1 H2 L1 L2. unfold strcmp.
  rewrite (strlen_cstr _ _ H1), (strlen_cstr _ _ H2). cbn [mbind res_bind].
  destruct (Z.eqb_spec (Z.of_nat (length t1)) (Z.of_nat (length t2))) as [Heq|Hne]; cbn [negb].
  - unfold strncmp. rewrite Nat2Z.id.
    destruct (strncmp_loop_prefix (length t1) 0 t1 t2 s1 s2) as (r & Hr & Hiff); auto; [lia|].
    exists r. split; [exact Hr|]. by rewrite Hiff, !drop_0.
  - eexists. split; [done|]. split.
    + intros H. exfalso. word_lia.
    + intros ->. lia.
Qed.

Lemma strrchr_loop_spec s c (pos : nat) :
  (pos < length s)%nat →
  (∃ j : nat, (j ≤ pos)%nat ∧ s8 <$> s !! j = Some c ∧
     (∀ k : nat, (j < k ≤ pos)%nat → s8 <$> s !! k ≠ Some c) ∧
     strrchr_loop (Some s) c pos = Ok (Z.of_nat j)) ∨
  ((∀ k : nat, (k ≤ pos)%nat → s8 <$> s !! k ≠ Some c) ∧
     strrchr_loop (Some s) c pos = Ok (u64 (-1))).
Proof.
  induction pos as [|pos IH]; intros Hlen;
    (destruct (lookup_lt_is_Some_2 _ _ Hlen) as [x Hx]);
    cbn [strrchr_loop]; rewrite (deref_nat _ _ _ Hx); cbn [mbind res_bind];
    (destruct (Z.eqb_spec (s8 x) c) as [Heq|Hne];
      [left; eexists; split_and!; [reflexivity|by rewrite Hx; cbn; f_equal|lia|done]|]).
  - right. split; [|done]. intros k Hk. assert (k = 0%nat) as -> by lia. rewrite Hx. cbn. congruence.
  - destruct IH as [(j & Hj & Hjc & Hlast & Hrun)|[Hnone Hrun]]; [lia| |].
    + left. exists j. split_and!; [lia|done| |done]. intros k Hk.
      destruct (decide (k = S pos)) as [->|]; [rewrite Hx; cbn; congruence|apply Hlast; lia].
    + right. split; [|done]. intros k Hk.
      destruct (decide (k = S pos)) as [->|]; [rewrite Hx; cbn; congruence|apply Hnone; lia].
Qed.

(** The scan passes over characters that are neither NUL nor delimiters. *)
Lemma strtok_scan_skip fuel buf (pos : nat) w d ds c :
  cstr d ds → Forall (λ x, x ≠ 0 ∧ x ∉ d) w →
  (length w < fuel)%nat → take (length w) (drop pos buf) = w →
  buf !! (pos + length w)%nat = Some c → (c = 0 ∨ c ∈ d) →
  strtok_scan fuel buf (Z.of_nat pos) (Some ds) =
    Ok (Z.of_nat (pos + length w), negb (c =? 0)).
Proof.
  intros Hd Hw. revert pos fuel. induction Hw as [|x w [Hx0 Hxd] Hw IH]; intros pos fuel Hf Ht Hc Hcd.
  - destruct fuel as [|fuel]; [cbn in Hf; lia|]. cbn [strtok_scan length].
    rewrite Nat.add_0_r in *. rewrite (deref_nat _ _ _ Hc). cbn [mbind res_bind].
    destruct (Z.eqb_spec c 0) as [->|Hc0]; cbn [negb]; [done|].
    rewrite (is_delim_spec _ d) by done. cbn [mbind res_bind].
    rewrite bool_decide_true by naive_solver. done.
  - destruct fuel as [|fuel]; [cbn in Hf; lia|]. cbn [strtok_scan length] in *.
    destruct (drop pos buf) as [|y l] eqn:Hdrop; cbn in Ht; [done|].
    injection Ht as -> Ht.
    assert (buf !! pos = Some x) as Hbx.
    { pose proof (lookup_drop buf pos 0) as H. rewrite Hdrop, Nat.add_0_r in H. by rewrite <- H. }
    rewrite (deref_nat _ _ _ Hbx). cbn [mbind res_bind].
    destruct (Z.eqb_spec x 0); [done|].
    rewrite (is_delim_spec _ d) by done. cbn [mbind res_bind].
    rewrite bool_decide_false by done.
    replace (Z.of_nat pos + 1) with (Z.of_nat (S pos)) by lia.
    rewrite (IH (S pos) fuel); [f_equal; f_equal; lia|lia| |by rewrite Nat.add_succ_comm|done].
    replace (S pos) with (pos + 1)%nat by lia. rewrite <- drop_drop, Hdrop. cbn. by rewrite drop_0.
Qed.

(** ** Properties *)

(** [strcmp] decides equality of C strings: on two NUL-terminated strings
    shorter than 2^31 it returns, and it returns 0 exactly when they hold the
    same characters. *)
Theorem strcmp_zero_iff_equal t1 t2 s1 s2 :
  cstr t1 s1 → cstr t2 s2 →
  Z.of_nat (length t1) < 0x80000000 → Z.of_nat (length t2) < 0x80000000 →
  (∃ r : Z, strcmp (Some s1) (Some s2) = Ok r) ∧
  (strcmp (Some s1) (Some s2) = Ok 0 ↔ t1 = t2).
Proof.
  intros H1 H2 L1 L2. destruct (strcmp_cstr t1 t2 s1 s2) as (r & Hr & Hiff); auto.
  rewrite Hr. split; [eauto|]. rewrite <- Hiff. split; [by intros [= ->]|by intros ->].
Qed.

Lemma strcmp_zero_iff_equal_witness :
  strcmp (Some [97; 98; 0; 7]) (Some [97; 98; 0]) = Ok 0 ∧
  strcmp (Some [97; 98; 0]) (Some [97; 99; 0]) ≠ Ok 0.
Proof.
  assert (H1 : cstr [97; 98] [97; 98; 0; 7]) by (split; [repeat constructor|by exists [7]]).
  assert (H2 : cstr [97; 98] [97; 98; 0]) by (split; [repeat constructor|by exists []]).
  assert (H3 : cstr [97; 99] [97; 99; 0]) by (split; [repeat constructor|by exists []]).
  split.
  - apply (strcmp_zero_iff_equal [97; 98] [97; 98] _ _ H1 H2); done.
  - intros H. apply (strcmp_zero_iff_equal [97; 98] [97; 99] _ _ H2 H3) in H; done.
Defined.

(** [strncmp] is not an ordering: when two strings agree before index [i],
    differ there, and agree at index 1, it answers 1 for both orders of its
    arguments, because the branch that decides the sign compares [s1[1]] with
    [s2[1]] and not the characters that differ. *)
Theorem strncmp_not_antisymmetric (i : nat) (a b x : Z) (s1 s2 : list Z) (n : Z) :
  take i s1 = take i s2 → Forall is_char (take i s1) →
  s1 !! i = Some a → s2 !! i = Some b → is_char a → is_char b → a ≠ b →
  s1 !! 1%nat = Some x → s2 !! 1%nat = Some x → Z.of_nat i < n →
  strncmp (Some s1) (Some s2) n = Ok 1 ∧ strncmp (Some s2) (Some s1) n = Ok 1.
Proof.
  assert (∀ (k : nat) (j : nat) u v a b x,
    take i u = take i v → Forall is_char (take i u) → (j ≤ i < j + k)%nat →
    u !! i = Some a → v !! i = Some b → is_char a → is_char b → a ≠ b →
    u !! 1%nat = Some x → v !! 1%nat = Some x →
    strncmp_loop k (Z.of_nat j) (Some u) (Some v) = Ok 1) as Hgen.
  { induction k as [|k IH]; intros j u v a' b' y Hpre Hch Hj Hu Hv Ha Hb Hne H1 H2; [lia|].
    cbn [strncmp_loop]. destruct (decide (j = i)) as [->|Hji].
    - rewrite (deref_nat _ _ _ Hu), (deref_nat _ _ _ Hv). cbn [mbind res_bind].
      destruct (Z.eqb_spec (s8 a') (s8 b')) as [Heq|_];
        [apply s8_inj in Heq; unfold is_char in *; lia|]. cbn [negb].
      rewrite (deref_Some _ 1 y), (deref_Some _ 1 y) by done. cbn. by rewrite Z.ltb_irrefl.
    - destruct (lookup_lt_is_Some_2 u j) as [c Hc].
      { pose proof (lookup_lt_Some _ _ _ Hu). lia. }
      assert (v !! j = Some c) as Hvc.
      { rewrite <- (lookup_take_lt v i j), <- Hpre, lookup_take_lt by lia. done. }
      assert (is_char c) as Hcc.
      { apply (Forall_lookup_1 _ _ j c Hch). by rewrite lookup_take_lt by lia. }
      rewrite (deref_nat _ _ _ Hc), (deref_nat _ _ _ Hvc). cbn [mbind res_bind].
      rewrite Z.eqb_refl. cbn [negb]. destruct (Z.eqb_spec c 0); [unfold is_char in Hcc; lia|].
      replace (Z.of_nat j + 1) with (Z.of_nat (S j)) by lia. eapply IH; eauto. lia. }
  intros Hpre Hch Ha Hb Hca Hcb Hne H1 H2 Hn. unfold strncmp.
  split; change 0 with (Z.of_nat 0); eapply Hgen; eauto; try lia. by rewrite <- Hpre.
Qed.

Lemma strncmp_not_antisymmetric_witness :
  strncmp (Some [97; 99; 0]) (Some [98; 99; 0]) 3 = Ok 1 ∧
  strncmp (Some [98; 99; 0]) (Some [97; 99; 0]) 3 = Ok 1.
Proof.
  apply (strncmp_not_antisymmetric 0 97 98 99); vm_compute; auto; repeat constructor; done.
Defined.

(** [strrchr] on a character other than NUL: when the string holds it, the
    pointer to its last occurrence; when it does not, the pointer one before the
    string ([s + SIZE_MAX]) and not the NULL its callers test for. *)
Theorem strrchr_last_or_before (t s : list Z) (c : Z) :
  cstr t s → Z.of_nat (length t) < 0xffffffffffffffff → 0 < c < 0x80 →
  (∃ j : nat, t !! j = Some c ∧ (∀ k : nat, (j < k)%nat → t !! k ≠ Some c) ∧
     strrchr (Some s) c = Ok (Some (Z.of_nat j))) ∨
  (c ∉ t ∧ strrchr (Some s) c = Ok (Some 0xffffffffffffffff)).
Proof.
  intros Ht Hlt Hc. unfold strrchr. rewrite (strlen_cstr _ _ Ht). cbn [mbind res_bind].
  rewrite Nat2Z.id.
  assert (Hkey : ∀ k x, t !! k = Some x → (s8 <$> s !! k = Some c ↔ x = c)).
  { intros k x Hk. rewrite (cstr_lookup t s k) by (auto; by eapply lookup_lt_Some).
    assert (is_char x) as Hx by (destruct Ht as [Ht _]; by eapply Forall_lookup_1).
    unfold is_char in Hx. rewrite Hk. cbn. split; [intros [= H]; word_lia|intros ->; f_equal; word_lia]. }
  assert (Hend : s8 <$> s !! length t ≠ Some c).
  { rewrite (cstr_nul _ _ Ht). cbn. intros [= H]. word_lia. }
  destruct (strrchr_loop_spec s c (length t)) as [(j & Hj & Hjc & Hlast & ->)|[Hnone ->]];
    cbn [mbind res_bind].
  - apply lookup_lt_Some with (x := 0). by apply cstr_nul.
  - left. assert (j ≠ length t) by (intros ->; done).
    destruct (lookup_lt_is_Some_2 t j) as [x Hx]; [lia|].
    apply (Hkey j x) in Hjc as ->; [|done]. exists j. split_and!; [done| |].
    + intros k Hk Hkc. apply (Hlast k); [|by apply (Hkey k c)].
      apply lookup_lt_Some in Hkc. lia.
    + destruct (Z.eqb_spec (Z.of_nat j) (Z.of_nat (length t))); [lia|done].
  - right. split.
    + intros [k Hk]%list_elem_of_lookup. apply (Hnone k); [|by apply (Hkey k c)].
      apply lookup_lt_Some in Hk. lia.
    + destruct (Z.eqb_spec (u64 (-1)) (Z.of_nat (length t))) as [Heq|]; [|done].
      change (u64 (-1)) with 0xffffffffffffffff in Heq. lia.
Qed.

Lemma strrchr_last_or_before_witness :
  strrchr (Some [97; 98; 97; 0]) 97 = Ok (Some 2) ∧
  strrchr (Some [97; 98; 97; 0]) 99 = Ok (Some 0xffffffffffffffff).
Proof.
  assert (H : cstr [97; 98; 97] [97; 98; 97; 0]) by (split; [repeat constructor|by exists []]).
  split.
  - by destruct (strrchr_last_or_before _ _ 97 H eq_refl (conj eq_refl eq_refl)) as [(j & _ & _ & Hj)|[_ Hj]]; vm_compute.
  - by destruct (strrchr_last_or_before _ _ 99 H eq_refl (conj eq_refl eq_refl)) as [(j & _ & _ & Hj)|[_ Hj]]; vm_compute.
Defined.

(** [strtok]: in a buffer that holds at the current position a token [w]
    (no delimiters, no NUL, not empty) followed by a delimiter [e], the call
    returns the position of the token, cuts it off by writing a NUL over [e]
    and nothing else, and leaves the saved pointer right after that NUL. A
    single delimiter before the token ([skip]) is passed over. *)
Theorem strtok_token (buf w d ds : list Z) (pos : nat) (skip : bool) (e x : Z) (st0 : option Z) :
  cstr d ds → Forall (λ c, c ≠ 0 ∧ c ∉ d) w → w ≠ [] → e ∈ d → e ≠ 0 →
  let q := if skip then S pos else pos in
  (skip = true → buf !! pos = Some x ∧ x ∈ d) →
  take (length w) (drop q buf) = w → buf !! (q + length w)%nat = Some e →
  strtok (Some (Z.of_nat pos)) (Some ds) (mk_strtok buf st0) =
    Ok (Some (Z.of_nat q),
        mk_strtok (<[(q + length w)%nat := 0]> buf) (Some (Z.of_nat (q + length w) + 1))) ∧
  strtok None (Some ds) (mk_strtok buf (Some (Z.of_nat pos))) =
    strtok (Some (Z.of_nat pos)) (Some ds) (mk_strtok buf st0).
Proof.
  intros Hd Hw Hne He He0 q Hskip Hw1 He1.
  destruct w as [|y w']; [done|].
  assert (buf !! q = Some y) as Hy.
  { destruct (drop q buf) as [|y' l] eqn:Hdrop; [done|]. injection Hw1 as -> _.
    pose proof (lookup_drop buf q 0) as H. rewrite Hdrop, Nat.add_0_r in H. by rewrite <- H. }
  destruct (Forall_inv Hw) as [Hy0 Hyd].
  assert (Hrun : strtok (Some (Z.of_nat pos)) (Some ds) (mk_strtok buf st0) =
    Ok (Some (Z.of_nat q), mk_strtok (<[(q + length (y :: w'))%nat := 0]> buf)
      (Some (Z.of_nat (q + length (y :: w')) + 1)))).
  { unfold strtok. cbn [tok_buf tok_p].
    assert (∃ c, buf !! pos = Some c ∧ bool_decide (c ∈ d) = skip) as (c & Hc & Hcd).
    { destruct skip; [destruct Hskip as [? ?]; [done|]|]; eexists; (split; [done|]);
        [by rewrite bool_decide_true|by rewrite bool_decide_false]. }
    rewrite (deref_nat _ _ _ Hc). cbn [mbind res_bind].
    rewrite (is_delim_spec _ d) by done. cbn [mbind res_bind]. rewrite Hcd.
    assert ((if skip then Z.of_nat pos + 1 else Z.of_nat pos) = Z.of_nat q) as ->
      by (subst q; destruct skip; lia).
    rewrite (deref_nat _ _ _ Hy). cbn [mbind res_bind].
    destruct (Z.eqb_spec y 0); [done|].
    rewrite (strtok_scan_skip _ _ _ (y :: w') d _ e); auto.
    - cbn [mbind res_bind]. destruct (Z.eqb_spec e 0); [done|]. cbn [negb]. by rewrite Nat2Z.id.
    - apply lookup_lt_Some in He1. lia. }
  split; [done|]. rewrite Hrun. unfold strtok in *. cbn [tok_buf tok_p default] in *.
  destruct st0; exact Hrun.
Qed.

Lemma strtok_token_witness :
  strtok (Some 0) (Some [32; 0]) (mk_strtok [32; 97; 98; 32; 99; 0] None) =
    Ok (Some 1, mk_strtok [32; 97; 98; 0; 99; 0] (Some 4)).
Proof.
  apply (strtok_token [32; 97; 98; 32; 99; 0] [97; 98] [32] [32; 0] 0 true 32 32 None).
  - split; [repeat constructor|by exists []].
  - repeat constructor; try done; by apply (bool_decide_unpack _).
  - done.
  - by apply list_elem_of_singleton.
  - done.
  - split; [done|by apply list_elem_of_singleton].
  - done.
  - done.
Defined.
