(* ===== verification/Range.v ===== *)
(** libs/navy/range.h, range.c and the alignment macros of libs/navy/macro.h,
    with the page size of arch/x86_64/consts.h. *)
From S2P Require Import Prelude.

Definition PAGE_SIZE : Z := 4096.

Record range_t : Type := mk_range { base : Z; length : Z }.
Add Printing Constructor range_t.

#[export] Instance range_eq_dec : EqDecision range_t.
Proof. solve_decision. Defined.

Definition range_end (this : range_t) : Z := u64 (base this + length this).

Definition ALIGN_DOWN (addr align : Z) : Z := Z.land addr (Z.lnot (align - 1)).
Definition ALIGN_UP (addr align : Z) : Z := Z.land (u64 (addr + align - 1)) (Z.lnot (align - 1)).

(** Pages a range covers when it is walked page by page. *)
Definition range_pages (r : range_t) : Z := length r / PAGE_SIZE.
(** [p] is the number of a page of the range. *)
Definition page_in (r : range_t) (p : Z) : Prop :=
  base r / PAGE_SIZE ≤ p < base r / PAGE_SIZE + range_pages r.

Lemma ALIGN_DOWN_page a : ALIGN_DOWN a PAGE_SIZE = a / 4096 * 4096.
Proof. exact (land_lnot_ones a 12 (ltac:(done))). Qed.
Lemma ALIGN_UP_page a :
  0 ≤ a → a + 4095 < 0x10000000000000000 →
  ALIGN_UP a PAGE_SIZE = (a + 4095) / 4096 * 4096.
Proof.
  intros H1 H2. unfold ALIGN_UP. rewrite u64_small by (unfold PAGE_SIZE; lia).
  replace (a + PAGE_SIZE - 1) with (a + 4095) by (unfold PAGE_SIZE; lia).
  apply ALIGN_DOWN_page.
Qed.
Lemma ALIGN_DOWN_bounds a : ALIGN_DOWN a PAGE_SIZE ≤ a < ALIGN_DOWN a PAGE_SIZE + 4096.
Proof. rewrite ALIGN_DOWN_page. Z.div_mod_to_equations; lia. Qed.
Lemma ALIGN_UP_bounds a :
  0 ≤ a → a + 4095 < 0x10000000000000000 →
  a ≤ ALIGN_UP a PAGE_SIZE < a + 4096 ∧ ALIGN_UP a PAGE_SIZE mod 4096 = 0.
Proof. intros. rewrite ALIGN_UP_page by lia. Z.div_mod_to_equations; lia. Qed.

(** The alignment macros round to the next multiple below and above, and leave
    aligned values alone. *)
Lemma ALIGN_aligned a :
  0 ≤ a → a + 4095 < 0x10000000000000000 → a mod 4096 = 0 →
  ALIGN_DOWN a PAGE_SIZE = a ∧ ALIGN_UP a PAGE_SIZE = a.
Proof. intros. rewrite ALIGN_UP_page, ALIGN_DOWN_page by lia. Z.div_mod_to_equations; lia. Qed.
