(* ===== verification/Handover.v ===== *)
(** libs/navy/handover.h and handover.c: what the boot protocol hands to the
    kernel, and the search for a boot module by name. *)
From S2P Require Import Prelude CString Range.

Definition LIMIT_MEMORY_MAP_SIZE : Z := 64.

Record mmap_entry : Type := mk_mmap { me_range : range_t; me_type : Z; me_is_free : bool }.
Record framebuffer : Type := mk_fb { fb_addr : Z; fb_height : Z; fb_width : Z; fb_pitch : Z }.
(** [hm_name] holds the 128 bytes of [char name[128]]. *)
Record handover_module : Type := mk_module { hm_name : list Z; hm_addr : range_t }.

Record handover : Type := mk_handover {
  memory_usable : Z;
  usable_pages : Z;
  memory_map_size : Z;
  rsdt : Z;
  ho_framebuffer : framebuffer;
  mmap : list mmap_entry;          (** [LIMIT_MEMORY_MAP_SIZE] entries *)
  module_count : Z;
  modules : list handover_module   (** 64 entries *)
}.

(** [a[i]] of an array of structures. *)
Definition index {A} (l : list A) (i : Z) : res A :=
  if i <? 0 then Err BadAccess
  else match l !! Z.to_nat i with Some x => Ok x | None => Err BadAccess end.

Fixpoint find_module_loop (k : nat) (i : Z) (h : handover) (name : charp) : res range_t :=
  match k with
  | O => mret (mk_range 0 0)
  | S k =>
      m ← index (modules h) i;
      r ← strcmp name (Some (hm_name m));
      if r =? 0 then mret (hm_addr m) else find_module_loop k (i + 1) h name
  end.
Definition handover_find_module (h : handover) (name : charp) : res range_t :=
  find_module_loop (Z.to_nat (module_count h)) 0 h name.

(** Every announced module has a NUL-terminated name. *)
Definition modules_named (h : handover) (names : list (list Z)) : Prop :=
  module_count h = Z.of_nat (List.length names) ∧
  (List.length names ≤ List.length (modules h))%nat ∧
  ∀ (i : nat) n m, names !! i = Some n → modules h !! i = Some m →
    cstr n (hm_name m) ∧ Z.of_nat (List.length n) < 0x80000000.

Lemma index_nat {A} (l : list A) (i : nat) x : l !! i = Some x → index l (Z.of_nat i) = Ok x.
Proof.
  intros H. unfold index. rewrite Nat2Z.id, H. by destruct (Z.ltb_spec (Z.of_nat i) 0); [lia|].
Qed.

Lemma find_module_loop_spec h names name s (k i : nat) :
  modules_named h names → cstr name s → Z.of_nat (List.length name) < 0x80000000 →
  (i + k = List.length names)%nat →
  (∃ (j : nat) m, (i ≤ j)%nat ∧ names !! j = Some name ∧ modules h !! j = Some m ∧
     (∀ l : nat, (i ≤ l < j)%nat → names !! l ≠ Some name) ∧
     find_module_loop k (Z.of_nat i) h (Some s) = Ok (hm_addr m)) ∨
  ((∀ l : nat, (i ≤ l)%nat → names !! l ≠ Some name) ∧
     find_module_loop k (Z.of_nat i) h (Some s) = Ok (mk_range 0 0)).
Proof.
  intros (Hc & Hlen & Hn) Hs Hls. revert i. induction k as [|k IH]; intros i Hi.
  - right. split; [|done]. intros l Hl Heq. apply lookup_lt_Some in Heq. lia.
  - destruct (lookup_lt_is_Some_2 names i) as [n Hni]; [lia|].
    destruct (lookup_lt_is_Some_2 (modules h) i) as [m Hmi]; [lia|].
    destruct (Hn i n m Hni Hmi) as [Hcn Hln].
    cbn [find_module_loop]. rewrite (index_nat _ _ _ Hmi). cbn [mbind res_bind].
    destruct (strcmp_cstr name n s (hm_name m)) as (r & Hr & Hiff); auto.
    rewrite Hr. cbn [mbind res_bind]. destruct (Z.eqb_spec r 0) as [Hr0|Hr0].
    + left. exists i, m. apply Hiff in Hr0 as ->. split_and!; auto. lia.
    + assert (names !! i ≠ Some name) as Hne by (rewrite Hni; naive_solver).
      replace (Z.of_nat i + 1) with (Z.of_nat (S i)) by lia.
      destruct (IH (S i)) as [(j & m' & Hj & Hjn & Hjm & Hbefore & Hrun)|[Hnone Hrun]]; [lia| |].
      * left. exists j, m'. split_and!; auto; [lia|]. intros l Hl.
        destruct (decide (l = i)) as [->|]; [done|apply Hbefore; lia].
      * right. split; [|done]. intros l Hl.
        destruct (decide (l = i)) as [->|]; [done|apply Hnone; lia].
Qed.

(** [handover_find_module] returns the range of
    the first announced module that carries the name, and the empty range when
    none does. *)
Theorem handover_find_module_first h names name s :
  modules_named h names → cstr name s → Z.of_nat (List.length name) < 0x80000000 →
  (∃ (j : nat) m, names !! j = Some name ∧ modules h !! j = Some m ∧
     (∀ l : nat, (l < j)%nat → names !! l ≠ Some name) ∧
     handover_find_module h (Some s) = Ok (hm_addr m)) ∨
  (name ∉ names ∧ handover_find_module h (Some s) = Ok (mk_range 0 0)).
Proof.
  intros Hn Hs Hl. pose proof Hn as (Hc & _ & _).
  unfold handover_find_module. rewrite Hc, Nat2Z.id.
  destruct (find_module_loop_spec h names name s (List.length names) 0)
    as [(j & m & _ & ? & ? & Hb & ?)|[Hnone ?]]; auto.
  - left. exists j, m. split_and!; auto. intros l Hlt. apply Hb. lia.
  - right. split; [|done]. intros [l Hin]%list_elem_of_lookup. apply (Hnone l); [lia|done].
Qed.

Definition sample_handover : handover :=
  mk_handover 0 0 0 0 (mk_fb 0 0 0 0) [] 2
    [mk_module [97; 0] (mk_range 0x1000 5); mk_module [98; 99; 0] (mk_range 0x2000 7)].

Lemma handover_find_module_first_witness :
  handover_find_module sample_handover (Some [98; 99; 0]) = Ok (mk_range 0x2000 7).
Proof.
  assert (Hn : modules_named sample_handover [[97]; [98; 99]]).
  { split; [done|]. split; [cbn; lia|]. intros [|[|]] nm md Hnm Hmd; [| |done]; injection Hnm as <-; injection Hmd as <-;
      (split; [split; [repeat constructor|by exists []]|done]). }
  assert (Hs : cstr [98; 99] [98; 99; 0]) by (split; [repeat constructor|by exists []]).
  destruct (handover_find_module_first _ _ _ _ Hn Hs eq_refl)
    as [(j & md & Hj & Hmd & _ & ->)|[Habs _]].
  - destruct j as [|[|]]; [done| |done]. by injection Hmd as <-.
  - exfalso. apply Habs. by apply (bool_decide_unpack _).
Defined.
