(* ===== verification/Stivale.v ===== *)
(** arch/x86_64/stivale2_handover.c: the boot protocol's structures turned into the [Handover].

    The tags are given as the list their [next] pointers form, each with what its
    [identifier] says it is; the layout of the structures is the boot protocol's
    (third-party/stivale). *)
From S2P Require Import Prelude Machine CString Range Handover.

Definition STIVALE2_MMAP_USABLE : Z := 1.
Record stivale2_mmap_entry : Type := mk_smmap { sm_base : Z; sm_length : Z; sm_type : Z }.
(** [sm_string] holds the 128 bytes of [char string[128]]. *)
Record stivale2_module : Type := mk_smodule { sm_begin : Z; sm_end : Z; sm_string : list Z }.
Inductive stivale2_tag : Type :=
| TagMemmap (memmap : list stivale2_mmap_entry)
| TagModules (mods : list stivale2_module)
| TagSmp (addr : Z)
| TagRsdp (rsdp : Z)
| TagFramebuffer (addr width height pitch : Z)
| TagUnknown (identifier : Z).

Definition zero_entry : mmap_entry := mk_mmap (mk_range 0 0) 0 false.
Definition zero_module : handover_module := mk_module (replicate 128 0) (mk_range 0 0).
Definition zero_handover : handover := mk_handover 0 0 0 0 (mk_fb 0 0 0 0) (replicate 64 zero_entry) 0 (replicate 64 zero_module).

(** [array[i] = x]. *)
Definition store_at {A} (l : list A) (i : Z) (x : A) : res (list A) :=
  if (0 <=? i) && (i <? Z.of_nat (List.length l)) then Ok (<[Z.to_nat i := x]> l) else Err BadAccess.

Definition add_entry (h : handover) (e : stivale2_mmap_entry) : res handover :=
  let usable := sm_type e =? STIVALE2_MMAP_USABLE in
  let entry := mk_mmap (mk_range (sm_base e) (sm_length e)) (u16 (sm_type e)) usable in
  l ← store_at (mmap h) (memory_map_size h) entry;
  Ok (mk_handover (if usable then u64 (memory_usable h + sm_length e) else memory_usable h) (usable_pages h)
        (u64 (memory_map_size h + 1)) (rsdt h) (ho_framebuffer h) l (module_count h) (modules h)).
Fixpoint parse_mmap_loop (h : handover) (l : list stivale2_mmap_entry) : res handover :=
  match l with [] => Ok h | e :: l => h ← add_entry h e; parse_mmap_loop h l end.
Definition parse_mmap (h : handover) (l : list stivale2_mmap_entry) : res handover :=
  h ← parse_mmap_loop h l;
  Ok (mk_handover (memory_usable h) (memory_usable h / PAGE_SIZE) (memory_map_size h) (rsdt h) (ho_framebuffer h)
        (mmap h) (module_count h) (modules h)).

(** [memset(&module.name, 0, 64)] and [memcpy(&module.name, m.string, n)] into
    the 128 bytes of a local variable that held [stack]. *)
Definition module_name (stack string : list Z) (n : Z) : res (list Z) :=
  if n <=? 128 then
    let name := replicate 64 0 ++ drop 64 stack in
    Ok (take (Z.to_nat n) string ++ drop (Z.to_nat n) name)
  else Err BadAccess.
Definition add_module (stack : list Z) (h : handover) (m : stivale2_module) : res handover :=
  n ← strlen (Some (sm_string m));
  name ← module_name stack (sm_string m) n;
  l ← store_at (modules h) (module_count h) (mk_module name (mk_range (sm_begin m) (u64 (sm_end m - sm_begin m))));
  Ok (mk_handover (memory_usable h) (usable_pages h) (memory_map_size h) (rsdt h) (ho_framebuffer h) (mmap h)
        (u64 (module_count h + 1)) l).
Fixpoint parse_module (stack : list Z) (h : handover) (l : list stivale2_module) : res handover :=
  match l with [] => Ok h | m :: l => h ← add_module stack h m; parse_module stack h l end.

(** The [rsdt] field of the packed [rsdp_descriptor], after 16 bytes. *)
Definition parse_rsdp (m : memory) (h : handover) (rsdp : Z) : handover :=
  mk_handover (memory_usable h) (usable_pages h) (memory_map_size h) (load32 m (rsdp + 16)) (ho_framebuffer h) (mmap h)
    (module_count h) (modules h).
Definition parse_framebuffer (h : handover) (addr width height pitch : Z) : handover :=
  mk_handover (memory_usable h) (usable_pages h) (memory_map_size h) (rsdt h)
    (mk_fb addr (u16 height) (u16 width) (u16 pitch)) (mmap h) (module_count h) (modules h).

(** The body of the loop over the tags; [smp] is the file's static variable. *)
Definition parse_tag (m : memory) (stack : list Z) (s : handover * Z) (tag : stivale2_tag) : res (handover * Z) :=
  let '(h, smp) := s in
  match tag with
  | TagMemmap l => h ← parse_mmap h l; Ok (h, smp)
  | TagModules l => h ← parse_module stack h l; Ok (h, smp)
  | TagSmp a => Ok (h, a)
  | TagRsdp a => Ok (parse_rsdp m h a, smp)
  | TagFramebuffer a w ht p => Ok (parse_framebuffer h a w ht p, smp)
  | TagUnknown _ => Ok (h, smp)
  end.
Fixpoint parse_tags (m : memory) (stack : list Z) (s : handover * Z) (tags : list stivale2_tag) : res (handover * Z) :=
  match tags with [] => Ok s | tag :: tags => s ← parse_tag m stack s tag; parse_tags m stack s tags end.
Definition stivale2_parse_header (m : memory) (stack : list Z) (tags : list stivale2_tag) : res (handover * Z) :=
  parse_tags m stack (zero_handover, 0) tags.

(** ** What the header says *)

Definition tag_entries (t : stivale2_tag) : list stivale2_mmap_entry := match t with TagMemmap l => l | _ => [] end.
Definition tag_modules (t : stivale2_tag) : list stivale2_module := match t with TagModules l => l | _ => [] end.
Definition entries_of (tags : list stivale2_tag) : list stivale2_mmap_entry := tags ≫= tag_entries.
Definition modules_of (tags : list stivale2_tag) : list stivale2_module := tags ≫= tag_modules.
Definition entry_of (e : stivale2_mmap_entry) : mmap_entry :=
  mk_mmap (mk_range (sm_base e) (sm_length e)) (u16 (sm_type e)) (sm_type e =? STIVALE2_MMAP_USABLE).
Definition usable_bytes (l : list stivale2_mmap_entry) : Z :=
  foldr (λ e n, (if sm_type e =? STIVALE2_MMAP_USABLE then sm_length e else 0) + n) 0 l.
Definition range_of (m : stivale2_module) : range_t := mk_range (sm_begin m) (u64 (sm_end m - sm_begin m)).
(** A module string of fewer than 64 characters. *)
Definition short_name (t : list Z) (m : stivale2_module) : Prop := cstr t (sm_string m) ∧ (List.length t < 64)%nat.

(** What the handover holds after some entries and modules. *)
Record holds (h : handover) (es : list stivale2_mmap_entry) (ms : list stivale2_module) (names : list (list Z)) : Prop := {
  ho_mmap_length : List.length (mmap h) = 64%nat;
  ho_modules_length : List.length (modules h) = 64%nat;
  ho_map_size : memory_map_size h = Z.of_nat (List.length es);
  ho_entries : take (List.length es) (mmap h) = map entry_of es;
  ho_usable : memory_usable h = u64 (usable_bytes es);
  ho_pages : usable_pages h = memory_usable h / PAGE_SIZE;
  ho_named : modules_named h names;
  ho_ranges : map hm_addr (take (List.length ms) (modules h)) = map range_of ms;
  ho_count : List.length names = List.length ms
}.

Lemma zero_holds : holds zero_handover [] [] [].
Proof. split; try done. split; [done|]. split; [cbn; lia|]. by intros i n m Hn. Qed.

Lemma store_at_ok {A} (l : list A) (n : nat) x : (n < List.length l)%nat → store_at l (Z.of_nat n) x = Ok (<[n := x]> l).
Proof.
  intros Hn. unfold store_at. rewrite (proj2 (Z.leb_le _ _)), (proj2 (Z.ltb_lt _ _)) by lia. by rewrite Nat2Z.id.
Qed.
Lemma take_insert_last {A} (l : list A) n x : (n < List.length l)%nat → take (n + 1) (<[n := x]> l) = take n l ++ [x].
Proof.
  intros Hn. replace (n + 1)%nat with (Datatypes.S n) by lia. rewrite (take_S_r _ _ x) by by apply list_lookup_insert_eq. by rewrite take_insert_ge by lia.
Qed.

Lemma usable_bytes_app l1 l2 : usable_bytes (l1 ++ l2) = usable_bytes l1 + usable_bytes l2.
Proof. induction l1 as [|e l1 IH]; [done|]. cbn [app usable_bytes foldr]. fold (usable_bytes (l1 ++ l2)) (usable_bytes l1). lia. Qed.

(** All but the count of pages, which [parse_mmap] sets at its end. *)
Definition holds_mmap h es ms names : Prop :=
  holds (mk_handover (memory_usable h) (memory_usable h / PAGE_SIZE) (memory_map_size h) (rsdt h) (ho_framebuffer h) (mmap h) (module_count h) (modules h)) es ms names.

Lemma add_entry_holds h es ms names e :
  holds_mmap h es ms names → (List.length es < 64)%nat →
  ∃ h', add_entry h e = Ok h' ∧ holds_mmap h' (es ++ [e]) ms names.
Proof.
  intros [H1 H2 H3 H4 H5 H6 H7 H8 H9] Hlen. cbn in *. unfold add_entry. cbv zeta. rewrite H3, store_at_ok by lia. cbn [mbind res_bind].
  eexists. split; [done|]. split; cbn; try done.
  - by rewrite length_insert.
  - rewrite length_app. cbn [List.length]. rewrite u64_small; lia.
  - rewrite length_app. cbn [List.length]. rewrite take_insert_last by lia. by rewrite H4, map_app.
  - rewrite usable_bytes_app. cbn [usable_bytes foldr]. rewrite H5. destruct (_ =? _); [rewrite u64_add_l|]; f_equal; lia.
Qed.
Lemma parse_mmap_loop_holds l h es ms names :
  holds_mmap h es ms names → (List.length es + List.length l ≤ 64)%nat →
  ∃ h', parse_mmap_loop h l = Ok h' ∧ holds_mmap h' (es ++ l) ms names.
Proof.
  revert h es. induction l as [|e l IH]; intros h es Hh Hlen; cbn [parse_mmap_loop List.length] in *.
  - exists h. by rewrite app_nil_r.
  - destruct (add_entry_holds h es ms names e Hh ltac:(lia)) as (h1 & -> & Hh1). cbn [mbind res_bind].
    destruct (IH h1 (es ++ [e]) Hh1) as (h2 & Hrun & Hh2); [rewrite length_app; cbn [List.length]; lia|].
    exists h2. by rewrite <- app_assoc in Hh2.
Qed.

Lemma module_name_short stack t s :
  cstr t s → (List.length t < 64)%nat → ∃ name, module_name stack s (Z.of_nat (List.length t)) = Ok name ∧ cstr t name.
Proof.
  intros [Ht [rest ->]] Hlen. unfold module_name. rewrite (proj2 (Z.leb_le _ _)) by lia. eexists. split; [done|]. rewrite Nat2Z.id.
  rewrite take_app_length. split; [done|]. exists (replicate (63 - List.length t) 0 ++ drop 64 stack).
  f_equal. rewrite drop_app_le by (rewrite length_replicate; lia). rewrite drop_replicate.
  by replace (64 - List.length t)%nat with (Datatypes.S (63 - List.length t)) by lia.
Qed.
(** A longer name keeps whatever the stack held behind its last character. *)
Lemma module_name_long stack t s :
  cstr t s → (64 ≤ List.length t ≤ 128)%nat → List.length stack = 128%nat →
  module_name stack s (Z.of_nat (List.length t)) = Ok (t ++ drop (List.length t) stack).
Proof.
  intros [Ht [rest ->]] Hlen Hst. unfold module_name. rewrite (proj2 (Z.leb_le _ _)) by lia. rewrite Nat2Z.id, take_app_length.
  rewrite drop_app_ge by (rewrite length_replicate; lia). rewrite length_replicate, drop_drop. do 3 f_equal. lia.
Qed.

Lemma add_module_holds stack h es ms names t m :
  holds h es ms names → (List.length ms < 64)%nat → short_name t m →
  ∃ h', add_module stack h m = Ok h' ∧ holds h' es (ms ++ [m]) (names ++ [t]).
Proof.
  intros [H1 H2 H3 H4 H5 H6 (Hc & Hle & Hn) H8 H9] Hlen [Ht Hshort]. unfold add_module.
  rewrite (strlen_cstr t _ Ht). cbn [mbind res_bind]. destruct (module_name_short stack t _ Ht Hshort) as (name & -> & Hname).
  cbn [mbind res_bind]. rewrite Hc, H9, store_at_ok by lia. cbn [mbind res_bind]. eexists. split; [done|]. split; cbn; try done.
  - by rewrite length_insert.
  - split_and!; cbn.
    + rewrite length_app. cbn [List.length]. rewrite u64_small; lia.
    + rewrite length_app, length_insert. cbn [List.length]. lia.
    + intros i n md Hni Hmd. destruct (decide (i = List.length ms)) as [->|Hne].
      * rewrite list_lookup_insert_eq in Hmd by lia. injection Hmd as <-. rewrite <- H9, list_lookup_middle in Hni by done. injection Hni as <-.
        cbn [hm_name]. split; [done|lia].
      * rewrite list_lookup_insert_ne in Hmd by done. apply lookup_app_Some in Hni as [Hni|[Hi Hni]]; [by apply (Hn i)|].
        apply list_lookup_singleton_Some in Hni as [? _]. lia.
  - rewrite length_app. cbn [List.length]. rewrite take_insert_last by lia. by rewrite !map_app, H8.
  - rewrite !length_app. cbn. lia.
Qed.
Lemma parse_module_holds stack l ts h es ms names :
  holds h es ms names → (List.length ms + List.length l ≤ 64)%nat → Forall2 short_name ts l →
  ∃ h', parse_module stack h l = Ok h' ∧ holds h' es (ms ++ l) (names ++ ts).
Proof.
  intros Hh Hlen Hts. revert h ms names Hh Hlen. induction Hts as [|t m ts l Ht Hts IH]; intros h ms names Hh Hlen; cbn [parse_module List.length] in *.
  - exists h. by rewrite !app_nil_r.
  - destruct (add_module_holds stack h es ms names t m Hh ltac:(lia) Ht) as (h1 & -> & Hh1). cbn [mbind res_bind].
    destruct (IH h1 (ms ++ [m]) (names ++ [t]) Hh1) as (h2 & Hrun & Hh2); [rewrite length_app; cbn [List.length]; lia|].
    exists h2. by rewrite <- !app_assoc in Hh2.
Qed.

Lemma parse_tag_holds m stack h smp tag es ms names ts :
  holds h es ms names → (List.length es + List.length (tag_entries tag) ≤ 64)%nat →
  (List.length ms + List.length (tag_modules tag) ≤ 64)%nat → Forall2 short_name ts (tag_modules tag) →
  ∃ h' smp', parse_tag m stack (h, smp) tag = Ok (h', smp') ∧ holds h' (es ++ tag_entries tag) (ms ++ tag_modules tag) (names ++ ts).
Proof.
  intros Hh He Hm Hts. destruct tag as [l|l|a|a|a w ht p|i]; cbn [tag_entries tag_modules parse_tag] in *;
    try (apply Forall2_nil_inv_r in Hts as ->; rewrite !app_nil_r).
  - assert (holds_mmap h es ms names) as Hh' by (destruct Hh; split; done).
    destruct (parse_mmap_loop_holds l h es ms names Hh' He) as (h' & Hrun & Hh2). unfold parse_mmap. rewrite Hrun. cbn [mbind res_bind].
    eexists _, _. split; [done|]. exact Hh2.
  - destruct (parse_module_holds stack l ts h es ms names Hh Hm Hts) as (h' & -> & Hh'). cbn [mbind res_bind].
    eexists _, _. split; [done|]. by rewrite app_nil_r.
  - by eexists _, _.
  - eexists _, _. split; [done|]. by destruct Hh.
  - eexists _, _. split; [done|]. by destruct Hh.
  - by eexists _, _.
Qed.

(** C28. For a header with at most 64 memory map
    entries and 64 modules whose names are shorter than 64 characters,
    [stivale2_parse_header] returns a handover with the entries in order, the
    usable ones marked free, their sum and its pages, and with every module under
    its name: what [pmm_init] and [handover_find_module] rely on. *)
Theorem stivale2_parse_header_holds m stack tags names :
  (List.length (entries_of tags) ≤ 64)%nat → (List.length (modules_of tags) ≤ 64)%nat →
  Forall2 short_name names (modules_of tags) →
  ∃ h smp, stivale2_parse_header m stack tags = Ok (h, smp) ∧
    memory_map_size h = Z.of_nat (List.length (entries_of tags)) ∧
    take (List.length (entries_of tags)) (mmap h) = map entry_of (entries_of tags) ∧
    memory_usable h = u64 (usable_bytes (entries_of tags)) ∧ usable_pages h = memory_usable h / PAGE_SIZE ∧
    modules_named h names ∧ map hm_addr (take (List.length names) (modules h)) = map range_of (modules_of tags).
Proof.
  assert (∀ s es ms ns names, holds s.1 es ms ns →
    (List.length es + List.length (entries_of tags) ≤ 64)%nat → (List.length ms + List.length (modules_of tags) ≤ 64)%nat →
    Forall2 short_name names (modules_of tags) →
    ∃ h smp, parse_tags m stack s tags = Ok (h, smp) ∧ holds h (es ++ entries_of tags) (ms ++ modules_of tags) (ns ++ names)) as Hgen.
  { induction tags as [|tag tags IH]; intros [h smp] es ms ns nms Hh He Hm Hn.
    - apply Forall2_nil_inv_r in Hn as ->. exists h, smp. by rewrite !app_nil_r.
    - change (entries_of (tag :: tags)) with (tag_entries tag ++ entries_of tags) in *.
      change (modules_of (tag :: tags)) with (tag_modules tag ++ modules_of tags) in *. rewrite length_app in He, Hm.
      apply Forall2_app_inv_r in Hn as (n1 & n2 & Hn1 & Hn2 & ->).
      destruct (parse_tag_holds m stack h smp tag es ms ns n1 Hh ltac:(lia) ltac:(lia) Hn1) as (h1 & smp1 & Hrun & Hh1).
      cbn [parse_tags]. rewrite Hrun. cbn [mbind res_bind].
      destruct (IH (h1, smp1) _ _ _ n2 Hh1) as (h2 & smp2 & Hrun2 & Hh2); [rewrite length_app; lia|rewrite length_app; lia|done|].
      exists h2, smp2. by rewrite <- !app_assoc in Hh2. }
  intros He Hm Hn. destruct (Hgen (zero_handover, 0) [] [] [] names zero_holds He Hm Hn) as (h & smp & Hrun & [H1 H2 H3 H4 H5 H6 H7 H8 H9]).
  exists h, smp. cbn [app] in *. split_and!; try done. by rewrite H9.
Qed.

(** ** Witness: two regions and a module *)

Definition sample_tags : list stivale2_tag :=
  [TagFramebuffer 0x1000 640 480 2560; TagMemmap [mk_smmap 0 0x1000 2; mk_smmap 0x1000 0x8000 1];
   TagModules [mk_smodule 0x2000 0x2100 ([97; 98] ++ replicate 126 0)]].
Lemma stivale2_parse_header_holds_witness :
  ∃ h smp, stivale2_parse_header (λ _, 0) (replicate 128 7) sample_tags = Ok (h, smp) ∧
    memory_map_size h = 2 ∧ take 2 (mmap h) = map entry_of (entries_of sample_tags) ∧
    memory_usable h = u64 (usable_bytes (entries_of sample_tags)) ∧ usable_pages h = memory_usable h / PAGE_SIZE ∧
    modules_named h [[97; 98]] ∧ map hm_addr (take 1 (modules h)) = map range_of (modules_of sample_tags).
Proof.
  apply (stivale2_parse_header_holds (λ _, 0) (replicate 128 7) sample_tags [[97; 98]]); [cbn; lia|cbn; lia|].
  constructor; [|constructor]. split; [|cbn; lia]. split; [repeat constructor|]. by exists (replicate 125 0).
Defined.
