(* ===== verification/FrameAllocator.v ===== *)
(** What the memory manager asks of a frame allocator.

    [FrameAllocator] lists the operations, [FrameAllocatorLaws] what a client may
    rely on; [Pmm] implements both with the bitmap allocator, [Vmm] is written
    and proved against them. A frame is named by its number (address / 4096). *)
From S2P Require Import Prelude Machine Range.

(** Physical memory as the kernel sees it: shifted up by a constant
    (arch/x86_64/pmm.h, vmm.h). *)
Definition MMAP_IO_BASE : Z := 0xffff800000000000.
Definition mmap_phys_to_io (a : Z) : Z := u64 (a + MMAP_IO_BASE).
Definition mmap_io_to_phys (a : Z) : Z := u64 (a - MMAP_IO_BASE).

(** The address at which the kernel sees frame [f]. *)
Definition frame_io (f : Z) : Z := f * 4096 + MMAP_IO_BASE.

Lemma mmap_phys_to_io_frame f : 0 ≤ f < 0x800000000 → mmap_phys_to_io (f * 4096) = frame_io f.
Proof. intros Hf. unfold mmap_phys_to_io, frame_io, MMAP_IO_BASE. apply u64_small. lia. Qed.
Lemma mmap_io_to_phys_frame f : 0 ≤ f < 0x800000000 → mmap_io_to_phys (frame_io f) = f * 4096.
Proof.
  intros Hf. unfold mmap_io_to_phys, frame_io. rewrite u64_small; lia.
Qed.
Lemma frame_io_block f : 0 ≤ f < 0x800000000 → block_ok (frame_io f) 4096.
Proof. unfold block_ok, frame_io, MMAP_IO_BASE. lia. Qed.

Class FrameAllocator (P : Type) : Type := {
  fa_hw : P → hw;
  fa_set_hw : hw → P → P;
  fa_alloc : Z → M P range_t;
  fa_free : range_t → M P unit
}.

Definition frame_range (f : Z) : range_t := mk_range (f * 4096) 4096.

(** Two memories agree outside (inside) a set of addresses. *)
Definition agree_off (X : Z → Prop) (h h' : hw) : Prop :=
  ∀ x, 0 ≤ x < 0x10000000000000000 → ¬ X x → load8 (hw_mem h') x = load8 (hw_mem h) x.
Definition agree_on (X : Z → Prop) (h h' : hw) : Prop :=
  ∀ x, 0 ≤ x < 0x10000000000000000 → X x → load8 (hw_mem h') x = load8 (hw_mem h) x.
(** Control registers and TLB invalidations are the same. *)
Definition same_control (h h' : hw) : Prop :=
  hw_cr3 h' = hw_cr3 h ∧ hw_invlpg h' = hw_invlpg h.

Class FrameAllocatorLaws (P : Type) `{FrameAllocator P} : Type := {
  (** the allocator's invariant, its lock being free *)
  fa_ok : P → Prop;
  (** frame [f] is one of those the allocator keeps account of *)
  fa_managed : P → Z → Prop;
  (** frame [f] is free *)
  fa_avail : P → Z → Prop;
  (** at least [n] more one-page allocations succeed *)
  fa_supply : nat → P → Prop;
  (** address [x] belongs to the allocator's own data *)
  fa_private : P → Z → Prop;
  (** how an allocation may fail to return *)
  fa_stops : fault → Prop;

  (** managed frames are those of the low 2^47 bytes of physical memory *)
  fa_managed_range p f : fa_ok p → fa_managed p f → 0 ≤ f < 0x800000000;
  (** free frames do not hold the allocator's data *)
  fa_avail_private p f x :
    fa_ok p → fa_avail p f → in_block (frame_io f) 4096 x → ¬ fa_private p x;

  fa_get_set h p : fa_hw (fa_set_hw h p) = h;
  fa_set_get p : fa_set_hw (fa_hw p) p = p;
  fa_set_set h h' p : fa_set_hw h (fa_set_hw h' p) = fa_set_hw h p;

  (** a client that writes outside the allocator's data does not disturb it *)
  fa_frame h p :
    agree_on (fa_private p) (fa_hw p) h → fa_ok p →
    fa_ok (fa_set_hw h p) ∧
    (∀ n, fa_supply n p → fa_supply n (fa_set_hw h p)) ∧
    (∀ x, fa_private (fa_set_hw h p) x ↔ fa_private p x) ∧
    (∀ f, fa_managed (fa_set_hw h p) f ↔ fa_managed p f) ∧
    (∀ f, fa_avail (fa_set_hw h p) f ↔ fa_avail p f);

  (** with a frame in supply, allocating one page returns *)
  fa_supply_alloc n p :
    fa_ok p → fa_supply (S n) p →
    ∃ r p', fa_alloc PAGE_SIZE p = Ok (r, p') ∧ 0 < length r ∧ fa_supply n p';
  fa_alloc_stops p e : fa_ok p → fa_alloc PAGE_SIZE p = Err e → fa_stops e;
  fa_stops_assert : fa_stops AssertFailed;
  fa_supply_0 p : fa_ok p → fa_supply 0 p;
  fa_supply_weaken n m p : (m ≤ n)%nat → fa_supply n p → fa_supply m p;

  (** allocating one page either fails with the empty range or takes one free
      frame; it leaves interrupts enabled, because the allocator's own lock was
      released on the way out *)
  fa_alloc_page p r p' :
    fa_ok p → fa_alloc PAGE_SIZE p = Ok (r, p') →
    fa_ok p' ∧
    (∀ x, fa_private p' x ↔ fa_private p x) ∧
    (∀ f, fa_managed p' f ↔ fa_managed p f) ∧
    agree_off (fa_private p) (fa_hw p) (fa_hw p') ∧
    same_control (fa_hw p) (fa_hw p') ∧ hw_if (fa_hw p') = true ∧
    (length r = 0 ∨
     ∃ f, r = frame_range f ∧ fa_managed p f ∧ fa_avail p f ∧
       ∀ g, fa_avail p' g ↔ fa_avail p g ∧ g ≠ f);

  (** giving one page back succeeds and frees that page at most *)
  fa_free_page p f :
    fa_ok p → fa_managed p f → (∀ x, in_block (frame_io f) 4096 x → ¬ fa_private p x) →
    ∃ p', fa_free (frame_range f) p = Ok (tt, p') ∧ fa_ok p' ∧
      (∀ x, fa_private p' x ↔ fa_private p x) ∧
      (∀ f, fa_managed p' f ↔ fa_managed p f) ∧
      agree_off (fa_private p) (fa_hw p) (fa_hw p') ∧
      same_control (fa_hw p) (fa_hw p') ∧ hw_if (fa_hw p') = true ∧
      ∀ g, (fa_avail p g → fa_avail p' g) ∧ (fa_avail p' g → fa_avail p g ∨ g = f)
}.
