(* ===== verification/Pmm.v ===== *)
(** arch/x86_64/pmm.c: the physical memory manager, a bitmap with one bit per
    4 KiB page, kept in memory behind the pointer [bitmap]. *)
From Stdlib Require Import Sorted.
From S2P Require Import Prelude Machine Range Handover FrameAllocator.

(** The static variables of pmm.c; the processor and memory it runs on are the
    innermost part of every state above it. *)
Record pmm_state : Type := mk_pmm {
  pm_hw : hw;
  bitmap : Z;            (** [uint8_t *bitmap], NULL is 0 *)
  bitmap_size : Z;
  pm_usable_pages : Z;
  last_page : Z;
  pm_lock : Z
}.

Definition pm_set_hw (h : hw) (s : pmm_state) : pmm_state :=
  mk_pmm h (bitmap s) (bitmap_size s) (pm_usable_pages s) (last_page s) (pm_lock s).
Definition pm_set_mem (f : memory → memory) (s : pmm_state) : pmm_state :=
  pm_set_hw (hw_set_mem f (pm_hw s)) s.
Definition pm_set_bitmap (b : Z) (s : pmm_state) : pmm_state :=
  mk_pmm (pm_hw s) b (bitmap_size s) (pm_usable_pages s) (last_page s) (pm_lock s).
Definition pm_set_bitmap_size (n : Z) (s : pmm_state) : pmm_state :=
  mk_pmm (pm_hw s) (bitmap s) n (pm_usable_pages s) (last_page s) (pm_lock s).
Definition pm_set_usable (n : Z) (s : pmm_state) : pmm_state :=
  mk_pmm (pm_hw s) (bitmap s) (bitmap_size s) n (last_page s) (pm_lock s).
Definition pm_set_last (n : Z) (s : pmm_state) : pmm_state :=
  mk_pmm (pm_hw s) (bitmap s) (bitmap_size s) (pm_usable_pages s) n (pm_lock s).
Definition pm_set_lock (l : Z) (s : pmm_state) : pmm_state :=
  mk_pmm (pm_hw s) (bitmap s) (bitmap_size s) (pm_usable_pages s) (last_page s) l.
Definition pm_mem (s : pmm_state) : memory := hw_mem (pm_hw s).

Definition pm_acquire : M pmm_state unit := λ s,
  match arch_acquire (pm_lock s) (pm_hw s) with
  | Ok (l, h) => Ok (tt, pm_set_lock l (pm_set_hw h s))
  | Err e => Err e
  end.
Definition pm_release : M pmm_state unit := modify (λ s,
  let '(l, h) := arch_release (pm_hw s) in pm_set_lock l (pm_set_hw h s)).

Definition bitmap_unused (index : Z) : M pmm_state unit := modify (λ s,
  let bit := index mod 8 in
  let byte := index / 8 in
  let a := bitmap s + byte in
  let s := pm_set_mem (store8 a (Z.land (load8 (pm_mem s) a) (Z.lnot (Z.shiftl 1 bit)))) s in
  pm_set_usable (u64 (pm_usable_pages s + 1)) s).

Definition bitmap_used (index : Z) : M pmm_state unit := modify (λ s,
  let bit := index mod 8 in
  let byte := index / 8 in
  let a := bitmap s + byte in
  let s := pm_set_mem (store8 a (Z.lor (load8 (pm_mem s) a) (Z.shiftl 1 bit))) s in
  pm_set_usable (u64 (pm_usable_pages s - 1)) s).

Definition is_set_pmm (s : pmm_state) (index : Z) : bool :=
  let bit := index mod 8 in
  let byte := index / 8 in
  truth (Z.land (load8 (pm_mem s) (bitmap s + byte)) (Z.shiftl 1 bit)).

Definition pmm_range_used (range : range_t) : M pmm_state unit :=
  let target := base range / PAGE_SIZE in
  forZ (Z.to_nat (length range / PAGE_SIZE)) 0 (λ i, bitmap_used (u64 (target + i))).

Definition pmm_range_unused (range : range_t) : M pmm_state unit :=
  let target := base range / PAGE_SIZE in
  forZ (Z.to_nat (length range / PAGE_SIZE)) 0 (λ i, bitmap_unused (u64 (target + i))).

(** The scanning loop of [pmm_find_pages]: [k] bounds the iterations left, the
    tests of the loop condition are in the order of the source. *)
Fixpoint find_loop (s : pmm_state) (amount : Z) (k : nat) (i : Z) (range : range_t) : range_t :=
  match k with
  | O => range
  | S k =>
      if (i <? bitmap_size s) && (length range <? amount) then
        find_loop s amount k (i + 1)
          (if negb (is_set_pmm s i) then
             mk_range (if length range =? 0 then u64 (i * PAGE_SIZE) else base range)
                      (u64 (length range + PAGE_SIZE))
           else mk_range (base range) 0)
      else range
  end.

Fixpoint pmm_find_pages (fuel : nat) (amount : Z) : M pmm_state range_t :=
  match fuel with
  | O => fail OutOfFuel
  | S fuel => λ s,
      let range := find_loop s amount (Z.to_nat (bitmap_size s - last_page s))
                     (last_page s) (mk_range 0 0) in
      if amount <=? length range then
        (modify (pm_set_last (u64 (base range + length range) / PAGE_SIZE)) ≫= λ _,
         pmm_range_used range ≫= λ _,
         mret range) s
      else if last_page s =? 0 then Ok (mk_range 0 0, s)
      else pmm_find_pages fuel amount s
  end.

(** The search either returns without calling itself or never returns
    ([find_pages_fuel]), so one level of fuel is all it can use. *)
Definition FIND_FUEL : nat := 1.

Definition pmm_alloc (amount : Z) : M pmm_state range_t :=
  pm_acquire ≫= λ _,
  gets pm_usable_pages ≫= λ n,
  assert_ (0 <? n) ≫= λ _,
  pmm_find_pages FIND_FUEL amount ≫= λ result,
  pm_release ≫= λ _,
  mret result.

Definition pmm_free (range : range_t) : M pmm_state unit :=
  pm_acquire ≫= λ _, pmm_range_unused range ≫= λ _, pm_release.

Definition get_usable_pages (s : pmm_state) : Z := pm_usable_pages s.

(** *** [pmm_init] *)

(** The first loop: while [bitmap] is NULL, look for a free region larger than
    the bitmap, put the bitmap at its start and cut it off the region; the
    region in the handover is updated. *)
Fixpoint place_bitmap (size b : Z) (es : list mmap_entry) : Z * list mmap_entry :=
  match es with
  | [] => (b, [])
  | e :: es' =>
      if b =? 0 then
        if me_is_free e && (size <? length (me_range e)) then
          let cut := ALIGN_UP size PAGE_SIZE in
          let '(b, es') := place_bitmap size (mmap_phys_to_io (base (me_range e))) es' in
          (b, mk_mmap (mk_range (u64 (base (me_range e) + cut))
                                (u64 (length (me_range e) - cut)))
                (me_type e) (me_is_free e) :: es')
        else let '(b, es') := place_bitmap size b es' in (b, e :: es')
      else (b, es)
  end.

Definition free_entry (e : mmap_entry) : M pmm_state unit :=
  when (me_is_free e)
    (pmm_range_unused (mk_range (ALIGN_DOWN (base (me_range e)) PAGE_SIZE)
                                (ALIGN_UP (length (me_range e)) PAGE_SIZE))).
Fixpoint free_entries (es : list mmap_entry) : M pmm_state unit :=
  match es with [] => mret tt | e :: es => free_entry e ≫= λ _, free_entries es end.

(** The value is the memory map left in the handover. *)
Definition pmm_init (h : handover) : M pmm_state (list mmap_entry) :=
  last_mmap ← lift (index (mmap h) (memory_map_size h - 1));
  let memory_end := u64 (base (me_range last_mmap) + length (me_range last_mmap)) in
  let size := memory_end / (PAGE_SIZE * 8) in
  modify (pm_set_bitmap_size size) ≫= λ _,
  let n := Z.to_nat (memory_map_size h) in
  gets bitmap ≫= λ b0,
  let '(b, es) := place_bitmap size b0 (take n (mmap h)) in
  modify (pm_set_bitmap b) ≫= λ _,
  assert_ (truth b) ≫= λ _,
  modify (pm_set_mem (memset b 0xff size)) ≫= λ _,
  free_entries es ≫= λ _,
  pmm_range_used (mk_range (mmap_io_to_phys b) size) ≫= λ _,
  mret (es ++ drop n (mmap h)).

(** ** The bitmap as a set of free pages *)

(** The bitmap and the counters are where pmm_init puts them: the bitmap is a
    block of the address space and its size is that of at most 2^51 pages. *)
Record pmm_wf (s : pmm_state) : Prop := {
  wf_block : block_ok (bitmap s) (bitmap_size s);
  wf_size : bitmap_size s ≤ 0x1000000000000;
  wf_usable : 0 ≤ pm_usable_pages s < 0x10000000000000000;
  wf_last : 0 ≤ last_page s
}.

(** Pages that have a bit. *)
Definition tracked (s : pmm_state) (p : Z) : Prop := 0 ≤ p < 8 * bitmap_size s.
Definition page_free (s : pmm_state) (p : Z) : Prop := is_set_pmm s p = false.
Definition run_free (s : pmm_state) (b n : Z) : Prop := ∀ p, b ≤ p < b + n → page_free s p.

(** [s'] differs from [s] in the bitmap and the counters only. *)
Record same_outside (s s' : pmm_state) : Prop := {
  so_bitmap : bitmap s' = bitmap s;
  so_size : bitmap_size s' = bitmap_size s;
  so_lock : pm_lock s' = pm_lock s;
  so_if : hw_if (pm_hw s') = hw_if (pm_hw s);
  so_cr3 : hw_cr3 (pm_hw s') = hw_cr3 (pm_hw s);
  so_tlb : hw_invlpg (pm_hw s') = hw_invlpg (pm_hw s);
  so_mem : ∀ x, 0 ≤ x < 0x10000000000000000 →
    ¬ in_block (bitmap s) (bitmap_size s) x → load8 (pm_mem s') x = load8 (pm_mem s) x
}.

#[export] Instance same_outside_refl : Reflexive same_outside.
Proof. by split. Qed.
#[export] Instance same_outside_trans : Transitive same_outside.
Proof.
  intros s1 s2 s3 [] []. split; try congruence.
  intros x Hx Hout. rewrite so_mem1; [by apply so_mem0|done|congruence].
Qed.

Lemma is_set_testbit s p :
  0 ≤ p → is_set_pmm s p = Z.testbit (load8 (pm_mem s) (bitmap s + p / 8)) (p mod 8).
Proof. intros Hp. apply land_pow2_truth. Z.div_mod_to_equations; lia. Qed.

(** Setting or clearing one bit; [b] is the new value of the bit. *)
Definition set_bit (b : bool) (index : Z) : M pmm_state unit :=
  if b then bitmap_used index else bitmap_unused index.
Definition count_bit (b : bool) (n k : Z) : Z := u64 (if b then n - k else n + k).

Lemma set_bit_spec b i s :
  pmm_wf s → tracked s i →
  ∃ s', set_bit b i s = Ok (tt, s') ∧ same_outside s s' ∧ pmm_wf s' ∧
    last_page s' = last_page s ∧ pm_usable_pages s' = count_bit b (pm_usable_pages s) 1 ∧
    ∀ j, tracked s j → is_set_pmm s' j = if decide (j = i) then b else is_set_pmm s j.
Proof.
  intros [Hblk Hsz Hus Hlast] Hi. unfold tracked, block_ok in *.
  set (a := bitmap s + i / 8).
  set (v := if b then Z.lor (load8 (pm_mem s) a) (Z.shiftl 1 (i mod 8))
            else Z.land (load8 (pm_mem s) a) (Z.lnot (Z.shiftl 1 (i mod 8)))).
  set (s' := pm_set_usable (count_bit b (pm_usable_pages s) 1) (pm_set_mem (store8 a v) s)).
  assert (0 ≤ i / 8 < bitmap_size s ∧ 0 ≤ i mod 8 < 8) as [Hq Hr]
    by (Z.div_mod_to_equations; lia).
  exists s'. split_and!; try done.
  - by destruct b.
  - split; try done. intros x Hx Hout. subst s' v a. cbn. apply load8_store8_ne.
    unfold in_block in Hout. rewrite !u64_small; lia.
  - split; cbn; auto. apply u64_range.
  - intros j Hj.
    assert (0 ≤ j / 8 < bitmap_size s ∧ 0 ≤ j mod 8 < 8) as [Hqj Hrj]
      by (Z.div_mod_to_equations; lia).
    rewrite !is_set_testbit by lia.
    change (bitmap s') with (bitmap s). change (pm_mem s') with (store8 a v (pm_mem s)).
    rewrite load8_store8 by (subst a; lia).
    destruct (Z.eqb_spec (bitmap s + j / 8) a) as [Heq|Hne].
    + assert (j / 8 = i / 8) as Hdiv by (subst a; lia).
      rewrite testbit_u8 by done. rewrite Heq. subst v.
      assert (Z.testbit (Z.shiftl 1 (i mod 8)) (j mod 8) = bool_decide (j = i)) as Hbit.
      { rewrite testbit_pow2 by lia.
        destruct (Z.eqb_spec (j mod 8) (i mod 8)) as [Hm|Hm].
        - symmetry. apply bool_decide_true. Z.div_mod_to_equations; lia.
        - symmetry. apply bool_decide_false. intros ->. done. }
      destruct b.
      * rewrite Z.lor_spec, Hbit. case_decide; case_bool_decide; try done;
          by rewrite ?orb_true_r, ?orb_false_r.
      * rewrite Z.land_spec, Z.lnot_spec, Hbit by lia. case_decide; case_bool_decide; try done;
          by rewrite ?andb_true_r, ?andb_false_r.
    + case_decide as Hji; [subst; done|done].
Qed.

(** The walk of a range, for both directions. *)
Definition set_range (b : bool) (range : range_t) : M pmm_state unit :=
  forZ (Z.to_nat (length range / PAGE_SIZE)) 0
    (λ i, set_bit b (u64 (base range / PAGE_SIZE + i))).

Definition range_tracked (s : pmm_state) (r : range_t) : Prop :=
  0 ≤ base r ∧ 0 ≤ length r ∧ base r / PAGE_SIZE + range_pages r ≤ 8 * bitmap_size s.

Lemma set_range_spec b r s :
  pmm_wf s → range_tracked s r →
  ∃ s', set_range b r s = Ok (tt, s') ∧ same_outside s s' ∧ pmm_wf s' ∧
    last_page s' = last_page s ∧
    pm_usable_pages s' = count_bit b (pm_usable_pages s) (range_pages r) ∧
    ∀ j, tracked s j → is_set_pmm s' j = if decide (page_in r j) then b else is_set_pmm s j.
Proof.
  intros Hwf (Hb & Hl & Hfit). unfold range_pages, PAGE_SIZE in *.
  set (n := length r / 4096) in *. assert (0 ≤ n) by (subst n; Z.div_mod_to_equations; lia).
  assert (0 ≤ base r / 4096) by (Z.div_mod_to_equations; lia).
  pose (I := λ (i : Z) (s' : pmm_state), same_outside s s' ∧ pmm_wf s' ∧
    last_page s' = last_page s ∧ pm_usable_pages s' = count_bit b (pm_usable_pages s) i ∧
    ∀ j, tracked s j → is_set_pmm s' j =
      if decide (base r / 4096 ≤ j < base r / 4096 + i) then b else is_set_pmm s j).
  assert (wp (set_range b r) (λ _, I (0 + Z.of_nat (Z.to_nat n))) s) as Hwp.
  { apply wp_forZ.
    - split_and!; try done.
      + unfold count_bit. destruct b; rewrite ?Z.sub_0_r, ?Z.add_0_r;
          by rewrite u64_small by apply Hwf.
      + intros j _. by rewrite decide_False by lia.
    - intros i s' Hi (Hso & Hwf' & Hlast & Hus & Hbits).
      pose proof (so_size _ _ Hso) as Hsz. pose proof (wf_size _ Hwf).
      unfold PAGE_SIZE. rewrite u64_small by lia.
      destruct (set_bit_spec b (base r / 4096 + i) s') as (s'' & Hrun & Hso' & Hwf'' & Hlast' & Hus' & Hbits');
        [done|unfold tracked; lia|].
      apply (wp_intro _ _ _ _ _ Hrun). split_and!; [by etrans|done|congruence| |].
      + rewrite Hus', Hus. unfold count_bit.
        destruct b; unfold u64; rewrite ?Zminus_mod_idemp_l, ?Zplus_mod_idemp_l; f_equal; lia.
      + intros j Hj. rewrite Hbits' by (unfold tracked in *; lia). rewrite Hbits by done.
        repeat case_decide; try done; lia. }
  apply wp_elim in Hwp as ([] & s' & Hrun & Hso & Hwf' & Hlast & Hus & Hbits).
  exists s'. rewrite Z.add_0_l, Z2Nat.id in * by lia. split_and!; auto.
Qed.

Lemma pmm_range_used_set r : pmm_range_used r = set_range true r.
Proof. done. Qed.
Lemma pmm_range_unused_set r : pmm_range_unused r = set_range false r.
Proof. done. Qed.

(** ** The search *)

(** Pages needed for [amount] bytes. *)
Definition pages_for (amount : Z) : Z := (amount + 4095) / 4096.

(** What the loop knows at page [i]: the range is the run of free pages that
    ends just before [i], and no run that fits starts before that run. *)
Definition scan_inv (s : pmm_state) (need i : Z) (r : range_t) : Prop :=
  ∃ n, length r = n * 4096 ∧ 0 ≤ n ≤ need ∧ n ≤ i - last_page s ∧
    (0 < n → base r = (i - n) * 4096) ∧ run_free s (i - n) n ∧
    ∀ b, last_page s ≤ b < i - n → ¬ run_free s b need.

Lemma find_loop_inv s amount k i r :
  pmm_wf s → 0 < amount < 0x8000000000000000 →
  last_page s ≤ i → i + Z.of_nat k = Z.max i (bitmap_size s) →
  scan_inv s (pages_for amount) i r →
  ∃ i', last_page s ≤ i' ≤ Z.max i (bitmap_size s) ∧
    scan_inv s (pages_for amount) i' (find_loop s amount k i r) ∧
    (length (find_loop s amount k i r) < amount → bitmap_size s ≤ i').
Proof.
  intros Hwf Ham. revert i r.
  assert (∀ n, n * 4096 < amount ↔ n < pages_for amount) as Hneed
    by (intros; unfold pages_for; Z.div_mod_to_equations; lia).
  pose proof (wf_last _ Hwf) as Hl0. pose proof (wf_size _ Hwf) as Hsz.
  induction k as [|k IH]; intros i r Hi Hk Hinv; cbn [find_loop].
  - exists i. split_and!; [lia|lia|done|lia].
  - destruct (Z.ltb_spec i (bitmap_size s)) as [Hib|Hib]; [|lia]. cbn [andb].
    destruct (Z.ltb_spec (length r) amount) as [Hlt|Hge]; [|exists i; split_and!; [lia|lia|done|lia]].
    destruct Hinv as (n & Hlen & Hn & Hni & Hbase & Hrun & Hno).
    rewrite Hlen in Hlt. apply Hneed in Hlt.
    assert (pages_for amount < 0x8000000000001) by (unfold pages_for; Z.div_mod_to_equations; lia).
    assert (∀ i', i + 1 ≤ i' → i' ≤ Z.max (i + 1) (bitmap_size s) → i' ≤ Z.max i (bitmap_size s)) by lia.
    match goal with |- context [find_loop s amount k (i + 1) ?r'] =>
      destruct (IH (i + 1) r') as (i' & Hi' & Hinv' & Hend) end;
      [lia|lia| |by exists i'; split_and!; [lia|lia|done|done]].
    destruct (is_set_pmm s i) eqn:Hset; cbn [negb].
    + exists 0. split_and!; cbn [length base]; try lia.
      * intros p Hp. lia.
      * intros b Hb Hfree. destruct (decide (b < i - n)) as [Hbn|Hbn]; [by apply (Hno b); [lia|]|].
        specialize (Hfree i ltac:(lia)). unfold page_free in Hfree. congruence.
    + exists (n + 1). cbn [length base]. rewrite Hlen. unfold PAGE_SIZE.
      rewrite (u64_small (n * 4096 + 4096)) by lia. split_and!; try lia.
      * intros _. destruct (Z.eqb_spec (n * 4096) 0) as [Hn0|Hn0].
        -- rewrite u64_small by lia. lia.
        -- rewrite Hbase by lia. lia.
      * intros p Hp. destruct (decide (p = i)) as [->|]; [done|apply Hrun; lia].
      * intros b Hb. apply Hno. lia.
Qed.

(** The outcome of one scan: the lowest run of free pages at or after
    [last_page] that holds [amount] bytes and ends by page [bitmap_size], or
    that there is none. *)
Lemma find_loop_spec s amount :
  pmm_wf s → 0 < amount < 0x8000000000000000 →
  let r := find_loop s amount (Z.to_nat (bitmap_size s - last_page s)) (last_page s) (mk_range 0 0) in
  let need := pages_for amount in
  (amount ≤ length r ∧ ∃ b, r = mk_range (b * 4096) (need * 4096) ∧
     last_page s ≤ b ∧ b + need ≤ bitmap_size s ∧ run_free s b need ∧
     ∀ b', last_page s ≤ b' < b → ¬ run_free s b' need) ∨
  (length r < amount ∧
     ∀ b, last_page s ≤ b → b + need ≤ bitmap_size s → ¬ run_free s b need).
Proof.
  intros Hwf Ham r need. pose proof (wf_last _ Hwf).
  assert (0 < need) by (subst need; unfold pages_for; Z.div_mod_to_equations; lia).
  destruct (find_loop_inv s amount (Z.to_nat (bitmap_size s - last_page s)) (last_page s) (mk_range 0 0))
    as (i & Hi & (n & Hlen & Hn & Hni & Hbase & Hrun & Hno) & Hend); [done|done|lia|lia| |].
  { exists 0. cbn. split_and!; try lia; intros p Hp; lia. }
  fold r need in Hlen, Hn, Hbase, Hrun, Hno, Hend.
  destruct (decide (amount ≤ length r)) as [Hge|Hlt].
  - left. split; [done|]. exists (i - n).
    assert (n = need) as -> by (subst need; unfold pages_for in *; Z.div_mod_to_equations; lia).
    assert (need ≤ i - last_page s → i ≤ bitmap_size s) by lia.
    split_and!; try done; try lia. rewrite <- Hbase by lia. rewrite <- Hlen. by destruct r.
  - right. split; [lia|]. intros b Hb Hfit Hfree.
    assert (n < need) by (subst need; unfold pages_for in *; Z.div_mod_to_equations; lia).
    destruct (decide (b < i - n)); [by apply (Hno b); [lia|]|]. lia.
Qed.

Lemma find_pages_fuel fuel amount s :
  pmm_find_pages (S fuel) amount s = Err OutOfFuel ∨
  pmm_find_pages (S fuel) amount s = pmm_find_pages FIND_FUEL amount s.
Proof.
  unfold FIND_FUEL.
  induction fuel as [|fuel IH]; [by right|].
  cbn [pmm_find_pages] in *. destruct (amount <=? _); [by right|].
  destruct (last_page s =? 0); [by right|]. destruct IH as [->|IH]; [by left|]. left. exact IH.
Qed.

(** A successful search, in terms of the set of free pages. *)
Record found (s : pmm_state) (amount : Z) (r : range_t) (s' : pmm_state) : Prop := {
  fd_base : base r mod 4096 = 0;
  fd_length : length r = pages_for amount * 4096;
  fd_lo : last_page s * 4096 ≤ base r;
  fd_hi : base r + length r ≤ bitmap_size s * 4096;
  fd_free : ∀ p, page_in r p → page_free s p;
  fd_bits : ∀ p, tracked s p → is_set_pmm s' p = if decide (page_in r p) then true else is_set_pmm s p;
  fd_usable : pm_usable_pages s' = u64 (pm_usable_pages s - pages_for amount);
  fd_last : last_page s' = (base r + length r) / 4096;
  fd_outside : same_outside s s';
  fd_wf : pmm_wf s'
}.

Lemma find_pages_cases s amount :
  pmm_wf s → 0 < amount < 0x8000000000000000 →
  let need := pages_for amount in
  (∃ b s', pmm_find_pages FIND_FUEL amount s = Ok (mk_range (b * 4096) (need * 4096), s') ∧
     last_page s ≤ b ∧ run_free s b need ∧ (∀ c, last_page s ≤ c < b → ¬ run_free s c need) ∧
     found s amount (mk_range (b * 4096) (need * 4096)) s') ∨
  ((∀ b, last_page s ≤ b → b + need ≤ bitmap_size s → ¬ run_free s b need) ∧
     pmm_find_pages FIND_FUEL amount s =
       if last_page s =? 0 then Ok (mk_range 0 0, s) else Err OutOfFuel).
Proof.
  intros Hwf Ham need. unfold FIND_FUEL. cbn [pmm_find_pages].
  destruct (find_loop_spec s amount Hwf Ham) as [[Hge (b & Heq & Hlb & Hhb & Hrun & Hno)]|[Hlt Hno]];
    [left|right].
  2: { split; [done|]. by rewrite (proj2 (Z.leb_gt _ _) Hlt). }
  rewrite (proj2 (Z.leb_le _ _) Hge), Heq. cbn [base length].
  pose proof (wf_last _ Hwf). pose proof (wf_size _ Hwf). pose proof (wf_block _ Hwf) as Hblk.
  fold need in Heq, Hhb, Hrun, Hno |- *.
  assert (0 < need) by (subst need; unfold pages_for in *; Z.div_mod_to_equations; lia).
  set (s0 := pm_set_last (u64 (b * 4096 + need * 4096) / PAGE_SIZE) s).
  assert (pmm_wf s0) as Hwf0.
  { split; try apply Hwf. cbn. unfold PAGE_SIZE. pose proof (u64_range (b * 4096 + need * 4096)).
    Z.div_mod_to_equations; lia. }
  assert (b * 4096 / 4096 = b ∧ need * 4096 / 4096 = need) as [Hb1 Hn1]
    by (rewrite !Z.div_mul; done).
  destruct (set_range_spec true (mk_range (b * 4096) (need * 4096)) s0)
    as (s1 & Hrun1 & Hso & Hwf1 & Hlast & Hus & Hbits); [done| |].
  { unfold range_tracked, range_pages, PAGE_SIZE; cbn [base length bitmap_size s0 pm_set_last].
    unfold block_ok in Hblk. lia. }
  exists b, s1. rewrite (bind_eq _ _ _ tt s0), (bind_eq _ _ _ tt s1) by done.
  unfold page_in, range_pages, PAGE_SIZE in *; cbn [base length] in *.
  split_and!; try done.
  split; unfold page_in, range_pages, PAGE_SIZE; cbn [base length];
    rewrite ?Hb1, ?Hn1 in *; try (Z.div_mod_to_equations; lia); auto.
  - rewrite Hlast. cbn. by rewrite u64_small by lia.
  - by destruct Hso; split.
Qed.

Lemma find_pages_found s amount r s' :
  pmm_wf s → 0 < amount < 0x8000000000000000 → r ≠ mk_range 0 0 →
  pmm_find_pages FIND_FUEL amount s = Ok (r, s') → found s amount r s'.
Proof.
  intros Hwf Ham Hr Hrun.
  destruct (find_pages_cases s amount Hwf Ham) as [(b & s1 & Heq & _ & _ & _ & Hf)|[_ Heq]];
    rewrite Heq in Hrun; [by injection Hrun as <- <-|]. case_match; congruence.
Qed.

(** ** Properties of the operations *)

(** The lock is free when the operation starts. *)
Definition pmm_ready (s : pmm_state) : Prop := pmm_wf s ∧ pm_lock s = 0.

(** Taking and giving back the lock only moves the lock word and RFLAGS.IF. *)
Definition pm_locked (s : pmm_state) : pmm_state :=
  pm_set_lock 1 (pm_set_hw (hw_set_if false (pm_hw s)) s).
Definition pm_unlocked (s : pmm_state) : pmm_state :=
  pm_set_lock 0 (pm_set_hw (hw_set_if true (pm_hw s)) s).

Lemma pm_acquire_free s : pm_lock s = 0 → pm_acquire s = Ok (tt, pm_locked s).
Proof. intros Hl. unfold pm_acquire. by rewrite Hl. Qed.
Lemma pm_release_eq s : pm_release s = Ok (tt, pm_unlocked s).
Proof. done. Qed.
Lemma pm_locked_wf s : pmm_wf s → pmm_wf (pm_locked s).
Proof. by intros []; split. Qed.
Lemma pm_unlocked_wf s : pmm_wf s → pmm_wf (pm_unlocked s).
Proof. by intros []; split. Qed.

Lemma pmm_alloc_run s amount :
  pm_lock s = 0 → 0 < pm_usable_pages s →
  pmm_alloc amount s =
    match pmm_find_pages FIND_FUEL amount (pm_locked s) with
    | Ok (r, s') => Ok (r, pm_unlocked s')
    | Err e => Err e
    end.
Proof.
  intros Hl Hu. unfold pmm_alloc. rewrite (bind_eq _ _ _ _ _ (pm_acquire_free s Hl)).
  rewrite (bind_eq _ _ _ (pm_usable_pages s) (pm_locked s)) by done.
  rewrite (bind_eq _ _ _ tt (pm_locked s)) by
    (apply assert_Ok; split; [by apply Z.ltb_lt|done]).
  unfold mbind, M_bind. destruct (pmm_find_pages _ _ _) as [[r s']|e]; done.
Qed.

Lemma pmm_alloc_usable s amount r s' :
  pm_lock s = 0 → pmm_alloc amount s = Ok (r, s') → 0 < pm_usable_pages s.
Proof.
  intros Hl Hrun. unfold pmm_alloc in Hrun.
  rewrite (bind_eq _ _ _ _ _ (pm_acquire_free s Hl)) in Hrun. inv_bind.
  match goal with H : (0 <? _) = true |- _ => by apply Z.ltb_lt in H end.
Qed.

Lemma pmm_alloc_empty s amount s' :
  pmm_ready s → 0 < amount < 0x8000000000000000 →
  pmm_alloc amount s = Ok (mk_range 0 0, s') → s' = pm_unlocked (pm_locked s).
Proof.
  intros [Hwf Hl] Ham Hrun. pose proof (pmm_alloc_usable _ _ _ _ Hl Hrun).
  rewrite pmm_alloc_run in Hrun by done.
  destruct (find_pages_cases (pm_locked s) amount (pm_locked_wf _ Hwf) Ham)
    as [(b & s1 & Heq & _)|[_ Heq]]; rewrite Heq in Hrun.
  - assert (0 < pages_for amount) by (unfold pages_for; Z.div_mod_to_equations; lia).
    exfalso. injection Hrun. lia.
  - case_match; congruence.
Qed.

(** What [pmm_alloc] promises about the range it returns. *)
Record allocated (s : pmm_state) (amount : Z) (r : range_t) (s' : pmm_state) : Prop := {
  al_base : base r mod 4096 = 0 ∧ 0 ≤ base r;
  al_length : length r = pages_for amount * 4096;
  al_hi : base r + length r ≤ bitmap_size s * 4096;
  al_free : ∀ p, page_in r p → page_free s p;
  al_bits : ∀ p, tracked s p → (page_free s' p ↔ page_free s p ∧ ¬ page_in r p);
  al_usable : pm_usable_pages s' = u64 (pm_usable_pages s - pages_for amount);
  al_ready : pmm_ready s';
  al_hw : hw_if (pm_hw s') = true ∧ hw_cr3 (pm_hw s') = hw_cr3 (pm_hw s) ∧
          hw_invlpg (pm_hw s') = hw_invlpg (pm_hw s);
  al_bitmap : bitmap s' = bitmap s ∧ bitmap_size s' = bitmap_size s;
  al_mem : ∀ x, 0 ≤ x < 0x10000000000000000 →
    ¬ in_block (bitmap s) (bitmap_size s) x → load8 (pm_mem s') x = load8 (pm_mem s) x
}.

Lemma pmm_alloc_allocated s amount r s' :
  pmm_ready s → 0 < amount < 0x8000000000000000 → r ≠ mk_range 0 0 →
  pmm_alloc amount s = Ok (r, s') → allocated s amount r s'.
Proof.
  intros [Hwf Hl] Ham Hr Hrun.
  pose proof (pmm_alloc_usable _ _ _ _ Hl Hrun) as Hu.
  rewrite pmm_alloc_run in Hrun by done.
  destruct (pmm_find_pages FIND_FUEL amount (pm_locked s)) as [[r1 s1]|] eqn:Hf; [|done].
  injection Hrun as -> <-.
  apply find_pages_found in Hf as []; auto using pm_locked_wf.
  pose proof (wf_last _ Hwf) as Hl0. destruct fd_outside0. unfold tracked, page_free in *.
  split; try done.
  - cbn in *. lia.
  - intros p Hp. specialize (fd_bits0 p Hp). unfold page_free.
    change (is_set_pmm (pm_unlocked s1) p) with (is_set_pmm s1 p).
    change (is_set_pmm (pm_locked s) p) with (is_set_pmm s p) in fd_bits0.
    rewrite fd_bits0. case_decide; naive_solver.
  - split; [by apply pm_unlocked_wf|done].
Qed.

(** A 64-page memory whose pages 0, 1 and 3 are in use; 8 bytes of bitmap. *)
Definition sample_pmm : pmm_state :=
  mk_pmm (mk_hw (store8 0x100000 0x0b (λ _, 0)) true 0 []) 0x100000 8 61 0 0.
Lemma sample_pmm_ready : pmm_ready sample_pmm.
Proof. split; [split|]; unfold block_ok; cbn; lia. Qed.



(** C33. The retry at the end of [pmm_find_pages] calls it
    again without having reset [last_page]: once the pages from a non-zero
    [last_page] up to [bitmap_size] hold no run that fits, the request never
    returns, whatever depth of recursion is allowed, even when a run that fits
    is free below [last_page]; the lock is held and interrupts are off. *)
Theorem pmm_alloc_never_returns s amount fuel :
  pmm_ready s → 0 < amount < 0x8000000000000000 → last_page s ≠ 0 →
  (∀ b, last_page s ≤ b → b + pages_for amount ≤ bitmap_size s → ¬ run_free s b (pages_for amount)) →
  pmm_find_pages fuel amount (pm_locked s) = Err OutOfFuel ∧
  pm_acquire s = Ok (tt, pm_locked s) ∧ hw_if (pm_hw (pm_locked s)) = false.
Proof.
  intros [Hwf Hl] Ham Hlast Hno. split_and!; [|by apply pm_acquire_free|done].
  destruct fuel as [|fuel]; [done|].
  destruct (find_pages_fuel fuel amount (pm_locked s)) as [?|Hone]; [done|rewrite Hone].
  destruct (find_pages_cases (pm_locked s) amount (pm_locked_wf _ Hwf) Ham)
    as [(b & s1 & _ & Hlb & Hrun & _ & Hfd)|[_ Heq]].
  - exfalso. destruct Hfd. cbn in *. apply (Hno b); auto. lia.
  - by rewrite Heq, (proj2 (Z.eqb_neq (last_page (pm_locked s)) 0) Hlast).
Qed.

(** Pages 0 to 5 are free, 6 and 7 in use, the search starts at page 6. *)
Definition sample_pmm_wrapped : pmm_state :=
  mk_pmm (mk_hw (store8 0x100000 0xc0 (λ _, 0)) true 0 []) 0x100000 8 62 6 0.
Lemma pmm_alloc_never_returns_witness :
  page_free sample_pmm_wrapped 0 ∧
  ∀ fuel, pmm_find_pages fuel 4096 (pm_locked sample_pmm_wrapped) = Err OutOfFuel.
Proof.
  split; [done|]. intros fuel.
  apply (pmm_alloc_never_returns sample_pmm_wrapped 4096 fuel); [|lia|done|].
  - split; [split|]; unfold block_ok; cbn; lia.
  - intros b Hb1 Hb2 Hfree. cbn in Hb1, Hb2. change (pages_for 4096) with 1 in *.
    specialize (Hfree b (conj (Z.le_refl _) (Z.lt_succ_diag_r _))).
    assert (b = 6 ∨ b = 7) as [->| ->] by lia; done.
Defined.

(** [pmm_free] in terms of the set of free pages. *)
Lemma pmm_free_spec s r :
  pmm_ready s → range_tracked s r →
  ∃ s', pmm_free r s = Ok (tt, s') ∧ pmm_ready s' ∧
    last_page s' = last_page s ∧ bitmap s' = bitmap s ∧ bitmap_size s' = bitmap_size s ∧
    hw_if (pm_hw s') = true ∧ hw_cr3 (pm_hw s') = hw_cr3 (pm_hw s) ∧
    hw_invlpg (pm_hw s') = hw_invlpg (pm_hw s) ∧
    pm_usable_pages s' = u64 (pm_usable_pages s + range_pages r) ∧
    (∀ p, tracked s p → (page_free s' p ↔ page_free s p ∨ page_in r p)) ∧
    (∀ x, 0 ≤ x < 0x10000000000000000 →
       ¬ in_block (bitmap s) (bitmap_size s) x → load8 (pm_mem s') x = load8 (pm_mem s) x).
Proof.
  intros [Hwf Hl] Hr. unfold pmm_free. rewrite (bind_eq _ _ _ _ _ (pm_acquire_free s Hl)).
  destruct (set_range_spec false r (pm_locked s)) as (s1 & Hrun & [] & Hwf1 & Hlast & Hus & Hbits);
    [by apply pm_locked_wf|done|].
  rewrite pmm_range_unused_set, (bind_eq _ _ _ _ _ Hrun), pm_release_eq.
  exists (pm_unlocked s1). split_and!; try done.
  - split; [by apply pm_unlocked_wf|done].
  - intros p Hp. specialize (Hbits p Hp). unfold page_free.
    change (is_set_pmm (pm_unlocked s1) p) with (is_set_pmm s1 p).
    change (is_set_pmm (pm_locked s) p) with (is_set_pmm s p) in Hbits.
    rewrite Hbits. case_decide; naive_solver.
Qed.

(** A client's view: the ranges it was handed and has not given back.  It asks
    for any amount and frees any range it still holds. *)
Inductive client_step : pmm_state * list range_t → pmm_state * list range_t → Prop :=
| client_alloc s live amount r s' :
    0 < amount < 0x8000000000000000 → pmm_alloc amount s = Ok (r, s') →
    client_step (s, live) (s', if length r =? 0 then live else r :: live)
| client_free s l1 r l2 s' :
    pmm_free r s = Ok (tt, s') → client_step (s, l1 ++ r :: l2) (s', l1 ++ l2).

(** Held ranges are tracked and in use, and no page is held twice. *)
Record live_ok (c : pmm_state * list range_t) : Prop := {
  lv_ready : pmm_ready c.1;
  lv_range r : r ∈ c.2 → range_tracked c.1 r ∧ ∀ p, page_in r p → tracked c.1 p ∧ ¬ page_free c.1 p;
  lv_disjoint : ∀ l1 r l2, c.2 = l1 ++ r :: l2 → ∀ r' p, r' ∈ l1 ++ l2 → page_in r p → ¬ page_in r' p
}.

Lemma split_cons {A} (x : A) live l1 r l2 :
  x :: live = l1 ++ r :: l2 →
  (r = x ∧ l1 ++ l2 = live) ∨ ∃ k, live = k ++ r :: l2 ∧ l1 = x :: k.
Proof. destruct l1 as [|y k]; intros [= -> ->]; [by left|right; eauto]. Qed.

Lemma range_tracked_page s r p : range_tracked s r → page_in r p → tracked s p.
Proof.
  unfold range_tracked, page_in, tracked, PAGE_SIZE. intros (? & ? & ?) ?. Z.div_mod_to_equations; lia.
Qed.

Lemma client_alloc_ok s live amount r s' :
  0 < amount < 0x8000000000000000 → pmm_alloc amount s = Ok (r, s') →
  live_ok (s, live) → live_ok (s', if length r =? 0 then live else r :: live).
Proof.
  intros Ham Hrun [Hs Hr Hd]; cbn [fst snd] in *.
  destruct (decide (r = mk_range 0 0)) as [->|Hne].
  { pose proof (pmm_alloc_empty s amount s' Hs Ham Hrun) as ->. cbn [length Z.eqb].
    split; try done. split; [apply pm_unlocked_wf, pm_locked_wf, Hs|done]. }
  destruct (pmm_alloc_allocated s amount r s' Hs Ham Hne Hrun).
  destruct al_base0 as [Hal Hb0], al_bitmap0 as [Hbm Hsz].
  assert (0 < pages_for amount) by (unfold pages_for; Z.div_mod_to_equations; lia).
  assert (length r ≠ 0) as Hl0 by lia. rewrite (proj2 (Z.eqb_neq _ _) Hl0).
  assert (∀ r0, r0 ∈ live → ∀ p, page_in r0 p → ¬ page_in r p) as Hsep.
  { intros r0 Hr0 p Hp Hin. apply (Hr r0 Hr0) in Hp as [_ Hp]. by apply Hp, al_free0. }
  split; [done|..]; cbn [fst snd].
  - intros r0 [-> |Hr0]%elem_of_cons.
    + assert (range_tracked s' r) as Ht.
      { unfold range_tracked, range_pages, PAGE_SIZE. rewrite Hsz. Z.div_mod_to_equations; lia. }
      split; [done|]. intros p Hp. pose proof (range_tracked_page _ _ _ Ht Hp) as Htp.
      split; [done|]. rewrite al_bits0 by (unfold tracked in *; lia). tauto.
    + destruct (Hr r0 Hr0) as [Ht Hp0]. unfold range_tracked, tracked in *. rewrite Hsz.
      split; [done|]. intros p Hp. destruct (Hp0 p Hp). split; [done|].
      rewrite al_bits0 by done. tauto.
  - intros l1 r0 l2 Hl r1 p Hr1 Hp0 Hp1.
    apply split_cons in Hl as [[-> <-]|(k & -> & ->)]; [by eapply Hsep|].
    cbn [app] in Hr1. apply elem_of_cons in Hr1 as [-> |Hr1]; [|by eapply Hd].
    eapply Hsep; [|exact Hp0|exact Hp1]. set_solver.
Qed.

Lemma client_free_ok s l1 r l2 s' :
  pmm_free r s = Ok (tt, s') → live_ok (s, l1 ++ r :: l2) → live_ok (s', l1 ++ l2).
Proof.
  intros Hrun [Hs Hr Hd]; cbn [fst snd] in *.
  destruct (Hr r) as [Ht _]; [set_solver|].
  destruct (pmm_free_spec s r Hs Ht) as (s1 & Hrun' & Hs1 & _ & Hbm & Hsz & _ & _ & _ & _ & Hbits & _).
  rewrite Hrun' in Hrun. injection Hrun as ->.
  split; [done|..]; cbn [fst snd].
  - intros r0 Hr0. destruct (Hr r0) as [Ht0 Hp0]; [set_solver|]. unfold range_tracked, tracked in *.
    rewrite Hsz. split; [done|]. intros p Hp. destruct (Hp0 p Hp) as [Htp Hnf]. split; [done|].
    rewrite Hbits by done. intros [?|Hin]; [done|]. by apply (Hd l1 r l2 eq_refl r0 p).
  - intros k1 r0 k2 Hk r1 p Hr1 Hp0 Hp1.
    assert (∃ m1 m2, l1 ++ r :: l2 = m1 ++ r0 :: m2 ∧ k1 ++ k2 ⊆ m1 ++ m2) as (m1 & m2 & Hm & Hsub).
    { apply app_eq_app in Hk as (j & [[-> Hj]|[-> Hj] ]).
      - destruct j as [|x j]; cbn in Hj.
        + subst l2. exists (k1 ++ [r]), k2. rewrite app_nil_r, <- app_assoc. split; [done|set_solver].
        + injection Hj as -> ->. exists k1, (j ++ r :: l2). rewrite <- !app_assoc. split; [done|set_solver].
      - subst l2. exists (l1 ++ r :: j), k2. rewrite <- app_assoc. split; [done|set_solver]. }
    apply (Hd m1 r0 m2 Hm r1 p); auto.
Qed.

(** C1. Along every sequence of allocations and frees, started
    with nothing handed out, the ranges a client holds are pairwise disjoint,
    page by page, none of their pages is free for a later allocation, and the
    allocator's invariant (bitmap, counters, lock released) holds after each
    operation. *)
Theorem pmm_live_disjoint s s' live :
  pmm_ready s → star client_step (s, []) (s', live) → live_ok (s', live).
Proof.
  intros Hs Hstar. apply (star_inv client_step live_ok) with (s, []); [|done|].
  - intros c c' [] Hc; [by eapply client_alloc_ok|by eapply client_free_ok].
  - split; [done|by intros r ?%elem_of_nil|]. intros l1 r l2 Hl. by destruct l1.
Qed.

Lemma pmm_live_disjoint_witness :
  ∃ s' r1 r2, live_ok (s', [r2; r1]) ∧ r1 = mk_range 0x2000 0x1000 ∧ r2 = mk_range 0x4000 0x2000.
Proof.
  destruct (pmm_alloc 4096 sample_pmm) as [[r1 s1]|e] eqn:H1; [|vm_compute in H1; discriminate].
  assert (r1 = mk_range 0x2000 0x1000) as -> by (vm_compute in H1; congruence).
  destruct (pmm_alloc 4097 s1) as [[r2 s2]|e] eqn:H2; vm_compute in H1; injection H1 as <-;
    [|vm_compute in H2; discriminate].
  assert (r2 = mk_range 0x4000 0x2000) as -> by (vm_compute in H2; congruence).
  eexists s2, _, _. split; [|done]. apply (pmm_live_disjoint sample_pmm); [apply sample_pmm_ready|].
  eapply star_step; [by apply (client_alloc _ _ 4096 (mk_range 0x2000 0x1000))|].
  eapply star_step; [|apply star_refl]. by apply (client_alloc _ _ 4097 (mk_range 0x4000 0x2000)).
Defined.

Lemma pages_for_range amount b :
  range_pages (mk_range b (pages_for amount * 4096)) = pages_for amount.
Proof. apply Z.div_mul. done. Qed.

(** C17. Giving an allocated range back restores the set
    of free pages and the count of usable pages to what they were before the allocation. *)
Theorem pmm_alloc_free_roundtrip s amount r s1 :
  pmm_ready s → 0 < amount < 0x8000000000000000 → r ≠ mk_range 0 0 →
  pmm_alloc amount s = Ok (r, s1) →
  ∃ s2, pmm_free r s1 = Ok (tt, s2) ∧ pmm_ready s2 ∧
    pm_usable_pages s2 = pm_usable_pages s ∧
    ∀ p, tracked s p → (page_free s2 p ↔ page_free s p).
Proof.
  intros Hs Ham Hr Hrun. pose proof Hs as [Hwf _].
  destruct (pmm_alloc_allocated s amount r s1 Hs Ham Hr Hrun).
  destruct al_base0 as [Hal Hb0], al_bitmap0 as [Hbm Hsz].
  assert (0 < pages_for amount) by (unfold pages_for; Z.div_mod_to_equations; lia).
  assert (0 ≤ bitmap_size s) by apply (wf_block _ Hwf).
  assert (range_pages r = pages_for amount) as Hpg.
  { unfold range_pages, PAGE_SIZE. rewrite al_length0. by apply Z.div_mul. }
  destruct (pmm_free_spec s1 r) as (s2 & Hfree & Hs2 & _ & _ & _ & _ & _ & _ & Hus & Hbits & _);
    [done| |].
  { unfold range_tracked. rewrite Hpg, Hsz. unfold PAGE_SIZE. Z.div_mod_to_equations; lia. }
  exists s2. split_and!; [done|done| |].
  - rewrite Hus, al_usable0, Hpg, u64_add_l. transitivity (u64 (pm_usable_pages s)); [f_equal; lia|].
    apply u64_small, (wf_usable _ Hwf).
  - intros p Hp. rewrite Hbits by (unfold tracked in *; lia). rewrite al_bits0 by done.
    split; [|destruct (decide (page_in r p)); tauto]. intros [[]|Hin]; [done|]. by apply al_free0.
Qed.

Lemma pmm_alloc_free_roundtrip_witness :
  ∃ s1 s2, pmm_alloc 4096 sample_pmm = Ok (mk_range 0x2000 0x1000, s1) ∧
    pmm_free (mk_range 0x2000 0x1000) s1 = Ok (tt, s2) ∧ pm_usable_pages s2 = 61.
Proof.
  destruct (pmm_alloc 4096 sample_pmm) as [[r s1]|e] eqn:Hrun; [|vm_compute in Hrun; discriminate].
  assert (r = mk_range 0x2000 0x1000) as -> by (vm_compute in Hrun; congruence).
  destruct (pmm_alloc_free_roundtrip sample_pmm 4096 (mk_range 0x2000 0x1000) s1 sample_pmm_ready)
    as (s2 & Hfree & _ & Hus & _); [done|discriminate|exact Hrun|].
  exists s1, s2. done.
Defined.

(** The other ways out of [pmm_alloc]: with the lock
    taken it spins for ever, with no usable page left the assertion fails, with
    nothing that fits from page 0 on it returns the empty range and changes
    nothing but RFLAGS.IF, and a request for 0 bytes returns the empty range
    and moves the start of the search back to page 0. *)
Theorem pmm_alloc_error_paths s amount :
  (pm_lock s = 1 → pmm_alloc amount s = Err Spinning) ∧
  (pm_lock s = 0 → pm_usable_pages s = 0 → pmm_alloc amount s = Err AssertFailed) ∧
  (pmm_ready s → 0 < pm_usable_pages s → 0 < amount < 0x8000000000000000 → last_page s = 0 →
     (∀ b, 0 ≤ b → b + pages_for amount ≤ bitmap_size s → ¬ run_free s b (pages_for amount)) →
     pmm_alloc amount s = Ok (mk_range 0 0, pm_unlocked (pm_locked s))) ∧
  (pmm_ready s → 0 < pm_usable_pages s →
     pmm_alloc 0 s = Ok (mk_range 0 0, pm_unlocked (pm_set_last 0 (pm_locked s)))).
Proof.
  split_and!.
  - intros Hl. unfold pmm_alloc. apply bind_Err. unfold pm_acquire. by rewrite Hl.
  - intros Hl Hu. unfold pmm_alloc. rewrite (bind_eq _ _ _ _ _ (pm_acquire_free s Hl)).
    rewrite (bind_eq _ _ _ (pm_usable_pages s) (pm_locked s)) by done.
    apply bind_Err. by rewrite Hu.
  - intros [Hwf Hl] Hu Ham Hlast Hno. rewrite pmm_alloc_run by done.
    destruct (find_pages_cases (pm_locked s) amount (pm_locked_wf _ Hwf) Ham)
      as [(b & s1 & _ & Hlb & Hrun & _ & Hfd)|[_ Heq]].
    + exfalso. destruct Hfd. cbn in *. apply (Hno b); auto; lia.
    + rewrite Heq. cbn. by rewrite Hlast.
  - intros [Hwf Hl] Hu. rewrite pmm_alloc_run by done. unfold FIND_FUEL. cbn [pmm_find_pages].
    assert (∀ k i, find_loop (pm_locked s) 0 k i (mk_range 0 0) = mk_range 0 0) as Hloop.
    { intros [|k] i; cbn; [done|]. by rewrite andb_false_r. }
    by rewrite Hloop.
Qed.

Lemma pmm_alloc_error_paths_witness :
  pmm_alloc 5 (pm_set_lock 1 sample_pmm) = Err Spinning ∧
  pmm_alloc 5 (pm_set_usable 0 sample_pmm) = Err AssertFailed.
Proof.
  split; [by apply (proj1 (pmm_alloc_error_paths (pm_set_lock 1 sample_pmm) 5))|].
  by apply (proj1 (proj2 (pmm_alloc_error_paths (pm_set_usable 0 sample_pmm) 5))).
Defined.

(** The search compares page numbers with
    [bitmap_size], which counts the bytes of the bitmap: of the
    [8 * bitmap_size] pages that have a bit, those from [bitmap_size] on are
    never handed out, free or not. *)
Theorem pmm_upper_pages_unreachable s amount r s' p :
  pmm_ready s → 0 < amount < 0x8000000000000000 →
  pmm_alloc amount s = Ok (r, s') → page_in r p → p < bitmap_size s.
Proof.
  intros Hs Ham Hrun Hin. destruct (decide (r = mk_range 0 0)) as [->|Hr].
  - exfalso. change (0 ≤ p < 0 + 0) in Hin. lia.
  - destruct (pmm_alloc_allocated s amount r s' Hs Ham Hr Hrun).
    destruct al_base0. unfold page_in, range_pages, PAGE_SIZE in Hin. Z.div_mod_to_equations; lia.
Qed.

Lemma pmm_upper_pages_unreachable_witness :
  ∃ r s', pmm_alloc 4096 sample_pmm = Ok (r, s') ∧ 2 < bitmap_size sample_pmm ∧
    tracked sample_pmm 8 ∧ page_free sample_pmm 8.
Proof.
  destruct (pmm_alloc 4096 sample_pmm) as [[r s']|e] eqn:Hrun; [|vm_compute in Hrun; discriminate].
  exists r, s'. split; [done|]. split; [|done].
  apply (pmm_upper_pages_unreachable _ 4096 r s' 2 sample_pmm_ready); [done|exact Hrun|].
  assert (r = mk_range 0x2000 0x1000) as -> by (vm_compute in Hrun; congruence). done.
Defined.

(** ** Initialisation *)

Definition free_page_of (es : list mmap_entry) (p : Z) : Prop :=
  ∃ e, e ∈ es ∧ me_is_free e = true ∧ page_in (me_range e) p.
Definition free_page_count (es : list mmap_entry) : Z :=
  foldr (λ e n, (if me_is_free e then range_pages (me_range e) else 0) + n) 0 es.

(** A region the boot protocol may mark usable: whole pages, below [limit]. *)
Definition region_ok (limit : Z) (e : mmap_entry) : Prop :=
  me_is_free e = true →
  base (me_range e) mod 4096 = 0 ∧ length (me_range e) mod 4096 = 0 ∧
  0 ≤ base (me_range e) ∧ 0 ≤ length (me_range e) ∧
  base (me_range e) + length (me_range e) ≤ limit.

Lemma free_entry_spec s e :
  pmm_wf s → region_ok (bitmap_size s * 0x8000) e →
  ∃ s', free_entry e s = Ok (tt, s') ∧ same_outside s s' ∧ pmm_wf s' ∧ last_page s' = last_page s ∧
    pm_usable_pages s' = u64 (pm_usable_pages s + free_page_count [e]) ∧
    ∀ p, tracked s p → (page_free s' p ↔ page_free s p ∨ free_page_of [e] p).
Proof.
  intros Hwf He. unfold free_entry, when, free_page_count; cbn [foldr].
  destruct (me_is_free e) eqn:Hfree.
  - destruct (He Hfree) as (Hb & Hl & Hb0 & Hl0 & Hlim). pose proof (wf_size _ Hwf).
    destruct (ALIGN_aligned (base (me_range e))) as [Hdn _]; [lia..|].
    destruct (ALIGN_aligned (length (me_range e))) as [_ Hup]; [lia..|].
    rewrite Hdn, Hup, pmm_range_unused_set.
    replace (mk_range (base (me_range e)) (length (me_range e))) with (me_range e)
      by (by destruct (me_range e)).
    destruct (set_range_spec false (me_range e) s) as (s' & Hrun & Hso & Hwf' & Hlast & Hus & Hbits);
      [done| |].
    { unfold range_tracked, range_pages, PAGE_SIZE. Z.div_mod_to_equations; lia. }
    exists s'. split_and!; auto; [by rewrite Hus, Z.add_0_r|].
    intros p Hp. unfold page_free. rewrite Hbits by done. unfold free_page_of.
    setoid_rewrite list_elem_of_singleton. case_decide; naive_solver.
  - exists s. split_and!; try done.
    + rewrite !Z.add_0_r. symmetry. apply u64_small, (wf_usable _ Hwf).
    + intros p _. split; [by left|]. intros [?|(e' & ->%list_elem_of_singleton & Hf & _)]; [done|].
      congruence.
Qed.

Lemma free_entries_spec s es :
  pmm_wf s → Forall (region_ok (bitmap_size s * 0x8000)) es →
  ∃ s', free_entries es s = Ok (tt, s') ∧ same_outside s s' ∧ pmm_wf s' ∧ last_page s' = last_page s ∧
    pm_usable_pages s' = u64 (pm_usable_pages s + free_page_count es) ∧
    ∀ p, tracked s p → (page_free s' p ↔ page_free s p ∨ free_page_of es p).
Proof.
  revert s. induction es as [|e es IH]; intros s Hwf Hes.
  - exists s. split_and!; try done.
    + cbn. rewrite Z.add_0_r. symmetry. apply u64_small, (wf_usable _ Hwf).
    + intros p _. unfold free_page_of. setoid_rewrite elem_of_nil. naive_solver.
  - apply Forall_cons in Hes as [He Hes].
    destruct (free_entry_spec s e) as (s1 & Hrun1 & Hso1 & Hwf1 & Hl1 & Hus1 & Hb1); [done..|].
    pose proof (so_size _ _ Hso1) as Hsz.
    destruct (IH s1) as (s2 & Hrun2 & Hso2 & Hwf2 & Hl2 & Hus2 & Hb2); [done|by rewrite Hsz|].
    exists s2. cbn [free_entries]. rewrite (bind_eq _ _ _ _ _ Hrun1). split_and!; try done.
    + by etrans.
    + congruence.
    + rewrite Hus2, Hus1, u64_add_l. f_equal. unfold free_page_count. cbn [foldr]. lia.
    + intros p Hp. rewrite Hb2 by (unfold tracked in *; lia). rewrite Hb1 by done.
      unfold free_page_of. setoid_rewrite elem_of_cons. setoid_rewrite elem_of_nil. naive_solver.
Qed.

(** The region that receives the bitmap, and what is left of it. *)
Definition cut_region (size : Z) (e : mmap_entry) : mmap_entry :=
  mk_mmap (mk_range (u64 (base (me_range e) + ALIGN_UP size PAGE_SIZE))
                    (u64 (length (me_range e) - ALIGN_UP size PAGE_SIZE)))
    (me_type e) (me_is_free e).

Lemma place_bitmap_done size b es : b ≠ 0 → place_bitmap size b es = (b, es).
Proof. intros Hb. destruct es as [|e es]; cbn [place_bitmap]; [done|]. by rewrite (proj2 (Z.eqb_neq b 0) Hb). Qed.

Lemma place_bitmap_first size pre e post :
  Forall (λ e, (me_is_free e && (size <? length (me_range e))) = false) pre →
  me_is_free e = true → size < length (me_range e) → mmap_phys_to_io (base (me_range e)) ≠ 0 →
  place_bitmap size 0 (pre ++ e :: post) =
    (mmap_phys_to_io (base (me_range e)), pre ++ cut_region size e :: post).
Proof.
  intros Hpre Hfree Hlen Hne. induction Hpre as [|x pre Hx Hpre IH]; cbn [app place_bitmap].
  - rewrite Hfree, (proj2 (Z.ltb_lt _ _) Hlen). cbn [andb Z.eqb]. rewrite place_bitmap_done by done. unfold cut_region. by rewrite Hfree.
  - cbn [Z.eqb]. by rewrite Hx, IH.
Qed.

(** The memory map the boot protocol documents, seen from [pmm_init]: the last
    announced entry ends at [size * 0x8000] bytes, free regions are whole pages
    below that, and [e] is the first of them that is larger than the bitmap. *)
Record boot_map (h : handover) (size : Z) (pre : list mmap_entry) (e : mmap_entry)
    (post : list mmap_entry) : Prop := {
  bm_entries : take (Z.to_nat (memory_map_size h)) (mmap h) = pre ++ e :: post;
  bm_last : ∃ l, index (mmap h) (memory_map_size h - 1) = Ok l ∧
    u64 (base (me_range l) + length (me_range l)) / 0x8000 = size;
  bm_size : 0 < size ≤ 0x10000000;
  bm_regions : Forall (region_ok (size * 0x8000)) (pre ++ e :: post);
  bm_pre : Forall (λ e, (me_is_free e && (size <? length (me_range e))) = false) pre;
  bm_free : me_is_free e = true;
  bm_room : size < length (me_range e)
}.

(** The bitmap after [memset(bitmap, 0xff, bitmap_size)]. *)
Lemma memset_ff_used s p :
  block_ok (bitmap s) (bitmap_size s) → tracked s p →
  ¬ page_free (pm_set_mem (memset (bitmap s) 0xff (bitmap_size s)) s) p.
Proof.
  intros Hblk Hp. unfold page_free, tracked, block_ok in *. rewrite is_set_testbit by lia.
  change (pm_mem (pm_set_mem ?f s)) with (f (pm_mem s)).
  change (bitmap (pm_set_mem ?f s)) with (bitmap s).
  rewrite load8_memset by (unfold block_ok; Z.div_mod_to_equations; lia).
  rewrite decide_True by (unfold in_block; Z.div_mod_to_equations; lia).
  assert (p mod 8 = 0 ∨ p mod 8 = 1 ∨ p mod 8 = 2 ∨ p mod 8 = 3 ∨ p mod 8 = 4 ∨ p mod 8 = 5 ∨
    p mod 8 = 6 ∨ p mod 8 = 7) as Hm by (Z.div_mod_to_equations; lia).
  destruct_or! Hm; by rewrite Hm.
Qed.

(** Where the bitmap goes, and what the region it is cut from becomes. *)
Lemma boot_map_facts h size pre e post :
  boot_map h size pre e post →
  mmap_phys_to_io (base (me_range e)) = frame_io (base (me_range e) / 4096) ∧
  mmap_io_to_phys (frame_io (base (me_range e) / 4096)) = base (me_range e) ∧
  frame_io (base (me_range e) / 4096) ≠ 0 ∧
  block_ok (frame_io (base (me_range e) / 4096)) size ∧
  0 ≤ base (me_range e) ∧ base (me_range e) + size ≤ size * 0x8000 ∧
  Forall (region_ok (size * 0x8000)) (pre ++ cut_region size e :: post).
Proof.
  intros [Hes _ Hsz Hreg Hpre Hfree Hroom].
  assert (region_ok (size * 0x8000) e) as He
    by (apply (proj1 (Forall_forall _ _) Hreg); set_solver).
  destruct (He Hfree) as (Hb & Hlen & Hb1 & Hl1 & Hlim).
  destruct (ALIGN_UP_bounds size) as [Hup Hupm]; [lia..|].
  assert (ALIGN_UP size PAGE_SIZE ≤ length (me_range e)) by (Z.div_mod_to_equations; lia).
  assert (base (me_range e) = base (me_range e) / 4096 * 4096) as Hbase
    by (Z.div_mod_to_equations; lia).
  assert (0 ≤ base (me_range e) / 4096 < 0x800000000) by (Z.div_mod_to_equations; lia).
  rewrite Hbase at 1. rewrite mmap_phys_to_io_frame, mmap_io_to_phys_frame by done.
  unfold block_ok, frame_io, MMAP_IO_BASE. split_and!; try lia.
  apply Forall_app in Hreg as [Hr1 [_ Hr2]%Forall_cons]. apply Forall_app; split; [done|].
  apply Forall_cons; split; [|done]. intros _. cbn.
  rewrite !u64_small by lia. split_and!; try lia; Z.div_mod_to_equations; lia.
Qed.

(** [pmm_init] up to the loop that frees the regions. *)
Lemma pmm_init_run h size pre e post s :
  boot_map h size pre e post → bitmap s = 0 →
  let b := frame_io (base (me_range e) / 4096) in
  let es := pre ++ cut_region size e :: post in
  pmm_init h s =
    (free_entries es ≫= λ _, set_range true (mk_range (base (me_range e)) size) ≫= λ _,
     mret (es ++ drop (Z.to_nat (memory_map_size h)) (mmap h)))
      (pm_set_mem (memset b 0xff size) (pm_set_bitmap b (pm_set_bitmap_size size s))).
Proof.
  intros Hbm Hb0 b es. destruct (boot_map_facts h size pre e post Hbm) as (Hio & Hphys & Hne & _).
  destruct Hbm as [Hes (l & Hl & Hsize) _ _ Hpre Hfree Hroom]. unfold pmm_init.
  rewrite (bind_eq _ _ _ l s) by (unfold lift; by rewrite Hl).
  change (PAGE_SIZE * 8) with 0x8000. rewrite Hsize, Hes.
  rewrite (bind_eq _ _ _ tt (pm_set_bitmap_size size s)) by done.
  rewrite (bind_eq _ _ _ 0 (pm_set_bitmap_size size s)) by (unfold gets; cbn; by rewrite Hb0).
  rewrite place_bitmap_first by (rewrite ?Hio; done). rewrite Hio. fold es. fold b in Hne, Hphys |- *.
  rewrite (bind_eq _ _ _ tt (pm_set_bitmap b (pm_set_bitmap_size size s))) by done.
  rewrite (bind_eq _ _ _ tt (pm_set_bitmap b (pm_set_bitmap_size size s))) by
    (apply assert_Ok; split; [unfold truth; by rewrite (proj2 (Z.eqb_neq b 0) Hne)|done]).
  by rewrite pmm_range_used_set, Hphys.
Qed.

(** C22. On a memory map of the documented shape [pmm_init]
    succeeds: the bitmap lies at the start of the first free region larger than
    it, that region loses the pages of the bitmap, and a page is free exactly
    when it lies in a free region of the new map and not in a whole page of the
    bitmap; memory outside the bitmap is untouched.  [usable_pages] is the number
    of pages of the free regions less the pages of the bitmap, although those
    were never counted. *)
Theorem pmm_init_free_set h size pre e post s :
  boot_map h size pre e post →
  bitmap s = 0 → pm_usable_pages s = 0 → last_page s = 0 →
  ∃ s', pmm_init h s = Ok (pre ++ cut_region size e :: post ++
            drop (Z.to_nat (memory_map_size h)) (mmap h), s') ∧
    pmm_wf s' ∧ pm_lock s' = pm_lock s ∧
    bitmap s' = frame_io (base (me_range e) / 4096) ∧ bitmap_size s' = size ∧
    pm_usable_pages s' =
      u64 (free_page_count (pre ++ cut_region size e :: post) - size / 4096) ∧
    (∀ p, tracked s' p →
       (page_free s' p ↔ free_page_of (pre ++ cut_region size e :: post) p ∧
          ¬ page_in (mk_range (base (me_range e)) size) p)) ∧
    (∀ x, 0 ≤ x < 0x10000000000000000 → ¬ in_block (bitmap s') size x →
       load8 (pm_mem s') x = load8 (pm_mem s) x).
Proof.
  intros Hbm Hb0 Hu0 Hlast0. rewrite (pmm_init_run h size pre e post s) by done.
  destruct (boot_map_facts h size pre e post Hbm) as (_ & _ & _ & Hblk & Hb & Hlim & Hreg).
  set (b := frame_io _) in *. set (es := pre ++ cut_region size e :: post) in *.
  set (s1 := pm_set_bitmap b (pm_set_bitmap_size size s)).
  set (s2 := pm_set_mem (memset b 0xff size) s1). pose proof (bm_size _ _ _ _ _ Hbm) as Hsz.
  assert (pmm_wf s2) as Hwf2 by (split; cbn; auto; lia).
  assert (∀ p, tracked s2 p → ¬ page_free s2 p) as Hset2 by (intros p; apply (memset_ff_used s1 p Hblk)).
  destruct (free_entries_spec s2 es) as (s3 & Hrun3 & Hso3 & Hwf3 & Hl3 & Hus3 & Hb3); [done..|].
  destruct (set_range_spec true (mk_range (base (me_range e)) size) s3)
    as (s4 & Hrun4 & Hso4 & Hwf4 & Hl4 & Hus4 & Hb4); [done| |].
  { unfold range_tracked, range_pages, PAGE_SIZE; cbn [base length]. rewrite (so_size _ _ Hso3). cbn.
    Z.div_mod_to_equations; lia. }
  exists s4. rewrite (bind_eq _ _ _ _ _ Hrun3), (bind_eq _ _ _ _ _ Hrun4).
  assert (same_outside s2 s4) as Hso by (by etrans).
  split; [subst es; by rewrite <- app_assoc|].
  destruct Hso. unfold page_free, tracked in *. split_and!; try done.
  - rewrite Hus4, Hus3. unfold count_bit. rewrite u64_sub_l.
    change (pm_usable_pages s2) with (pm_usable_pages s). by rewrite Hu0.
  - intros p Hp. rewrite so_size0 in Hp. cbn in Hp.
    rewrite Hb4 by (rewrite (so_size _ _ Hso3); done).
    case_decide; [naive_solver|]. rewrite Hb3 by done. specialize (Hset2 p Hp). naive_solver.
  - intros x Hx Hout. rewrite so_bitmap0 in Hout.
    rewrite so_mem0 by done. change (pm_mem s2) with (memset b 0xff size (pm_mem s)).
    rewrite load8_memset by done. by rewrite decide_False.
Qed.

(** Two megabytes: a reserved page, a free region, a reserved tail. *)
Definition sample_map : handover :=
  mk_handover 0 0 3 0 (mk_fb 0 0 0 0)
    [mk_mmap (mk_range 0 0x1000) 2 false; mk_mmap (mk_range 0x1000 0x1fe000) 1 true;
     mk_mmap (mk_range 0x1ff000 0x1000) 2 false] 0 [].
Definition sample_boot : pmm_state := mk_pmm (mk_hw (λ _, 0x5a) true 0 []) 0 0 0 0 0.

Lemma pmm_init_free_set_witness :
  ∃ es s', pmm_init sample_map sample_boot = Ok (es, s') ∧
    bitmap s' = 0xffff800000001000 ∧ pm_usable_pages s' = 509 ∧
    page_free s' 2 ∧ ¬ page_free s' 1 ∧ ¬ page_free s' 511.
Proof.
  set (e1 := mk_mmap (mk_range 0x1000 0x1fe000) 1 true).
  destruct (pmm_init_free_set sample_map 64 [mk_mmap (mk_range 0 0x1000) 2 false] e1
    [mk_mmap (mk_range 0x1ff000 0x1000) 2 false] sample_boot)
    as (s' & Hrun & Hwf & _ & Hb & Hsz & Hus & Hfree & _); try done.
  - split; try done.
    + eexists. split; done.
    + repeat constructor; intros Hf; try discriminate Hf; vm_compute; split_and!; congruence.
    + repeat constructor.
  - eexists _, s'. split_and!; [exact Hrun|done|done| | |];
      rewrite Hfree by (unfold tracked; rewrite Hsz; lia); clear.
    + split; [|change (¬ 1 ≤ 2 < 1 + 0); lia].
      exists (cut_region 64 e1). split; [by apply elem_of_app; right; left|].
      split; [done|]. split; vm_compute; congruence.
    + intros [(e & He & Hf & Hin) _].
      cbn [app] in He. rewrite !elem_of_cons, elem_of_nil in He. destruct_or! He; subst; try done.
      destruct Hin as [Hin _]. vm_compute in Hin. done.
    + intros [(e & He & Hf & Hin) _].
      cbn [app] in He. rewrite !elem_of_cons, elem_of_nil in He. destruct_or! He; subst; try done.
      destruct Hin as [_ Hin]. vm_compute in Hin. done.
Defined.

(** ** The bitmap allocator is a frame allocator *)

#[export] Instance pmm_frame_allocator : FrameAllocator pmm_state := {
  fa_hw := pm_hw;
  fa_set_hw := pm_set_hw;
  fa_alloc := pmm_alloc;
  fa_free := pmm_free
}.

Definition pmm_private (s : pmm_state) (x : Z) : Prop := in_block (bitmap s) (bitmap_size s) x.
(** A frame the search can return. *)
Definition pmm_avail (s : pmm_state) (f : Z) : Prop :=
  0 ≤ f < bitmap_size s ∧ page_free s f.

Lemma is_set_ext s s' p :
  pmm_wf s → tracked s p → bitmap s' = bitmap s →
  (∀ x, 0 ≤ x < 0x10000000000000000 → pmm_private s x → load8 (pm_mem s') x = load8 (pm_mem s) x) →
  is_set_pmm s' p = is_set_pmm s p.
Proof.
  intros Hwf Hp Hb Hmem. unfold is_set_pmm. rewrite Hb, Hmem; [done| |];
    pose proof (wf_block _ Hwf); unfold block_ok, tracked, pmm_private, in_block in *;
    Z.div_mod_to_equations; lia.
Qed.

Lemma pages_for_page : pages_for PAGE_SIZE = 1.
Proof. done. Qed.
Lemma page_in_frame f p : page_in (frame_range f) p ↔ p = f.
Proof.
  unfold page_in, range_pages, PAGE_SIZE; cbn [frame_range base length].
  rewrite Z.div_mul by done. change (4096 / 4096) with 1. lia.
Qed.

(** No free frame holds a byte of the bitmap; [pmm_init] establishes it by never
    freeing the pages of the bitmap. *)
Definition bitmap_reserved (s : pmm_state) : Prop :=
  ∀ f x, pmm_avail s f → in_block (frame_io f) 4096 x → ¬ pmm_private s x.
Definition pmm_fa_ok (s : pmm_state) : Prop :=
  pmm_ready s ∧ bitmap_size s ≤ 0x100000000 ∧ bitmap_reserved s.

(** [n] free pages at or after the start of the search. *)
Definition pmm_supply (n : nat) (s : pmm_state) : Prop :=
  Z.of_nat n ≤ pm_usable_pages s ∧
  ∃ l, StronglySorted Z.lt l ∧ List.length l = n ∧
    Forall (λ f, last_page s ≤ f < bitmap_size s ∧ page_free s f) l.

Lemma pmm_supply_weaken n m s : (m ≤ n)%nat → pmm_supply n s → pmm_supply m s.
Proof.
  intros Hm [Hu (l & Hs & Hn & Hf)]. split; [lia|]. exists (drop (n - m) l).
  rewrite length_drop. split_and!; [|lia|by apply Forall_drop].
  clear -Hs. generalize (n - m)%nat as k. intros k. revert l Hs.
  induction k as [|k IH]; intros l Hs; [done|]. destruct Hs; [constructor|]. by apply IH.
Qed.

Lemma pmm_supply_0 s : pmm_fa_ok s → pmm_supply 0 s.
Proof.
  intros [[Hwf _] _]. split; [apply (wf_usable _ Hwf)|]. exists []. by repeat constructor.
Qed.

Lemma pmm_supply_alloc n s :
  pmm_fa_ok s → pmm_supply (S n) s →
  ∃ r s', pmm_alloc PAGE_SIZE s = Ok (r, s') ∧ 0 < length r ∧ pmm_supply n s'.
Proof.
  intros [[Hwf Hl] [Hsz _]] [Hu (l & Hs & Hn & Hf)].
  destruct l as [|x l]; [done|]. apply Forall_cons in Hf as [[Hx Hxf] Hf].
  apply StronglySorted_inv in Hs as [Hs Hlt]. pose proof (wf_usable _ Hwf).
  pose proof (wf_last _ Hwf) as Hl0. rewrite pmm_alloc_run by (done || lia).
  destruct (find_pages_cases (pm_locked s) PAGE_SIZE (pm_locked_wf _ Hwf) (ltac:(done)))
    as [(b & s1 & -> & Hlb & Hrun & Hno & [])|[Hnone _]]; rewrite pages_for_page in *; cbn [last_page
      bitmap_size pm_locked pm_set_lock pm_set_hw pm_usable_pages base length] in *.
  2: { destruct (Hnone x); [lia|lia|]. intros p Hp. by replace p with x by lia. }
  eexists _, (pm_unlocked s1). split; [done|]. split; [done|].
  assert (b ≤ x) as Hbx.
  { destruct (decide (b ≤ x)); [done|]. destruct (Hno x); [lia|]. intros p Hp. by replace p with x by lia. }
  split; [cbn; rewrite fd_usable0, u64_small; lia|]. exists l.
  split_and!; [done|by injection Hn|]. apply Forall_forall. intros f Hin.
  rewrite Forall_forall in Hlt, Hf. specialize (Hlt f Hin). destruct (Hf f Hin) as [Hfr Hff].
  destruct fd_outside0. cbn [last_page bitmap_size pm_unlocked pm_set_lock pm_set_hw] in *.
  rewrite fd_last0, so_size0. cbn [bitmap_size pm_locked pm_set_lock pm_set_hw].
  split; [Z.div_mod_to_equations; lia|].
  unfold page_free. change (is_set_pmm (pm_unlocked s1) f) with (is_set_pmm s1 f).
  unfold tracked in fd_bits0. cbn [bitmap_size pm_locked pm_set_lock pm_set_hw] in fd_bits0.
  rewrite fd_bits0 by lia. rewrite decide_False; [done|].
  unfold page_in, range_pages, PAGE_SIZE. cbn [base length]. Z.div_mod_to_equations; lia.
Qed.

(** An allocation that finds nothing fails the assertion on the count, gives the
    empty range, or searches for ever. *)
Definition pmm_stops (e : fault) : Prop := e = AssertFailed ∨ e = OutOfFuel.
Lemma pmm_stops_assert : pmm_stops AssertFailed.
Proof. by left. Qed.
Lemma pmm_alloc_stops s amount e :
  pmm_ready s → 0 < amount < 0x8000000000000000 → pmm_alloc amount s = Err e → pmm_stops e.
Proof.
  intros [Hwf Hl] Ham Hrun. destruct (decide (0 < pm_usable_pages s)) as [Hu|Hu].
  - rewrite pmm_alloc_run in Hrun by done.
    destruct (find_pages_cases (pm_locked s) amount (pm_locked_wf _ Hwf) Ham) as [(b & s1 & Heq & _)|[_ Heq]]; rewrite Heq in Hrun; [done|].
    destruct (last_page _ =? 0); [done|]. injection Hrun as <-. by right.
  - unfold pmm_alloc in Hrun. rewrite (bind_eq _ _ _ _ _ (pm_acquire_free s Hl)) in Hrun.
    rewrite (bind_eq _ _ _ (pm_usable_pages s) (pm_locked s)), (proj2 (Z.ltb_ge _ _)) in Hrun by (done || lia).
    left. by injection Hrun.
Qed.

Lemma pmm_fa_frame h s :
  agree_on (pmm_private s) (pm_hw s) h → pmm_fa_ok s →
  pmm_fa_ok (pm_set_hw h s) ∧ (∀ n, pmm_supply n s → pmm_supply n (pm_set_hw h s)) ∧
  (∀ f, pmm_avail (pm_set_hw h s) f ↔ pmm_avail s f).
Proof.
  intros Hmem [[Hwf Hl] [Hsz Hres]]. pose proof (wf_block _ Hwf) as [_ [? _]].
  pose proof (wf_last _ Hwf).
  assert (∀ f, 0 ≤ f < bitmap_size s → is_set_pmm (pm_set_hw h s) f = is_set_pmm s f) as Heq.
  { intros f Hf. apply is_set_ext; auto. unfold tracked. lia. }
  assert (∀ f, pmm_avail (pm_set_hw h s) f ↔ pmm_avail s f) as Hav.
  { intros f. unfold pmm_avail, page_free. split; intros [Hf Hfree]; (split; [exact Hf|]);
      [rewrite <- Heq|rewrite Heq]; auto. }
  split; [|split; [|done] ].
  - split; [split; [by destruct Hwf|done]|]. split; [done|].
    intros f x Hf. apply Hres. by apply Hav.
  - intros n [Hu (l & Hs & Hn & Hf)]. split; [done|]. exists l. split_and!; auto.
    eapply Forall_impl; [exact Hf|]. cbn. intros f [Hr Hff]. split; [done|].
    unfold page_free in *. rewrite Heq; [done|lia].
Qed.

(** One page taken: which frame, and what is left. *)
Lemma pmm_fa_alloc s r s' :
  pmm_fa_ok s → pmm_alloc PAGE_SIZE s = Ok (r, s') →
  pmm_fa_ok s' ∧ bitmap s' = bitmap s ∧ bitmap_size s' = bitmap_size s ∧
  agree_off (pmm_private s) (pm_hw s) (pm_hw s') ∧ same_control (pm_hw s) (pm_hw s') ∧
  hw_if (pm_hw s') = true ∧
  (length r = 0 ∨ ∃ f, r = frame_range f ∧ tracked s f ∧ pmm_avail s f ∧
     ∀ g, pmm_avail s' g ↔ pmm_avail s g ∧ g ≠ f).
Proof.
  intros [Hp [Hsz Hres]] Hrun. pose proof Hp as [Hwf Hl]. unfold same_control.
  destruct (decide (r = mk_range 0 0)) as [->|Hr].
  { pose proof (pmm_alloc_empty s PAGE_SIZE s' Hp (ltac:(done)) Hrun) as ->.
    split_and!; try done; [|by left]. split; [split; [apply pm_unlocked_wf, pm_locked_wf, Hwf|done]|done]. }
  destruct (pmm_alloc_allocated s PAGE_SIZE r s' Hp (ltac:(done)) Hr Hrun).
  rewrite pages_for_page in *.
  destruct al_base0, al_hw0 as (? & ? & ?), al_bitmap0 as [Hbm Hsz'].
  assert (r = frame_range (base r / 4096)) as Hfr.
  { destruct r as [rb rl]. unfold frame_range. cbn in *. f_equal; Z.div_mod_to_equations; lia. }
  assert (0 ≤ base r / 4096 < bitmap_size s) by (Z.div_mod_to_equations; lia).
  assert (∀ g, page_in r g ↔ g = base r / 4096) as Hin
    by (intros g; rewrite Hfr at 1; apply page_in_frame).
  assert (∀ g, pmm_avail s' g ↔ pmm_avail s g ∧ g ≠ base r / 4096) as Hav.
  { intros g. specialize (Hin g). unfold pmm_avail. rewrite Hsz'.
    destruct (decide (0 ≤ g < bitmap_size s)) as [Hg|]; [|tauto].
    rewrite al_bits0 by (unfold tracked; lia). tauto. }
  split_and!; try done; try lia.
  - split; [done|]. split; [lia|]. intros f x Hf. unfold pmm_private. rewrite Hbm, Hsz'.
    apply Hres. by apply Hav.
  - right. exists (base r / 4096). unfold tracked, pmm_avail. split_and!; try done; try lia.
    apply al_free0. by apply Hin.
Qed.

#[export] Instance pmm_frame_allocator_laws : FrameAllocatorLaws pmm_state.
Proof.
  refine {| fa_ok := pmm_fa_ok; fa_managed := tracked; fa_avail := pmm_avail;
            fa_supply := pmm_supply; fa_private := pmm_private; fa_stops := pmm_stops;
            fa_stops_assert := pmm_stops_assert; 
            fa_supply_0 := pmm_supply_0; fa_supply_weaken := pmm_supply_weaken; fa_supply_alloc := pmm_supply_alloc |};
    cbn [fa_hw fa_set_hw fa_alloc fa_free pmm_frame_allocator].
  - intros p f [_ [Hsz _]] Hf. unfold tracked in Hf. lia.
  - intros p f x [_ [_ Hres]]. apply Hres.
  - done.
  - by intros [].
  - by intros h h' [].
  - intros h p Hmem Hp. destruct (pmm_fa_frame h p Hmem Hp) as (? & ? & ?). split_and!; done.
  - intros p e [Hp _]. by apply pmm_alloc_stops.
  - intros p r p' Hp Hrun. destruct (pmm_fa_alloc p r p' Hp Hrun) as (? & Hb & Hs & ?).
    unfold pmm_private, tracked in *. rewrite Hb, Hs. split_and!; tauto.
  - intros p f [Hp [Hsz Hres]] Hf Hnp. pose proof Hp as [Hwf Hl]. unfold tracked in Hf.
    destruct (pmm_free_spec p (frame_range f)) as
      (p' & Hrun & Hp' & _ & Hbm & Hsz' & ? & ? & ? & _ & Hbits & Hmem); [done| |].
    { unfold range_tracked, range_pages, PAGE_SIZE; cbn [frame_range base length].
      rewrite Z.div_mul by done. change (4096 / 4096) with 1. lia. }
    assert (∀ g, pmm_avail p' g → pmm_avail p g ∨ g = f) as Hav.
    { unfold pmm_avail. rewrite Hsz'. intros g [Hg Hfree]. apply Hbits in Hfree; [|unfold tracked; lia].
      rewrite page_in_frame in Hfree. tauto. }
    exists p'. unfold same_control, pmm_private, tracked. rewrite Hbm, Hsz'. split_and!; try done.
    + split; [done|]. split; [lia|]. intros g x Hg Hx. unfold pmm_private. rewrite Hbm, Hsz'.
      destruct (Hav g Hg) as [Hg' | ->]; [by apply (Hres g)|by apply Hnp].
    + intros g. split; [|by apply Hav]. unfold pmm_avail. rewrite Hsz'. intros [Hg Hfree].
      split; [done|]. apply Hbits; [unfold tracked; lia|by left].
Defined.
