(* ===== verification/Vmm.v ===== *)
(** arch/x86_64/vmm.c and vmm.h: four-level page tables in memory, over any
    frame allocator that satisfies [FrameAllocatorLaws]. *)
From S2P Require Import Prelude Machine Range Handover FrameAllocator.

Definition MMAP_KERNEL_BASE : Z := 0xffffffff80000000.
Definition mmap_phys_to_kernel (a : Z) : Z := u64 (a + MMAP_KERNEL_BASE).

(** Memory map type of the boot protocol (stivale2.h). *)
Definition STIVALE2_MMAP_KERNEL_AND_MODULES : Z := 0x1001.

(** [PMLX_GET_INDEX(addr, level)]. *)
Definition PMLX_GET_INDEX (addr level : Z) : Z :=
  Z.shiftr (Z.land addr (Z.shiftl 0x1ff (12 + level * 9))) (12 + level * 9).
Definition PML4_GET_INDEX (addr : Z) : Z := PMLX_GET_INDEX addr 3.
Definition PML3_GET_INDEX (addr : Z) : Z := PMLX_GET_INDEX addr 2.
Definition PML2_GET_INDEX (addr : Z) : Z := PMLX_GET_INDEX addr 1.
Definition PML1_GET_INDEX (addr : Z) : Z := PMLX_GET_INDEX addr 0.

(** [struct pml_entry]: the bit-fields of the 64-bit word, low bit first. *)
Definition pml_present (raw : Z) : bool := Z.testbit raw 0.
Definition pml_read_write (raw : Z) : bool := Z.testbit raw 1.
Definition pml_user (raw : Z) : bool := Z.testbit raw 2.
Definition pml_physical (raw : Z) : Z := Z.shiftr raw 12.

(** [pml_make_entry]: every field not named below is zero. *)
Definition pml_make_entry (physical : Z) (is_user : bool) : Z :=
  let present := 1 in
  let read_write := Z.shiftl 1 1 in
  let user := Z.shiftl (Z.b2z is_user) 2 in
  let phys := Z.shiftl (Z.shiftr physical 12) 12 in
  Z.lor present (Z.lor read_write (Z.lor user phys)).

(** [&pml->entries[index]] *)
Definition entry_addr (pml index : Z) : Z := pml + 8 * index.
Definition entry_at (m : memory) (pml index : Z) : Z := load64 m (entry_addr pml index).

(** Entry [i] of the page walk of [virt], root first. *)
Definition walk_of (virt : Z) : list Z :=
  [PML4_GET_INDEX virt; PML3_GET_INDEX virt; PML2_GET_INDEX virt].

Record vmm_state (P : Type) : Type := mk_vmm {
  vm_pmm : P;
  kernel_pml4 : Z;       (** [static struct pml *kernel_pml4] *)
  vm_lock : Z            (** [static uint32_t lock] *)
}.
Arguments mk_vmm {P}.
Arguments vm_pmm {P}.
Arguments kernel_pml4 {P}.
Arguments vm_lock {P}.

Section vmm.
Context {P : Type} `{FrameAllocator P}.

Definition vm_set_pmm (p : P) (s : vmm_state P) : vmm_state P := mk_vmm p (kernel_pml4 s) (vm_lock s).
Definition vm_set_kernel (k : Z) (s : vmm_state P) : vmm_state P := mk_vmm (vm_pmm s) k (vm_lock s).
Definition vm_set_lock (l : Z) (s : vmm_state P) : vmm_state P := mk_vmm (vm_pmm s) (kernel_pml4 s) l.
Definition vm_hw (s : vmm_state P) : hw := fa_hw (vm_pmm s).
Definition vm_set_hw (h : hw) (s : vmm_state P) : vmm_state P := vm_set_pmm (fa_set_hw h (vm_pmm s)) s.
Definition vm_mem (s : vmm_state P) : memory := hw_mem (vm_hw s).

Definition on_pmm {A} (m : M P A) : M (vmm_state P) A := zoom vm_pmm vm_set_pmm m.
Definition on_hw (f : hw → hw) : M (vmm_state P) unit := modify (λ s, vm_set_hw (f (vm_hw s)) s).
Definition on_mem (f : memory → memory) : M (vmm_state P) unit := on_hw (hw_set_mem f).

Definition vm_acquire : M (vmm_state P) unit := λ s,
  match arch_acquire (vm_lock s) (vm_hw s) with
  | Ok (l, h) => Ok (tt, vm_set_lock l (vm_set_hw h s))
  | Err e => Err e
  end.
Definition vm_release : M (vmm_state P) unit := modify (λ s,
  let '(l, h) := arch_release (vm_hw s) in vm_set_lock l (vm_set_hw h s)).

Definition get_kernel_space (s : vmm_state P) : Z := kernel_pml4 s.
Definition vmm_kernel_space (s : vmm_state P) : Z := kernel_pml4 s.

(** The loop variable [i] does not occur in the body. *)
Definition vmm_flush (virt_range : range_t) : M (vmm_state P) unit :=
  forZ (Z.to_nat (length virt_range / PAGE_SIZE)) 0
    (λ i, on_hw (asm_invlpg (u64 ((base virt_range / PAGE_SIZE + 1) * PAGE_SIZE)))).

Definition vmm_get_pml_alloc (pml index : Z) (is_user : bool) : M (vmm_state P) range_t :=
  gets (λ s, entry_at (vm_mem s) pml index) ≫= λ entry,
  if pml_present entry then
    mret (mk_range (mmap_phys_to_io (u64 (Z.shiftl (pml_physical entry) 12))) PAGE_SIZE)
  else
    on_pmm (fa_alloc PAGE_SIZE) ≫= λ target_range,
    assert_ (0 <? length target_range) ≫= λ _,
    on_mem (memset (mmap_phys_to_io (base target_range)) 0 PAGE_SIZE) ≫= λ _,
    on_mem (store64 (entry_addr pml index) (pml_make_entry (base target_range) is_user)) ≫= λ _,
    mret (mk_range (mmap_phys_to_io (base target_range)) PAGE_SIZE).

Definition vmm_get_pml (pml index : Z) : M (vmm_state P) range_t :=
  gets (λ s, entry_at (vm_mem s) pml index) ≫= λ entry,
  if pml_present entry then
    mret (mk_range (mmap_phys_to_io (u64 (Z.shiftl (pml_physical entry) 12))) PAGE_SIZE)
  else mret (mk_range 0 0).

Definition vmm_map_page (pml virt phys : Z) (is_user : bool) : M (vmm_state P) unit :=
  vmm_get_pml_alloc pml (PML4_GET_INDEX virt) true ≫= λ pml3_range,
  let pml3 := base pml3_range in
  vmm_get_pml_alloc pml3 (PML3_GET_INDEX virt) true ≫= λ pml2_range,
  let pml2 := base pml2_range in
  vmm_get_pml_alloc pml2 (PML2_GET_INDEX virt) true ≫= λ pml1_range,
  let pml1 := base pml1_range in
  on_mem (store64 (entry_addr pml1 (PML1_GET_INDEX virt)) (pml_make_entry phys is_user)).

Definition vmm_map_range (pml : Z) (virt phys : range_t) (is_user : bool) : M (vmm_state P) unit :=
  assert_ (length phys =? length virt) ≫= λ _,
  vm_acquire ≫= λ _,
  forZ (Z.to_nat (length virt / PAGE_SIZE)) 0 (λ i,
    let physaddr := u64 (i * PAGE_SIZE + ALIGN_DOWN (base phys) PAGE_SIZE) in
    let virtaddr := u64 (i * PAGE_SIZE + ALIGN_DOWN (base virt) PAGE_SIZE) in
    vmm_map_page pml virtaddr physaddr is_user) ≫= λ _,
  vm_release ≫= λ _,
  vmm_flush virt.

Definition vmm_switch_space (pml : Z) : M (vmm_state P) unit :=
  on_hw (load_cr3 (mmap_io_to_phys pml)).

(** The body of the loop of [vmm_init] over the memory map. *)
Definition vmm_init_entry (mmap : mmap_entry) : M (vmm_state P) unit :=
  let start := ALIGN_DOWN (base (me_range mmap)) PAGE_SIZE in
  let len := u64 (ALIGN_UP (length (me_range mmap)) PAGE_SIZE + PAGE_SIZE) in
  when (me_type mmap =? STIVALE2_MMAP_KERNEL_AND_MODULES)
    (gets kernel_pml4 ≫= λ k,
     vmm_map_range k (mk_range (mmap_phys_to_kernel start) len) (mk_range start len) false) ≫= λ _,
  gets kernel_pml4 ≫= λ k,
  vmm_map_range k (mk_range (mmap_phys_to_io start) len) (mk_range start len) false.

Definition vmm_init (h : handover) : M (vmm_state P) unit :=
  on_pmm (fa_alloc PAGE_SIZE) ≫= λ kernel_range,
  assert_ (0 <? length kernel_range) ≫= λ _,
  modify (vm_set_kernel (mmap_phys_to_io (base kernel_range))) ≫= λ _,
  gets kernel_pml4 ≫= λ k,
  on_mem (memset k 0 PAGE_SIZE) ≫= λ _,
  vmm_map_range k (mk_range (mmap_phys_to_io 0) 0xffffffff) (mk_range 0 0xffffffff) false ≫= λ _,
  forZ (Z.to_nat (memory_map_size h)) 0 (λ i,
    lift (index (mmap h) i) ≫= λ e, vmm_init_entry e) ≫= λ _,
  gets kernel_pml4 ≫= λ k,
  vmm_switch_space k.

Definition vmm_unmap_page (context vaddr : Z) : M (vmm_state P) unit :=
  vmm_get_pml context (PML4_GET_INDEX vaddr) ≫= λ pml3_range,
  assert_ (negb (length pml3_range =? 0)) ≫= λ _,
  let pml3 := base pml3_range in
  vmm_get_pml pml3 (PML3_GET_INDEX vaddr) ≫= λ pml2_range,
  assert_ (negb (length pml2_range =? 0)) ≫= λ _,
  let pml2 := base pml2_range in
  vmm_get_pml pml2 (PML2_GET_INDEX vaddr) ≫= λ pml1_range,
  assert_ (negb (length pml1_range =? 0)) ≫= λ _,
  let pml1 := base pml1_range in
  on_mem (store64 (entry_addr pml1 (PML1_GET_INDEX vaddr)) 0).

Definition vmm_unmap (context : Z) (virtual_range : range_t) : M (vmm_state P) unit :=
  vm_acquire ≫= λ _,
  forZ (Z.to_nat (length virtual_range / PAGE_SIZE)) 0 (λ i,
    vmm_unmap_page context
      (u64 (i * PAGE_SIZE + Z.land (base virtual_range) (Z.lnot (PAGE_SIZE - 1))))) ≫= λ _,
  vm_release.

Definition vmm_space_create : M (vmm_state P) Z :=
  vm_acquire ≫= λ _,
  on_pmm (fa_alloc PAGE_SIZE) ≫= λ phys,
  assert_ (0 <? length phys) ≫= λ _,
  let pml_table := mmap_phys_to_io (base phys) in
  on_mem (memset pml_table 0 PAGE_SIZE) ≫= λ _,
  gets kernel_pml4 ≫= λ kernel,
  forZ 257 255 (λ i,
    gets (λ s, entry_at (vm_mem s) kernel i) ≫= λ e,
    on_mem (store64 (entry_addr pml_table i) e)) ≫= λ _,
  vm_release ≫= λ _,
  mret pml_table.

Definition vmm_space_destroy (space : Z) : M (vmm_state P) unit :=
  on_mem (memset space 0 PAGE_SIZE) ≫= λ _,
  on_pmm (fa_free (mk_range (mmap_io_to_phys space) PAGE_SIZE)).
End vmm.

(** ** Indices and entries *)

Lemma PMLX_GET_INDEX_eq addr level :
  0 ≤ level → PMLX_GET_INDEX addr level = addr / 2 ^ (12 + level * 9) mod 512.
Proof.
  intros Hl. unfold PMLX_GET_INDEX. rewrite Z.shiftr_land, Z.shiftr_shiftl_l, Z.sub_diag by lia.
  change (Z.shiftl 0x1ff 0) with (Z.ones 9). rewrite Z.land_ones by lia.
  by rewrite Z.shiftr_div_pow2 by lia.
Qed.
Lemma PMLX_GET_INDEX_range addr level : 0 ≤ level → 0 ≤ PMLX_GET_INDEX addr level < 512.
Proof. intros Hl. rewrite PMLX_GET_INDEX_eq by done. by apply Z.mod_pos_bound. Qed.

(** The page of the 48-bit address space [v] lies in. *)
Definition vpage (v : Z) : Z := v / 4096 mod 0x1000000000.

Lemma base512_digits a :
  a mod 0x1000000000 =
    a mod 512 + 512 * (a / 512 mod 512 + 512 * (a / 262144 mod 512 + 512 * (a / 134217728 mod 512))).
Proof.
  change 0x1000000000 with (512 * (512 * (512 * 512))). rewrite !Z.rem_mul_r by lia.
  by rewrite !Z.div_div by lia.
Qed.

(** Two addresses use the same slot of the tables exactly when they are in the
    same page. *)
Lemma same_slot v w :
  walk_of v = walk_of w ∧ PML1_GET_INDEX v = PML1_GET_INDEX w ↔ vpage v = vpage w.
Proof.
  unfold walk_of, vpage, PML4_GET_INDEX, PML3_GET_INDEX, PML2_GET_INDEX, PML1_GET_INDEX.
  rewrite !PMLX_GET_INDEX_eq, !base512_digits by lia. cbn [Z.mul Z.add Pos.mul Pos.add].
  change (2 ^ (12 + 3 * 9)) with (4096 * 134217728). change (2 ^ (12 + 2 * 9)) with (4096 * 262144).
  change (2 ^ (12 + 1 * 9)) with (4096 * 512). change (2 ^ (12 + 0 * 9)) with 4096.
  rewrite <- !Z.div_div by lia. set (a := v / 4096). set (b := w / 4096). clearbody a b.
  assert (∀ z, 0 ≤ z mod 512 < 512) as Hr by (intros; by apply Z.mod_pos_bound).
  pose proof (Hr a). pose proof (Hr (a / 512)). pose proof (Hr (a / 262144)).
  pose proof (Hr b). pose proof (Hr (b / 512)). pose proof (Hr (b / 262144)).
  split; [intros [[= -> -> ->] ->]; done|].
  intros Hab. split; [f_equal; [lia|f_equal; [lia|f_equal; lia] ]|lia].
Qed.

(** What [pml_make_entry] puts in the bit-fields. *)
Lemma pml_make_entry_fields phys u :
  0 ≤ phys < 0x10000000000000000 →
  pml_present (pml_make_entry phys u) = true ∧ pml_read_write (pml_make_entry phys u) = true ∧
  pml_user (pml_make_entry phys u) = u ∧ pml_physical (pml_make_entry phys u) = phys / 4096 ∧
  0 ≤ pml_make_entry phys u < 0x10000000000000000.
Proof.
  intros Hp. unfold pml_present, pml_read_write, pml_user.
  assert (0 ≤ phys / 4096 < 0x10000000000000) by (Z.div_mod_to_equations; lia).
  assert (pml_physical (pml_make_entry phys u) = phys / 4096) as Hphys.
  { unfold pml_physical, pml_make_entry. rewrite !Z.shiftr_lor.
    rewrite (Z.shiftr_shiftl_l _ 12 12), Z.shiftl_0_r, (Z.shiftr_div_pow2 phys) by lia.
    by destruct u. }
  assert (∀ i, 0 ≤ i < 12 → Z.testbit (Z.shiftl (Z.shiftr phys 12) 12) i = false) as Hlow.
  { intros i Hi. apply Z.shiftl_spec_low. lia. }
  split_and!; [| | |done| |]; try (unfold pml_make_entry; rewrite !Z.lor_spec, Hlow by lia; by destruct u).
  - unfold pml_make_entry. rewrite !Z.lor_nonneg, !Z.shiftl_nonneg, Z.shiftr_nonneg. cbn. destruct u; cbn; lia.
  - unfold pml_physical in Hphys. rewrite Z.shiftr_div_pow2 in Hphys by done.
    change (2 ^ 12) with 4096 in Hphys. Z.div_mod_to_equations; lia.
Qed.

(** ** Page walks *)

(** The table that entry [i] of table [t] points to. *)
Definition next_table (m : memory) (t i : Z) : option Z :=
  let e := entry_at m t i in
  if pml_present e then Some (mmap_phys_to_io (u64 (Z.shiftl (pml_physical e) 12))) else None.
Fixpoint table_at (m : memory) (t : Z) (path : list Z) : option Z :=
  match path with
  | [] => Some t
  | i :: path => next_table m t i ≫= λ t', table_at m t' path
  end.
(** The last-level entry for [virt], zero when a table on the way is missing. *)
Definition leaf (m : memory) (root virt : Z) : Z :=
  match table_at m root (walk_of virt) with
  | Some t => entry_at m t (PML1_GET_INDEX virt)
  | None => 0
  end.

Definition valid_path (p : list Z) : Prop := (List.length p ≤ 3)%nat ∧ Forall (λ i, 0 ≤ i < 512) p.

Lemma table_at_app m t p q : table_at m t (p ++ q) = table_at m t p ≫= λ a, table_at m a q.
Proof.
  revert t. induction p as [|i p IH]; intros t; cbn; [done|].
  destruct (next_table m t i); cbn; [apply IH|done].
Qed.
Lemma table_at_snoc m t p i : table_at m t (p ++ [i]) = table_at m t p ≫= λ a, next_table m a i.
Proof.
  rewrite table_at_app. destruct (table_at m t p); cbn; [|done]. by destruct (next_table m z i).
Qed.
Lemma valid_snoc p i : valid_path (p ++ [i]) ↔ valid_path p ∧ (List.length p ≤ 2)%nat ∧ 0 ≤ i < 512.
Proof.
  unfold valid_path. rewrite length_app, Forall_app, Forall_singleton. cbn.
  split; [intros (? & ? & ?)|intros ((? & ?) & ? & ?)]; split_and!; try tauto; lia.
Qed.
Lemma valid_nil : valid_path [].
Proof. split; [cbn; lia|constructor]. Qed.
Lemma walk_of_valid v : valid_path (walk_of v).
Proof. split; [done|]. repeat constructor; by apply PMLX_GET_INDEX_range. Qed.
Lemma PML1_range v : 0 ≤ PML1_GET_INDEX v < 512.
Proof. by apply PMLX_GET_INDEX_range. Qed.

(** Hanging an empty table [t'] below entry [i] of the table at [p] adds that
    table to the walk and nothing else. *)
Lemma table_at_grow m m' root p i t t' :
  table_at m root p = Some t → next_table m t i = None → next_table m' t i = Some t' →
  (∀ q a j, valid_path (q ++ [j]) → table_at m root q = Some a → (q, j) ≠ (p, i) →
     entry_at m' a j = entry_at m a j) →
  (∀ j, 0 ≤ j < 512 → next_table m' t' j = None) →
  (∀ q a, valid_path q → table_at m root q = Some a → table_at m' root q = Some a) ∧
  (∀ q a, valid_path q → table_at m' root q = Some a →
     table_at m root q = Some a ∨ (q = p ++ [i] ∧ a = t')).
Proof.
  intros Hp Hno Hnew Hsame Hzero.
  assert (∀ q a, valid_path q → table_at m root q = Some a → table_at m' root q = Some a) as Hmono.
  { induction q as [|j q IH] using rev_ind; intros b Hv Hq; [done|].
    rewrite table_at_snoc in *. apply bind_Some in Hq as (a & Ha & Hj).
    rewrite (IH a); [|by apply (proj1 (valid_snoc q j))|done]. cbn.
    unfold next_table in *. rewrite (Hsame q a j Hv Ha); [done|].
    intros [= -> ->]. rewrite Hp in Ha. injection Ha as ->. congruence. }
  split; [done|].
  induction q as [|j q IH] using rev_ind; intros b Hv Hq; [by left|].
  rewrite table_at_snoc in Hq. apply bind_Some in Hq as (a & Ha & Hj).
  pose proof (proj1 (proj1 (valid_snoc q j) Hv)) as Hvq. apply valid_snoc in Hv as Hij.
  destruct (IH a Hvq Ha) as [Ha0|[-> ->]]; [|rewrite Hzero in Hj; [done|tauto]].
  destruct (decide ((q, j) = (p, i))) as [[= -> ->]|Hne].
  - right. rewrite Hp in Ha0. injection Ha0 as <-. rewrite Hnew in Hj. by injection Hj.
  - left. rewrite table_at_snoc, Ha0. cbn. unfold next_table in *. by rewrite <- (Hsame q a j).
Qed.

(** Memories that agree on the entries of the upper tables have the same tables. *)
Lemma table_at_same m m' root q :
  (∀ q a j, valid_path (q ++ [j]) → table_at m root q = Some a → entry_at m' a j = entry_at m a j) →
  valid_path q → table_at m' root q = table_at m root q.
Proof.
  intros Hsame. induction q as [|j q IH] using rev_ind; intros Hv; [done|].
  rewrite !table_at_snoc, IH by apply (proj1 (proj1 (valid_snoc q j) Hv)).
  destruct (table_at m root q) as [a|] eqn:Ha; [|done]. cbn. unfold next_table.
  by rewrite (Hsame q a j Hv Ha).
Qed.

Lemma entry_block g j : 0 ≤ g < 0x800000000 → 0 ≤ j < 512 → block_ok (entry_addr (frame_io g) j) 8.
Proof. unfold block_ok, entry_addr, frame_io, MMAP_IO_BASE. lia. Qed.
Lemma entry_in_frame g j x :
  0 ≤ j < 512 → in_block (entry_addr (frame_io g) j) 8 x → in_block (frame_io g) 4096 x.
Proof. unfold in_block, entry_addr. lia. Qed.
Lemma entries_disjoint g j h k :
  0 ≤ j < 512 → 0 ≤ k < 512 → (g, j) ≠ (h, k) →
  blocks_disjoint (entry_addr (frame_io g) j) 8 (entry_addr (frame_io h) k) 8.
Proof.
  intros Hj Hk Hne. unfold blocks_disjoint, entry_addr, frame_io.
  destruct (decide (g = h)) as [->|]; [|lia]. assert (j ≠ k) by congruence. lia.
Qed.
Lemma entry_at_range m t i : 0 ≤ entry_at m t i < 0x10000000000000000.
Proof. apply load64_range. Qed.

Lemma next_table_entry m t i f u :
  0 ≤ f < 0x800000000 → entry_at m t i = pml_make_entry (f * 4096) u →
  next_table m t i = Some (frame_io f).
Proof.
  intros Hf He. unfold next_table. rewrite He.
  destruct (pml_make_entry_fields (f * 4096) u) as (-> & _ & _ & -> & _); [lia|].
  rewrite Z.div_mul, Z.shiftl_mul_pow2 by lia. change (2 ^ 12) with 4096.
  rewrite u64_small by lia. by rewrite mmap_phys_to_io_frame.
Qed.
Lemma next_table_zero m t i : entry_at m t i = 0 → next_table m t i = None.
Proof. unfold next_table. by intros ->. Qed.

(** A table entry after a fresh frame was zeroed and an entry stored. *)
Lemma entry_at_fresh m g h k f v j :
  0 ≤ g < 0x800000000 → 0 ≤ h < 0x800000000 → 0 ≤ f < 0x800000000 →
  0 ≤ j < 512 → 0 ≤ k < 512 → g ≠ f →
  entry_at (store64 (entry_addr (frame_io h) k) v (memset (frame_io f) 0 4096 m)) (frame_io g) j =
    if decide ((g, j) = (h, k)) then u64 v else entry_at m (frame_io g) j.
Proof.
  intros Hg Hh Hf Hj Hk Hne. unfold entry_at. case_decide as Hd.
  - injection Hd as -> ->. apply load64_store64_eq. by apply entry_block.
  - rewrite load64_store64_ne; [|by apply entry_block..|by apply entries_disjoint].
    apply load64_memset_out; [by apply frame_io_block|by apply entry_block|].
    unfold blocks_disjoint, entry_addr, frame_io. lia.
Qed.
Lemma entry_at_zeroed m h k f v j :
  0 ≤ h < 0x800000000 → 0 ≤ f < 0x800000000 → 0 ≤ j < 512 → 0 ≤ k < 512 → h ≠ f →
  entry_at (store64 (entry_addr (frame_io h) k) v (memset (frame_io f) 0 4096 m)) (frame_io f) j = 0.
Proof.
  intros Hh Hf Hj Hk Hne. unfold entry_at.
  rewrite load64_store64_ne; [|by apply entry_block..|apply entries_disjoint; congruence].
  apply load64_memset_zero; [by apply frame_io_block|..]; unfold entry_addr, frame_io; lia.
Qed.
Lemma load8_fresh m h k f v x :
  0 ≤ h < 0x800000000 → 0 ≤ f < 0x800000000 → 0 ≤ k < 512 → 0 ≤ x < 0x10000000000000000 →
  ¬ in_block (frame_io h) 4096 x → ¬ in_block (frame_io f) 4096 x →
  load8 (store64 (entry_addr (frame_io h) k) v (memset (frame_io f) 0 4096 m)) x = load8 m x.
Proof.
  intros Hh Hf Hk Hx H1 H2.
  rewrite (load8_store_le_ne 8); [|by apply entry_block|done|by intros ?%entry_in_frame].
  rewrite load8_memset by (try apply frame_io_block; done). by rewrite decide_False.
Qed.

(** ** Address spaces over a lawful frame allocator *)

Section spaces.
Context {P : Type} `{FrameAllocatorLaws P}.
Implicit Types s : vmm_state P.

(** A space rooted at [root]: its tables are distinct frames of the allocator
    that are in use and hold none of the allocator's data. *)
Definition table_frame s (t : Z) : Prop :=
  ∃ f, t = frame_io f ∧ fa_managed (vm_pmm s) f ∧ ¬ fa_avail (vm_pmm s) f ∧
    ∀ x, in_block (frame_io f) 4096 x → ¬ fa_private (vm_pmm s) x.
Record space_ok s (root : Z) : Prop := {
  sp_fa : fa_ok (vm_pmm s);
  sp_table p t : valid_path p → table_at (vm_mem s) root p = Some t → table_frame s t;
  sp_inj p q t : valid_path p → valid_path q →
    table_at (vm_mem s) root p = Some t → table_at (vm_mem s) root q = Some t → p = q
}.

(** What no operation on page tables changes. *)
Record vm_frame s s' : Prop := {
  vf_kernel : kernel_pml4 s' = kernel_pml4 s;
  vf_lock : vm_lock s' = vm_lock s;
  vf_control : same_control (vm_hw s) (vm_hw s');
  vf_managed : ∀ f, fa_managed (vm_pmm s') f ↔ fa_managed (vm_pmm s) f;
  vf_private : ∀ x, fa_private (vm_pmm s') x ↔ fa_private (vm_pmm s) x;
  vf_avail : ∀ f, fa_avail (vm_pmm s') f → fa_avail (vm_pmm s) f
}.
#[export] Instance vm_frame_refl : Reflexive vm_frame.
Proof. by split. Qed.
#[export] Instance vm_frame_trans : Transitive vm_frame.
Proof.
  intros s1 s2 s3 [? ? [] ] [? ? [] ]. split; [congruence..| | | |].
  - split; congruence.
  - intros f. by rewrite vf_managed1.
  - intros x. by rewrite vf_private1.
  - auto.
Qed.

(** The addresses an operation on [root]'s tables may write. *)
Definition footprint s root (x : Z) : Prop :=
  fa_private (vm_pmm s) x ∨
  (∃ f, fa_avail (vm_pmm s) f ∧ in_block (frame_io f) 4096 x) ∨
  (∃ p t, valid_path p ∧ table_at (vm_mem s) root p = Some t ∧ in_block t 4096 x).

(** [s'] has [s]'s tables below [root], possibly more, and its other memory. *)
Record grown root s s' : Prop := {
  gr_frame : vm_frame s s';
  gr_mono p t : valid_path p → table_at (vm_mem s) root p = Some t →
    table_at (vm_mem s') root p = Some t;
  gr_footprint x : footprint s' root x → footprint s root x;
  gr_memory : agree_off (footprint s root) (vm_hw s) (vm_hw s')
}.
#[export] Instance grown_refl root : Reflexive (grown root).
Proof. by split. Qed.
#[export] Instance grown_trans root : Transitive (grown root).
Proof.
  intros s1 s2 s3 [] []. split; [by etrans|auto..|].
  intros x Hx Hout. rewrite gr_memory1 by eauto. by apply gr_memory0.
Qed.

Lemma vm_hw_set (h : hw) s : vm_hw (vm_set_hw h s) = h.
Proof. apply fa_get_set. Qed.
Lemma entry_at_agree s (X : Z → Prop) h g j :
  agree_off X (vm_hw s) h → 0 ≤ g < 0x800000000 → 0 ≤ j < 512 →
  (∀ x, in_block (frame_io g) 4096 x → ¬ X x) →
  entry_at (hw_mem h) (frame_io g) j = entry_at (vm_mem s) (frame_io g) j.
Proof.
  intros Hag Hg Hj Hx. apply load_le_ext. intros x Hin. apply (entry_in_frame g j) in Hin; [|done].
  apply Hag; [|by apply Hx]. unfold in_block, frame_io, MMAP_IO_BASE in Hin. lia.
Qed.

(** *** A fresh table *)

Definition fresh_mem (f t i : Z) (u : bool) (m : memory) : memory :=
  store64 (entry_addr t i) (pml_make_entry (f * 4096) u) (memset (frame_io f) 0 4096 m).
Definition fresh_state s (p' : P) (f t i : Z) (u : bool) : vmm_state P :=
  vm_set_pmm (fa_set_hw (hw_set_mem (fresh_mem f t i u) (fa_hw p')) p') s.

(** An operation that takes at most [k] frames: it may stop only when fewer are
    in supply, and leaves the rest of the supply. *)
Definition starved (k : nat) (p : P) (e : fault) : Prop := fa_stops e ∧ ¬ fa_supply k p.
Definition frugal (k : nat) (p p' : P) : Prop := ∀ n, fa_supply (k + n) p → fa_supply n p'.
Lemma starved_weaken j k p e : (j ≤ k)%nat → starved j p e → starved k p e.
Proof. intros Hjk [Hs Hno]. split; [done|]. intros Hk. by apply Hno, (fa_supply_weaken k). Qed.
Lemma starved_after j k p p' e : frugal j p p' → starved k p' e → starved (j + k) p e.
Proof. intros Hf [Hs Hno]. split; [done|]. intros Hjk. by apply Hno, Hf. Qed.
Lemma frugal_trans j k p p' p'' : frugal j p p' → frugal k p' p'' → frugal (j + k) p p''.
Proof. intros Hf Hg n Hn. apply Hg, Hf. by rewrite Nat.add_assoc. Qed.
Lemma frugal_weaken j k p p' : (j ≤ k)%nat → frugal j p p' → frugal k p p'.
Proof. intros Hjk Hf n Hn. by apply Hf, (fa_supply_weaken (k + n)); [lia|]. Qed.

(** The frame [fa_alloc] hands out. *)
Record taken_frame (p : P) (f : Z) (p' : P) : Prop := {
  tf_ok : fa_ok p';
  tf_frame : 0 ≤ f < 0x800000000 ∧ fa_managed p f ∧ fa_avail p f;
  tf_avail g : fa_avail p' g ↔ fa_avail p g ∧ g ≠ f;
  tf_private x : fa_private p' x ↔ fa_private p x;
  tf_managed g : fa_managed p' g ↔ fa_managed p g;
  tf_memory : agree_off (fa_private p) (fa_hw p) (fa_hw p');
  tf_control : same_control (fa_hw p) (fa_hw p');
  tf_if : hw_if (fa_hw p') = true
}.
Lemma take_frame (p : P) : fa_ok p →
  runs (starved 1 p) (fa_alloc PAGE_SIZE) (λ r p',
    length r = 0 ∧ ¬ fa_supply 1 p ∨ ∃ f, r = frame_range f ∧ taken_frame p f p' ∧ frugal 1 p p') p.
Proof.
  intros Hok. unfold runs. destruct (fa_alloc PAGE_SIZE p) as [[r p']|e] eqn:Hrun.
  - assert (∀ n, fa_supply (S n) p → 0 < length r ∧ fa_supply n p') as Hsup.
    { intros n Hn. destruct (fa_supply_alloc n p Hok Hn) as (r1 & p1 & Hrun1 & Hlen & Hn1). rewrite Hrun in Hrun1. by injection Hrun1 as <- <-. }
    destruct (fa_alloc_page p r p' Hok Hrun) as (Hok' & Hpr & Hman & Hag & Hc & Hif & [Hz|(f & -> & Hf & Hav & Hav')]).
    + left. split; [done|]. intros Hn. destruct (Hsup 0%nat Hn). lia.
    + right. exists f. split; [done|]. split; [|intros n Hn; by apply Hsup]. split; try done. split; [by apply (fa_managed_range p f Hok Hf)|done].
  - split; [by apply (fa_alloc_stops p)|]. intros Hn. destruct (fa_supply_alloc 0 p Hok Hn) as (r1 & p1 & Hrun1 & _). congruence.
Qed.
Lemma supply_frame n (p : P) : fa_ok p → fa_supply (S n) p →
  ∃ f p', fa_alloc PAGE_SIZE p = Ok (frame_range f, p') ∧ taken_frame p f p' ∧ fa_supply n p'.
Proof.
  intros Hok Hsup. assert (fa_supply 1 p) as H1 by (apply (fa_supply_weaken (S n)); [lia|done]).
  pose proof (take_frame p Hok) as Ht. unfold runs in Ht. destruct (fa_alloc PAGE_SIZE p) as [[r p']|e]; [|by destruct Ht].
  destruct Ht as [[_ ?]|(f & -> & Ht & Hf)]; [done|]. exists f, p'. split; [done|]. split; [done|]. by apply Hf.
Qed.

Lemma fresh_run s f p' t i u :
  fa_alloc PAGE_SIZE (vm_pmm s) = Ok (frame_range f, p') → 0 ≤ f < 0x800000000 →
  next_table (vm_mem s) t i = None →
  vmm_get_pml_alloc t i u s = Ok (mk_range (frame_io f) 4096, fresh_state s p' f t i u).
Proof.
  intros Hrun Hf Hno. unfold vmm_get_pml_alloc.
  rewrite (bind_eq _ _ _ (entry_at (vm_mem s) t i) s) by done.
  unfold next_table in Hno. destruct (pml_present _); [done|].
  rewrite (bind_eq _ _ _ (frame_range f) (vm_set_pmm p' s)) by
    (unfold on_pmm, zoom; by rewrite Hrun).
  unfold frame_range. cbn [base length]. rewrite mmap_phys_to_io_frame by done.
  cbv [assert_ Z.ltb Z.compare mbind M_bind mret M_ret on_mem on_hw modify].
  unfold fresh_state, vm_set_hw, vm_hw. cbn [vm_pmm vm_set_pmm kernel_pml4 vm_lock].
  by rewrite !fa_get_set, fa_set_set.
Qed.

(** Facts about the state after a frame was taken, zeroed and linked from entry
    [i] of the table of frame [h]. *)
Lemma fresh_state_facts s root p h f p' i u :
  space_ok s root → valid_path (p ++ [i]) → table_at (vm_mem s) root p = Some (frame_io h) →
  0 ≤ h < 0x800000000 → 0 ≤ f < 0x800000000 → fa_avail (vm_pmm s) f → ¬ fa_avail (vm_pmm s) h →
  (∀ x, in_block (frame_io h) 4096 x → ¬ fa_private (vm_pmm s) x) →
  fa_ok p' → (∀ x, fa_private p' x ↔ fa_private (vm_pmm s) x) →
  agree_off (fa_private (vm_pmm s)) (vm_hw s) (fa_hw p') →
  let s' := fresh_state s p' f (frame_io h) i u in
  (fa_ok (vm_pmm s') ∧ (∀ n, fa_supply n p' → fa_supply n (vm_pmm s')) ∧
   (∀ x, fa_private (vm_pmm s') x ↔ fa_private p' x) ∧
   (∀ g, fa_managed (vm_pmm s') g ↔ fa_managed p' g) ∧
   (∀ g, fa_avail (vm_pmm s') g ↔ fa_avail p' g)) ∧
  (∀ q a j, valid_path q → 0 ≤ j < 512 → table_at (vm_mem s) root q = Some a → (q, j) ≠ (p, i) →
     entry_at (vm_mem s') a j = entry_at (vm_mem s) a j) ∧
  next_table (vm_mem s') (frame_io h) i = Some (frame_io f) ∧
  (∀ j, 0 ≤ j < 512 → entry_at (vm_mem s') (frame_io f) j = 0) ∧
  (∀ x, 0 ≤ x < 0x10000000000000000 → ¬ in_block (frame_io h) 4096 x →
     ¬ in_block (frame_io f) 4096 x → ¬ fa_private (vm_pmm s) x →
     load8 (vm_mem s') x = load8 (vm_mem s) x).
Proof.
  intros [Hfa Htab Hinj] Hv Hp Hh Hf Hav Hnav Hnp Hok' Hpriv Hag s'.
  pose proof (proj1 (valid_snoc p i) Hv) as (Hvp & _ & Hi).
  assert (h ≠ f) as Hne by (intros ->; done).
  assert (vm_mem s' = fresh_mem f (frame_io h) i u (hw_mem (fa_hw p'))) as Hmem.
  { unfold vm_mem, vm_hw, s', fresh_state. cbn [vm_pmm vm_set_pmm]. by rewrite fa_get_set. }
  split; [|rewrite Hmem; unfold fresh_mem; split_and!].
  - destruct (fa_frame (hw_set_mem (fresh_mem f (frame_io h) i u) (fa_hw p')) p')
      as (? & Hs & ?); [|done|split_and!; [done|exact Hs|tauto..] ].
    intros x Hx Hpx. apply Hpriv in Hpx. apply load8_fresh; try done.
    + intros Hin. by apply (Hnp x).
    + intros Hin. by apply (fa_avail_private _ f x Hfa Hav).
  - intros q a j Hq Hj Ha Hqj. destruct (Htab q a Hq Ha) as (g & -> & Hg & Hgav & Hgp).
    pose proof (fa_managed_range _ _ Hfa Hg).
    rewrite entry_at_fresh by (done || by intros ->). case_decide as Heq.
    + injection Heq as -> ->. by rewrite (Hinj p q (frame_io h) Hvp Hq Hp Ha) in Hqj.
    + by apply (entry_at_agree s (fa_private (vm_pmm s))).
  - apply (next_table_entry _ _ _ _ u); [done|]. rewrite entry_at_fresh by done.
    rewrite decide_True by done. apply u64_small, pml_make_entry_fields. lia.
  - intros j Hj. by apply entry_at_zeroed.
  - intros x Hx Hxh Hxf Hxp. rewrite load8_fresh by done. by apply Hag.
Qed.

(** Linking the fresh frame keeps the space well formed. *)
Lemma fresh_space s root p h f p' i u :
  space_ok s root → valid_path (p ++ [i]) → table_at (vm_mem s) root p = Some (frame_io h) →
  next_table (vm_mem s) (frame_io h) i = None →
  fa_ok p' → 0 ≤ f < 0x800000000 → fa_managed (vm_pmm s) f → fa_avail (vm_pmm s) f →
  (∀ g, fa_avail p' g ↔ fa_avail (vm_pmm s) g ∧ g ≠ f) →
  (∀ x, fa_private p' x ↔ fa_private (vm_pmm s) x) →
  (∀ g, fa_managed p' g ↔ fa_managed (vm_pmm s) g) →
  agree_off (fa_private (vm_pmm s)) (vm_hw s) (fa_hw p') → same_control (vm_hw s) (fa_hw p') →
  let s' := fresh_state s p' f (frame_io h) i u in
  space_ok s' root ∧ grown root s s' ∧ table_at (vm_mem s') root (p ++ [i]) = Some (frame_io f) ∧
  (∀ v, leaf (vm_mem s') root v = leaf (vm_mem s) root v) ∧ ∀ n, fa_supply n p' → fa_supply n (vm_pmm s').
Proof.
  intros Hs Hv Hp Hno Hok' Hf Hman Hav Hav' Hpr Hman' Hag Hctl s'. pose proof Hs as [Hfa Htab Hinj].
  pose proof (proj1 (valid_snoc p i) Hv) as (Hvp & Hlen & Hi).
  destruct (Htab p _ Hvp Hp) as (h' & Hhh & Hhm & Hhav & Hhp).
  assert (h = h') as <- by (unfold frame_io in Hhh; lia).
  pose proof (fa_managed_range _ _ Hfa Hhm) as Hh.
  destruct (fresh_state_facts s root p h f p' i u)
    as ((Hok & Hsup' & Hpr2 & Hman2 & Hav2) & Hold & Hnext & Hzero & Hmem); [done..|].
  fold s' in Hok, Hsup', Hpr2, Hman2, Hav2, Hold, Hnext, Hzero, Hmem.
  destruct (table_at_grow (vm_mem s) (vm_mem s') root p i (frame_io h) (frame_io f)) as [Hmono Hnew];
    [done..| | |].
  { intros q a j Hq Ha. apply valid_snoc in Hq as (? & _ & ?). by apply Hold. }
  { intros j Hj. by apply next_table_zero, Hzero. }
  assert (∀ q, valid_path q → table_at (vm_mem s) root q ≠ Some (frame_io f)) as Hfresh.
  { intros q Hq Ha. destruct (Htab q _ Hq Ha) as (g & Hg & _ & Hgav & _).
    assert (f = g) as <- by (unfold frame_io in Hg; lia). done. }
  split_and!; [split|split| | |done]; try done.
  - intros q a Hq Ha. destruct (Hnew q a Hq Ha) as [Ha0|[-> ->]].
    + destruct (Htab q a Hq Ha0) as (g & -> & Hg & Hgav & Hgp).
      exists g. rewrite Hman2, Hman', Hav2, Hav'. setoid_rewrite Hpr2. setoid_rewrite Hpr.
      split_and!; [done|done|tauto|done].
    + exists f. rewrite Hman2, Hman', Hav2, Hav'. setoid_rewrite Hpr2. setoid_rewrite Hpr.
      split_and!; [done|done|tauto|]. intros x. by apply fa_avail_private.
  - intros q r a Hq Hr Ha Hb.
    destruct (Hnew q a Hq Ha) as [Ha0|[? ?]], (Hnew r a Hr Hb) as [Hb0|[? ?]]; subst; try done;
      [by eapply Hinj|by apply Hfresh in Ha0|by apply Hfresh in Hb0].
  - split; try done.
    + unfold vm_hw, s', fresh_state. cbn [vm_pmm vm_set_pmm]. rewrite fa_get_set. exact Hctl.
    + intros g. by rewrite Hman2.
    + intros x. by rewrite Hpr2.
    + intros g. rewrite Hav2, Hav'. tauto.
  - intros x. unfold footprint. rewrite Hpr2, Hpr. setoid_rewrite Hav2. setoid_rewrite Hav'.
    intros [?|[(g & [? _] & ?)|(q & t & Hq & Ht & Hx)] ]; [by left|right; left; by exists g|].
    destruct (Hnew q t Hq Ht) as [?|[-> ->]]; right; [right; by exists q, t|left; by exists f].
  - intros x Hx Hout. apply Hmem; [done|..]; intros Hin; apply Hout; unfold footprint.
    + right; right. by exists p, (frame_io h).
    + right; left. by exists f.
    + by left.
  - by rewrite table_at_snoc, (Hmono p _ Hvp Hp).
  - intros v. unfold leaf. destruct (table_at (vm_mem s) root (walk_of v)) as [a|] eqn:Ha.
    + rewrite (Hmono _ _ (walk_of_valid v) Ha). apply (Hold (walk_of v)); auto using walk_of_valid, PML1_range.
      intros [= <- _]. cbn in Hlen. lia.
    + destruct (table_at (vm_mem s') root (walk_of v)) as [b|] eqn:Hb; [|done].
      destruct (Hnew _ _ (walk_of_valid v) Hb) as [?|[_ ->]]; [congruence|]. apply Hzero, PML1_range.
Qed.

Lemma table_frame_inv s root p t :
  space_ok s root → valid_path p → table_at (vm_mem s) root p = Some t →
  ∃ f, t = frame_io f ∧ 0 ≤ f < 0x800000000 ∧ ∀ x, in_block (frame_io f) 4096 x → ¬ fa_private (vm_pmm s) x.
Proof.
  intros [Hfa Htab _] Hv Ht. destruct (Htab p t Hv Ht) as (f & -> & Hf & _ & Hp).
  exists f. split_and!; auto; by apply (fa_managed_range (vm_pmm s)).
Qed.

(** The walk one level down: the table is there, or a fresh one is linked. *)
Lemma fresh_stops s r p' t i u :
  fa_alloc PAGE_SIZE (vm_pmm s) = Ok (r, p') → length r = 0 → next_table (vm_mem s) t i = None →
  vmm_get_pml_alloc t i u s = Err AssertFailed.
Proof.
  intros Hrun Hz Hno. unfold vmm_get_pml_alloc. rewrite (bind_eq _ _ _ (entry_at (vm_mem s) t i) s) by done.
  unfold next_table in Hno. destruct (pml_present _); [done|].
  rewrite (bind_eq _ _ _ r (vm_set_pmm p' s)) by (unfold on_pmm, zoom; by rewrite Hrun). by rewrite Hz.
Qed.
Lemma fresh_fails s e t i u :
  fa_alloc PAGE_SIZE (vm_pmm s) = Err e → next_table (vm_mem s) t i = None → vmm_get_pml_alloc t i u s = Err e.
Proof.
  intros Hrun Hno. unfold vmm_get_pml_alloc. rewrite (bind_eq _ _ _ (entry_at (vm_mem s) t i) s) by done.
  unfold next_table in Hno. destruct (pml_present _); [done|]. apply bind_Err. unfold on_pmm, zoom. by rewrite Hrun.
Qed.
Record walked root p i s (t' : Z) s' : Prop := {
  wk_space : space_ok s' root;
  wk_grown : grown root s s';
  wk_table : table_at (vm_mem s') root (p ++ [i]) = Some t';
  wk_leaf v : leaf (vm_mem s') root v = leaf (vm_mem s) root v;
  wk_supply : frugal 1 (vm_pmm s) (vm_pmm s')
}.
Lemma get_pml_alloc_spec s root p t i u :
  space_ok s root → valid_path (p ++ [i]) → table_at (vm_mem s) root p = Some t →
  runs (starved 1 (vm_pmm s)) (vmm_get_pml_alloc t i u) (λ r s', ∃ t', r = mk_range t' 4096 ∧ walked root p i s t' s') s.
Proof.
  intros Hs Hv Hp. pose proof (proj1 (proj1 (valid_snoc p i) Hv)) as Hvp.
  destruct (next_table (vm_mem s) t i) as [t'|] eqn:Hn.
  - assert (vmm_get_pml_alloc t i u s = Ok (mk_range t' 4096, s)) as Hrun.
    { unfold vmm_get_pml_alloc. rewrite (bind_eq _ _ _ (entry_at (vm_mem s) t i) s) by done.
      unfold next_table in Hn. destruct (pml_present _); [by injection Hn as <-|done]. }
    unfold runs. rewrite Hrun. exists t'. split; [done|]. split; try done.
    + by rewrite table_at_snoc, Hp.
    + intros n. by apply fa_supply_weaken, le_S.
  - destruct (table_frame_inv s root p t Hs Hvp Hp) as (h & -> & Hh & _).
    pose proof (take_frame (vm_pmm s) (sp_fa _ _ Hs)) as Ht. unfold runs in *.
    destruct (fa_alloc PAGE_SIZE (vm_pmm s)) as [[r p']|e] eqn:Hrun; [|by rewrite (fresh_fails s e)].
    destruct Ht as [[Hz Hno]|(f & -> & [Hok' (Hf & Hman & Hav) Hav' Hpr Hman' Hag Hc _] & Hfr)].
    + rewrite (fresh_stops s r p') by done. split; [apply fa_stops_assert|done].
    + rewrite (fresh_run s f p') by done. exists (frame_io f). split; [done|].
      destruct (fresh_space s root p h f p' i u) as (? & ? & ? & ? & Hsup); [done..|].
      split; try done. intros n Hn2. by apply Hsup, Hfr.
Qed.

(** The state after [e] was stored in the last-level slot of [v]. *)
Definition leaf_state s t v e : vmm_state P :=
  vm_set_hw (hw_set_mem (store64 (entry_addr t (PML1_GET_INDEX v)) e) (vm_hw s)) s.

Lemma leaf_state_facts s root v h e :
  space_ok s root → table_at (vm_mem s) root (walk_of v) = Some (frame_io h) →
  0 ≤ h < 0x800000000 → (∀ x, in_block (frame_io h) 4096 x → ¬ fa_private (vm_pmm s) x) →
  let s' := leaf_state s (frame_io h) v e in
  (fa_ok (vm_pmm s') ∧ frugal 0 (vm_pmm s) (vm_pmm s') ∧
   (∀ x, fa_private (vm_pmm s') x ↔ fa_private (vm_pmm s) x) ∧
   (∀ g, fa_managed (vm_pmm s') g ↔ fa_managed (vm_pmm s) g) ∧
   (∀ g, fa_avail (vm_pmm s') g ↔ fa_avail (vm_pmm s) g)) ∧
  (∀ x, 0 ≤ x < 0x10000000000000000 → ¬ in_block (frame_io h) 4096 x →
     load8 (vm_mem s') x = load8 (vm_mem s) x).
Proof.
  intros Hs Ht Hh Hhp s'. pose proof (PML1_range v) as Hi.
  assert (∀ x, 0 ≤ x < 0x10000000000000000 → ¬ in_block (frame_io h) 4096 x →
            load8 (hw_mem (hw_set_mem (store64 (entry_addr (frame_io h) (PML1_GET_INDEX v)) e) (vm_hw s))) x =
            load8 (vm_mem s) x) as Hst.
  { intros x Hx Hout. apply (load8_store_le_ne 8); [by apply entry_block|done|].
    by intros ?%entry_in_frame. }
  split.
  - destruct (fa_frame (hw_set_mem (store64 (entry_addr (frame_io h) (PML1_GET_INDEX v)) e) (vm_hw s))
      (vm_pmm s)) as (? & Hsup' & ?); [|apply Hs|split_and!; [done|exact Hsup'|tauto..] ].
    intros x Hx Hxp. apply Hst; [done|]. intros Hin. by apply (Hhp x).
  - unfold vm_mem, s', leaf_state. rewrite vm_hw_set. exact Hst.
Qed.

Lemma leaf_state_entry s root v h e q a j :
  space_ok s root → table_at (vm_mem s) root (walk_of v) = Some (frame_io h) →
  0 ≤ h < 0x800000000 → 0 ≤ e < 0x10000000000000000 →
  valid_path q → 0 ≤ j < 512 → table_at (vm_mem s) root q = Some a →
  entry_at (vm_mem (leaf_state s (frame_io h) v e)) a j =
    if decide ((q, j) = (walk_of v, PML1_GET_INDEX v)) then e else entry_at (vm_mem s) a j.
Proof.
  intros Hs Ht Hh He Hq Hj Ha. pose proof (walk_of_valid v) as Hwv. pose proof (PML1_range v) as Hi.
  destruct (table_frame_inv s root q a Hs Hq Ha) as (g & -> & Hg & _).
  unfold vm_mem at 1. unfold leaf_state, entry_at. rewrite vm_hw_set. cbn [hw_mem hw_set_mem].
  destruct (decide ((g, j) = (h, PML1_GET_INDEX v))) as [[= -> ->]|Hne].
  - rewrite (sp_inj _ _ Hs q (walk_of v) _ Hq Hwv Ha Ht), decide_True by done.
    rewrite load64_store64_eq by by apply entry_block. by apply u64_small.
  - rewrite load64_store64_ne by (apply entry_block || apply entries_disjoint; done).
    rewrite decide_False; [done|]. intros [= -> ->]. rewrite Ht in Ha. injection Ha as Hhg.
    apply Hne. f_equal. unfold frame_io in Hhg. lia.
Qed.

Lemma leaf_state_tables s root v h e q :
  space_ok s root → table_at (vm_mem s) root (walk_of v) = Some (frame_io h) →
  0 ≤ h < 0x800000000 → 0 ≤ e < 0x10000000000000000 → valid_path q →
  table_at (vm_mem (leaf_state s (frame_io h) v e)) root q = table_at (vm_mem s) root q.
Proof.
  intros Hs Ht Hh He. apply table_at_same. intros r a j Hr Ha. apply valid_snoc in Hr as (Hr & Hlen & Hj).
  rewrite (leaf_state_entry s root v h e r) by done.
  rewrite decide_False; [done|]. intros [= -> _]. cbn in Hlen. lia.
Qed.

(** Writing a last-level entry. *)
Lemma leaf_store s root v t e :
  space_ok s root → table_at (vm_mem s) root (walk_of v) = Some t → 0 ≤ e < 0x10000000000000000 →
  let s' := leaf_state s t v e in
  space_ok s' root ∧ grown root s s' ∧ frugal 0 (vm_pmm s) (vm_pmm s') ∧
  ∀ w, leaf (vm_mem s') root w = if decide (vpage w = vpage v) then e else leaf (vm_mem s) root w.
Proof.
  intros Hs Ht He s'. pose proof (walk_of_valid v) as Hwv.
  destruct (table_frame_inv s root _ t Hs Hwv Ht) as (h & -> & Hh & Hhp).
  destruct (leaf_state_facts s root v h e Hs Ht Hh Hhp) as ((Hok & Hsup' & Hpr & Hman & Hav) & Hmem).
  pose proof (λ q, leaf_state_tables s root v h e q Hs Ht Hh He) as Hsame.
  fold s' in Hok, Hsup', Hpr, Hman, Hav, Hmem, Hsame.
  split_and!; [split|split| |]; auto.
  - intros q a Hq. rewrite Hsame by done. intros Ha.
    destruct (sp_table _ _ Hs q a Hq Ha) as (g & -> & Hg & Hgav & Hgp). exists g.
    rewrite Hman, Hav. setoid_rewrite Hpr. done.
  - intros q r a Hq Hr. rewrite !Hsame by done. by apply (sp_inj _ _ Hs).
  - split; try done; [|intros g; by rewrite Hav]. unfold s', leaf_state. by rewrite vm_hw_set.
  - intros q a Hq. by rewrite Hsame.
  - intros x. unfold footprint. rewrite Hpr. setoid_rewrite Hav.
    intros [?|[?|(q & a & Hq & Ha & ?)] ]; [by left|by right; left|]. rewrite Hsame in Ha by done.
    right; right. by exists q, a.
  - intros x Hx Hout. apply Hmem; [done|]. intros Hin. apply Hout.
    right; right. by exists (walk_of v), (frame_io h).
  - intros w. unfold leaf. rewrite Hsame by apply walk_of_valid.
    destruct (table_at (vm_mem s) root (walk_of w)) as [a|] eqn:Ha.
    + unfold s'. rewrite (leaf_state_entry s root v h e (walk_of w))
        by (apply walk_of_valid || apply PML1_range || done).
      destruct (decide (vpage w = vpage v)) as [Hp|Hp].
      * apply same_slot in Hp as [-> ->]. by rewrite decide_True.
      * rewrite decide_False; [done|]. intros [= H1 H2 H3 H4]. apply Hp, same_slot.
        unfold walk_of. by rewrite H1, H2, H3, H4.
    + rewrite decide_False; [done|]. intros Hp. apply same_slot in Hp as [Hp _]. congruence.
Qed.

(** *** Mapping *)

Lemma map_page_spec s root v phys u :
  space_ok s root → 0 ≤ phys < 0x10000000000000000 →
  runs (starved 3 (vm_pmm s)) (vmm_map_page root v phys u) (λ _ s',
    space_ok s' root ∧ grown root s s' ∧ frugal 3 (vm_pmm s) (vm_pmm s') ∧
    ∀ w, leaf (vm_mem s') root w =
      if decide (vpage w = vpage v) then pml_make_entry phys u else leaf (vm_mem s) root w) s.
Proof.
  intros Hs Hphys. pose proof (walk_of_valid v) as Hwv. unfold walk_of in Hwv.
  pose proof (proj1 (proj1 (valid_snoc [_; _] _) Hwv)) as Hw2.
  pose proof (proj1 (proj1 (valid_snoc [_] _) Hw2)) as Hw1. unfold vmm_map_page.
  apply runs_bind. eapply runs_mono; [| |by apply (get_pml_alloc_spec s root [] root (PML4_GET_INDEX v) true)].
  { intros e. apply starved_weaken. lia. }
  intros r1 s1 (t1 & -> & [Hs1 Hg1 Ht1 Hl1 Hu1]). cbn [base].
  apply runs_bind. eapply runs_mono; [| |exact (get_pml_alloc_spec s1 root [PML4_GET_INDEX v] t1 (PML3_GET_INDEX v) true Hs1 Hw2 Ht1)].
  { intros e He. apply (starved_weaken 2); [lia|]. by apply (starved_after 1 1 _ (vm_pmm s1)). }
  intros r2 s2 (t2 & -> & [Hs2 Hg2 Ht2 Hl2 Hu2]). cbn [base]. pose proof (frugal_trans _ _ _ _ _ Hu1 Hu2) as Hu12.
  apply runs_bind. eapply runs_mono; [| |exact (get_pml_alloc_spec s2 root [PML4_GET_INDEX v; PML3_GET_INDEX v] t2 (PML2_GET_INDEX v) true Hs2 Hwv Ht2)].
  { intros e. by apply (starved_after 2 1). }
  intros r3 s3 (t3 & -> & [Hs3 Hg3 Ht3 Hl3 Hu3]). cbn [base].
  destruct (leaf_store s3 root v t3 (pml_make_entry phys u) Hs3 Ht3) as (Hs4 & Hg4 & Hu4 & Hl4); [by apply pml_make_entry_fields|].
  change (on_mem _ s3) with (Ok (tt, leaf_state s3 t3 v (pml_make_entry phys u))). split_and!; try done.
  - etrans; [exact Hg1|]. etrans; [exact Hg2|]. by etrans.
  - apply (frugal_trans 2 1 _ (vm_pmm s2)); [done|]. by apply (frugal_trans 1 0 _ (vm_pmm s3)).
  - intros w. by rewrite Hl4, Hl3, Hl2, Hl1.
Qed.

(** Changing the processor's control state or the lock leaves spaces alone. *)
Definition vm_set_ctl (h : hw) (l : Z) s : vmm_state P := vm_set_lock l (vm_set_hw h s).
Lemma vm_ctl s root h l :
  hw_mem h = vm_mem s → space_ok s root →
  let s' := vm_set_ctl h l s in
  space_ok s' root ∧ vm_mem s' = vm_mem s ∧ vm_hw s' = h ∧
  (∀ n, fa_supply n (vm_pmm s) → fa_supply n (vm_pmm s')) ∧
  (∀ x, footprint s' root x ↔ footprint s root x).
Proof.
  intros Hmem [Hfa Htab Hinj] s'.
  assert (vm_hw s' = h) as Hhw by apply fa_get_set.
  assert (vm_mem s' = vm_mem s) as Hm by (unfold vm_mem at 1; by rewrite Hhw).
  destruct (fa_frame h (vm_pmm s)) as (Hok' & Hsup & Hpr & Hman & Hav); [|done|].
  { intros x _ _. by rewrite Hmem. }
  change (fa_set_hw h (vm_pmm s)) with (vm_pmm s') in *.
  split_and!; [split| | | |]; auto.
  - intros p t Hp. rewrite Hm. intros Ht. destruct (Htab p t Hp Ht) as (f & -> & Hf & Ha & Hx).
    exists f. rewrite Hman, Hav. setoid_rewrite Hpr. done.
  - intros p q t. rewrite Hm. apply Hinj.
  - intros x. unfold footprint. rewrite Hpr, Hm. by setoid_rewrite Hav.
Qed.

Lemma ctl_frames s h l :
  fa_ok (vm_pmm s) → hw_mem h = vm_mem s →
  let s' := vm_set_ctl h l s in
  (∀ f, fa_managed (vm_pmm s') f ↔ fa_managed (vm_pmm s) f) ∧ (∀ x, fa_private (vm_pmm s') x ↔ fa_private (vm_pmm s) x) ∧
  (∀ f, fa_avail (vm_pmm s') f ↔ fa_avail (vm_pmm s) f) ∧ (∀ n, fa_supply n (vm_pmm s) → fa_supply n (vm_pmm s')).
Proof.
  intros Hok Hmem s'. destruct (fa_frame h (vm_pmm s)) as (_ & Hsup & Hpr & Hman & Hav); [|done|done].
  intros x _ _. by rewrite Hmem.
Qed.
Lemma vm_acquire_free s :
  vm_lock s = 0 → vm_acquire s = Ok (tt, vm_set_ctl (hw_set_if false (vm_hw s)) 1 s).
Proof. intros Hl. unfold vm_acquire. by rewrite Hl. Qed.
Lemma vm_release_eq s : vm_release s = Ok (tt, vm_set_ctl (hw_set_if true (vm_hw s)) 0 s).
Proof. done. Qed.

(** [n] TLB invalidations of one page. *)
Definition flushed (n : nat) (a : Z) (h : hw) : hw :=
  mk_hw (hw_mem h) (hw_if h) (hw_cr3 h) (hw_invlpg h ++ replicate n a).
Lemma flush_run r s :
  vmm_flush r s =
    Ok (tt, vm_set_hw (flushed (Z.to_nat (length r / PAGE_SIZE))
                         (u64 ((base r / PAGE_SIZE + 1) * PAGE_SIZE)) (vm_hw s)) s).
Proof.
  unfold vmm_flush. generalize 0 as i. generalize (Z.to_nat (length r / PAGE_SIZE)) as n.
  set (a := u64 _). intros n. revert s. induction n as [|n IH]; intros s i.
  - cbn [forZ]. unfold flushed, vm_hw, vm_set_hw, vm_set_pmm. cbn [replicate]. rewrite app_nil_r.
    replace (mk_hw _ _ _ _) with (fa_hw (vm_pmm s)) by (by destruct (fa_hw (vm_pmm s))).
    rewrite fa_set_get. by destruct s.
  - cbn [forZ]. rewrite (bind_eq _ _ _ tt (vm_set_hw (asm_invlpg a (vm_hw s)) s)) by done.
    rewrite IH, vm_hw_set. unfold vm_set_hw, vm_set_pmm, flushed, asm_invlpg.
    cbn [vm_pmm kernel_pml4 vm_lock hw_mem hw_if hw_cr3 hw_invlpg replicate].
    by rewrite fa_set_set, <- app_assoc.
Qed.

(** The [i]th page of a range, as the loops of vmm.c compute it. *)
Definition range_page (r : range_t) (i : Z) : Z := u64 (i * PAGE_SIZE + ALIGN_DOWN (base r) PAGE_SIZE).

Lemma vpage_range_page r i :
  vpage (range_page r i) = (base r / 4096 + i) mod 0x1000000000.
Proof.
  unfold vpage, range_page. rewrite ALIGN_DOWN_page. unfold PAGE_SIZE.
  rewrite <- Z.mul_add_distr_r. set (k := i + base r / 4096).
  assert (u64 (k * 4096) / 4096 = k mod 0x10000000000000) as ->.
  { unfold u64. change 0x10000000000000000 with (0x10000000000000 * 4096).
    rewrite Z.mul_mod_distr_r by lia. by rewrite Z.div_mul. }
  change 0x10000000000000 with (0x1000000000 * 0x10000). rewrite Z.rem_mul_r by lia.
  rewrite (Z.mul_comm 0x1000000000), Z.mod_add, Z.mod_mod by lia. subst k. f_equal. lia.
Qed.

Lemma range_pages_distinct r i j :
  0 ≤ i < 0x1000000000 → 0 ≤ j < 0x1000000000 → vpage (range_page r i) = vpage (range_page r j) → i = j.
Proof. rewrite !vpage_range_page. intros. Z.div_mod_to_equations; lia. Qed.

(** The state of the loop of [vmm_map_range] before its [i]th page. *)
Definition map_inv s root virt phys u (i : Z) s' : Prop :=
  space_ok s' root ∧ grown root s s' ∧ frugal (3 * Z.to_nat i) (vm_pmm s) (vm_pmm s') ∧
  (∀ j, 0 ≤ j < i → leaf (vm_mem s') root (range_page virt j) = pml_make_entry (range_page phys j) u) ∧
  (∀ w, (∀ j, 0 ≤ j < i → vpage w ≠ vpage (range_page virt j)) →
     leaf (vm_mem s') root w = leaf (vm_mem s) root w).

Lemma map_loop_spec s root virt phys u n :
  space_ok s root → 0 ≤ n ≤ 0x1000000000 →
  runs (starved (3 * Z.to_nat n) (vm_pmm s)) (forZ (Z.to_nat n) 0 (λ i, vmm_map_page root (range_page virt i) (range_page phys i) u))
     (λ _, map_inv s root virt phys u n) s.
Proof.
  intros Hs Hn. eapply (runs_mono _ _ _ (λ _, map_inv s root virt phys u (0 + Z.of_nat (Z.to_nat n)))); [done| |apply runs_forZ].
  - intros [] s'. by rewrite Z.add_0_l, Z2Nat.id by lia.
  - split_and!; try done; [by intros k|intros; lia].
  - intros i s1 Hi (Hs1 & Hg1 & Hu1 & Hm1 & Ho1). rewrite Z2Nat.id in Hi by lia.
    eapply runs_mono; [| |exact (map_page_spec s1 root (range_page virt i) (range_page phys i) u Hs1 (u64_range _))].
    { intros e He. apply (starved_weaken (3 * Z.to_nat i + 3)); [lia|]. by eapply starved_after. }
    intros [] s2 (Hs2 & Hg2 & Hu2 & Hl2). split_and!; try done; [by etrans|..].
    + replace (3 * Z.to_nat (i + 1))%nat with (3 * Z.to_nat i + 3)%nat by lia. by eapply frugal_trans.
    + intros j Hj. rewrite Hl2. case_decide as Hd; [|apply Hm1].
      * by apply range_pages_distinct in Hd as ->; [|lia..].
      * assert (j ≠ i) by (by intros ->). lia.
    + intros w Hw. rewrite Hl2, decide_False by (apply Hw; lia). apply Ho1. intros j Hj. apply Hw. lia.
Qed.

(** What [vmm_map_range] leaves when it returns. *)
Record range_mapped s root virt phys (u : bool) s' : Prop := {
  rm_space : space_ok s' root;
  rm_lock : vm_lock s' = 0;
  rm_hw : hw_if (vm_hw s') = true ∧ hw_cr3 (vm_hw s') = hw_cr3 (vm_hw s) ∧
    hw_invlpg (vm_hw s') = hw_invlpg (vm_hw s) ++ replicate (Z.to_nat (length virt / 4096)) (u64 ((base virt / 4096 + 1) * 4096));
  rm_pages j : 0 ≤ j < length virt / 4096 → leaf (vm_mem s') root (range_page virt j) = pml_make_entry (range_page phys j) u;
  rm_others w : (∀ j, 0 ≤ j < length virt / 4096 → vpage w ≠ vpage (range_page virt j)) →
    leaf (vm_mem s') root w = leaf (vm_mem s) root w;
  rm_tables p t : valid_path p → table_at (vm_mem s) root p = Some t → table_at (vm_mem s') root p = Some t;
  rm_memory : agree_off (footprint s root) (vm_hw s) (vm_hw s');
  rm_footprint x : footprint s' root x → footprint s root x;
  rm_kernel : kernel_pml4 s' = kernel_pml4 s;
  rm_managed f : fa_managed (vm_pmm s') f ↔ fa_managed (vm_pmm s) f;
  rm_private x : fa_private (vm_pmm s') x ↔ fa_private (vm_pmm s) x;
  rm_avail f : fa_avail (vm_pmm s') f → fa_avail (vm_pmm s) f;
  rm_supply : frugal (3 * Z.to_nat (length virt / 4096)) (vm_pmm s) (vm_pmm s')
}.
Lemma map_range_run s root virt phys u :
  space_ok s root → vm_lock s = 0 → length phys = length virt → 0 ≤ length virt / 4096 ≤ 0x1000000000 →
  runs (starved (3 * Z.to_nat (length virt / 4096)) (vm_pmm s)) (vmm_map_range root virt phys u) (λ _, range_mapped s root virt phys u) s.
Proof.
  intros Hs Hl Hlen Hn. set (n := length virt / 4096) in *.
  destruct (vm_ctl s root (hw_set_if false (vm_hw s)) 1) as (Hs1 & Hm1 & Hh1 & Hu1 & Hf1); [done..|].
  pose proof (ctl_frames s (hw_set_if false (vm_hw s)) 1 (sp_fa _ _ Hs) eq_refl) as (Hman1 & Hpr1 & Hav1 & Hsup1).
  set (s1 := vm_set_ctl _ 1 s) in *. unfold vmm_map_range.
  eapply runs_eq; [by rewrite Hlen, Z.eqb_refl|]. eapply runs_eq; [exact (vm_acquire_free s Hl)|]. fold s1.
  apply runs_bind. change (Z.to_nat (length virt / PAGE_SIZE)) with (Z.to_nat n).
  eapply runs_mono; [| |exact (map_loop_spec s1 root virt phys u n Hs1 Hn)].
  { intros e [Hst Hno]. split; [done|]. intros Hsup. by apply Hno, Hsup1. }
  intros [] s2 (Hs2 & [ [Hk2 Hl2 [Hc2 Hi2] Hman2 Hpr2 Hav2] Hmono2 Hfp2 Hmem2] & Hsup2 & Hmap & Hother).
  destruct (vm_ctl s2 root (hw_set_if true (vm_hw s2)) 0) as (Hs3 & Hm3 & Hh3 & _ & Hf3); [done..|].
  pose proof (ctl_frames s2 (hw_set_if true (vm_hw s2)) 0 (sp_fa _ _ Hs2) eq_refl) as (Hman3 & Hpr3 & Hav3 & Hsup3).
  eapply runs_eq; [exact (vm_release_eq s2)|]. set (s3 := vm_set_ctl _ 0 s2) in *.
  set (h4 := flushed (Z.to_nat n) (u64 ((base virt / 4096 + 1) * 4096)) (vm_hw s3)).
  assert (hw_mem h4 = vm_mem s3) as Hh34 by done.
  destruct (vm_ctl s3 root h4 0) as (Hs4 & Hm4 & Hh4 & _ & Hf4); [done..|].
  pose proof (ctl_frames s3 h4 0 (sp_fa _ _ Hs3) Hh34) as (Hman4 & Hpr4 & Hav4 & Hsup4).
  unfold runs. rewrite flush_run. change (vm_set_hw _ s3) with (vm_set_ctl h4 0 s3).
  set (s4 := vm_set_ctl h4 0 s3) in *. split; try done.
  - rewrite Hh4. unfold h4. cbn. rewrite Hh3. cbn. by rewrite Hc2, Hi2, Hh1.
  - intros j Hj. rewrite Hm4, Hm3. by apply Hmap.
  - intros w Hw. rewrite Hm4, Hm3, Hother, Hm1; done.
  - intros p t Hp Ht. rewrite Hm4, Hm3. apply Hmono2; [done|by rewrite Hm1].
  - intros x Hx Hout. rewrite <- Hf1 in Hout. rewrite Hh4. change (hw_mem h4) with (hw_mem (vm_hw s3)). rewrite Hh3.
    etrans; [exact (Hmem2 x Hx Hout)|by rewrite Hh1].
  - intros x. rewrite Hf4, Hf3, <- Hf1. apply Hfp2.
  - intros f. by rewrite Hman4, Hman3, Hman2, Hman1.
  - intros x. by rewrite Hpr4, Hpr3, Hpr2, Hpr1.
  - intros f. rewrite Hav4, Hav3, <- Hav1. apply Hav2.
  - intros k Hk. by apply Hsup4, Hsup3, Hsup2, Hsup1.
Qed.

(** C2. Given enough frames for the tables it may need,
    [vmm_map_range] returns with the lock free; afterwards every page of the
    virtual range is mapped to the corresponding physical page with the
    requested privilege, every other page of the space translates as before,
    the space is still well formed, memory that is neither a table of the space, nor a
    frame that was free, nor the allocator's is untouched, and the only TLB
    invalidations are repetitions of one and the same page, the one after the
    first of the range. *)
Theorem vmm_map_range_maps s root virt phys u :
  let n := length virt / 4096 in
  space_ok s root → vm_lock s = 0 → length phys = length virt →
  0 ≤ n ≤ 0x1000000000 → fa_supply (3 * Z.to_nat n) (vm_pmm s) →
  ∃ s', vmm_map_range root virt phys u s = Ok (tt, s') ∧ space_ok s' root ∧ vm_lock s' = 0 ∧
    hw_if (vm_hw s') = true ∧ hw_cr3 (vm_hw s') = hw_cr3 (vm_hw s) ∧
    hw_invlpg (vm_hw s') =
      hw_invlpg (vm_hw s) ++ replicate (Z.to_nat n) (u64 ((base virt / 4096 + 1) * 4096)) ∧
    (∀ j, 0 ≤ j < n → leaf (vm_mem s') root (range_page virt j) = pml_make_entry (range_page phys j) u) ∧
    (∀ w, (∀ j, 0 ≤ j < n → vpage w ≠ vpage (range_page virt j)) →
       leaf (vm_mem s') root w = leaf (vm_mem s) root w) ∧
    agree_off (footprint s root) (vm_hw s) (vm_hw s').
Proof.
  intros n Hs Hl Hlen Hn Hsup. pose proof (map_range_run s root virt phys u Hs Hl Hlen Hn) as Hrun.
  apply runs_wp, wp_elim in Hrun as ([] & s' & Hrun & [Hsp Hl' (Hif & Hcr & Hinv) Hmap Hoth _ Hmem _ _ _ _ _ _]); [|by intros e [_ Hno]].
  by exists s'.
Qed.

(** When a walk inside [vmm_map_range] has to allocate a
    table, it comes back with interrupts enabled while the virtual memory
    manager's lock is still held: the critical section is interruptible from
    there on. *)
Theorem vmm_table_alloc_enables_interrupts s root p t i u n s1 r :
  space_ok s root → valid_path (p ++ [i]) → table_at (vm_mem s) root p = Some t →
  table_at (vm_mem s) root (p ++ [i]) = None → fa_supply (S n) (vm_pmm s) →
  vm_lock s = 0 → vm_acquire s = Ok (tt, s1) → vmm_get_pml_alloc t i u s1 = r →
  hw_if (vm_hw s1) = false ∧
  ∃ t' s2, r = Ok (mk_range t' 4096, s2) ∧ vm_lock s2 = 1 ∧ hw_if (vm_hw s2) = true.
Proof.
  intros Hs Hv Hp Hno Hsup Hl Hacq <-. rewrite vm_acquire_free in Hacq by done. injection Hacq as <-.
  destruct (vm_ctl s root (hw_set_if false (vm_hw s)) 1) as (Hs1 & Hm1 & Hh1 & Hu1 & _); [done..|].
  set (s1 := vm_set_ctl _ 1 s) in *. split; [by rewrite Hh1|].
  pose proof (proj1 (proj1 (valid_snoc p i) Hv)) as Hvp.
  rewrite table_at_snoc, Hp in Hno. cbn in Hno. rewrite <- Hm1 in Hp, Hno.
  destruct (table_frame_inv s1 root p t Hs1 Hvp Hp) as (h & -> & Hh & _).
  destruct (supply_frame n (vm_pmm s1) (sp_fa _ _ Hs1) (Hu1 _ Hsup))
    as (f & p' & Hrun & [_ (Hf & _) _ _ _ _ _ Hif] & _).
  exists (frame_io f), (fresh_state s1 p' f (frame_io h) i u).
  split; [by apply fresh_run|]. split; [done|].
  unfold vm_hw, fresh_state. cbn [vm_pmm vm_set_pmm]. by rewrite fa_get_set.
Qed.

(** *** Unmapping *)

Lemma get_pml_eq t i s :
  vmm_get_pml t i s =
    Ok (match next_table (vm_mem s) t i with Some t' => mk_range t' 4096 | None => mk_range 0 0 end, s).
Proof.
  unfold vmm_get_pml. rewrite (bind_eq _ _ _ (entry_at (vm_mem s) t i) s) by done.
  unfold next_table. by destruct (pml_present _).
Qed.

Lemma unmap_page_eq s root v :
  vmm_unmap_page root v s =
    match table_at (vm_mem s) root (walk_of v) with
    | Some t => Ok (tt, leaf_state s t v 0)
    | None => Err AssertFailed
    end.
Proof.
  unfold vmm_unmap_page, walk_of. cbn [table_at].
  rewrite (bind_eq _ _ _ _ _ (get_pml_eq _ _ _)).
  destruct (next_table (vm_mem s) root _) as [t3|]; [|done].
  rewrite (bind_eq _ _ _ tt s), (bind_eq _ _ _ _ _ (get_pml_eq _ _ _)) by done. cbn [base].
  cbn [mbind option_bind].
  destruct (next_table (vm_mem s) t3 _) as [t2|]; [|done].
  rewrite (bind_eq _ _ _ tt s), (bind_eq _ _ _ _ _ (get_pml_eq _ _ _)) by done. cbn [base mbind option_bind].
  by destruct (next_table (vm_mem s) t2 _) as [t1|].
Qed.

(** The state of the loop of [vmm_unmap] before its [i]th page. *)
Definition unmap_inv s root r (i : Z) s' : Prop :=
  space_ok s' root ∧ grown root s s' ∧
  (∀ p, valid_path p → table_at (vm_mem s') root p = table_at (vm_mem s) root p) ∧
  vm_hw s' = hw_set_mem (λ _, vm_mem s') (vm_hw s) ∧
  ∀ w, leaf (vm_mem s') root w =
    if bool_decide (0 ≤ (vpage w - base r / 4096) mod 0x1000000000 < i) then 0 else leaf (vm_mem s) root w.

Lemma vpage_range_page_iff r w i :
  0 ≤ i < 0x1000000000 →
  vpage w = vpage (range_page r i) ↔ (vpage w - base r / 4096) mod 0x1000000000 = i.
Proof.
  intros Hi. rewrite vpage_range_page. assert (0 ≤ vpage w < 0x1000000000) by by apply Z.mod_pos_bound.
  set (a := vpage w) in *. set (b := base r / 4096). clearbody a b. split.
  - intros ->. rewrite Zminus_mod_idemp_l. replace (b + i - b) with i by lia. by apply Z.mod_small.
  - intros <-. rewrite Zplus_mod_idemp_r. replace (b + (a - b)) with a by lia. symmetry. by apply Z.mod_small.
Qed.

Lemma unmap_step s root r i s1 :
  0 ≤ i < 0x1000000000 → unmap_inv s root r i s1 →
  match table_at (vm_mem s) root (walk_of (range_page r i)) with
  | Some t => ∃ s2, vmm_unmap_page root (range_page r i) s1 = Ok (tt, s2) ∧ unmap_inv s root r (i + 1) s2
  | None => vmm_unmap_page root (range_page r i) s1 = Err AssertFailed
  end.
Proof.
  intros Hi (Hs1 & Hg1 & Ht1 & Hh1 & Hl1). pose proof (walk_of_valid (range_page r i)) as Hv.
  rewrite unmap_page_eq, (Ht1 _ Hv). destruct (table_at (vm_mem s) root _) as [t|] eqn:Ht; [|done].
  rewrite <- Ht1 in Ht by done.
  destruct (leaf_store s1 root (range_page r i) t 0 Hs1 Ht (ltac:(done))) as (Hs2 & Hg2 & _ & Hl2).
  destruct (table_frame_inv s1 root _ t Hs1 Hv Ht) as (h & -> & Hh & _).
  eexists. split; [done|]. split_and!; [done|by etrans| | |].
  - intros p Hp. rewrite <- Ht1 by done. by apply leaf_state_tables.
  - unfold leaf_state at 1. rewrite vm_hw_set, Hh1. unfold hw_set_mem, vm_mem, leaf_state.
    by rewrite vm_hw_set.
  - intros w. rewrite Hl2. pose proof (vpage_range_page_iff r w i Hi) as Hiff.
    set (d := (vpage w - base r / 4096) mod _) in *.
    assert (0 ≤ d) by by apply Z.mod_pos_bound.
    case_decide as Hd; [rewrite bool_decide_true; [done|apply Hiff in Hd; lia]|].
    rewrite Hl1. repeat case_bool_decide; try done; [lia|]. exfalso. apply Hd, Hiff. lia.
Qed.

Lemma unmap_loop s root r k i s1 :
  0 ≤ i → i + Z.of_nat k ≤ 0x1000000000 → unmap_inv s root r i s1 →
  let table j := table_at (vm_mem s) root (walk_of (range_page r j)) in
  ((∀ j, i ≤ j < i + Z.of_nat k → is_Some (table j)) ∧
   ∃ s2, forZ k i (λ j, vmm_unmap_page root (range_page r j)) s1 = Ok (tt, s2) ∧
     unmap_inv s root r (i + Z.of_nat k) s2) ∨
  ((∃ j, i ≤ j < i + Z.of_nat k ∧ table j = None) ∧
   forZ k i (λ j, vmm_unmap_page root (range_page r j)) s1 = Err AssertFailed).
Proof.
  intros Hi Hk Hinv table. revert i s1 Hi Hk Hinv. induction k as [|k IH]; intros i s1 Hi Hk Hinv.
  - left. split; [lia|]. exists s1. rewrite Z.add_0_r. done.
  - pose proof (unmap_step s root r i s1 (ltac:(lia)) Hinv) as Hstep. fold (table i) in Hstep.
    destruct (table i) as [t|] eqn:Ht.
    + destruct Hstep as (s2 & Hrun & Hinv2). cbn [forZ]. rewrite (bind_eq _ _ _ _ _ Hrun).
      destruct (IH (i + 1) s2) as [[Hall Hok]|[(j & Hj & Hnone) Herr]]; [lia|lia|done|left|right].
      * split.
        -- intros j Hj. destruct (decide (j = i)) as [->|]; [by rewrite Ht|apply Hall; lia].
        -- by replace (i + Z.of_nat (S k)) with (i + 1 + Z.of_nat k) by lia.
      * split; [exists j; split; [lia|done]|done].
    + right. split; [exists i; split; [lia|done]|]. cbn [forZ]. by apply bind_Err.
Qed.


(** *** Address spaces *)

(** The table of a new space after [k] entries from 255 on were copied. *)
Definition copy_entry (kernel t i : Z) : M (vmm_state P) unit :=
  gets (λ s, entry_at (vm_mem s) kernel i) ≫= λ e, on_mem (store64 (entry_addr t i) e).

Definition copy_inv s f g (i : Z) s' : Prop :=
  ∃ h, s' = vm_set_hw h s ∧
    (∀ x, 0 ≤ x < 0x10000000000000000 → ¬ in_block (frame_io f) 4096 x →
       load8 (hw_mem h) x = load8 (vm_mem s) x) ∧
    h = hw_set_mem (λ _, hw_mem h) (vm_hw s) ∧
    ∀ j, 0 ≤ j < 512 → entry_at (hw_mem h) (frame_io f) j =
      if bool_decide (255 ≤ j < i) then entry_at (vm_mem s) (frame_io g) j else 0.

Lemma copy_entries_spec s f g k :
  0 ≤ f < 0x800000000 → 0 ≤ g < 0x800000000 → f ≠ g → (k ≤ 257)%nat →
  (∀ j, 0 ≤ j < 512 → entry_at (vm_mem s) (frame_io f) j = 0) →
  wp (forZ k 255 (copy_entry (frame_io g) (frame_io f)))
     (λ _, copy_inv s f g (255 + Z.of_nat k)) s.
Proof.
  intros Hf Hg Hne Hk Hz. apply (wp_forZ (copy_inv s f g)).
  - exists (vm_hw s). split_and!; try done.
    + unfold vm_set_hw, vm_set_pmm, vm_hw. rewrite fa_set_get. by destruct s.
    + by destruct (vm_hw s).
    + intros j Hj. rewrite bool_decide_false by lia. by apply Hz.
  - intros i s1 Hi (h & -> & Hmem & Hh & Hent). unfold copy_entry. do 2 wp_step.
    apply wp_modify. unfold vm_mem. rewrite vm_hw_set.
    set (e := entry_at (hw_mem h) (frame_io g) i).
    exists (hw_set_mem (store64 (entry_addr (frame_io f) i) e) h). split_and!.
    + unfold vm_set_hw, vm_set_pmm. cbn. by rewrite fa_set_set.
    + intros x Hx Hout. cbn [hw_mem hw_set_mem].
      rewrite (load8_store_le_ne 8); [by apply Hmem|apply entry_block; lia|done|].
      intros Hin%entry_in_frame; [done|lia].
    + rewrite Hh. done.
    + intros j Hj. cbn [hw_mem hw_set_mem]. unfold entry_at at 1.
      destruct (decide (j = i)) as [->|Hji].
      * rewrite load64_store64_eq by (apply entry_block; lia). rewrite u64_small by apply entry_at_range.
        rewrite bool_decide_true by lia. apply load_le_ext. intros x Hx.
        apply (entry_in_frame g i) in Hx; [|lia]. apply Hmem; unfold in_block, frame_io, MMAP_IO_BASE in *; lia.
      * rewrite load64_store64_ne; [|apply entry_block; lia..|apply entries_disjoint; try lia; congruence].
        fold (entry_at (hw_mem h) (frame_io f) j). rewrite Hent by done.
        repeat case_bool_decide; try done; lia.
Qed.

Lemma copy_entries_run s f g k :
  0 ≤ f < 0x800000000 → 0 ≤ g < 0x800000000 → f ≠ g → (k ≤ 257)%nat →
  (∀ j, 0 ≤ j < 512 → entry_at (vm_mem s) (frame_io f) j = 0) →
  ∃ h, forZ k 255 (copy_entry (frame_io g) (frame_io f)) s = Ok (tt, vm_set_hw h s) ∧
    (∀ x, 0 ≤ x < 0x10000000000000000 → ¬ in_block (frame_io f) 4096 x →
       load8 (hw_mem h) x = load8 (vm_mem s) x) ∧
    h = hw_set_mem (λ _, hw_mem h) (vm_hw s) ∧
    ∀ j, 0 ≤ j < 512 → entry_at (hw_mem h) (frame_io f) j =
      if bool_decide (255 ≤ j < 255 + Z.of_nat k) then entry_at (vm_mem s) (frame_io g) j else 0.
Proof.
  intros Hf Hg Hne Hk Hz.
  destruct (wp_elim _ _ _ (copy_entries_spec s f g k Hf Hg Hne Hk Hz)) as ([] & s' & Hrun & h & -> & ?).
  by exists h.
Qed.

(** A space survives whatever leaves the bytes of its tables. *)
Definition table_byte s root (x : Z) : Prop :=
  ∃ p t, valid_path p ∧ table_at (vm_mem s) root p = Some t ∧ in_block t 4096 x.
Lemma space_kept s s' root :
  space_ok s root → fa_ok (vm_pmm s') →
  (∀ f, fa_managed (vm_pmm s') f ↔ fa_managed (vm_pmm s) f) →
  (∀ x, fa_private (vm_pmm s') x ↔ fa_private (vm_pmm s) x) →
  (∀ f p, fa_avail (vm_pmm s') f → valid_path p → table_at (vm_mem s) root p ≠ Some (frame_io f)) →
  agree_on (table_byte s root) (vm_hw s) (vm_hw s') →
  space_ok s' root ∧
  (∀ q a j, valid_path q → 0 ≤ j < 512 → table_at (vm_mem s) root q = Some a →
     entry_at (vm_mem s') a j = entry_at (vm_mem s) a j) ∧
  (∀ q, valid_path q → table_at (vm_mem s') root q = table_at (vm_mem s) root q) ∧
  (∀ w, leaf (vm_mem s') root w = leaf (vm_mem s) root w).
Proof.
  intros Hs Hok Hman Hpr Hav Hag. pose proof Hs as [Hfa Htab Hinj].
  assert (∀ q a j, valid_path q → 0 ≤ j < 512 → table_at (vm_mem s) root q = Some a →
    entry_at (vm_mem s') a j = entry_at (vm_mem s) a j) as Hent.
  { intros q a j Hq Hj Ha. destruct (Htab q a Hq Ha) as (g & -> & Hg & _).
    pose proof (fa_managed_range _ _ Hfa Hg) as Hgr. apply load_le_ext. intros x Hx. apply (entry_in_frame g j) in Hx; [|done].
    apply Hag; [|by exists q, (frame_io g)]. unfold in_block, frame_io, MMAP_IO_BASE in Hx. lia. }
  assert (∀ q, valid_path q → table_at (vm_mem s') root q = table_at (vm_mem s) root q) as Hsame.
  { intros q. apply table_at_same. intros r a j Hr. apply valid_snoc in Hr as (? & _ & ?). by apply Hent. }
  split_and!; [split| | |]; try done.
  - intros p t Hp. rewrite Hsame by done. intros Ht. destruct (Htab p t Hp Ht) as (g & -> & Hg & Hgav & Hgp).
    exists g. rewrite Hman. setoid_rewrite Hpr. split_and!; [done|done|by intros Hg'; eapply Hav|done].
  - intros p q t Hp Hq. rewrite !Hsame by done. by apply Hinj.
  - intros w. unfold leaf. rewrite Hsame by apply walk_of_valid.
    destruct (table_at (vm_mem s) root (walk_of w)) eqn:Ha; [|done].
    eapply Hent; [apply walk_of_valid|apply PML1_range|exact Ha].
Qed.

Lemma table_not_avail s root f p :
  space_ok s root → fa_avail (vm_pmm s) f → valid_path p → table_at (vm_mem s) root p ≠ Some (frame_io f).
Proof.
  intros Hs Hf Hp Ht. destruct (sp_table _ _ Hs p _ Hp Ht) as (g & Hg & _ & Hno & _).
  assert (f = g) as <- by (unfold frame_io in Hg; lia). done.
Qed.

(** In particular what only writes free frames and the allocator's data. *)
Lemma table_byte_apart s root x :
  space_ok s root → table_byte s root x →
  ¬ fa_private (vm_pmm s) x ∧ (∀ f, fa_avail (vm_pmm s) f → ¬ in_block (frame_io f) 4096 x) ∧ MMAP_IO_BASE ≤ x.
Proof.
  intros [Hfa Htab _] (p & t & Hp & Ht & Hx). destruct (Htab p t Hp Ht) as (g & -> & Hg & Hgav & Hgp).
  pose proof (fa_managed_range _ _ Hfa Hg). split_and!; [by apply Hgp| |unfold in_block, frame_io in Hx; lia].
  intros f Hf Hin. assert (f = g) as -> by (unfold in_block, frame_io in *; lia). done.
Qed.
Lemma space_preserved s s' root :
  space_ok s root → fa_ok (vm_pmm s') →
  (∀ f, fa_managed (vm_pmm s') f ↔ fa_managed (vm_pmm s) f) →
  (∀ x, fa_private (vm_pmm s') x ↔ fa_private (vm_pmm s) x) →
  (∀ f, fa_avail (vm_pmm s') f → fa_avail (vm_pmm s) f) →
  agree_off (λ x, fa_private (vm_pmm s) x ∨ ∃ f, fa_avail (vm_pmm s) f ∧ in_block (frame_io f) 4096 x)
    (vm_hw s) (vm_hw s') →
  space_ok s' root ∧
  (∀ q a j, valid_path q → 0 ≤ j < 512 → table_at (vm_mem s) root q = Some a →
     entry_at (vm_mem s') a j = entry_at (vm_mem s) a j) ∧
  (∀ q, valid_path q → table_at (vm_mem s') root q = table_at (vm_mem s) root q) ∧
  (∀ w, leaf (vm_mem s') root w = leaf (vm_mem s) root w).
Proof.
  intros Hs Hok Hman Hpr Hav Hag. apply space_kept; try done.
  { intros f p Hf. by apply table_not_avail, Hav. }
  intros x Hx Ht.
  destruct (table_byte_apart s root x Hs Ht) as (Hnp & Hna & _). apply Hag; [done|]. intros [?|(f & Hf & Hin)]; [done|by apply (Hna f)].
Qed.

(** What a space may write is the same when its tables, the free frames and the
    allocator's data are. *)
Lemma footprint_mono s s' root x :
  (∀ q, valid_path q → table_at (vm_mem s') root q = table_at (vm_mem s) root q) →
  (∀ x, fa_private (vm_pmm s') x → fa_private (vm_pmm s) x) → (∀ f, fa_avail (vm_pmm s') f → fa_avail (vm_pmm s) f) →
  footprint s' root x → footprint s root x.
Proof.
  intros Hsame Hpr Hav [?|[(f & Hf & ?)|(p & t & Hp & Ht & ?)]]; [left; auto|right; left; exists f; auto|].
  right; right. exists p, t. by rewrite <- Hsame.
Qed.
Lemma footprint_io s root x :
  space_ok s root → (∀ x, fa_private (vm_pmm s) x → MMAP_IO_BASE ≤ x) →
  (∀ f, fa_avail (vm_pmm s) f → 0 ≤ f) → footprint s root x → MMAP_IO_BASE ≤ x.
Proof.
  intros Hs Hpr Hav [?|[(f & Hf & Hin)|Ht]]; [auto| |by apply (table_byte_apart s root x Hs)].
  apply Hav in Hf. unfold in_block, frame_io in Hin. lia.
Qed.

(** A root that shares the upper entries of another space's root. *)
Lemma shared_space s root f g :
  space_ok s root → root = frame_io g → fa_managed (vm_pmm s) f → ¬ fa_avail (vm_pmm s) f →
  (∀ q, valid_path q → table_at (vm_mem s) root q ≠ Some (frame_io f)) →
  (∀ x, in_block (frame_io f) 4096 x → ¬ fa_private (vm_pmm s) x) →
  (∀ j, 0 ≤ j < 512 → entry_at (vm_mem s) (frame_io f) j =
     if bool_decide (255 ≤ j) then entry_at (vm_mem s) root j else 0) →
  space_ok s (frame_io f) ∧
  (∀ v, leaf (vm_mem s) (frame_io f) v = if 255 <=? PML4_GET_INDEX v then leaf (vm_mem s) root v else 0) ∧
  ∀ q t, valid_path q → table_at (vm_mem s) (frame_io f) q = Some t →
    (q = [] ∧ t = frame_io f) ∨ (q ≠ [] ∧ table_at (vm_mem s) root q = Some t).
Proof.
  intros Hs -> Hman Hav Hnew Hp Hent. pose proof Hs as [Hfa Htab Hinj].
  assert (∀ i q, 0 ≤ i < 512 → table_at (vm_mem s) (frame_io f) (i :: q) =
    if 255 <=? i then table_at (vm_mem s) (frame_io g) (i :: q) else None) as Hcons.
  { intros i q Hi. cbn [table_at]. unfold next_table at 1. rewrite Hent by done.
    case_bool_decide; destruct (Z.leb_spec 255 i); try lia; done. }
  assert (∀ q t, valid_path q → table_at (vm_mem s) (frame_io f) q = Some t →
    (q = [] ∧ t = frame_io f) ∨ (q ≠ [] ∧ table_at (vm_mem s) (frame_io g) q = Some t)) as Hcase.
  { intros [|i q] t [_ Hq]; [intros [= <-]; by left|]. apply Forall_cons in Hq as [Hi _].
    rewrite Hcons by done. destruct (255 <=? i); [by right|done]. }
  split; [split|split]; try done.
  - intros p t Hv Ht. destruct (Hcase p t Hv Ht) as [[-> ->]|[_ Ht']]; [by exists f|by eapply Htab].
  - intros p q t Hvp Hvq Hpt Hqt.
    destruct (Hcase p t Hvp Hpt) as [[? ?]|[Hp0 Hp1]], (Hcase q t Hvq Hqt) as [[? ?]|[Hq0 Hq1]]; subst;
      [done|by apply Hnew in Hq1|by apply Hnew in Hp1|by eapply Hinj].
  - intros v. unfold leaf, walk_of. rewrite Hcons by (apply PMLX_GET_INDEX_range; lia).
    by destruct (255 <=? PML4_GET_INDEX v).
Qed.

(** The state [vmm_space_create] leaves, [f] being the frame of the new root. *)
Record created s (f : Z) s' : Prop := {
  cr_frame : 0 ≤ f < 0x800000000 ∧ fa_managed (vm_pmm s) f ∧ fa_avail (vm_pmm s) f;
  cr_lock : vm_lock s' = 0;
  cr_kernel : kernel_pml4 s' = kernel_pml4 s;
  cr_control : same_control (vm_hw s) (vm_hw s');
  cr_ok : fa_ok (vm_pmm s');
  cr_private x : fa_private (vm_pmm s') x ↔ fa_private (vm_pmm s) x;
  cr_managed g : fa_managed (vm_pmm s') g ↔ fa_managed (vm_pmm s) g;
  cr_avail g : fa_avail (vm_pmm s') g ↔ fa_avail (vm_pmm s) g ∧ g ≠ f;
  cr_memory x : 0 ≤ x < 0x10000000000000000 → ¬ fa_private (vm_pmm s) x → ¬ in_block (frame_io f) 4096 x →
    load8 (vm_mem s') x = load8 (vm_mem s) x;
  cr_entries j : 0 ≤ j < 512 → entry_at (vm_mem s') (frame_io f) j =
    if bool_decide (255 ≤ j) then entry_at (vm_mem s') (kernel_pml4 s) j else 0
}.
(** Copying and unlocking, from the state in which the root is cleared. *)
Lemma create_finish s s1 f g :
  kernel_pml4 s1 = frame_io g → 0 ≤ f < 0x800000000 → 0 ≤ g < 0x800000000 → f ≠ g → fa_ok (vm_pmm s1) →
  (∀ x, in_block (frame_io f) 4096 x → ¬ fa_private (vm_pmm s1) x) →
  (∀ j, 0 ≤ j < 512 → entry_at (vm_mem s1) (frame_io f) j = 0) →
  fa_managed (vm_pmm s) f → fa_avail (vm_pmm s) f → kernel_pml4 s1 = kernel_pml4 s → same_control (vm_hw s) (vm_hw s1) →
  (∀ x, fa_private (vm_pmm s1) x ↔ fa_private (vm_pmm s) x) →
  (∀ g, fa_managed (vm_pmm s1) g ↔ fa_managed (vm_pmm s) g) →
  (∀ g, fa_avail (vm_pmm s1) g ↔ fa_avail (vm_pmm s) g ∧ g ≠ f) →
  (∀ x, 0 ≤ x < 0x10000000000000000 → ¬ fa_private (vm_pmm s) x → ¬ in_block (frame_io f) 4096 x →
     load8 (vm_mem s1) x = load8 (vm_mem s) x) →
  ∃ s', (forZ 257 255 (copy_entry (kernel_pml4 s1) (frame_io f)) ≫= λ _, vm_release ≫= λ _, mret (frame_io f)) s1 = Ok (frame_io f, s') ∧
    created s f s'.
Proof.
  intros Hk Hf Hg Hfg Hok Hnp Hz Hman Hav Hks [Hc Hi] Hpr1 Hman1 Hav1 Hmem1.
  destruct (copy_entries_run s1 f g 257 Hf Hg Hfg (le_n 257) Hz) as (h & Hrun & Hmem & Hh & Hent).
  destruct (fa_frame (hw_set_if true h) (vm_pmm s1)) as (Hok3 & _ & Hpr3 & Hman3 & Hav3); [|done|].
  { intros x Hx Hxp. apply Hmem; [done|]. intros Hin. by apply (Hnp x). }
  set (s' := mk_vmm (fa_set_hw (hw_set_if true h) (vm_pmm s1)) (kernel_pml4 s1) 0).
  assert (vm_hw s' = hw_set_if true h) as Hhw by apply fa_get_set. assert (vm_mem s' = hw_mem h) as Hm by (unfold vm_mem; by rewrite Hhw).
  exists s'. rewrite Hk, (bind_eq _ _ _ _ _ Hrun), (bind_eq _ _ _ _ _ (vm_release_eq _)). split.
  - rewrite vm_hw_set. unfold vm_set_ctl, vm_set_lock, vm_set_hw, vm_set_pmm. cbn [vm_pmm kernel_pml4 mret M_ret]. unfold s'. by rewrite fa_set_set.
  - clear Hrun. split.
    + done.
    + reflexivity.
    + exact Hks.
    + unfold same_control. by rewrite Hhw, Hh.
    + exact Hok3.
    + intros x. cbn [vm_pmm s']. by rewrite Hpr3.
    + intros x. cbn [vm_pmm s']. by rewrite Hman3.
    + intros x. cbn [vm_pmm s']. by rewrite Hav3.
    + intros x Hx Hxp Hout. rewrite Hm, Hmem by done. by apply Hmem1.
    + intros j Hj. rewrite Hm, Hent, <- Hks, Hk by done. repeat case_bool_decide; try done; try lia. apply load_le_ext. intros x Hx.
      apply (entry_in_frame g j) in Hx; [|done]. symmetry. apply Hmem; unfold in_block, frame_io, MMAP_IO_BASE in *; lia.
Qed.
Lemma create_run s :
  space_ok s (kernel_pml4 s) → vm_lock s = 0 →
  runs (starved 1 (vm_pmm s)) vmm_space_create (λ t s', ∃ f, t = frame_io f ∧ created s f s') s.
Proof.
  intros Hs Hl. pose proof (sp_fa _ _ Hs) as Hok. destruct (sp_table _ _ Hs [] _ valid_nil eq_refl) as (g & Hg & Hgm & Hgav & _).
  pose proof (fa_managed_range _ _ Hok Hgm) as Hgr.
  destruct (fa_frame (hw_set_if false (vm_hw s)) (vm_pmm s)) as (Hok0 & Hsup0 & Hpr0 & Hman0 & Hav0); [by intros x _ _|done|].
  set (p0 := fa_set_hw (hw_set_if false (vm_hw s)) (vm_pmm s)) in *. set (s0 := mk_vmm p0 (kernel_pml4 s) 1).
  assert (∀ e, starved 1 p0 e → starved 1 (vm_pmm s) e) as Hst by (intros e [He Hno]; split; [done|]; intros Hn; by apply Hno, Hsup0).
  unfold vmm_space_create. eapply runs_eq; [exact (vm_acquire_free s Hl)|]. change (vm_set_ctl _ 1 s) with s0.
  apply runs_bind. pose proof (take_frame p0 Hok0) as Ht. unfold runs in Ht. unfold runs at 1, on_pmm, zoom. change (vm_pmm s0) with p0.
  destruct (fa_alloc PAGE_SIZE p0) as [[r p']|e]; [|by apply Hst].
  destruct Ht as [[Hz Hno]|(f & -> & [Hok' (Hf & Hman & Hav) Hav' Hpr' Hman' Hag Hc _] & _)].
  { unfold runs. rewrite Hz. cbn. split; [apply fa_stops_assert|]. intros Hn. by apply Hno, Hsup0. }
  assert (vm_hw s0 = hw_set_if false (vm_hw s)) as Hhw0 by apply fa_get_set. unfold p0 in Hag, Hc. rewrite fa_get_set in Hag, Hc. fold p0 in Hag, Hc.
  assert (∀ x, in_block (frame_io f) 4096 x → ¬ fa_private p' x) as Hnp by (intros x Hx; rewrite Hpr'; by apply (fa_avail_private _ f)).
  destruct (fa_frame (hw_set_mem (memset (frame_io f) 0 4096) (fa_hw p')) p') as (Hok2 & _ & Hpr2 & Hman2 & Hav2); [|done|].
  { intros x Hx Hxp. cbn [hw_mem hw_set_mem]. rewrite load8_memset by (by try apply frame_io_block).
    rewrite decide_False; [done|]. intros Hin. by apply (Hnp x). }
  set (s1 := mk_vmm (fa_set_hw (hw_set_mem (memset (frame_io f) 0 4096) (fa_hw p')) p') (kernel_pml4 s) 1).
  assert (vm_hw s1 = hw_set_mem (memset (frame_io f) 0 4096) (fa_hw p')) as Hhw by apply fa_get_set.
  destruct (create_finish s s1 f g) as (s' & Hfin & Hcr); [exact Hg|exact Hf|exact Hgr| |exact Hok2| | | | |reflexivity| | | | | |].
  - intros ->. by apply Hgav, Hav0.
  - intros x Hx. cbn [vm_pmm s1]. rewrite Hpr2. by apply Hnp.
  - intros j Hj. unfold vm_mem. rewrite Hhw. cbn [hw_mem hw_set_mem].
    apply load64_memset_zero; [by apply frame_io_block|..]; unfold entry_addr, frame_io; lia.
  - by apply Hman0.
  - by apply Hav0.
  - unfold same_control. rewrite Hhw. exact Hc.
  - intros x. cbn [vm_pmm s1]. by rewrite Hpr2, Hpr', Hpr0.
  - intros x. cbn [vm_pmm s1]. by rewrite Hman2, Hman', Hman0.
  - intros x. cbn [vm_pmm s1]. by rewrite Hav2, Hav', Hav0.
  - intros x Hx Hxp Hout. unfold vm_mem. rewrite Hhw. cbn [hw_mem hw_set_mem].
    rewrite load8_memset by (by try apply frame_io_block). rewrite decide_False by done. apply Hag; [done|by rewrite Hpr0].
  - assert (runs (starved 1 (vm_pmm s)) (forZ 257 255 (copy_entry (kernel_pml4 s1) (frame_io f)) ≫= λ _, vm_release ≫= λ _, mret (frame_io f))
      (λ t s', ∃ f, t = frame_io f ∧ created s f s') s1) as Hr.
    { unfold runs. rewrite Hfin. exists f. split; [reflexivity|exact Hcr]. }
    clear Hfin. cbn [frame_range base length]. rewrite mmap_phys_to_io_frame by done.
    eapply runs_eq; [reflexivity|]. eapply (runs_eq _ _ _ _ _ tt s1); [reflexivity|]. eapply runs_eq; [reflexivity|]. exact Hr.
Qed.

(** The other spaces are as before. *)
Lemma created_keeps s f s' root :
  space_ok s root → created s f s' →
  space_ok s' root ∧ (∀ q, valid_path q → table_at (vm_mem s') root q = table_at (vm_mem s) root q) ∧
  ∀ w, leaf (vm_mem s') root w = leaf (vm_mem s) root w.
Proof.
  intros Hs [(Hf & Hman & Hav) _ _ _ Hok Hpr Hm Ha Hmem _].
  destruct (space_preserved s s' root) as (Hs' & _ & Htab & Hleaf); try done.
  - intros g Hg. by apply Ha in Hg as [? _].
  - intros x Hx Hout. apply Hmem; [done|..]; intros Hin; apply Hout; [by left|right; by exists f].
Qed.
(** The new space has the kernel's upper tables. *)
Lemma created_space s f s' :
  space_ok s (kernel_pml4 s) → created s f s' →
  space_ok s' (frame_io f) ∧
  (∀ v, leaf (vm_mem s') (frame_io f) v = if 255 <=? PML4_GET_INDEX v then leaf (vm_mem s) (kernel_pml4 s) v else 0) ∧
  ∀ q t, valid_path q → table_at (vm_mem s') (frame_io f) q = Some t →
    (q = [] ∧ t = frame_io f) ∨ (q ≠ [] ∧ table_at (vm_mem s) (kernel_pml4 s) q = Some t).
Proof.
  intros Hs Hcr. destruct (created_keeps s f s' _ Hs Hcr) as (Hs' & Htab & Hleaf).
  destruct (sp_table _ _ Hs [] _ valid_nil eq_refl) as (g & Hg & _). destruct Hcr as [(Hf & Hman & Hav) _ _ _ Hok Hpr Hm Ha _ Hent].
  destruct (shared_space s' (kernel_pml4 s) f g Hs' Hg) as (Hsp & Hl & Hcase); try done.
  - by apply Hm.
  - rewrite Ha. tauto.
  - intros q Hq. rewrite Htab by done. by apply table_not_avail.
  - intros x Hx. rewrite Hpr. apply (fa_avail_private _ f); [apply Hs|done|done].
  - split; [done|]. split; [intros v; by rewrite Hl, Hleaf|]. intros q t Hq Ht.
    destruct (Hcase q t Hq Ht) as [?|[Hne Ht']]; [by left|right]. split; [done|]. by rewrite <- Htab.
Qed.

(** C24. With a frame in supply, [vmm_space_create]
    returns a fresh root whose space is well formed and translates every
    address of root entries 255 to 511 as the kernel space does and no other
    address at all; the kernel space is unchanged, the root is no
    longer available, the lock is free again. *)
Theorem vmm_space_create_shares_kernel s n :
  space_ok s (kernel_pml4 s) → vm_lock s = 0 → fa_supply (S n) (vm_pmm s) →
  ∃ f s', vmm_space_create s = Ok (frame_io f, s') ∧ vm_lock s' = 0 ∧ kernel_pml4 s' = kernel_pml4 s ∧
    fa_avail (vm_pmm s) f ∧ ¬ fa_avail (vm_pmm s') f ∧ same_control (vm_hw s) (vm_hw s') ∧
    space_ok s' (kernel_pml4 s) ∧ space_ok s' (frame_io f) ∧
    (∀ v, leaf (vm_mem s') (kernel_pml4 s) v = leaf (vm_mem s) (kernel_pml4 s) v) ∧
    (∀ v, leaf (vm_mem s') (frame_io f) v =
       if 255 <=? PML4_GET_INDEX v then leaf (vm_mem s) (kernel_pml4 s) v else 0).
Proof.
  intros Hs Hl Hsup. pose proof (create_run s Hs Hl) as Hrun. unfold runs in Hrun.
  destruct (vmm_space_create s) as [[t s']|e]; [|destruct Hrun as [_ []]; by apply (fa_supply_weaken (S n)); [lia|]].
  destruct Hrun as (f & -> & Hcr). destruct (created_keeps s f s' _ Hs Hcr) as (Hs' & _ & Hleaf).
  destruct (created_space s f s' Hs Hcr) as (Hsp & Hl' & _). destruct Hcr as [(Hf & Hman & Hav) Hlk Hk Hc _ _ _ Ha _ _].
  exists f, s'. rewrite Ha. split_and!; try done. tauto.
Qed.

(** [vmm_space_destroy] clears the root and gives its
    frame back, so nothing translates in the destroyed space any more, but no
    other frame becomes available: the lower tables the space owned are lost. *)
Theorem vmm_space_destroy_leaks s root :
  space_ok s root →
  ∃ f s', root = frame_io f ∧ vmm_space_destroy root s = Ok (tt, s') ∧ fa_ok (vm_pmm s') ∧
    (∀ g, g ≠ f → fa_avail (vm_pmm s') g → fa_avail (vm_pmm s) g) ∧
    (∀ p t, valid_path p → p ≠ [] → table_at (vm_mem s) root p = Some t →
       ∃ g, t = frame_io g ∧ ¬ fa_avail (vm_pmm s') g) ∧
    (∀ v, leaf (vm_mem s') root v = 0).
Proof.
  intros Hs. destruct (sp_table _ _ Hs [] root valid_nil eq_refl) as (f & -> & Hman & Hav & Hp).
  pose proof (sp_fa _ _ Hs) as Hfa. pose proof (fa_managed_range _ _ Hfa Hman) as Hf.
  destruct (fa_frame (hw_set_mem (memset (frame_io f) 0 4096) (vm_hw s)) (vm_pmm s))
    as (Hok1 & _ & Hpr1 & Hman1 & Hav1); [|done|].
  { intros x Hx Hxp. cbn [hw_mem hw_set_mem]. rewrite load8_memset by (by try apply frame_io_block).
    rewrite decide_False; [done|]. intros Hin. by apply (Hp x). }
  destruct (fa_free_page _ f Hok1) as (p' & Hrun & Hok' & Hpr' & Hman' & Hag & Hc & Hif & Hav').
  { by apply Hman1. }
  { intros x Hx. rewrite Hpr1. by apply Hp. }
  set (s1 := vm_set_hw (hw_set_mem (memset (frame_io f) 0 4096) (vm_hw s)) s).
  exists f, (vm_set_pmm p' s1). split_and!; try done.
  - unfold vmm_space_destroy. rewrite (bind_eq _ _ _ tt s1) by done.
    unfold on_pmm, zoom. rewrite mmap_io_to_phys_frame by done.
    change (mk_range (f * 4096) PAGE_SIZE) with (frame_range f).
    change (vm_pmm s1) with (fa_set_hw (hw_set_mem (memset (frame_io f) 0 4096) (vm_hw s)) (vm_pmm s)).
    by rewrite Hrun.
  - intros g Hgf Hg. apply Hav1. destruct (proj2 (Hav' g) Hg); done.
  - intros p t Hv Hne Ht. destruct (sp_table _ _ Hs p t Hv Ht) as (g & -> & _ & Hgav & _).
    exists g. split; [done|]. intros Hg. apply Hav' in Hg as [Hg| ->]; [by apply Hgav, Hav1|].
    apply Hne. exact (sp_inj _ _ Hs p [] (frame_io f) Hv valid_nil Ht eq_refl).
  - assert (∀ j, 0 ≤ j < 512 → entry_at (vm_mem (vm_set_pmm p' s1)) (frame_io f) j = 0) as Hz.
    { intros j Hj. change (vm_mem (vm_set_pmm p' s1)) with (hw_mem (fa_hw p')).
      rewrite (entry_at_agree s1 (fa_private (vm_pmm s1))); [|exact Hag|done|done|].
      - unfold vm_mem, s1. rewrite vm_hw_set. cbn [hw_mem hw_set_mem].
        apply load64_memset_zero; [by apply frame_io_block|..]; unfold entry_addr, frame_io; lia.
      - intros x Hx. unfold s1. rewrite Hpr1. by apply Hp. }
    intros v. unfold leaf. cbn [walk_of table_at].
    rewrite (next_table_zero _ _ (PML4_GET_INDEX v)); [done|]. apply Hz, PMLX_GET_INDEX_range. lia.
Qed.
End spaces.
