(* ===== verification/Spaces.v ===== *)
(** Several address spaces at once (arch/x86_64/vmm.c): the spaces share the
    tables of the kernel's half and nothing else.  What mapping in one of them,
    creating one and destroying one does to all. *)
From S2P Require Import Prelude Machine Range FrameAllocator Vmm.

Section spaces.
Context {P : Type} `{FrameAllocatorLaws P}.
Implicit Types s : vmm_state P.

(** Every root is that of a well-formed space, and a table that two spaces have is
    at the same place in both. *)
(** The root entries from here on are the kernel's, in every space. *)
Definition KERNEL_HALF : Z := 255.
Definition user_address (v : Z) : Prop := PML4_GET_INDEX v < KERNEL_HALF.
Record spaces_ok s (Rs : list Z) : Prop := {
  ss_space r : r ∈ Rs → space_ok s r;
  ss_tables r1 r2 p q t : r1 ∈ Rs → r2 ∈ Rs → valid_path p → valid_path q →
    table_at (vm_mem s) r1 p = Some t → table_at (vm_mem s) r2 q = Some t → p = q;
  ss_own r1 r2 i p t : r1 ∈ Rs → r2 ∈ Rs → r1 ≠ r2 → 0 ≤ i < KERNEL_HALF → valid_path (i :: p) →
    table_at (vm_mem s) r1 (i :: p) = Some t → table_at (vm_mem s) r2 (i :: p) ≠ Some t
}.
Definition spaces_byte s (Rs : list Z) (x : Z) : Prop := ∃ r, r ∈ Rs ∧ table_byte s r x.
(** The addresses operations on these spaces may write. *)
Definition footprints s (Rs : list Z) (x : Z) : Prop :=
  fa_private (vm_pmm s) x ∨ (∃ f, fa_avail (vm_pmm s) f ∧ in_block (frame_io f) 4096 x) ∨ spaces_byte s Rs x.
Lemma footprint_one s Rs r x : r ∈ Rs → footprint s r x → footprints s Rs x.
Proof. intros Hr [?|[?|?]]; [by left|by right; left|right; right; by exists r]. Qed.

Lemma same_frame f g x : in_block (frame_io f) 4096 x → in_block (frame_io g) 4096 x → f = g.
Proof. unfold in_block, frame_io. lia. Qed.
Lemma frame_io_in f : in_block (frame_io f) 4096 (frame_io f).
Proof. unfold in_block. lia. Qed.

(** ** Spaces whose tables stay as they are *)

Lemma spaces_kept s s' Rs :
  spaces_ok s Rs → fa_ok (vm_pmm s') →
  (∀ f, fa_managed (vm_pmm s') f ↔ fa_managed (vm_pmm s) f) →
  (∀ x, fa_private (vm_pmm s') x ↔ fa_private (vm_pmm s) x) →
  (∀ f r p, fa_avail (vm_pmm s') f → r ∈ Rs → valid_path p → table_at (vm_mem s) r p ≠ Some (frame_io f)) →
  agree_on (spaces_byte s Rs) (vm_hw s) (vm_hw s') →
  spaces_ok s' Rs ∧ (∀ r q, r ∈ Rs → valid_path q → table_at (vm_mem s') r q = table_at (vm_mem s) r q) ∧
  ∀ r v, r ∈ Rs → leaf (vm_mem s') r v = leaf (vm_mem s) r v.
Proof.
  intros [Hs Hc Ho] Hok Hman Hpr Hav Hag.
  assert (∀ r, r ∈ Rs → space_ok s' r ∧ (∀ q, valid_path q → table_at (vm_mem s') r q = table_at (vm_mem s) r q) ∧
    ∀ v, leaf (vm_mem s') r v = leaf (vm_mem s) r v) as Hall.
  { intros r Hr. destruct (space_kept s s' r) as (Hs' & _ & Ht & Hl); try done; [by apply Hs|by intros f p Hf; apply Hav|].
    intros x Hx Hb. apply Hag; [done|by exists r]. }
  split; [split|split]; [by intros r Hr; apply Hall|..|by intros r q Hr; apply Hall|by intros r v Hr; apply Hall].
  - intros r1 r2 p q t H1 H2 Hp Hq. rewrite (proj1 (proj2 (Hall r1 H1)) p Hp), (proj1 (proj2 (Hall r2 H2)) q Hq). by apply Hc.
  - intros r1 r2 i p t H1 H2 Hne Hi Hp. rewrite (proj1 (proj2 (Hall r1 H1)) _ Hp), (proj1 (proj2 (Hall r2 H2)) _ Hp). by apply Ho.
Qed.
Lemma spaces_byte_same s s' Rs x :
  (∀ r q, r ∈ Rs → valid_path q → table_at (vm_mem s') r q = table_at (vm_mem s) r q) → spaces_byte s' Rs x ↔ spaces_byte s Rs x.
Proof.
  intros Ht. split; intros (r & Hr & p & t & Hp & Hpt & Hx); exists r; (split; [done|]); exists p, t.
  - by rewrite <- Ht.
  - by rewrite Ht.
Qed.
Lemma footprints_mono s s' Rs x :
  (∀ r q, r ∈ Rs → valid_path q → table_at (vm_mem s') r q = table_at (vm_mem s) r q) →
  (∀ x, fa_private (vm_pmm s') x → fa_private (vm_pmm s) x) → (∀ f, fa_avail (vm_pmm s') f → fa_avail (vm_pmm s) f) →
  footprints s' Rs x → footprints s Rs x.
Proof.
  intros Ht Hpr Hav [?|[(f & Hf & ?)|Hb]]; [left; auto|right; left; exists f; auto|]. right; right. by apply (spaces_byte_same s s').
Qed.
Lemma spaces_not_avail s Rs r f p : spaces_ok s Rs → fa_avail (vm_pmm s) f → r ∈ Rs → valid_path p → table_at (vm_mem s) r p ≠ Some (frame_io f).
Proof. intros Hs Hf Hr. by apply table_not_avail; [apply (ss_space _ _ Hs)|]. Qed.
Lemma spaces_byte_apart s Rs x :
  spaces_ok s Rs → spaces_byte s Rs x →
  ¬ fa_private (vm_pmm s) x ∧ (∀ f, fa_avail (vm_pmm s) f → ¬ in_block (frame_io f) 4096 x) ∧ MMAP_IO_BASE ≤ x.
Proof. intros Hs (r & Hr & Hb). by apply (table_byte_apart s r); [apply (ss_space _ _ Hs)|]. Qed.
Lemma footprints_io s Rs x :
  spaces_ok s Rs → (∀ x, fa_private (vm_pmm s) x → MMAP_IO_BASE ≤ x) → (∀ f, fa_avail (vm_pmm s) f → 0 ≤ f) → footprints s Rs x → MMAP_IO_BASE ≤ x.
Proof.
  intros Hs Hpr Hav [?|[(f & Hf & Hin)|Ht]]; [auto| |by apply (spaces_byte_apart s Rs x Hs)].
  apply Hav in Hf. unfold in_block, frame_io in Hin. lia.
Qed.
Lemma spaces_fewer s Rs Rs' : spaces_ok s Rs → (∀ r, r ∈ Rs' → r ∈ Rs) → spaces_ok s Rs'.
Proof.
  intros [Hs Hc Ho] Hsub. split; [auto|intros r1 r2 p q t H1 H2; apply Hc; auto|intros r1 r2 i p t H1 H2; apply Ho; auto].
Qed.

(** ** Mapping in one of the spaces *)

Section mapping.
Variables (s s' : vmm_state P) (Rs : list Z) (root : Z) (virt phys : range_t) (u : bool).
Hypotheses (Hs : spaces_ok s Rs) (Hroot : root ∈ Rs) (Hmapped : range_mapped s root virt phys u s').

Lemma mapped_tables q t : valid_path q → table_at (vm_mem s') root q = Some t →
  table_at (vm_mem s) root q = Some t ∨ ∃ f, t = frame_io f ∧ fa_avail (vm_pmm s) f.
Proof.
  intros Hq Ht. pose proof Hmapped as [Hsp' _ _ _ _ Hmono _ Hfp _ _ Hpr _ _].
  destruct (sp_table _ _ Hsp' q t Hq Ht) as (g & -> & _ & _ & Hnp).
  destruct (Hfp (frame_io g)) as [Hp|[(f & Hf & Hin)|(p & t & Hp & Hpt & Hin)]].
  - right; right. exists q, (frame_io g). split; [done|]. split; [done|]. apply frame_io_in.
  - by apply Hpr, (Hnp (frame_io g) (frame_io_in g)) in Hp.
  - right. exists f. by rewrite (same_frame g f (frame_io g) (frame_io_in g) Hin).
  - left. destruct (sp_table _ _ (ss_space _ _ Hs _ Hroot) p t Hp Hpt) as (h & -> & _).
    apply (same_frame g h (frame_io g) (frame_io_in g)) in Hin as <-. by rewrite <- (sp_inj _ _ Hsp' p q (frame_io g) Hp Hq (Hmono _ _ Hp Hpt) Ht).
Qed.
(** A table of another space that is not one of [root]'s. *)
Lemma mapped_apart r q a j : r ∈ Rs → valid_path q → 0 ≤ j < 512 → table_at (vm_mem s) r q = Some a → table_at (vm_mem s) root q ≠ Some a →
  entry_at (vm_mem s') a j = entry_at (vm_mem s) a j.
Proof.
  intros Hr Hq Hj Ha Hno. destruct (sp_table _ _ (ss_space _ _ Hs _ Hr) q a Hq Ha) as (g & -> & Hm & Hav & Hnp).
  pose proof (fa_managed_range _ _ (sp_fa _ _ (ss_space _ _ Hs _ Hr)) Hm) as Hg.
  apply (entry_at_agree s (footprint s root)); [exact (rm_memory _ _ _ _ _ _ Hmapped)|done|done|].
  intros x Hx [Hp|[(f & Hf & Hin)|(p & t & Hp & Ht & Hin)]].
  - by apply (Hnp x).
  - by rewrite (same_frame f g x) in Hf.
  - destruct (sp_table _ _ (ss_space _ _ Hs _ Hroot) p t Hp Ht) as (h & -> & _). apply (same_frame h g x) in Hin; [|done]. subst h.
    by rewrite (ss_tables _ _ Hs root r p q (frame_io g) Hroot Hr Hp Hq Ht Ha) in Ht.
Qed.
Lemma mapped_mono r q t : r ∈ Rs → valid_path q → table_at (vm_mem s) r q = Some t → table_at (vm_mem s') r q = Some t.
Proof.
  intros Hr. revert t. induction q as [|j q IH] using rev_ind; intros t Hv Ht; [done|].
  rewrite table_at_snoc in *. apply bind_Some in Ht as (b & Hb & Hj). pose proof (proj1 (valid_snoc q j) Hv) as (Hq & _ & Hj512).
  rewrite (IH b Hq Hb). cbn. destruct (decide (table_at (vm_mem s) root q = Some b)) as [Hsame|Hno].
  - pose proof (rm_tables _ _ _ _ _ _ Hmapped q b Hq Hsame) as Hb'.
    assert (table_at (vm_mem s') root (q ++ [j]) = Some t) as Ht' by (apply (rm_tables _ _ _ _ _ _ Hmapped); [done|]; by rewrite table_at_snoc, Hsame).
    by rewrite table_at_snoc, Hb' in Ht'.
  - unfold next_table in *. by rewrite (mapped_apart r q b j).
Qed.
Lemma mapped_other r q t : r ∈ Rs → valid_path q → table_at (vm_mem s') r q = Some t →
  table_at (vm_mem s) r q = Some t ∨ table_at (vm_mem s') root q = Some t ∧ ∃ f, t = frame_io f ∧ fa_avail (vm_pmm s) f.
Proof.
  intros Hr. revert t. induction q as [|j q IH] using rev_ind; intros t Hv Ht; [by left|].
  rewrite table_at_snoc in Ht. apply bind_Some in Ht as (b & Hb & Hj). pose proof (proj1 (valid_snoc q j) Hv) as (Hq & _ & Hj512).
  assert (table_at (vm_mem s') root q = Some b → table_at (vm_mem s) root (q ++ [j]) = Some t ∨
    table_at (vm_mem s') root (q ++ [j]) = Some t ∧ ∃ f, t = frame_io f ∧ fa_avail (vm_pmm s) f) as Hin.
  { intros Hb'. assert (table_at (vm_mem s') root (q ++ [j]) = Some t) as Ht' by (by rewrite table_at_snoc, Hb').
    destruct (mapped_tables _ _ Hv Ht') as [?|?]; [by left|by right]. }
  destruct (IH b Hq Hb) as [Hold|[Hb' (f & -> & Hf)]].
  - destruct (decide (table_at (vm_mem s) root q = Some b)) as [Hsame|Hno].
    + destruct Hin as [Ht'|?]; [by apply (rm_tables _ _ _ _ _ _ Hmapped)| |by right]. left. rewrite table_at_snoc, Hold. by rewrite table_at_snoc, Hsame in Ht'.
    + left. rewrite table_at_snoc, Hold. cbn. unfold next_table in *. by rewrite <- (mapped_apart r q b j).
  - destruct (Hin Hb') as [Ht'|?]; [|by right]. rewrite table_at_snoc in Ht'. apply bind_Some in Ht' as (b & Hb2 & _).
    pose proof (rm_tables _ _ _ _ _ _ Hmapped q b Hq Hb2) as Hb3. rewrite Hb' in Hb3. injection Hb3 as <-.
    by apply (spaces_not_avail _ _ root f q Hs Hf Hroot Hq) in Hb2.
Qed.

(** The user's half of another space stays as it is. *)
Lemma own_prefix r q a : r ∈ Rs → r ≠ root → valid_path q → Forall (λ i, i < KERNEL_HALF) (take 1 q) → table_at (vm_mem s) r q = Some a →
  table_at (vm_mem s) root q ≠ Some a.
Proof.
  intros Hr Hne Hq Hi Ha Ha'. destruct q as [|i q]; [cbn in *; congruence|]. apply Forall_inv in Hi.
  assert (0 ≤ i) as Hi0 by (destruct Hq as [_ Hq]; by apply Forall_inv in Hq as [? _]).
  by apply (ss_own _ _ Hs r root i q a Hr Hroot Hne (conj Hi0 Hi) Hq Ha).
Qed.
Lemma mapped_below r i p : r ∈ Rs → r ≠ root → i < KERNEL_HALF → valid_path (i :: p) →
  table_at (vm_mem s') r (i :: p) = table_at (vm_mem s) r (i :: p).
Proof.
  intros Hr Hne Hi. induction p as [|j p IH] using rev_ind; intros Hv.
  - cbn [table_at]. unfold next_table. rewrite (mapped_apart r [] r i); [done|done|apply valid_nil| |done|].
    + destruct Hv as [_ Hv]. by apply Forall_inv in Hv.
    + cbn. congruence.
  - change (i :: p ++ [j]) with ((i :: p) ++ [j]) in *. apply valid_snoc in Hv as (Hv & _ & Hj). rewrite !table_at_snoc, IH by done.
    destruct (table_at (vm_mem s) r (i :: p)) as [b|] eqn:Hb; [|done]. cbn. unfold next_table.
    rewrite (mapped_apart r (i :: p) b j); [done..|]. apply (own_prefix r); try done. by constructor.
Qed.
Lemma mapped_user_leaf r v : r ∈ Rs → r ≠ root → user_address v → leaf (vm_mem s') r v = leaf (vm_mem s) r v.
Proof.
  intros Hr Hne Hv. pose proof (walk_of_valid v) as Hw. unfold leaf, walk_of in *. rewrite (mapped_below r) by done.
  destruct (table_at (vm_mem s) r _) as [t|] eqn:Ht; [|done]. apply (mapped_apart r _ t _ Hr Hw (PML1_range v) Ht).
  apply (own_prefix r); try done. by constructor.
Qed.

Lemma map_spaces :
  spaces_ok s' Rs ∧ (∀ x, footprints s' Rs x → footprints s Rs x) ∧ agree_off (footprints s Rs) (vm_hw s) (vm_hw s').
Proof.
  pose proof Hmapped as [Hsp' _ _ _ _ _ Hmem _ _ Hman Hpr Hav _].
  assert (∀ r1 r2 p q t, r1 ∈ Rs → r2 ∈ Rs → valid_path p → valid_path q →
    table_at (vm_mem s') r1 p = Some t → table_at (vm_mem s') r2 q = Some t → p = q) as Hcross.
  { intros r1 r2 p q t H1 H2 Hp Hq Ht1 Ht2.
    destruct (mapped_other r1 p t H1 Hp Ht1) as [Ho1|[Hn1 (f & -> & Hf)]], (mapped_other r2 q _ H2 Hq Ht2) as [Ho2|[Hn2 (g & Hfg & Hg)]].
    - by apply (ss_tables _ _ Hs r1 r2 p q t).
    - subst t. by apply (spaces_not_avail _ _ r1 g p Hs Hg H1 Hp) in Ho1.
    - by apply (spaces_not_avail _ _ r2 f q Hs Hf H2 Hq) in Ho2.
    - by apply (sp_inj _ _ Hsp' p q (frame_io f)). }
  split; [split; [|done|]|split].
  - intros r Hr. split; [apply Hsp'| |by intros p q t; apply Hcross]. intros p t Hp Ht. destruct (mapped_other r p t Hr Hp Ht) as [Ho|[Hn _]].
    + destruct (sp_table _ _ (ss_space _ _ Hs _ Hr) p t Hp Ho) as (g & -> & Hg & Hgav & Hgp). exists g. rewrite Hman. setoid_rewrite Hpr.
      split_and!; [done|done|by intros ?%Hav|done].
    + by apply (sp_table _ _ Hsp' p).
  - assert (∀ r i p t, r ∈ Rs → r ≠ root → 0 ≤ i < KERNEL_HALF → valid_path (i :: p) →
      table_at (vm_mem s') root (i :: p) = Some t → table_at (vm_mem s') r (i :: p) ≠ Some t) as Hother.
    { intros r i p t Hr Hne Hi Hp Ht. rewrite mapped_below by (done || lia). destruct (mapped_tables _ _ Hp Ht) as [Ho|(f & -> & Hf)].
      - apply (ss_own _ _ Hs root r i p t); done.
      - by apply (spaces_not_avail s Rs). }
    intros r1 r2 i p t H1 H2 Hne Hi Hp Ht. destruct (decide (r1 = root)) as [->|N1]; [by apply Hother|].
    destruct (decide (r2 = root)) as [->|N2]; [intros Ht2; by apply (Hother r1 i p t)|].
    rewrite mapped_below by (done || lia). rewrite mapped_below in Ht by (done || lia). by apply (ss_own _ _ Hs r1 r2 i p t).
  - intros x [?|[(f & Hf & Hx)|(r & Hr & p & t & Hp & Ht & Hx)]]; [left; by apply Hpr|right; left; exists f; auto|].
    destruct (mapped_other r p t Hr Hp Ht) as [Ho|[_ (f & -> & Hf)]]; right; [right|left; by exists f]. exists r. split; [done|]. by exists p, t.
  - intros x Hx Hno. apply Hmem; [done|]. intros Hfp. by apply Hno, (footprint_one _ _ root).
Qed.

(** In another space a page is translated as before, or as it is now in [root], by
    a table of both. *)
Lemma mapped_leaf r v : r ∈ Rs →
  leaf (vm_mem s') r v = leaf (vm_mem s) r v ∨
  leaf (vm_mem s') r v = leaf (vm_mem s') root v ∧ table_at (vm_mem s') r (walk_of v) = table_at (vm_mem s') root (walk_of v).
Proof.
  intros Hr. pose proof (walk_of_valid v) as Hv. unfold leaf. destruct (table_at (vm_mem s') r (walk_of v)) as [t|] eqn:Ht.
  - destruct (mapped_other r _ t Hr Hv Ht) as [Ho|[Hn _]]; [|right; by rewrite Hn].
    destruct (decide (table_at (vm_mem s) root (walk_of v) = Some t)) as [Hsame|Hno].
    + right. by rewrite (rm_tables _ _ _ _ _ _ Hmapped _ _ Hv Hsame).
    + left. rewrite Ho. apply (mapped_apart r (walk_of v)); auto using PML1_range.
  - left. destruct (table_at (vm_mem s) r (walk_of v)) as [t|] eqn:Ht'; [|done]. by rewrite (mapped_mono r _ t Hr Hv Ht') in Ht.
Qed.
End mapping.


(** ** A space more *)

Lemma create_spaces s f s' Rs :
  spaces_ok s Rs → kernel_pml4 s ∈ Rs → created s f s' →
  spaces_ok s' (frame_io f :: Rs) ∧ (∀ x, footprints s' (frame_io f :: Rs) x → footprints s Rs x) ∧
  agree_off (footprints s Rs) (vm_hw s) (vm_hw s').
Proof.
  intros Hs Hk Hcr. pose proof (ss_space _ _ Hs _ Hk) as Hks. destruct (created_space s f s' Hks Hcr) as (Hnew & _ & Hcase).
  assert (∀ r, r ∈ Rs → space_ok s' r ∧ ∀ q, valid_path q → table_at (vm_mem s') r q = table_at (vm_mem s) r q) as Hold.
  { intros r Hr. by destruct (created_keeps s f s' r (ss_space _ _ Hs _ Hr) Hcr) as (? & ? & _). }
  pose proof Hcr as [(Hf & Hman & Hav) _ _ _ _ Hpr _ Ha Hmem Hent].
  assert (∀ r p q t, r ∈ Rs → valid_path p → valid_path q → table_at (vm_mem s') (frame_io f) p = Some t → table_at (vm_mem s') r q = Some t → p = q) as Hcross.
  { intros r p q t Hr Hp Hq Hpt Hqt. rewrite (proj2 (Hold r Hr)) in Hqt by done.
    destruct (Hcase p t Hp Hpt) as [[-> ->]|[_ Ht]]; [by apply (spaces_not_avail _ _ r f q Hs Hav Hr) in Hqt|by apply (ss_tables _ _ Hs _ r p q t Hk Hr)]. }
  split; [split|split].
  - intros r [-> |Hr]%elem_of_cons; [done|by apply Hold].
  - intros r1 r2 p q t [-> |H1]%elem_of_cons [-> |H2]%elem_of_cons Hp Hq Ht1 Ht2.
    + by apply (sp_inj _ _ Hnew p q t).
    + by apply (Hcross r2 p q t).
    + symmetry. by apply (Hcross r1 q p t).
    + rewrite (proj2 (Hold r1 H1)) in Ht1 by done. rewrite (proj2 (Hold r2 H2)) in Ht2 by done. by apply (ss_tables _ _ Hs r1 r2 p q t).
  - assert (∀ i p, 0 ≤ i < KERNEL_HALF → table_at (vm_mem s') (frame_io f) (i :: p) = None) as Hnone.
    { intros i p Hi. cbn [table_at]. rewrite next_table_zero; [done|]. unfold KERNEL_HALF in Hi. rewrite Hent by lia. by rewrite bool_decide_false by lia. }
    intros r1 r2 i p t [-> |H1]%elem_of_cons [-> |H2]%elem_of_cons Hne Hi Hp Ht; [done|by rewrite Hnone in Ht|by rewrite Hnone|].
    rewrite (proj2 (Hold r1 H1)) in Ht by done. rewrite (proj2 (Hold r2 H2)) by done. by apply (ss_own _ _ Hs r1 r2 i p t).
  - intros x [?|[(g & Hg & Hx)|(r & Hr & p & t & Hp & Ht & Hx)]]; [left; by apply Hpr|right; left; apply Ha in Hg as [? _]; by exists g|].
    apply elem_of_cons in Hr as [-> |Hr].
    + destruct (Hcase p t Hp Ht) as [[-> ->]|[_ Ht']]; right; [left; by exists f|right; exists (kernel_pml4 s); split; [done|by exists p, t]].
    + right; right. exists r. split; [done|]. exists p, t. by rewrite <- (proj2 (Hold r Hr)).
  - intros x Hx Hno. apply Hmem; [done|..]; intros Hin; apply Hno; [by left|right; left; by exists f].
Qed.

(** Spaces with no table but their roots. *)
Lemma blank_spaces s Rs :
  (∀ r, r ∈ Rs → space_ok s r ∧ ∀ p t, valid_path p → table_at (vm_mem s) r p = Some t → p = [] ∧ t = r) → spaces_ok s Rs.
Proof.
  intros Hb. split.
  - intros r Hr. by apply Hb.
  - intros r1 r2 p q t H1 H2 Hp Hq Ht1 Ht2. destruct (Hb r1 H1) as [_ Hr1], (Hb r2 H2) as [_ Hr2].
    destruct (Hr1 p t Hp Ht1) as [-> _], (Hr2 q t Hq Ht2) as [-> _]. done.
  - intros r1 r2 i p t H1 _ _ _ Hp Ht. destruct (Hb r1 H1) as [_ Hr1]. by destruct (Hr1 _ t Hp Ht).
Qed.
Lemma create_leaves s f s' Rs :
  spaces_ok s Rs → kernel_pml4 s ∈ Rs → created s f s' →
  (∀ r v, r ∈ Rs → leaf (vm_mem s') r v = leaf (vm_mem s) r v) ∧ ∀ v, user_address v → leaf (vm_mem s') (frame_io f) v = 0.
Proof.
  intros Hs Hk Hcr. split.
  - intros r v Hr. by destruct (created_keeps s f s' r (ss_space _ _ Hs _ Hr) Hcr) as (_ & _ & ?).
  - intros v Hv. destruct (created_space s f s' (ss_space _ _ Hs _ Hk) Hcr) as (_ & Hl & _). rewrite Hl.
    unfold user_address, KERNEL_HALF in Hv. by rewrite (proj2 (Z.leb_gt _ _)).
Qed.

(** ** A space less *)

(** The state [vmm_space_destroy] leaves, [f] being the frame of the root. *)
Record destroyed s (f : Z) s' : Prop := {
  de_same : kernel_pml4 s' = kernel_pml4 s ∧ vm_lock s' = vm_lock s ∧ same_control (vm_hw s) (vm_hw s');
  de_ok : fa_ok (vm_pmm s');
  de_private x : fa_private (vm_pmm s') x ↔ fa_private (vm_pmm s) x;
  de_managed g : fa_managed (vm_pmm s') g ↔ fa_managed (vm_pmm s) g;
  de_avail g : fa_avail (vm_pmm s') g → fa_avail (vm_pmm s) g ∨ g = f;
  de_memory x : 0 ≤ x < 0x10000000000000000 → ¬ fa_private (vm_pmm s) x → ¬ in_block (frame_io f) 4096 x →
    load8 (vm_mem s') x = load8 (vm_mem s) x
}.
Lemma destroy_run s root : space_ok s root → ∃ f s', root = frame_io f ∧ vmm_space_destroy root s = Ok (tt, s') ∧ destroyed s f s'.
Proof.
  intros Hs. destruct (sp_table _ _ Hs [] root valid_nil eq_refl) as (f & -> & Hman & Hav & Hp).
  pose proof (sp_fa _ _ Hs) as Hfa. pose proof (fa_managed_range _ _ Hfa Hman) as Hf. set (h := hw_set_mem (memset (frame_io f) 0 4096) (vm_hw s)).
  assert (∀ x, 0 ≤ x < 0x10000000000000000 → ¬ in_block (frame_io f) 4096 x → load8 (hw_mem h) x = load8 (vm_mem s) x) as Hclear.
  { intros x Hx Hout. cbn [hw_mem hw_set_mem h]. rewrite load8_memset by (by try apply frame_io_block). by rewrite decide_False. }
  destruct (fa_frame h (vm_pmm s)) as (Hok1 & _ & Hpr1 & Hman1 & Hav1); [|done|].
  { intros x Hx Hxp. apply Hclear; [done|]. intros Hin. by apply (Hp x). }
  destruct (fa_free_page _ f Hok1) as (p' & Hrun & Hok' & Hpr' & Hman' & Hag & Hc & _ & Hav'); [by apply Hman1|intros x Hx; rewrite Hpr1; by apply Hp|].
  rewrite fa_get_set in Hag, Hc. exists f, (vm_set_pmm p' (vm_set_hw h s)). split; [done|]. split.
  - unfold vmm_space_destroy. rewrite (bind_eq _ _ _ tt (vm_set_hw h s)) by done. unfold on_pmm, zoom. rewrite mmap_io_to_phys_frame by done.
    change (mk_range (f * 4096) PAGE_SIZE) with (frame_range f). change (vm_pmm (vm_set_hw h s)) with (fa_set_hw h (vm_pmm s)). by rewrite Hrun.
  - split.
    + split; [done|]. split; [done|exact Hc].
    + exact Hok'.
    + intros x. by rewrite Hpr', Hpr1.
    + intros g. by rewrite Hman', Hman1.
    + intros g [Hg%Hav1|]%Hav'; [by left|by right].
    + intros x Hx Hxp Hout. etrans; [|by apply Hclear]. apply Hag; [done|]. by rewrite Hpr1.
Qed.
Lemma destroy_spaces s f s' Rs :
  spaces_ok s Rs → frame_io f ∈ Rs → destroyed s f s' →
  let Rs' := filter (λ r, r ≠ frame_io f) Rs in
  spaces_ok s' Rs' ∧ (∀ x, footprints s' Rs' x → footprints s Rs x) ∧ agree_off (footprints s Rs) (vm_hw s) (vm_hw s').
Proof.
  intros Hs Hf [_ Hok Hpr Hman Hav Hmem] Rs'.
  assert (∀ r, r ∈ Rs' → r ∈ Rs ∧ r ≠ frame_io f) as Hsub by (intros r [? ?]%list_elem_of_filter; done).
  pose proof (spaces_fewer s Rs Rs' Hs (λ r Hr, proj1 (Hsub r Hr))) as Hs1.
  assert (∀ r p, r ∈ Rs' → valid_path p → table_at (vm_mem s) r p ≠ Some (frame_io f)) as Hno.
  { intros r p [Hr Hne]%Hsub Hp Ht. assert ([] = p) as <- by (apply (ss_tables _ _ Hs (frame_io f) r [] p (frame_io f)); [done|done|apply valid_nil|done..]). cbn in Ht. by injection Ht. }
  destruct (spaces_kept s s' Rs') as (Hs' & Ht & _); try done.
  - intros g r p Hg%Hav Hr Hp. destruct Hg as [Hg| ->]; [by apply (spaces_not_avail s Rs')|by apply Hno].
  - intros x Hx (r & Hr & p & t & Hp & Hpt & Hin). destruct (sp_table _ _ (ss_space _ _ Hs1 _ Hr) p t Hp Hpt) as (g & -> & _ & _ & Hnp).
    apply Hmem; [done|by apply Hnp|]. intros Hxf. rewrite (same_frame g f x Hin Hxf) in Hpt. by apply (Hno r p).
  - split; [done|]. split.
    + intros x [?|[(g & Hg%Hav & Hx)|Hb]]; [left; by apply Hpr| |].
      * destruct Hg as [Hg| ->]; right; [left; by exists g|right]. exists (frame_io f). split; [done|]. exists [], (frame_io f). split; [apply valid_nil|done].
      * right; right. apply (spaces_byte_same s s' Rs' x Ht) in Hb as (r & Hr & Hb). exists r. split; [by apply Hsub|done].
    + intros x Hx Hnf. apply Hmem; [done|..]; intros Hin; apply Hnf; [by left|right; right].
      exists (frame_io f). split; [done|]. exists [], (frame_io f). split; [apply valid_nil|done].
Qed.
End spaces.
