(* ===== verification/Memory.v ===== *)
(** The memory manager as the kernel links it: [Vmm] over the bitmap allocator of
    [Pmm], with concrete machines on which the theorems of [Vmm] apply. *)
From Stdlib Require Import Sorted.
From S2P Require Import Prelude Machine Range Handover FrameAllocator Pmm Vmm.

(** 1024 pages, of which the search sees 128; page 1 holds the 128 bytes of the bitmap, page 2 the kernel's root
    table, pages 0 to 2 are in use and the search starts at page 0. *)
Definition sample_vmm : vmm_state pmm_state :=
  mk_vmm (mk_pmm (mk_hw (store8 (frame_io 1) 0x07 (λ _, 0)) true 0 []) (frame_io 1) 128 125 0 0)
    (frame_io 2) 0.

Lemma sample_fa_ok : fa_ok (vm_pmm sample_vmm).
Proof.
  change (pmm_fa_ok (vm_pmm sample_vmm)).
  split; [split; [split|]|]; try (cbn; unfold block_ok, frame_io, MMAP_IO_BASE; lia).
  split; [cbn; lia|]. intros f x [Hf Hfree] Hx Hp. change (0 ≤ f < 128) in Hf.
  change (in_block (frame_io 1) 128 x) in Hp. unfold in_block, frame_io in *. assert (f = 1) as -> by lia. done.
Qed.
Lemma sample_supply n : (n ≤ 5)%nat → fa_supply n (vm_pmm sample_vmm).
Proof.
  intros Hn. apply (fa_supply_weaken 5); [done|]. change (pmm_supply 5 (vm_pmm sample_vmm)). split; [cbn; lia|].
  exists [3; 4; 5; 6; 7]. split_and!; [repeat constructor|done|].
  repeat (apply Forall_cons; split; [split; [cbn; lia|done]|]). constructor.
Qed.
Lemma sample_entry_zero f i :
  2 ≤ f < 0x800000000 → 0 ≤ i < 512 → entry_at (vm_mem sample_vmm) (frame_io f) i = 0.
Proof.
  intros Hf Hi. apply load_le_zero. intros x Hx. unfold in_block, entry_addr, frame_io, MMAP_IO_BASE in Hx.
  cbn. rewrite load8_store8 by (unfold frame_io, MMAP_IO_BASE; lia).
  unfold frame_io, MMAP_IO_BASE. destruct (Z.eqb_spec x (1 * 4096 + 0xffff800000000000)); [lia|done].
Qed.
(** A space whose root table has no entry. *)
Lemma blank_space (s : vmm_state pmm_state) f :
  fa_ok (vm_pmm s) → tracked (vm_pmm s) f → ¬ page_free (vm_pmm s) f → (∀ x, in_block (frame_io f) 4096 x → ¬ pmm_private (vm_pmm s) x) →
  (∀ i, 0 ≤ i < 512 → entry_at (vm_mem s) (frame_io f) i = 0) →
  space_ok s (frame_io f) ∧ ∀ p t, valid_path p → table_at (vm_mem s) (frame_io f) p = Some t → p = [] ∧ t = frame_io f.
Proof.
  intros Hok Ht Hf Hp Hz.
  assert (∀ p t, valid_path p → table_at (vm_mem s) (frame_io f) p = Some t → p = [] ∧ t = frame_io f) as Hroot.
  { intros [|i p] t [_ Hv]; [by intros [= <-]|]. apply Forall_cons in Hv as [Hi _]. cbn [table_at].
    rewrite next_table_zero; [done|]. by apply Hz. }
  split; [|done]. split; [done|..].
  - intros p t Hv Htab. destruct (Hroot p t Hv Htab) as [-> ->]. exists f. split_and!; [done|done| |done]. by intros [_ ?].
  - intros p q t Hv Hq Htab Htab'. by destruct (Hroot p t Hv Htab) as [-> _], (Hroot q t Hq Htab') as [-> _].
Qed.
Lemma sample_space : space_ok sample_vmm (frame_io 2).
Proof.
  apply blank_space; [apply sample_fa_ok|change (0 ≤ 2 < 8 * 128); lia|done| |].
  - intros x Hx Hpr. change (in_block (frame_io 1) 128 x) in Hpr. unfold in_block, frame_io in *. lia.
  - intros i Hi. apply sample_entry_zero; lia.
Qed.

Lemma vmm_map_range_maps_witness :
  ∃ s', vmm_map_range (frame_io 2) (mk_range 0x400000 0x1000) (mk_range 0x5000 0x1000) true sample_vmm =
      Ok (tt, s') ∧
    leaf (vm_mem s') (frame_io 2) 0x400123 = 0x5007 ∧ hw_invlpg (vm_hw s') = [0x401000].
Proof.
  destruct (vmm_map_range_maps sample_vmm (frame_io 2) (mk_range 0x400000 0x1000) (mk_range 0x5000 0x1000) true)
    as (s' & Hrun & _ & _ & _ & _ & Hinv & Hmap & _);
    [apply sample_space|done|done|change (0 ≤ 1 ≤ 0x1000000000); lia|by apply sample_supply; apply le_S, le_S|].
  exists s'. split; [exact Hrun|]. split; [|rewrite Hinv; done].
  exact (Hmap 0 (ltac:(change (0 ≤ 0 < 1); lia))).
Defined.

Lemma vmm_table_alloc_enables_interrupts_witness :
  ∃ s1 t' s2, vm_acquire sample_vmm = Ok (tt, s1) ∧ hw_if (vm_hw s1) = false ∧
    vmm_get_pml_alloc (frame_io 2) 0 true s1 = Ok (mk_range t' 4096, s2) ∧
    vm_lock s2 = 1 ∧ hw_if (vm_hw s2) = true.
Proof.
  destruct (vm_acquire sample_vmm) as [[[] s1]|] eqn:Hacq; [|discriminate].
  destruct (vmm_table_alloc_enables_interrupts sample_vmm (frame_io 2) [] (frame_io 2) 0 true 0 s1 _
    sample_space (ltac:(split; [cbn; lia|repeat constructor; lia])) eq_refl
    (ltac:(cbn [app table_at]; rewrite next_table_zero; [done|apply sample_entry_zero; lia]))
    (sample_supply 1 (ltac:(lia))) eq_refl Hacq eq_refl) as (Hif & t' & s2 & Hrun & Hl & Hif').
  by exists s1, t', s2.
Defined.


Lemma vmm_space_create_shares_kernel_witness :
  ∃ f s', vmm_space_create sample_vmm = Ok (frame_io f, s') ∧ space_ok s' (frame_io f) ∧
    ¬ fa_avail (vm_pmm s') f.
Proof.
  destruct (vmm_space_create_shares_kernel sample_vmm 0)
    as (f & s' & Hrun & _ & _ & _ & Hav & _ & _ & Hs & _);
    [apply sample_space|done|apply sample_supply; lia|].
  exists f, s'. split; [exact Hrun|]. split; [exact Hs|exact Hav].
Defined.

Lemma vmm_space_destroy_leaks_witness :
  ∃ s', vmm_space_destroy (frame_io 2) sample_vmm = Ok (tt, s') ∧ leaf (vm_mem s') (frame_io 2) 5 = 0.
Proof.
  destruct (vmm_space_destroy_leaks sample_vmm (frame_io 2) sample_space)
    as (f & s' & _ & Hrun & _ & _ & _ & Hleaf).
  exists s'. split; [exact Hrun|]. apply Hleaf.
Defined.
