(* ===== verification/Itoa.v ===== *)
(** libs/navy/itoa.c: numerals written into a caller's buffer.

    A buffer is the list of the bytes of its object; a store outside it is
    [BadAccess]. *)
From S2P Require Import Prelude CString.

(** [str[i] = v], on an object of bytes. *)
Definition set_at (str : list Z) (i v : Z) : res (list Z) :=
  if (0 <=? i) && (i <? Z.of_nat (List.length str)) then Ok (<[Z.to_nat i := u8 v]> str)
  else Err BadAccess.

Fixpoint strrev_loop (k : nat) (start end_ : Z) (s : list Z) : res (list Z) :=
  match k with
  | O => Err OutOfFuel
  | S k =>
      if start <? end_ then
        tmp ← deref (Some s) start;
        c ← deref (Some s) end_;
        s ← set_at s start c;
        s ← set_at s end_ tmp;
        strrev_loop k (start + 1) (u64 (end_ - 1)) s
      else Ok s
  end.
Definition strrev (s : list Z) : res (list Z) :=
  n ← strlen (Some s);
  let end_ := u64 (n - 1) in
  strrev_loop (S (List.length s)) 0 end_ s.

(** The [do ... while] loop; [digit] is an [int8_t], [value] an [int64_t]. *)
Fixpoint itoa_loop (k : nat) (value : Z) (str : list Z) (index base : Z) : res (list Z * Z) :=
  match k with
  | O => Err OutOfFuel
  | S k =>
      let digit := s8 (Z.rem value base) in
      str ← set_at str index (if digit <? 0xa then digit + 48 else digit - 0xa + 97);
      let value := Z.quot value base in
      if truth value then itoa_loop k value str (index + 1) base else Ok (str, index + 1)
  end.

(** [for (i = 0; i < strlen(src); i++) str[i + off] = src[i]] *)
Fixpoint copy_digits (k : nat) (i off : Z) (src str : list Z) : res (list Z) :=
  match k with
  | O => Ok str
  | S k =>
      c ← deref (Some src) i;
      str ← set_at str (i + off) c;
      copy_digits k (i + 1) off src str
  end.

(** 64 iterations write any 64-bit value in a base of at least two. *)
Definition ITOA_FUEL : nat := 64.

(** [stack] is what the uninitialised [char left_str[32]] and [right_str[32]]
    contain; [depth] bounds the self-calls, which are made for non-negative
    values only. *)
Fixpoint itoa_rec (depth : nat) (stack : list Z) (value : Z) (str : list Z) (base : Z) : res (list Z) :=
  match depth with
  | O => Err OutOfFuel
  | S depth =>
      if base =? 0 then Err DivideError
      else if (value <? 0) && negb (base =? 10) then
        let right := Z.land value 0xffffffff in
        let left := Z.shiftr (u64 (Z.land value 0xffffffff00000000)) 32 in
        left_str ← itoa_rec depth stack left (take 32 stack) base;
        right_str ← itoa_rec depth stack right (take 32 stack) base;
        n ← strlen (Some left_str);
        str ← copy_digits (Z.to_nat n) 0 0 left_str str;
        m ← strlen (Some right_str);
        copy_digits (Z.to_nat m) 0 n right_str str
      else
        '(str, index) ← (if value <? 0 then str ← set_at str 0 45; Ok (str, 1) else Ok (str, 0));
        '(str, index) ← itoa_loop ITOA_FUEL value str index base;
        str ← set_at str index 0;
        strrev str
  end.
Definition itoa (stack : list Z) (value : Z) (str : list Z) (base : Z) : res (list Z) :=
  itoa_rec 2 stack value str base.

(** ** Numerals *)

Definition digit_char (d : Z) : Z := if d <? 10 then d + 48 else d + 87.
Definition char_digit (c : Z) : Z := if c <? 58 then c - 48 else c - 87.
Definition is_digit (base c : Z) : Prop := ∃ d, 0 ≤ d < base ∧ c = digit_char d.

(** The value of a numeral, most significant digit first. *)
Definition numeral (base : Z) (t : list Z) : Z := foldl (λ a c, a * base + char_digit c) 0 t.

(** The digits the loop writes, least significant first. *)
Fixpoint lsd (k : nat) (base v : Z) : list Z :=
  match k with
  | O => []
  | S k => digit_char (v mod base) :: if v / base =? 0 then [] else lsd k base (v / base)
  end.

Lemma char_digit_char d : 0 ≤ d < 36 → char_digit (digit_char d) = d.
Proof.
  intros Hd. unfold char_digit, digit_char. destruct (Z.ltb_spec d 10).
  - destruct (Z.ltb_spec (d + 48) 58); lia.
  - destruct (Z.ltb_spec (d + 87) 58); lia.
Qed.
Lemma digit_char_is_char d : 0 ≤ d < 36 → is_char (digit_char d).
Proof. intros Hd. unfold is_char, digit_char. destruct (d <? 10); lia. Qed.
Lemma is_digit_is_char base t : base ≤ 36 → Forall (is_digit base) t → Forall is_char t.
Proof.
  intros Hb Ht. eapply Forall_impl; [exact Ht|]. intros c (d & Hd & ->). apply digit_char_is_char. lia. Qed.

Lemma numeral_reverse base l :
  numeral base (reverse l) = foldr (λ c a, a * base + char_digit c) 0 l.
Proof.
  unfold numeral.
  induction l as [|c l IH]; [done|]. rewrite reverse_cons, foldl_app. cbn. by rewrite IH.
Qed.

Lemma div_pow_lt v base k : 2 ≤ base → 0 ≤ v < base ^ Z.of_nat (S k) → 0 ≤ v / base < base ^ Z.of_nat k.
Proof.
  intros Hb [Hv Hlt]. rewrite Nat2Z.inj_succ, Z.pow_succ_r in Hlt by lia.
  split; [by apply Z.div_pos; lia|]. apply Z.div_lt_upper_bound; lia.
Qed.

Lemma lsd_value k base v :
  2 ≤ base ≤ 36 → 0 ≤ v < base ^ Z.of_nat k → numeral base (reverse (lsd k base v)) = v.
Proof.
  intros Hb. rewrite numeral_reverse. revert v. induction k as [|k IH]; intros v Hv; cbn [lsd foldr].
  - cbn in *. lia.
  - pose proof (Z.mod_pos_bound v base ltac:(lia)). rewrite char_digit_char by lia.
    pose proof (Z.div_mod v base ltac:(lia)). destruct (Z.eqb_spec (v / base) 0) as [Hz|Hz]; cbn [foldr]; [lia|].
    rewrite IH; [lia|]. apply div_pow_lt; [lia|done].
Qed.
Lemma lsd_digits k base v : 2 ≤ base → Forall (is_digit base) (lsd k base v).
Proof.
  intros Hb. revert v. induction k as [|k IH]; intros v; cbn [lsd]; [done|].
  apply Forall_cons; split; [|by destruct (v / base =? 0)].
  exists (v mod base). split; [apply Z.mod_pos_bound; lia|done].
Qed.
(** No leading zero. *)
Lemma lsd_last k base v :
  2 ≤ base ≤ 36 → 0 < v < base ^ Z.of_nat k → ∃ l c, lsd k base v = l ++ [c] ∧ c ≠ 48.
Proof.
  intros Hb. revert v. induction k as [|k IH]; intros v Hv; cbn [lsd]; [cbn in Hv; lia|].
  pose proof (Z.div_mod v base ltac:(lia)). pose proof (Z.mod_pos_bound v base ltac:(lia)).
  destruct (Z.eqb_spec (v / base) 0) as [Hz|Hz].
  - exists [], (digit_char (v mod base)). split; [done|]. unfold digit_char.
    destruct (v mod base <? 10) eqn:?; lia.
  - destruct (div_pow_lt v base k) as [Hd1 Hd2]; [lia|lia|].
    destruct (IH (v / base)) as (l & c & -> & Hc); [lia|]. by exists (digit_char (v mod base) :: l), c.
Qed.
Lemma lsd_length k n base v :
  2 ≤ base → 0 ≤ v < base ^ Z.of_nat (S n) → (List.length (lsd k base v) ≤ S n)%nat.
Proof.
  intros Hb. revert n v. induction k as [|k IH]; intros n v Hv; cbn [lsd List.length]; [lia|].
  destruct (Z.eqb_spec (v / base) 0) as [Hz|Hz]; cbn [List.length]; [lia|].
  destruct (div_pow_lt v base n) as [Hd1 Hd2]; [lia|lia|].
  destruct n as [|n]; [cbn in Hd2; lia|]. specialize (IH n (v / base) (conj Hd1 Hd2)). lia.
Qed.
Lemma lsd_nonempty k base v : lsd (S k) base v ≠ [].
Proof. done. Qed.

(** ** The code *)

Lemma set_at_ok pre c tail v :
  set_at (pre ++ c :: tail) (Z.of_nat (List.length pre)) v = Ok (pre ++ u8 v :: tail).
Proof.
  unfold set_at. rewrite length_app, Nat2Z.id. cbn [List.length].
  rewrite (proj2 (Z.leb_le 0 _)), (proj2 (Z.ltb_lt _ _)) by lia. cbn [andb].
  by rewrite insert_app_r_alt, Nat.sub_diag by lia.
Qed.
Lemma set_at_oob str i v : Z.of_nat (List.length str) ≤ i → set_at str i v = Err BadAccess.
Proof.
  intros Hi. unfold set_at. rewrite (proj2 (Z.ltb_ge i _)) by lia. by rewrite andb_false_r.
Qed.

(** What the loop writes, whatever the sign. *)
Definition loop_char (base v : Z) : Z :=
  let digit := s8 (Z.rem v base) in u8 (if digit <? 0xa then digit + 48 else digit - 0xa + 97).
Fixpoint written (k : nat) (base v : Z) : list Z :=
  match k with
  | O => []
  | S k => loop_char base v :: if truth (Z.quot v base) then written k base (Z.quot v base) else []
  end.

Lemma quot_pow_lt v base k :
  2 ≤ base → Z.abs v < base ^ Z.of_nat (S k) → Z.abs (Z.quot v base) < base ^ Z.of_nat k.
Proof.
  intros Hb Hv. rewrite <- Z.quot_abs, (Z.abs_eq base), Z.quot_div_nonneg by lia.
  apply div_pow_lt; lia.
Qed.

Lemma itoa_loop_written k base v pre tail :
  2 ≤ base → Z.abs v < base ^ Z.of_nat (S k) →
  itoa_loop (S k) v (pre ++ tail) (Z.of_nat (List.length pre)) base =
    if decide (List.length (written (S k) base v) ≤ List.length tail)%nat then
      Ok (pre ++ written (S k) base v ++ drop (List.length (written (S k) base v)) tail,
          Z.of_nat (List.length pre + List.length (written (S k) base v)))
    else Err BadAccess.
Proof.
  intros Hb. revert v pre tail. induction k as [|k IH]; intros v pre tail Hv.
  2: remember (S k) as k' eqn:Hk'.
  all: cbn [itoa_loop written List.length].
  all: destruct tail as [|c tail];
    [rewrite set_at_oob by (rewrite app_nil_r; lia); cbn [mbind res_bind]; by rewrite decide_False by (cbn; lia)|].
  all: rewrite set_at_ok; cbn [mbind res_bind]; fold (loop_char base v).
  all: pose proof (quot_pow_lt v base _ Hb Hv) as Hq; unfold truth; destruct (Z.eqb_spec (Z.quot v base) 0) as [Hz|Hz];
    cbn [negb List.length].
  1, 3: rewrite decide_True by lia; cbn; rewrite drop_0; do 2 f_equal; lia.
  - cbn in Hq. lia.
  - subst k'. specialize (IH (Z.quot v base) (pre ++ [loop_char base v]) tail Hq).
    rewrite length_app in IH. cbn [List.length] in IH. rewrite <- app_assoc in IH. cbn [app] in IH.
    replace (Z.of_nat (List.length pre) + 1) with (Z.of_nat (List.length pre + 1)) by lia. rewrite IH.
    repeat case_decide; try lia; [|done]. cbn [drop app]. rewrite <- app_assoc. cbn [app].
    do 2 f_equal. lia.
Qed.

(** Non-negative values: their digits. *)
Lemma written_lsd k base v : 2 ≤ base ≤ 36 → 0 ≤ v → written k base v = lsd k base v.
Proof.
  intros Hb. revert v. induction k as [|k IH]; intros v Hv; [done|]. cbn [written lsd].
  pose proof (Z.mod_pos_bound v base ltac:(lia)) as Hm. pose proof (digit_char_is_char (v mod base) ltac:(lia)).
  unfold loop_char, truth. rewrite Z.rem_mod_nonneg, Z.quot_div_nonneg, s8_small by lia.
  assert ((if v mod base <? 0xa then v mod base + 48 else v mod base - 0xa + 97) = digit_char (v mod base))
    as -> by (unfold digit_char; destruct (v mod base <? 10); lia).
  rewrite u8_small by (unfold is_char in *; lia).
  f_equal. destruct (v / base =? 0); [done|]. apply IH. apply Z.div_pos; lia.
Qed.

(** Negative values in base ten: each digit [d] is written as the character
    [d] places below '0'. *)
Lemma written_negative k v : 0 < v → written k 10 (- v) = map (λ c, 96 - c) (lsd k 10 v).
Proof.
  revert v. induction k as [|k IH]; intros v Hv; [done|]. cbn [written lsd map].
  pose proof (Z.mod_pos_bound v 10 ltac:(lia)) as Hm.
  unfold loop_char, truth. rewrite Z.rem_opp_l, Z.quot_opp_l, Z.rem_mod_nonneg, Z.quot_div_nonneg by lia.
  rewrite s8_small by lia. rewrite (proj2 (Z.ltb_lt (- (v mod 10)) 0xa)) by lia.
  unfold digit_char. rewrite (proj2 (Z.ltb_lt (v mod 10) 10)), u8_small by lia.
  f_equal; [lia|]. destruct (Z.eqb_spec (v / 10) 0) as [->|Hz]; [done|].
  rewrite (proj2 (Z.eqb_neq (- (v / 10)) 0)) by lia. cbn [negb]. apply IH.
  pose proof (Z.div_pos v 10). lia.
Qed.

(** *** Reversal *)

Lemma deref_mid (A B : list Z) c : deref (Some (A ++ c :: B)) (Z.of_nat (List.length A)) = Ok c.
Proof. apply deref_nat. by rewrite lookup_app_r, Nat.sub_diag. Qed.

Lemma strrev_loop_spec k A mid B :
  Forall (λ c, 0 ≤ c < 0x100) mid → (mid = [] → A ≠ []) → (List.length mid < 2 * k)%nat →
  Z.of_nat (List.length (A ++ mid)) < 0x10000000000000000 →
  strrev_loop k (Z.of_nat (List.length A)) (Z.of_nat (List.length A + List.length mid) - 1) (A ++ mid ++ B) =
    Ok (A ++ reverse mid ++ B).
Proof.
  revert A mid B. induction k as [|k IH]; intros A mid B Hch HA Hk Hlen; [lia|]. cbn [strrev_loop].
  destruct mid as [|a mid].
  { rewrite (proj2 (Z.ltb_ge _ _)); [done|]. cbn [List.length]. lia. }
  destruct mid as [|b mid _] using rev_ind.
  { rewrite (proj2 (Z.ltb_ge _ _)); [done|]. cbn [List.length]. lia. }
  rewrite length_app in *. cbn [List.length] in *. rewrite length_app in *. cbn [List.length] in *.
  rewrite (proj2 (Z.ltb_lt _ _)) by lia.
  apply Forall_cons in Hch as [Ha Hch]. apply Forall_app in Hch as [Hm [Hb _]%Forall_cons].
  cbn [app]. rewrite <- app_assoc. cbn [app]. rewrite deref_mid. cbn [mbind res_bind].
  replace (Z.of_nat (List.length A + S (List.length mid + 1)) - 1)
    with (Z.of_nat (List.length (A ++ a :: mid))) by (rewrite length_app; cbn [List.length]; lia).
  replace (A ++ a :: mid ++ b :: B) with ((A ++ a :: mid) ++ b :: B) by (by rewrite <- app_assoc).
  rewrite deref_mid. cbn [mbind res_bind]. rewrite <- app_assoc. cbn [app]. rewrite set_at_ok. cbn [mbind res_bind].
  replace (A ++ u8 b :: mid ++ b :: B) with ((A ++ u8 b :: mid) ++ b :: B) by (by rewrite <- app_assoc).
  replace (List.length (A ++ a :: mid)) with (List.length (A ++ u8 b :: mid)) by (by rewrite !length_app).
  rewrite set_at_ok. cbn [mbind res_bind]. cbn beta in Ha, Hb. rewrite !u8_small by lia.
  specialize (IH (A ++ [b]) mid (a :: B) Hm). rewrite length_app in *. cbn [List.length] in *.
  rewrite length_app in IH. cbn [List.length] in IH. rewrite <- !app_assoc in IH. cbn [app] in IH.
  rewrite <- app_assoc. cbn [app]. rewrite u64_small by lia.
  replace (Z.of_nat (List.length A) + 1) with (Z.of_nat (List.length A + 1)) by lia.
  replace (Z.of_nat (List.length A + S (List.length mid)) - 1)
    with (Z.of_nat (List.length A + 1 + List.length mid) - 1) by lia.
  rewrite IH; [|by destruct A|lia|lia].
  rewrite reverse_cons, reverse_app. cbn. by rewrite <- app_assoc.
Qed.

Lemma strrev_spec t rest :
  t ≠ [] → Forall is_char t → Z.of_nat (List.length t) < 0x10000000000000000 →
  strrev (t ++ 0 :: rest) = Ok (reverse t ++ 0 :: rest).
Proof.
  intros Hne Ht Hlen. unfold strrev. rewrite (strlen_cstr t) by (split; [done|by exists rest]).
  cbn [mbind res_bind]. destruct t as [|c t]; [done|]. cbn [List.length] in Hlen.
  rewrite u64_small by (cbn [List.length]; lia).
  apply (strrev_loop_spec _ [] (c :: t) (0 :: rest)); [|done| |done].
  - eapply Forall_impl; [exact Ht|]. unfold is_char. lia.
  - rewrite length_app. cbn [List.length]. lia.
Qed.
(** *** [itoa] *)

Lemma pow_base base : 2 ≤ base → 0x10000000000000000 ≤ base ^ 64.
Proof. intros Hb. apply (Z.pow_le_mono_l 2 base 64). lia. Qed.

Lemma written_fuel base v :
  2 ≤ base ≤ 36 → - 0x8000000000000000 ≤ v < 0x8000000000000000 → (0 ≤ v ∨ base = 10) →
  Forall is_char (written ITOA_FUEL base v) ∧ (List.length (written ITOA_FUEL base v) ≤ 64)%nat.
Proof.
  intros Hb Hv Hs. unfold ITOA_FUEL. pose proof (pow_base base ltac:(lia)).
  destruct (decide (0 ≤ v)) as [Hp|Hn].
  - rewrite written_lsd by lia. split; [by eapply is_digit_is_char; [|apply lsd_digits; lia]; lia|].
    apply lsd_length; [lia|]. change (Z.of_nat 64) with 64. lia.
  - destruct Hs as [?| ->]; [lia|]. replace v with (- - v) by lia. rewrite written_negative, length_map by lia.
    split; [|apply lsd_length; [lia|]; change (Z.of_nat 64) with 64; lia].
    apply Forall_map. eapply Forall_impl; [apply (lsd_digits 64 10); lia|].
    intros c (d & Hd & ->). unfold is_char, digit_char. cbn. rewrite (proj2 (Z.ltb_lt d 10)) by lia. lia.
Qed.

Lemma itoa_run depth stack base v str :
  2 ≤ base ≤ 36 → - 0x8000000000000000 ≤ v < 0x8000000000000000 → (0 ≤ v ∨ base = 10) →
  let out := (if v <? 0 then [45] else []) ++ written ITOA_FUEL base v in
  itoa_rec (S depth) stack v str base =
    if decide (List.length out < List.length str)%nat then
      Ok (reverse out ++ 0 :: drop (S (List.length out)) str)
    else Err BadAccess.
Proof.
  intros Hb Hv Hs out. destruct (written_fuel base v Hb Hv Hs) as [Hch Hlen]. pose proof (pow_base base ltac:(lia)).
  cbn [itoa_rec]. rewrite (proj2 (Z.eqb_neq base 0)) by lia.
  assert ((v <? 0) && negb (base =? 10) = false) as ->
    by (destruct (Z.ltb_spec v 0), (Z.eqb_spec base 10); try done; lia).
  set (sign := if v <? 0 then [45] else []) in *.
  assert (List.length str = O ∨ ∃ tail, str = take (List.length sign) str ++ tail ∧ List.length sign = List.length (take (List.length sign) str)
     ∧ (if v <? 0 then str ← set_at str 0 45; Ok (str, 1) else Ok (str, 0)) = Ok (sign ++ tail, Z.of_nat (List.length sign)))
    as [H0|(tail & Hstr & Hsl & ->)].
  { subst sign. destruct str as [|c tail]; [by left|right]. destruct (v <? 0).
    - exists tail. split_and!; [done|done|]. by rewrite (set_at_ok [] c tail 45 : set_at (c :: tail) 0 45 = _).
    - by exists (c :: tail). }
  { rewrite decide_False by lia. destruct str; [|done]. destruct (v <? 0); [done|].
    unfold ITOA_FUEL. cbn [mbind res_bind].
    pose proof (itoa_loop_written 63 base v [] []) as Hw. change (Z.of_nat 64) with 64 in Hw.
    rewrite decide_False in Hw by (cbn; lia). cbn [app List.length] in Hw. change (Z.of_nat 0) with 0 in Hw.
    rewrite Hw by lia. done. }
  cbn [mbind res_bind]. unfold ITOA_FUEL in *.
  rewrite itoa_loop_written by (change (Z.of_nat 64) with 64; lia).
  assert (List.length str = (List.length sign + List.length tail)%nat) as Hl.
  { rewrite Hstr at 1. rewrite length_app, <- Hsl. done. }
  assert (List.length out = (List.length sign + List.length (written 64 base v))%nat) as Ho by apply length_app.
  destruct (decide (List.length (written 64 base v) ≤ List.length tail)%nat) as [Hle|];
    [|by rewrite decide_False by lia].
  cbn [mbind res_bind]. rewrite app_assoc. fold out. rewrite <- Ho.
  assert (drop (S (List.length out)) str = drop (S (List.length (written 64 base v))) tail) as ->.
  { rewrite Hstr at 1. rewrite drop_app, drop_ge by lia. cbn [app]. f_equal. lia. }
  destruct (drop (List.length (written 64 base v)) tail) as [|c rest] eqn:Hd.
  - apply (f_equal List.length) in Hd. rewrite length_drop in Hd. cbn [List.length] in Hd.
    rewrite app_nil_r, set_at_oob by lia. by rewrite decide_False by lia.
  - rewrite set_at_ok. cbn [mbind res_bind]. change (u8 0) with 0.
    pose proof (f_equal List.length Hd) as Hd'. rewrite length_drop in Hd'. cbn [List.length] in Hd'.
    rewrite decide_True by lia. rewrite strrev_spec.
    + do 3 f_equal. apply (f_equal (drop 1)) in Hd. rewrite drop_drop in Hd. cbn [List.length] in Hd.
      change (drop 1 (c :: rest)) with rest in Hd. rewrite <- Hd. f_equal. lia.
    + intros Hnil. apply (f_equal List.length) in Hnil. rewrite Ho in Hnil. cbn [written List.length] in Hnil. lia.
    + apply Forall_app; split; [|done]. subst sign. by destruct (v <? 0); repeat constructor.
    + rewrite Ho. assert (List.length sign ≤ 1)%nat by (subst sign; destruct (v <? 0); cbn; lia). lia.
Qed.

(** Everything about the numeral [itoa] writes, for its clients. *)
Lemma itoa_parts stack base v str :
  2 ≤ base ≤ 36 → 0 ≤ v < 0x8000000000000000 →
  ∃ t, Forall (is_digit base) t ∧ t ≠ [] ∧ numeral base t = v ∧
    (∀ n : nat, 2 ≤ base → v < base ^ Z.of_nat (S n) → (List.length t ≤ S n)%nat) ∧
    itoa stack v str base =
      if decide (List.length t < List.length str)%nat then
        Ok (t ++ 0 :: drop (S (List.length t)) str)
      else Err BadAccess.
Proof.
  intros Hb Hv. pose proof (pow_base base ltac:(lia)).
  exists (reverse (lsd ITOA_FUEL base v)). rewrite length_reverse. split_and!.
  - apply Forall_reverse, lsd_digits. lia.
  - intros Hnil. apply (f_equal List.length) in Hnil. by rewrite length_reverse in Hnil.
  - apply lsd_value; [lia|]. change (Z.of_nat ITOA_FUEL) with 64. lia.
  - intros n _ Hn. apply lsd_length; lia.
  - unfold itoa. rewrite (itoa_run 1 stack base v str) by lia.
    rewrite (proj2 (Z.ltb_ge v 0)) by lia. cbn [app]. by rewrite written_lsd by lia.
Qed.

(** C36. For a non-negative value and a base from 2 to 36, [itoa]
    writes the numeral of the value in that base: only digits of the base, of
    the value's numeric value, without leading zero, NUL-terminated, the rest
    of the buffer untouched; a buffer too small for the numeral and its
    terminator is overrun. *)
Theorem itoa_numeral stack base v str :
  2 ≤ base ≤ 36 → 0 ≤ v < 0x8000000000000000 →
  ∃ t, Forall (is_digit base) t ∧ t ≠ [] ∧ numeral base t = v ∧ (0 < v → head t ≠ Some 48) ∧
    itoa stack v str base =
      if decide (List.length t < List.length str)%nat then
        Ok (t ++ 0 :: drop (S (List.length t)) str)
      else Err BadAccess.
Proof.
  intros Hb Hv. pose proof (pow_base base ltac:(lia)).
  exists (reverse (lsd ITOA_FUEL base v)). rewrite length_reverse. split_and!.
  - apply Forall_reverse, lsd_digits. lia.
  - intros Hnil. apply (f_equal List.length) in Hnil. by rewrite length_reverse in Hnil.
  - apply lsd_value; [lia|]. change (Z.of_nat ITOA_FUEL) with 64. lia.
  - intros Hpos. destruct (lsd_last ITOA_FUEL base v) as (l & c & -> & Hc); [lia|change (Z.of_nat ITOA_FUEL) with 64; lia|].
    rewrite reverse_app. cbn. congruence.
  - unfold itoa. rewrite (itoa_run 1 stack base v str) by lia.
    rewrite (proj2 (Z.ltb_ge v 0)) by lia. cbn [app]. by rewrite written_lsd by lia.
Qed.

Lemma itoa_numeral_witness :
  ∃ t, Forall (is_digit 16) t ∧ numeral 16 t = 48879 ∧
    itoa (replicate 32 0) 48879 (replicate 65 1) 16 =
      if decide (List.length t < 65)%nat then Ok (t ++ 0 :: drop (S (List.length t)) (replicate 65 1))
      else Err BadAccess.
Proof.
  destruct (itoa_numeral (replicate 32 0) 16 48879 (replicate 65 1)) as (t & Hd & _ & Hv & _ & Hrun); [lia|lia|].
  by exists t.
Defined.

(** A negative value in base ten is written with the
    minus sign last and each digit [d] as the character [d] places below '0'
    ([value *= 1] where the sign should have been dropped, and the sign is
    reversed with the digits): no negative value prints as its numeral. *)
Theorem itoa_negative_decimal stack v str :
  - 0x8000000000000000 < v < 0 → (66 ≤ List.length str)%nat →
  ∃ t, Forall (is_digit 10) t ∧ numeral 10 t = - v ∧
    itoa stack v str 10 =
      Ok (map (λ c, 96 - c) t ++ 45 :: 0 :: drop (S (S (List.length t))) str).
Proof.
  intros Hv Hlen. pose proof (pow_base 10 ltac:(lia)). exists (reverse (lsd ITOA_FUEL 10 (- v))). split_and!.
  - apply Forall_reverse, lsd_digits. lia.
  - apply lsd_value; [lia|]. change (Z.of_nat ITOA_FUEL) with 64. lia.
  - unfold itoa. rewrite (itoa_run 1 stack 10 v str) by lia.
    assert (List.length (lsd ITOA_FUEL 10 (- v)) ≤ 64)%nat
      by (apply lsd_length; [lia|]; change (Z.of_nat 64) with 64; lia).
    rewrite (proj2 (Z.ltb_lt v 0)) by lia. replace (written ITOA_FUEL 10 v) with (written ITOA_FUEL 10 (- - v)) by (f_equal; lia).
    rewrite written_negative by lia. cbn [app List.length]. rewrite length_map, length_reverse, decide_True by lia.
    rewrite reverse_cons, <- app_assoc.
    by rewrite (fmap_reverse (λ c, 96 - c) _ : map _ (reverse _) = reverse (map _ _)).
Qed.

Lemma itoa_negative_decimal_witness :
  ∃ t, numeral 10 t = 42 ∧
    itoa (replicate 32 0) (-42) (replicate 66 0) 10 =
      Ok (map (λ c, 96 - c) t ++ 45 :: 0 :: drop (S (S (List.length t))) (replicate 66 0)).
Proof.
  destruct (itoa_negative_decimal (replicate 32 0) (-42) (replicate 66 0)) as (t & _ & Hv & Hrun);
    [lia|cbn; lia|]. by exists t.
Defined.

Lemma copy_digits_spec t src pre tail i :
  Forall is_char t → (∀ j, (j < List.length t)%nat → src !! (i + j)%nat = t !! j) →
  (List.length t ≤ List.length tail)%nat →
  ∀ off, Z.of_nat i + off = Z.of_nat (List.length pre) →
  copy_digits (List.length t) (Z.of_nat i) off src (pre ++ tail) = Ok (pre ++ t ++ drop (List.length t) tail).
Proof.
  intros Ht. revert i pre tail. induction Ht as [|c t Hc Ht IH]; intros i pre tail Hsrc Hlen off Hoff; [done|].
  cbn [copy_digits List.length]. pose proof (Hsrc 0%nat ltac:(cbn; lia)) as H0. rewrite Nat.add_0_r in H0. cbn in H0.
  rewrite (deref_nat src i c) by done. cbn [mbind res_bind].
  destruct tail as [|x tail]; [cbn in Hlen; lia|]. rewrite Hoff, set_at_ok. cbn [mbind res_bind].
  rewrite u8_small by (unfold is_char in Hc; lia).
  replace (pre ++ c :: tail) with ((pre ++ [c]) ++ tail) by (by rewrite <- app_assoc).
  replace (Z.of_nat i + 1) with (Z.of_nat (S i)) by lia. rewrite IH.
  - cbn [drop]. by rewrite <- app_assoc.
  - intros j Hj. specialize (Hsrc (S j) ltac:(cbn; lia)). by rewrite Nat.add_succ_r in Hsrc.
  - cbn in Hlen. lia.
  - rewrite length_app. cbn [List.length]. lia.
Qed.

(** Hexadecimal digits of a 32-bit value. *)
Definition hex32 (v : Z) : list Z := reverse (lsd ITOA_FUEL 16 v).

Lemma hex32_spec v : 0 ≤ v < 0x100000000 →
  Forall is_char (hex32 v) ∧ (List.length (hex32 v) ≤ 8)%nat ∧ numeral 16 (hex32 v) = v.
Proof.
  intros Hv. unfold hex32. rewrite length_reverse. split_and!.
  - apply Forall_reverse. eapply is_digit_is_char; [|apply lsd_digits]; lia.
  - apply lsd_length; [lia|]. change (16 ^ Z.of_nat 8) with 0x100000000. lia.
  - apply lsd_value; [lia|]. pose proof (pow_base 16 ltac:(lia)).
    change (Z.of_nat ITOA_FUEL) with 64. lia.
Qed.

Lemma itoa_half depth stack v :
  0 ≤ v < 0x100000000 → List.length stack = 32%nat →
  itoa_rec (S depth) stack v (take 32 stack) 16 =
    Ok (hex32 v ++ 0 :: drop (S (List.length (hex32 v))) (take 32 stack)).
Proof.
  intros Hv Hst. destruct (hex32_spec v Hv) as (_ & Hl & _). unfold hex32 in *. rewrite length_reverse in *.
  rewrite itoa_run by lia. rewrite (proj2 (Z.ltb_ge v 0)) by lia. cbn [app]. rewrite written_lsd by lia.
  rewrite decide_True; [done|]. rewrite length_take. lia.
Qed.

(** The branch for negative values outside base ten. *)
Lemma itoa_rec_negative depth stack v str base :
  v < 0 → base ≠ 0 → base ≠ 10 →
  itoa_rec (S depth) stack v str base =
    (left_str ← itoa_rec depth stack (Z.shiftr (u64 (Z.land v 0xffffffff00000000)) 32) (take 32 stack) base;
     right_str ← itoa_rec depth stack (Z.land v 0xffffffff) (take 32 stack) base;
     n ← strlen (Some left_str);
     str ← copy_digits (Z.to_nat n) 0 0 left_str str;
     m ← strlen (Some right_str);
     copy_digits (Z.to_nat m) 0 n right_str str).
Proof.
  intros Hv H0 H10. cbn [itoa_rec].
  by rewrite (proj2 (Z.eqb_neq base 0) H0), (proj2 (Z.eqb_neq base 10) H10), (proj2 (Z.ltb_lt v 0) Hv).
Qed.

Lemma negative_hex_run stack v str :
  - 0x8000000000000000 ≤ v < 0 → List.length stack = 32%nat → (16 ≤ List.length str)%nat →
  let hi := u64 v / 0x100000000 in let lo := u64 v mod 0x100000000 in
  itoa stack v str 16 =
    Ok (hex32 hi ++ hex32 lo ++ drop (List.length (hex32 hi) + List.length (hex32 lo)) str).
Proof.
  intros Hv Hst Hlen hi lo.
  assert (Z.land v 0xffffffff = lo) as Hlo.
  { change 0xffffffff with (Z.ones 32). rewrite Z.land_ones by lia. subst lo. word_lia. }
  assert (Z.shiftr (u64 (Z.land v 0xffffffff00000000)) 32 = hi) as Hhi.
  { change 0xffffffff00000000 with (Z.shiftl (Z.ones 32) 32). rewrite Z.shiftr_div_pow2 by lia.
    change (2 ^ 32) with 0x100000000. subst hi. rewrite <- (Z.shiftr_div_pow2 _ 32), <- (Z.shiftr_div_pow2 _ 32) by lia.
    unfold u64. change 0x10000000000000000 with (2 ^ 64). rewrite <- !Z.land_ones by lia.
    apply Z.bits_inj'. intros n Hn. rewrite !Z.shiftr_spec, !Z.land_spec, Z.shiftl_spec by lia.
    destruct (decide (n < 32)) as [Hb|Hb].
    - rewrite Z.add_simpl_r, (Z.ones_spec_low 32), andb_true_r by lia. done.
    - rewrite (Z.ones_spec_high 64), !andb_false_r by lia. done. }
  pose proof (u64_range v) as Hu. assert (0 ≤ hi < 0x100000000 ∧ 0 ≤ lo < 0x100000000) as [Hh Hl]
    by (subst hi lo; Z.div_mod_to_equations; lia).
  destruct (hex32_spec hi Hh) as (Hhc & Hhl & _), (hex32_spec lo Hl) as (Hlc & Hll & _).
  unfold itoa. rewrite itoa_rec_negative, Hlo, Hhi, !itoa_half by lia. cbn [mbind res_bind].
  rewrite (strlen_cstr (hex32 hi) (hex32 hi ++ 0 :: _)) by by apply cstr_app. cbn [mbind res_bind]. rewrite Nat2Z.id.
  rewrite (copy_digits_spec (hex32 hi) _ [] str 0); [|done|intros j Hj; by rewrite lookup_app_l|lia|done].
  cbn [mbind res_bind app].
  rewrite (strlen_cstr (hex32 lo) (hex32 lo ++ 0 :: _)) by by apply cstr_app. cbn [mbind res_bind]. rewrite Nat2Z.id.
  rewrite (copy_digits_spec (hex32 lo) _ (hex32 hi) _ 0);
    [by rewrite drop_drop|done|intros j Hj; by rewrite lookup_app_l|rewrite length_drop; lia|lia].
Qed.

(** The formatter's two bases, into its zeroed buffer: always a string. *)
Lemma itoa_string base v stack :
  base = 10 ∨ base = 16 → - 0x8000000000000000 ≤ v < 0x8000000000000000 → List.length stack = 32%nat →
  ∃ t rest, itoa stack v (replicate 256 0) base = Ok (t ++ 0 :: rest) ∧ Forall is_char t.
Proof.
  intros Hb Hv Hst. assert (2 ≤ base ≤ 36) as Hb36 by lia. destruct (decide (0 ≤ v ∨ base = 10)) as [Hs|Hs].
  - destruct (written_fuel base v Hb36 Hv Hs) as [Hch Hlen]. unfold itoa. rewrite (itoa_run 1) by (done || lia).
    set (out := (if v <? 0 then [45] else []) ++ written ITOA_FUEL base v).
    assert (List.length out ≤ 65)%nat by (unfold out; rewrite length_app; destruct (v <? 0); cbn [List.length]; lia).
    rewrite decide_True by (rewrite length_replicate; lia). eexists (reverse out), _. split; [done|].
    apply Forall_reverse. unfold out. apply Forall_app. split; [|done]. by destruct (v <? 0); [repeat constructor|].
  - assert (base = 16) as -> by lia. rewrite negative_hex_run by (lia || rewrite ?length_replicate; lia).
    pose proof (u64_range v).
    destruct (hex32_spec (u64 v / 0x100000000)) as (Hhc & Hhl & _); [Z.div_mod_to_equations; lia|].
    destruct (hex32_spec (u64 v mod 0x100000000)) as (Hlc & Hll & _); [apply Z.mod_pos_bound; lia|].
    set (h := hex32 (u64 v / _)) in *. set (l := hex32 (u64 v mod _)) in *.
    exists (h ++ l), (replicate (255 - (List.length h + List.length l)) 0). split.
    + rewrite drop_replicate, <- app_assoc. do 3 f_equal.
      replace (256 - (List.length h + List.length l))%nat with (S (255 - (List.length h + List.length l))) by lia. done.
    + by apply Forall_app.
Qed.

(** A negative value in base sixteen is written as the
    numerals of its upper and its lower 32 bits one after the other, without
    padding the lower one to eight digits and without writing a terminator:
    what follows in the buffer stays attached to the number. *)
Theorem itoa_negative_hex stack v str :
  - 0x8000000000000000 ≤ v < 0 → List.length stack = 32%nat → (16 ≤ List.length str)%nat →
  let hi := u64 v / 0x100000000 in let lo := u64 v mod 0x100000000 in
  itoa stack v str 16 =
    Ok (hex32 hi ++ hex32 lo ++ drop (List.length (hex32 hi) + List.length (hex32 lo)) str).
Proof. apply negative_hex_run. Qed.

(** 0xffffffff00000005 prints as "ffffffff5". *)
Lemma itoa_negative_hex_witness :
  itoa (replicate 32 0x5a) (-0xfffffffb) (replicate 16 120) 16 =
    Ok (hex32 0xffffffff ++ hex32 5 ++ replicate 7 120).
Proof.
  exact (itoa_negative_hex (replicate 32 0x5a) (-0xfffffffb) (replicate 16 120) ltac:(lia) eq_refl ltac:(cbn; lia)).
Defined.
