(* ===== verification/CStdlib.v ===== *)
(** libs/ansi/stdlib.c (conversions and pseudo-random numbers), math.c and
    ctype.c, and the two other numeral readers of the kernel: [hex2int] of
    kernel/symbols.c and [tar_get_size] of libs/navy/tar.c. *)
From S2P Require Import Prelude CString Itoa.

Definition isdigit (c : Z) : Z := Z.b2z ((48 <=? c) && (c <=? 57)).

(** [int64_t] arithmetic, wrapped. *)
Fixpoint pow_loop (k : nat) (return_value base : Z) : Z :=
  match k with O => return_value | S k => pow_loop k (s64 (return_value * base)) base end.
Definition pow (base power : Z) : Z := pow_loop (Z.to_nat power) 1 base.

(** The loop from character [index] on; [rest] is the string from there. *)
Fixpoint atoi_loop (nptr : charp) (rest : list Z) (index return_value : Z) : res Z :=
  match rest with
  | [] => Err BadAccess
  | c :: rest =>
      if c =? 0 then Ok return_value
      else
        n ← strlen nptr;
        let power := u16 (n - index - 1) in
        (* int times uint32_t is uint32_t arithmetic *)
        let term := u32 ((s8 c - 48) * u32 (pow 10 power)) in
        atoi_loop nptr rest (index + 1) (s64 (return_value + term))
  end.
Definition atoi (nptr : charp) : res Z :=
  c ← deref nptr 0;
  let is_negative := s8 c =? 45 in
  let index := if is_negative then 1 else 0 in
  v ← atoi_loop nptr (drop (Z.to_nat index) (default [] nptr)) index 0;
  Ok (s32 (if is_negative then s64 (v * -1) else v)).

(** [random_next] is the state. *)
Definition srandom (seed : Z) : M Z unit := modify (λ _, u32 seed).
Definition random : M Z Z := λ random_next,
  let random_next := u32 (random_next * 1103515245 + 12345) in
  Ok (u32 (random_next / 65536) mod 32768, random_next).

(** The loop of [hex2int]; [byte] is a signed [char]. *)
Fixpoint hex2int_loop (s : list Z) (val : Z) : res Z :=
  match s with
  | [] => Err BadAccess
  | c :: s =>
      if c =? 0 then Ok val
      else
        let byte := s8 c in
        let byte :=
          if (48 <=? byte) && (byte <=? 57) then byte - 48
          else if (97 <=? byte) && (byte <=? 102) then byte - 97 + 10
          else byte in
        hex2int_loop s (Z.lor (u64 (Z.shiftl val 4)) (Z.land byte 0xf))
  end.
Definition hex2int (s : charp) : res Z :=
  match s with None => Err BadAccess | Some s => hex2int_loop s 0 end.

(** [for (i = 11; i > 0; i--, count *= 8)]; the characters are signed, the
    product and the sum are [size_t]. *)
Fixpoint tar_size_loop (inp : list Z) (i : nat) (size count : Z) : res Z :=
  match i with
  | O => Ok size
  | S i =>
      c ← deref (Some inp) (Z.of_nat i);
      tar_size_loop inp i (u64 (size + u64 ((s8 c - 48) * count))) (u64 (count * 8))
  end.
Definition tar_get_size (inp : list Z) : res Z := tar_size_loop inp 11 0 1.

(** ** Reading back what [itoa] writes *)

Lemma pow_loop_exact k r base :
  0 < base → 0 ≤ r → r * base ^ Z.of_nat k < 0x8000000000000000 → pow_loop k r base = r * base ^ Z.of_nat k.
Proof.
  revert r. induction k as [|k IH]; intros r Hb Hr Hlt; cbn [pow_loop]; [cbn; lia|].
  rewrite Nat2Z.inj_succ, Z.pow_succ_r in * by lia.
  assert (0 < base ^ Z.of_nat k) by (apply Z.pow_pos_nonneg; lia).
  assert (r * base ≤ r * base * base ^ Z.of_nat k) by nia.
  unfold s64. rewrite Z.mod_small by nia. replace (r * base + _ - _) with (r * base) by lia.
  rewrite IH; nia.
Qed.
Lemma pow_exact base p :
  0 < base → 0 ≤ p → base ^ p < 0x8000000000000000 → pow base p = base ^ p.
Proof.
  intros Hb Hp Hlt. unfold pow. rewrite pow_loop_exact; rewrite ?Z2Nat.id; lia.
Qed.

Lemma numeral_cons base c t :
  numeral base (c :: t) = char_digit c * base ^ Z.of_nat (List.length t) + numeral base t.
Proof.
  unfold numeral. cbn [foldl]. rewrite Z.mul_0_l, Z.add_0_l. generalize (char_digit c) as a. clear c.
  assert (∀ a, foldl (λ a c, a * base + char_digit c) a t =
    a * base ^ Z.of_nat (List.length t) + foldl (λ a c, a * base + char_digit c) 0 t) as Hgen; [|apply Hgen].
  induction t as [|c t IH]; intros a; cbn [foldl List.length]; [cbn; lia|].
  rewrite (IH (a * base + char_digit c)), (IH (0 * base + char_digit c)), Nat2Z.inj_succ, Z.pow_succ_r by lia. lia.
Qed.
Lemma numeral_nonneg base t : 0 < base → Forall (is_digit base) t → base ≤ 36 → 0 ≤ numeral base t.
Proof.
  intros Hb Ht H36. induction Ht as [|c t (d & Hd & ->) Ht IH]; [done|]. rewrite numeral_cons, char_digit_char by lia.
  assert (0 < base ^ Z.of_nat (List.length t)) by (apply Z.pow_pos_nonneg; lia). nia.
Qed.

Lemma atoi_loop_digits p t rest s v :
  cstr (p ++ t) s → s = p ++ t ++ 0 :: rest → Forall (is_digit 10) t →
  (List.length t ≤ 10)%nat → 0 ≤ v → v + numeral 10 t < 0x80000000 →
  Z.of_nat (List.length s) < 0x80000000 →
  atoi_loop (Some s) (t ++ 0 :: rest) (Z.of_nat (List.length p)) v = Ok (v + numeral 10 t).
Proof.
  intros Hs Heq Ht. revert p v Hs Heq. induction Ht as [|c t (d & Hd & ->) Ht IH]; intros p v Hs Heq Hlen Hv Hlt Hsl.
  - cbn. f_equal. unfold numeral. cbn. lia.
  - cbn [app atoi_loop]. pose proof (digit_char_is_char d ltac:(lia)) as Hc. unfold is_char in Hc.
    rewrite (proj2 (Z.eqb_neq _ 0)) by lia. rewrite (strlen_cstr _ _ Hs). cbn [mbind res_bind].
    rewrite length_app. cbn [List.length] in *. rewrite numeral_cons, char_digit_char in Hlt |- * by lia.
    pose proof (numeral_nonneg 10 t ltac:(lia) Ht ltac:(lia)).
    unfold u16. rewrite (Z.mod_small _ 0x10000) by lia.
    replace (Z.of_nat (List.length p + S (List.length t)) - Z.of_nat (List.length p) - 1)
      with (Z.of_nat (List.length t)) by lia.
    assert (0 < 10 ^ Z.of_nat (List.length t) ≤ 10 ^ 9) as Hpow
      by (split; [apply Z.pow_pos_nonneg|apply Z.pow_le_mono_r]; lia).
    change (10 ^ 9) with 1000000000 in Hpow.
    rewrite pow_exact, (u32_small (10 ^ _)) by lia. set (b := 10 ^ Z.of_nat (List.length t)) in *.
    assert (s8 (digit_char d) - 48 = d) as ->.
    { unfold digit_char. rewrite (proj2 (Z.ltb_lt d 10)) by lia. rewrite s8_small; lia. }
    rewrite u32_small by nia.
    assert (s64 (v + d * b) = v + d * b) as -> by (unfold s64; rewrite Z.mod_small; nia).
    replace (Z.of_nat (List.length p) + 1) with (Z.of_nat (List.length (p ++ [digit_char d])))
      by (rewrite length_app; cbn; lia).
    rewrite IH; try lia; try nia.
    + f_equal. lia.
    + by rewrite <- app_assoc.
    + rewrite Heq, <- app_assoc. done.
Qed.



Lemma lor_shift4 v d : 0 ≤ v → 0 ≤ d < 16 → Z.lor (Z.shiftl v 4) d = v * 16 + d.
Proof.
  intros Hv Hd. rewrite Z.shiftl_mul_pow2 by lia. change (2 ^ 4) with 16.
  assert (Z.land (v * 16) d = 0) as Hland.
  { apply Z.bits_inj'. intros n Hn. rewrite Z.land_spec, Z.bits_0.
    destruct (decide (n < 4)) as [Hl|Hl].
    - change 16 with (2 ^ 4). by rewrite Z.mul_pow2_bits_low by lia.
    - rewrite (testbit_above d 4 n), andb_false_r by lia. done. }
  rewrite <- Z.lxor_lor by done. symmetry. by apply Z.add_nocarry_lxor.
Qed.

Lemma hex2int_loop_digits t rest v :
  Forall (is_digit 16) t → 0 ≤ v →
  v * 16 ^ Z.of_nat (List.length t) + numeral 16 t < 0x10000000000000000 →
  hex2int_loop (t ++ 0 :: rest) v = Ok (v * 16 ^ Z.of_nat (List.length t) + numeral 16 t).
Proof.
  intros Ht. revert v. induction Ht as [|c t (d & Hd & ->) Ht IH]; intros v Hv Hlt; cbn [app hex2int_loop].
  - cbn. f_equal. unfold numeral. cbn. lia.
  - cbn [List.length] in *. rewrite numeral_cons, char_digit_char, Nat2Z.inj_succ, Z.pow_succ_r in * by lia.
    pose proof (numeral_nonneg 16 t ltac:(lia) Ht ltac:(lia)).
    assert (0 < 16 ^ Z.of_nat (List.length t)) by (apply Z.pow_pos_nonneg; lia).
    pose proof (digit_char_is_char d ltac:(lia)) as Hc. unfold is_char in Hc.
    rewrite (proj2 (Z.eqb_neq _ 0)) by lia.
    cbv zeta.
    assert (Z.land (if (48 <=? s8 (digit_char d)) && (s8 (digit_char d) <=? 57) then s8 (digit_char d) - 48
      else if (97 <=? s8 (digit_char d)) && (s8 (digit_char d) <=? 102) then s8 (digit_char d) - 97 + 10
      else s8 (digit_char d)) 0xf = d) as ->.
    { change 0xf with (Z.ones 4). rewrite Z.land_ones by lia. change (2 ^ 4) with 16.
      unfold digit_char. destruct (Z.ltb_spec d 10); rewrite s8_small by lia.
      - rewrite (proj2 (Z.leb_le 48 _)), (proj2 (Z.leb_le _ 57)) by lia. cbn [andb]. rewrite Z.mod_small; lia.
      - rewrite (proj2 (Z.leb_gt _ 57)), andb_false_r by lia.
        rewrite (proj2 (Z.leb_le 97 _)), (proj2 (Z.leb_le _ 102)) by lia. cbn [andb]. rewrite Z.mod_small; lia. }
    assert (u64 (Z.shiftl v 4) = Z.shiftl v 4) as ->.
    { apply u64_small. rewrite Z.shiftl_mul_pow2 by lia. change (2 ^ 4) with 16. nia. }
    rewrite lor_shift4 by lia. rewrite IH by nia. f_equal. lia.
Qed.

(** [hex2int] reads back what [itoa] writes in base sixteen,
    for every non-negative 64-bit value. *)
Theorem hex2int_itoa stack v str :
  0 ≤ v < 0x8000000000000000 → (65 ≤ List.length str)%nat →
  ∃ s, itoa stack v str 16 = Ok s ∧ hex2int (Some s) = Ok v.
Proof.
  intros Hv Hlen. destruct (itoa_parts stack 16 v str) as (t & Ht & _ & Hval & Hl & Hrun); [lia|lia|].
  assert (List.length t ≤ 16)%nat as Hl16.
  { apply (Hl 15%nat); [lia|]. change (16 ^ Z.of_nat 16) with 0x10000000000000000. lia. }
  rewrite decide_True in Hrun by lia. eexists. split; [exact Hrun|]. cbn [hex2int].
  rewrite hex2int_loop_digits by (done || lia). f_equal. lia.
Qed.

Lemma hex2int_itoa_witness :
  ∃ s, itoa (replicate 32 0) 0x1234abcd (replicate 65 7) 16 = Ok s ∧ hex2int (Some s) = Ok 0x1234abcd.
Proof. apply hex2int_itoa; [lia|cbn; lia]. Defined.

Lemma tar_size_loop_octal t rest i size count :
  Forall (is_digit 8) t → (i ≤ List.length t)%nat → 0 ≤ size → 0 ≤ count →
  count * 8 ^ Z.of_nat i < 0x10000000000000000 → size + numeral 8 (take i t) * count < 0x10000000000000000 →
  tar_size_loop (t ++ rest) i size count = Ok (size + numeral 8 (take i t) * count).
Proof.
  intros Ht. revert size count. induction i as [|i IH]; intros size count Hi Hs Hc Hpow Hlt; cbn [tar_size_loop].
  - f_equal. change (numeral 8 (take 0 t)) with 0. lia.
  - destruct (lookup_lt_is_Some_2 t i) as [c Hci]; [lia|].
    rewrite (deref_nat _ i c) by (by rewrite lookup_app_l by lia). cbn [mbind res_bind].
    destruct (Forall_lookup_1 _ _ _ _ Ht Hci) as (d & Hd & ->).
    rewrite Nat2Z.inj_succ, Z.pow_succ_r in Hpow by lia.
    assert (0 < 8 ^ Z.of_nat i) by (apply Z.pow_pos_nonneg; lia).
    assert (numeral 8 (take (S i) t) = numeral 8 (take i t) * 8 + d) as Hn.
    { rewrite (take_S_r _ _ _ Hci). unfold numeral. rewrite foldl_app. cbn. by rewrite char_digit_char by lia. }
    assert (0 ≤ numeral 8 (take i t)) by (apply numeral_nonneg; [lia|by apply Forall_take|lia]).
    assert (s8 (digit_char d) - 48 = d) as ->.
    { unfold digit_char. rewrite (proj2 (Z.ltb_lt d 10)) by lia. rewrite s8_small; lia. }
    rewrite Hn in Hlt |- *. rewrite (u64_small (d * count)), (u64_small (size + d * count)), (u64_small (count * 8)) by nia.
    rewrite IH by (lia || nia). f_equal. lia.
Qed.

(** On a size field of eleven octal digits [tar_get_size]
    returns the number they denote, whatever follows the field. *)
Theorem tar_get_size_octal t rest :
  Forall (is_digit 8) t → List.length t = 11%nat → tar_get_size (t ++ rest) = Ok (numeral 8 t).
Proof.
  intros Ht Hlen. unfold tar_get_size.
  assert (numeral 8 t < 8 ^ 11) as Hmax.
  { assert (∀ l, Forall (is_digit 8) l → numeral 8 l < 8 ^ Z.of_nat (List.length l)) as Hb.
    { intros l Hl. induction Hl as [|c l (d & Hd & ->) Hl IH]; [done|].
      rewrite numeral_cons, char_digit_char by lia. cbn [List.length]. rewrite Nat2Z.inj_succ, Z.pow_succ_r by lia. nia. }
    specialize (Hb t Ht). by rewrite Hlen in Hb. }
  change (8 ^ 11) with 8589934592 in Hmax.
  rewrite tar_size_loop_octal; rewrite ?take_ge by lia; try done; try lia.
  f_equal. lia.
Qed.

(** "00000001750" is 1000. *)
Lemma tar_get_size_octal_witness :
  tar_get_size ([48; 48; 48; 48; 48; 48; 48; 49; 55; 53; 48] ++ [0]) = Ok 1000.
Proof.
  apply (tar_get_size_octal [48; 48; 48; 48; 48; 48; 48; 49; 55; 53; 48] [0]); [|done].
  repeat constructor; unfold is_digit.
  1-7, 11: by exists 0.
  - by exists 1.
  - by exists 7.
  - by exists 5.
Defined.
