(* ===== verification/Fmt.v ===== *)
(** libs/navy/fmt.c and fmt.h: the formatter behind [log].

    [callback] is any computation on a state, given the string it is passed. *)
From S2P Require Import Prelude CString Itoa.

Inductive fmt_value : Type :=
| as_decimal (val : Z)     (** [FMT_DECIMAL] *)
| as_str (val : charp)     (** [FMT_STRING] *)
| as_chr (val : Z).        (** [FMT_CHAR] *)

(** The parameter is an [int64_t]. *)
Definition fmtvald (val : Z) : fmt_value := as_decimal (s64 val).
Definition fmtvals (val : charp) : fmt_value := as_str val.
Definition fmtvalc (val : Z) : fmt_value := as_chr val.

Record fmt_scanner : Type := mk_scanner { sc_format : charp; sc_size : Z; sc_offset : Z }.
(** [fmt_args.values] with its [count]. *)
Definition fmt_args : Type := list fmt_value.

Definition fmt_scanner_next (scanner : fmt_scanner) : res (Z * fmt_scanner) :=
  let offset := sc_offset scanner + 1 in
  c ← deref (sc_format scanner) offset;
  Ok (s8 c, mk_scanner (sc_format scanner) (sc_size scanner) offset).

Definition fmt_scanner_current (scanner : fmt_scanner) : res Z :=
  if sc_offset scanner <? sc_size scanner then
    c ← deref (sc_format scanner) (sc_offset scanner); Ok (s8 c)
  else Ok 0.

(** The inner [while], up to the closing brace or the end. *)
Fixpoint scan_mode (fuel : nat) (scanner : fmt_scanner) (mode : Z) : res (fmt_scanner * Z) :=
  match fuel with
  | O => Err OutOfFuel
  | S fuel =>
      c ← fmt_scanner_current scanner;
      if negb (c =? 125) && negb (c =? 0) then
        '(_, scanner) ← fmt_scanner_next scanner;
        c ← fmt_scanner_current scanner;
        scan_mode fuel scanner (if negb (c =? 125) then c else mode)
      else Ok (scanner, mode)
  end.

(** The [switch (mode)]: base, padding, number and unit. *)
Definition decimal_mode (mode nbr : Z) : Z * Z * Z * list Z :=
  if mode =? 97 then (16, 16, nbr, [0; 66; 0])
  else if mode =? 120 then (16, 0, nbr, [0; 66; 0])
  else if mode =? 77 then
    if 1 <=? Z.quot nbr 1073741824 then (10, 0, Z.quot nbr 1073741824, [71; 66; 0])
    else if 1 <=? Z.quot nbr 1048576 then (10, 0, Z.quot nbr 1048576, [77; 66; 0])
    else if 1 <=? Z.quot nbr 1024 then (10, 0, Z.quot nbr 1024, [75; 66; 0])
    else (10, 0, nbr, [66; 0; 0])
  else (10, 0, nbr, [0; 66; 0]).

Section print.
Context {S : Type} (callback : charp → M S unit) (stack : list Z).

Definition print_decimal (mode nbr : Z) : M S unit :=
  let '(base, pad, nbr, unit) := decimal_mode mode nbr in
  lift (itoa stack nbr (replicate 256 0) base) ≫= λ buffer,
  lift (strlen (Some buffer)) ≫= λ n,
  when (n <? pad)
    (callback (Some (replicate (Z.to_nat (pad - n)) 48 ++ replicate (32 - Z.to_nat (pad - n)) 0))) ≫= λ _,
  callback (Some buffer) ≫= λ _,
  when (0 <? s8 (default 0 (head unit))) (callback (Some unit)).

Definition print_value (mode : Z) (v : fmt_value) : M S unit :=
  match v with
  | as_decimal nbr => print_decimal mode nbr
  | as_str s => callback s
  | as_chr c => callback (Some [u8 c; 0])
  end.

Fixpoint print_loop (fuel : nat) (scanner : fmt_scanner) (args : fmt_args) (current_value : Z) : M S unit :=
  match fuel with
  | O => fail OutOfFuel
  | Datatypes.S fuel =>
      lift (fmt_scanner_current scanner) ≫= λ c,
      if negb (c =? 0) then
        (if c =? 123 then
           lift (scan_mode (Datatypes.S (Z.to_nat (sc_size scanner))) scanner 0) ≫= λ '(scanner, mode),
           match args !! Z.to_nat current_value with
           | Some v => print_value mode v ≫= λ _, mret (scanner, current_value + 1)
           | None => mret (scanner, current_value)
           end
         else
           callback (Some [u8 c; 0]) ≫= λ _, mret (scanner, current_value)) ≫= λ '(scanner, current_value),
        lift (fmt_scanner_next scanner) ≫= λ '(_, scanner),
        print_loop fuel scanner args current_value
      else mret tt
  end.

(** Every iteration moves the scanner on, so one per character is enough. *)
Definition PRINT_FORMAT (format : charp) (args : fmt_args) : M S unit :=
  lift (strlen format) ≫= λ size,
  print_loop (Datatypes.S (Z.to_nat size)) (mk_scanner format size 0) args 0.
End print.

(** ** What a format means *)

(** A format is literal characters and holes; the last character of a hole is
    its mode. *)
Inductive segment : Type := Lit (c : Z) | Hole (body : list Z).
Definition segment_ok (g : segment) : Prop :=
  match g with
  | Lit c => is_char c ∧ c ≠ 123
  | Hole body => Forall (λ c, is_char c ∧ c ≠ 125) body
  end.
Definition segment_text (g : segment) : list Z :=
  match g with Lit c => [c] | Hole body => 123 :: body ++ [125] end.
Definition format_text (gs : list segment) : list Z := concat (map segment_text gs).
Definition hole_mode (body : list Z) : Z := default 0 (s8 <$> last body).

(** The outputs of a format, in order, given how one value prints. *)
Fixpoint render {S} (callback : charp → M S unit) (stack : list Z) (gs : list segment) (args : fmt_args) : M S unit :=
  match gs with
  | [] => mret tt
  | Lit c :: gs => callback (Some [c; 0]) ≫= λ _, render callback stack gs args
  | Hole body :: gs =>
      match args with
      | [] => render callback stack gs []
      | v :: args => print_value callback stack (hole_mode body) v ≫= λ _, render callback stack gs args
      end
  end.

Section scanning.
Context (t s : list Z) (Hs : cstr t s).
Implicit Types pre post : list Z.

Definition at_ (i : nat) : fmt_scanner := mk_scanner (Some s) (Z.of_nat (List.length t)) (Z.of_nat i).

Lemma current_at i c : t !! i = Some c → fmt_scanner_current (at_ i) = Ok (s8 c).
Proof.
  intros Hc. pose proof (lookup_lt_Some _ _ _ Hc). unfold fmt_scanner_current, at_. cbn [sc_offset sc_size sc_format].
  rewrite (proj2 (Z.ltb_lt _ _)) by lia. rewrite (deref_nat s i c); [done|]. by rewrite (cstr_lookup t).
Qed.
Lemma current_end i : (List.length t ≤ i)%nat → fmt_scanner_current (at_ i) = Ok 0.
Proof.
  intros Hi. unfold fmt_scanner_current, at_. cbn [sc_offset sc_size sc_format]. by rewrite (proj2 (Z.ltb_ge _ _)) by lia.
Qed.
Lemma next_at i : (i < List.length t)%nat → ∃ c, fmt_scanner_next (at_ i) = Ok (c, at_ (S i)).
Proof.
  intros Hi. unfold fmt_scanner_next, at_. cbn [sc_offset sc_size sc_format].
  replace (Z.of_nat i + 1) with (Z.of_nat (S i)) by lia.
  destruct (decide (S i < List.length t)%nat) as [Hlt|Hge].
  - destruct (lookup_lt_is_Some_2 t (S i) Hlt) as [c Hc].
    rewrite (deref_nat s (S i) c) by (by rewrite (cstr_lookup t s (S i) Hs Hlt)). by eexists.
  - assert (S i = List.length t) as -> by lia. rewrite (deref_nat s _ 0) by (by apply cstr_nul). by eexists.
Qed.

(** Scanning a hole from [i], one of its characters before the closing brace. *)
Lemma scan_mode_spec fuel i c body mode :
  t !! i = Some c → is_char c → c ≠ 125 → Forall (λ c, is_char c ∧ c ≠ 125) body →
  (∀ j, (j < List.length body)%nat → t !! (S i + j)%nat = body !! j) →
  t !! (S i + List.length body)%nat = Some 125 → (List.length body + 1 < fuel)%nat →
  scan_mode fuel (at_ i) mode = Ok (at_ (S i + List.length body), default mode (s8 <$> last body)).
Proof.
  intros Hc Hch H125 Hb. revert fuel i c mode Hc Hch H125.
  induction Hb as [|x body [Hx Hx125] Hb IH]; intros fuel i c mode Hc Hch H125 Hbody Hend Hfuel;
    (destruct fuel as [|fuel]; [lia|]); cbn [scan_mode]; unfold is_char in *.
  all: rewrite (current_at i c) by done; cbn [mbind res_bind].
  all: assert (s8 c ≠ 125 ∧ s8 c ≠ 0) as [H1 H2] by word_lia.
  all: rewrite (proj2 (Z.eqb_neq _ _) H1), (proj2 (Z.eqb_neq _ _) H2); cbn [negb andb].
  all: destruct (next_at i) as [c' ->]; [by eapply lookup_lt_Some|]; cbn [mbind res_bind].
  - cbn [List.length] in *. rewrite Nat.add_0_r in *. rewrite (current_at _ _ Hend). cbn [mbind res_bind].
    change (s8 125 =? 125) with true. cbn [negb]. destruct fuel as [|fuel]; [lia|].
    cbn [scan_mode]. rewrite (current_at _ _ Hend). done.
  - pose proof (Hbody 0%nat ltac:(cbn; lia)) as Hx0. rewrite Nat.add_0_r in Hx0. cbn in Hx0.
    rewrite (current_at _ _ Hx0). cbn [mbind res_bind].
    assert (s8 x ≠ 125) as Hx' by word_lia. rewrite (proj2 (Z.eqb_neq _ _) Hx'). cbn [negb].
    rewrite (IH fuel (S i) x); cbn [List.length] in *; try done; try lia.
    + f_equal. f_equal; [f_equal; lia|]. rewrite last_cons. by destruct (last body).
    + intros j Hj. specialize (Hbody (S j) ltac:(lia)). by rewrite <- Nat.add_succ_comm in Hbody.
    + rewrite <- Hend. f_equal. lia.
Qed.
End scanning.

Lemma format_text_chars gs : Forall segment_ok gs → Forall is_char (format_text gs).
Proof.
  intros H. induction H as [|g gs Hg H IH]; [done|]. unfold format_text. cbn [map concat].
  apply Forall_app; split; [|exact IH]. destruct g as [c|body]; cbn in *.
  - destruct Hg. apply Forall_cons; split; [done|constructor].
  - apply Forall_cons; split; [unfold is_char; lia|]. apply Forall_app; split.
    + eapply Forall_impl; [exact Hg|]. by intros c [].
    + apply Forall_cons; split; [unfold is_char; lia|constructor].
Qed.

Lemma s8_zero c : is_char c → s8 c ≠ 0.
Proof. unfold is_char. word_lia. Qed.
Lemma u8_s8 c : is_char c → u8 (s8 c) = c.
Proof. unfold is_char. word_lia. Qed.

Lemma bind_ext {S A B} (m : M S A) (f g : A → M S B) st :
  (∀ a st, f a st = g a st) → (m ≫= f) st = (m ≫= g) st.
Proof. intros H. unfold mbind, M_bind. destruct (m st) as [[a st']|]; [apply H|done]. Qed.

Lemma lift_bind {S A B} (r : res A) a (f : A → M S B) : r = Ok a → (lift r ≫= f) = f a.
Proof. by intros ->. Qed.

Lemma print_loop_render {S} (callback : charp → M S unit) stack t s gs pre fuel args cv st :
  cstr t s → t = pre ++ format_text gs → Forall segment_ok gs → 0 ≤ cv →
  (List.length (format_text gs) < fuel)%nat →
  print_loop callback stack fuel (at_ t s (List.length pre)) args cv st =
    render callback stack gs (drop (Z.to_nat cv) args) st.
Proof.
  intros Hs Ht Hok Hcv. revert pre fuel cv st Ht Hcv.
  induction Hok as [|g gs Hg Hok IH]; intros pre fuel cv st Ht Hcv Hfuel;
    (destruct fuel as [|fuel]; [lia|]); cbn [print_loop].
  - cbn in Ht. rewrite app_nil_r in Ht. subst pre. by rewrite (lift_bind _ 0) by by apply current_end.
  - unfold format_text in Ht, Hfuel. cbn [map concat] in Ht, Hfuel. fold (format_text gs) in Ht, Hfuel.
    rewrite length_app in Hfuel.
    destruct g as [c|body]; cbn [segment_text app List.length segment_ok render] in *.
    + destruct Hg as [Hc H123].
      assert (t !! List.length pre = Some c) as Hlook by (subst t; by rewrite lookup_app_r, Nat.sub_diag).
      rewrite (lift_bind _ (s8 c)) by by apply current_at.
      rewrite (proj2 (Z.eqb_neq _ 0)) by by apply s8_zero.
      assert (s8 c ≠ 123) as H1 by (unfold is_char in Hc; word_lia). rewrite (proj2 (Z.eqb_neq _ _) H1).
      cbn [negb]. rewrite u8_s8 by done.
      destruct (next_at t s Hs (List.length pre)) as [c' Hnext]; [by eapply lookup_lt_Some|].
      unfold mbind, M_bind. destruct (callback (Some [c; 0]) st) as [[[] st']|]; [|done].
      cbn [mret M_ret]. unfold lift at 1. rewrite Hnext.
      assert (at_ t s (Datatypes.S (List.length pre)) = at_ t s (List.length (pre ++ [c]))) as ->
        by (rewrite length_app; cbn; f_equal; lia).
      apply IH; [by rewrite <- app_assoc|done|lia].
    + assert (t !! List.length pre = Some 123) as Hlook by (subst t; by rewrite lookup_app_r, Nat.sub_diag).
      rewrite (lift_bind _ (s8 123)) by by apply current_at. change (s8 123) with 123. cbn [Z.eqb Pos.eqb negb].
      assert (t = (pre ++ [123]) ++ body ++ 125 :: format_text gs) as Hsplit
        by (rewrite Ht, <- !app_assoc; cbn; by rewrite <- ?app_assoc).
      assert (List.length (pre ++ [123]) = Datatypes.S (List.length pre)) as Hpre by (rewrite length_app; cbn; lia).
      assert (∀ j, (j < List.length body)%nat → t !! (Datatypes.S (List.length pre) + j)%nat = body !! j) as Hbody.
      { intros j Hj. rewrite Hsplit, lookup_app_r, Hpre by lia.
        replace (_ - _)%nat with j by lia. by rewrite lookup_app_l. }
      assert (t !! (Datatypes.S (List.length pre) + List.length body)%nat = Some 125) as Hend.
      { rewrite Hsplit, lookup_app_r, Hpre by lia. replace (_ - _)%nat with (List.length body) by lia.
        by rewrite lookup_app_r, Nat.sub_diag. }
      pose proof (lookup_lt_Some _ _ _ Hend) as Hlt.
      assert (scan_mode (Datatypes.S (Z.to_nat (sc_size (at_ t s (List.length pre))))) (at_ t s (List.length pre)) 0 =
        Ok (at_ t s (Datatypes.S (List.length pre) + List.length body), hole_mode body)) as Hscan.
      { apply (scan_mode_spec t s Hs _ _ 123); try done. cbn [sc_size at_]. lia. }
      destruct (next_at t s Hs (Datatypes.S (List.length pre) + List.length body)) as [c' Hnext]; [done|].
      assert (at_ t s (Datatypes.S (Datatypes.S (List.length pre) + List.length body)) =
              at_ t s (List.length (pre ++ 123 :: body ++ [125]))) as Hat
        by (rewrite length_app; cbn [List.length]; rewrite length_app; cbn [List.length]; f_equal; lia).
      assert (t = (pre ++ 123 :: body ++ [125]) ++ format_text gs) as Ht'
        by (rewrite Hsplit, <- !app_assoc; cbn; by rewrite <- ?app_assoc).
      cbn [List.length] in Hfuel. rewrite length_app in Hfuel. cbn [List.length] in Hfuel.
      rewrite (lift_bind _ _ _ Hscan).
      assert (drop (Z.to_nat cv) args = match args !! Z.to_nat cv with
        | Some v => v :: drop (Z.to_nat (cv + 1)) args | None => [] end) as ->.
      { destruct (args !! Z.to_nat cv) as [v|] eqn:Hv.
        - rewrite (drop_S _ _ _ Hv). do 2 f_equal. lia.
        - apply drop_ge. by apply lookup_ge_None. }
      destruct (args !! Z.to_nat cv) as [v|] eqn:Hv; unfold mbind, M_bind.
      * destruct (print_value callback stack (hole_mode body) v st) as [[[] st']|]; [|done].
        cbn [mret M_ret]. unfold lift at 1. rewrite Hnext, Hat. apply IH; [done|lia|lia].
      * cbn [mret M_ret]. unfold lift at 1. rewrite Hnext, Hat.
        rewrite IH by (done || lia). by rewrite drop_ge by by apply lookup_ge_None.
Qed.

(** ** Formats the program uses are well formed *)

(** Cut a format into segments; [hole] is the hole being read, backwards. *)
Fixpoint parse (l : list Z) (hole : option (list Z)) : list segment :=
  match l, hole with
  | [], _ => []
  | c :: l, None => if c =? 123 then parse l (Some []) else Lit c :: parse l None
  | c :: l, Some body => if c =? 125 then Hole (reverse body) :: parse l None else parse l (Some (c :: body))
  end.
Definition charb (c : Z) : bool := (0 <? c) && (c <? 0x100).
Definition segment_okb (g : segment) : bool :=
  match g with
  | Lit c => charb c && negb (c =? 123)
  | Hole body => forallb (λ c, charb c && negb (c =? 125)) body
  end.
Definition format_okb (l : list Z) : bool :=
  forallb segment_okb (parse l None) && bool_decide (format_text (parse l None) = l).

Lemma charb_spec c : charb c = true → is_char c.
Proof. unfold charb, is_char. rewrite andb_true_iff, !Z.ltb_lt. lia. Qed.
Lemma format_okb_spec l :
  format_okb l = true → Forall segment_ok (parse l None) ∧ format_text (parse l None) = l.
Proof.
  unfold format_okb. rewrite andb_true_iff, forallb_forall, bool_decide_eq_true. intros [Hg Hl]. split; [|done].
  rewrite List.Forall_forall. intros g Hin. specialize (Hg g Hin). destruct g as [c|body]; cbn in *.
  - apply andb_true_iff in Hg as [Hc Hn]. apply charb_spec in Hc. by apply negb_true_iff, Z.eqb_neq in Hn.
  - rewrite List.Forall_forall. intros c Hc. rewrite forallb_forall in Hg. specialize (Hg c Hc).
    apply andb_true_iff in Hg as [Hch Hn]. apply charb_spec in Hch. by apply negb_true_iff, Z.eqb_neq in Hn.
Qed.

(** What a value must be to print. *)
Definition value_ok (v : fmt_value) : Prop :=
  match v with
  | as_decimal nbr => - 0x8000000000000000 ≤ nbr < 0x8000000000000000
  | as_str s => ∃ t l, s = Some l ∧ cstr t l
  | as_chr c => u8 c ≠ 0
  end.

Lemma s64_range z : - 0x8000000000000000 ≤ s64 z < 0x8000000000000000.
Proof. word_lia. Qed.
Lemma fmtvald_ok z : value_ok (fmtvald z).
Proof. apply s64_range. Qed.

Lemma quot_range n d : 0 < d → - 0x8000000000000000 ≤ n < 0x8000000000000000 →
  - 0x8000000000000000 ≤ Z.quot n d < 0x8000000000000000.
Proof. intros Hd Hn. pose proof (Z.quot_le_upper_bound n d 0x7fffffffffffffff). nia || (Z.quot_rem_to_equations; nia). Qed.

Section returns.
Context {S : Type} (callback : charp → M S unit) (stack : list Z) (I : S → Prop).
Hypothesis Hstack : List.length stack = 32%nat.
Hypothesis Hcallback : ∀ t s st, cstr t s → I st → wp (callback (Some s)) (λ _, I) st.

Lemma print_decimal_returns mode nbr st :
  - 0x8000000000000000 ≤ nbr < 0x8000000000000000 → I st → wp (print_decimal callback stack mode nbr) (λ _, I) st.
Proof.
  intros Hn Hst. unfold print_decimal.
  assert (∃ base pad n u, decimal_mode mode nbr = (base, pad, n, u) ∧ (base = 10 ∨ base = 16) ∧ 0 ≤ pad ≤ 16 ∧
    - 0x8000000000000000 ≤ n < 0x8000000000000000 ∧ (0 <? s8 (default 0 (head u)) = true → ∃ t, cstr t u))
    as (base & pad & n & u & -> & Hb & Hpad & Hn' & Hu).
  { unfold decimal_mode.
    assert (∃ t, cstr t [71; 66; 0]) as HG by (exists [71; 66]; split; [repeat constructor|by exists []]).
    assert (∃ t, cstr t [77; 66; 0]) as HM by (exists [77; 66]; split; [repeat constructor|by exists []]).
    assert (∃ t, cstr t [75; 66; 0]) as HK by (exists [75; 66]; split; [repeat constructor|by exists []]).
    assert (∃ t, cstr t [66; 0; 0]) as HB by (exists [66]; split; [repeat constructor|by exists [0]]).
    repeat case_match; eexists _, _, _, _; (split; [reflexivity|]); split_and?; auto; try lia; try (by apply quot_range; lia); done. }
  destruct (itoa_string base n stack Hb Hn' Hstack) as (t & rest & Hi & Ht).
  pose proof (cstr_app t rest Ht) as Hs.
  rewrite (lift_bind _ _ _ Hi), (lift_bind _ _ _ (strlen_cstr _ _ Hs)).
  apply wp_bind. apply (wp_mono _ (λ _, I)).
  - intros _ st1 H1. apply wp_bind. apply (wp_mono _ (λ _, I)); [|by apply (Hcallback t)].
    intros _ st2 H2. unfold when. destruct (0 <? s8 (default 0 (head u))) eqn:Hh; [|done].
    destruct (Hu eq_refl) as [tu Htu]. by apply (Hcallback tu).
  - unfold when. destruct (Z.ltb_spec (Z.of_nat (List.length t)) pad); [|done].
    apply (Hcallback (replicate (Z.to_nat (pad - Z.of_nat (List.length t))) 48)); [|done]. split.
    + apply Forall_replicate. done.
    + exists (replicate (31 - Z.to_nat (pad - Z.of_nat (List.length t))) 0).
      f_equal. replace (32 - Z.to_nat (pad - Z.of_nat (List.length t)))%nat with
        (Datatypes.S (31 - Z.to_nat (pad - Z.of_nat (List.length t)))) by lia. done.
Qed.

Lemma render_returns gs args st :
  Forall segment_ok gs → Forall value_ok args → I st → wp (render callback stack gs args) (λ _, I) st.
Proof.
  intros Hgs. revert args st. induction Hgs as [|g gs Hg Hgs IH]; intros args st Hargs Hst; [done|].
  destruct g as [c|body]; cbn [render].
  - apply wp_bind. apply (wp_mono _ (λ _, I)); [intros _ st' H'; by apply IH|].
    apply (Hcallback [c]); [|done]. destruct Hg. split; [by constructor|by exists []].
  - destruct Hargs as [|v args Hv Hargs]; [by apply IH|].
    apply wp_bind. apply (wp_mono _ (λ _, I)); [intros _ st' H'; by apply IH|].
    destruct v as [n|s|c]; cbn [print_value value_ok] in *.
    + by apply print_decimal_returns.
    + destruct Hv as (t & l & -> & Hs). by apply (Hcallback t).
    + apply (Hcallback [u8 c]); [|done]. pose proof (u8_range c). split; [constructor; [unfold is_char; lia|done]|by exists []].
Qed.

(** Printing returns, and keeps what the callback keeps. *)
Lemma print_format_returns l args st :
  format_okb l = true → Forall value_ok args → I st →
  wp (PRINT_FORMAT callback stack (Some (l ++ [0])) args) (λ _, I) st.
Proof.
  intros [Hgs Hl]%format_okb_spec Hargs Hst. set (gs := parse l None) in *. rewrite <- Hl.
  pose proof (cstr_app _ [] (format_text_chars gs Hgs)) as Hs.
  unfold PRINT_FORMAT, wp. rewrite (lift_bind _ _ _ (strlen_cstr _ _ Hs)), Nat2Z.id.
  rewrite (print_loop_render callback stack (format_text gs) _ gs [] _ args 0 st Hs) by (done || lia).
  by apply render_returns.
Qed.
End returns.

(** C38. On every well-formed format, [PRINT_FORMAT] calls the
    callback, in order, with each literal character outside the holes and, for
    each hole, with what the next value prints in the mode of the hole (the last
    character before the brace); holes beyond the values print nothing, values
    beyond the holes are ignored. *)
Theorem print_format_render {S} (callback : charp → M S unit) stack gs rest args st :
  Forall segment_ok gs →
  PRINT_FORMAT callback stack (Some (format_text gs ++ 0 :: rest)) args st = render callback stack gs args st.
Proof.
  intros Hok. pose proof (cstr_app _ rest (format_text_chars gs Hok)) as Hs.
  unfold PRINT_FORMAT. rewrite (lift_bind _ _ _ (strlen_cstr _ _ Hs)). rewrite Nat2Z.id.
  by rewrite (print_loop_render callback stack (format_text gs) _ gs [] _ args 0 st Hs) by (done || lia).
Qed.

(** A callback that collects what it is passed, up to the terminator. *)
Definition collect (s : charp) : M (list (list Z)) unit :=
  lift (strlen s) ≫= λ n, modify (λ out, out ++ [take (Z.to_nat n) (default [] s)]).
(** C39. Whatever the values, of their C types and strings
    terminated, a well-formed format prints C strings only: [PRINT_FORMAT] returns
    and each string it passes to the callback is characters up to its
    terminator, none of them zero. *)
Theorem print_format_strings stack l args out :
  List.length stack = 32%nat → format_okb l = true → Forall value_ok args → Forall (Forall is_char) out →
  wp (PRINT_FORMAT collect stack (Some (l ++ [0])) args) (λ _, Forall (Forall is_char)) out.
Proof.
  intros Hst Hl Hargs Hout. apply print_format_returns; try done. intros t s st Ht Hs. unfold collect.
  rewrite (lift_bind _ _ _ (strlen_cstr _ _ Ht)), Nat2Z.id. destruct Ht as (Hch & rest & ->). cbv [wp modify]. change (default [] (Some (t ++ 0 :: rest))) with (t ++ 0 :: rest).
  apply Forall_app. split; [done|]. apply Forall_singleton. by rewrite take_app_length.
Qed.
(** "p{}@{x}{}" *)
Lemma print_format_strings_witness :
  wp (PRINT_FORMAT collect (replicate 32 0) (Some ([112; 123; 125; 64; 123; 120; 125; 123; 125] ++ [0])) [fmtvald (-1); fmtvald (2 ^ 63); fmtvals (Some [33; 0])])
    (λ _, Forall (Forall is_char)) [].
Proof.
  apply (print_format_strings (replicate 32 0)); [reflexivity|reflexivity| |constructor].
  repeat constructor; try apply fmtvald_ok. exists [33], [33; 0]. split; [reflexivity|]. split; [repeat constructor|by exists []].
Defined.
(** "pid {} at {x}" *)
Lemma print_format_render_witness :
  PRINT_FORMAT collect (replicate 32 0)
    (Some (format_text [Lit 112; Hole []; Lit 64; Hole [120]] ++ [0])) [fmtvald 7; fmtvald 255] [] =
  Ok (tt, [[112]; [55]; [64]; [102; 102]]).
Proof.
  rewrite (print_format_render collect (replicate 32 0) [Lit 112; Hole []; Lit 64; Hole [120]] []
    [fmtvald 7; fmtvald 255] []); [vm_compute; reflexivity|].
  repeat constructor; try lia; unfold is_char; try lia.
Defined.

(** A hole that is never closed makes the scanner
    step over the terminator: when the string ends its object, the formatter
    reads one byte beyond it. *)
Theorem fmt_unterminated_overread {S} (callback : charp → M S unit) stack body st :
  Forall (λ c, is_char c ∧ c ≠ 125) body →
  PRINT_FORMAT callback stack (Some (123 :: body ++ [0])) [] st = Err BadAccess.
Proof.
  intros Hb. set (t := 123 :: body).
  assert (Forall is_char t) as Hch.
  { apply Forall_cons; split; [unfold is_char; lia|]. eapply Forall_impl; [exact Hb|]. by intros c []. }
  assert (cstr t (123 :: body ++ [0])) as Hs by (by apply (cstr_app t [])).
  set (s := 123 :: body ++ [0]) in *.
  assert (∀ fuel i mode, (i ≤ List.length t)%nat → (List.length t - i < fuel)%nat →
    ∃ mode', scan_mode fuel (at_ t s i) mode = Ok (at_ t s (List.length t), mode')) as Hscan.
  { assert (∀ c, c ∈ t → c ≠ 125) as H125.
    { intros c [-> |Hc]%elem_of_cons; [done|]. rewrite Forall_forall in Hb. by destruct (Hb c Hc). }
    induction fuel as [|fuel IH]; intros i mode Hi Hf; [lia|]. cbn [scan_mode].
    destruct (decide (i = List.length t)) as [->|Hne].
    - rewrite current_end by lia. cbn [mbind res_bind]. by eexists.
    - destruct (lookup_lt_is_Some_2 t i) as [c Hc]; [lia|]. rewrite (current_at t s Hs i c Hc). cbn [mbind res_bind].
      pose proof (Forall_lookup_1 _ _ _ _ Hch Hc) as Hcc. pose proof (s8_zero c Hcc) as H0.
      assert (s8 c ≠ 125) as H1.
      { pose proof (H125 c (list_elem_of_lookup_2 _ _ _ Hc)). unfold is_char in Hcc. word_lia. }
      rewrite (proj2 (Z.eqb_neq _ _) H1), (proj2 (Z.eqb_neq _ _) H0). cbn [negb andb].
      destruct (next_at t s Hs i) as [c' ->]; [lia|]. cbn [mbind res_bind].
      destruct (decide (Datatypes.S i = List.length t)) as [He|He].
      + rewrite He, current_end by lia. cbn [mbind res_bind]. apply IH; lia.
      + destruct (lookup_lt_is_Some_2 t (Datatypes.S i)) as [d Hd]; [lia|].
        rewrite (current_at t s Hs _ d Hd). cbn [mbind res_bind]. apply IH; lia. }
  unfold PRINT_FORMAT. rewrite (lift_bind _ _ _ (strlen_cstr _ _ Hs)), Nat2Z.id. fold (at_ t s 0).
  cbn [print_loop]. change (mk_scanner _ _ 0) with (at_ t s 0).
  rewrite (lift_bind _ (s8 123)) by by apply current_at. change (s8 123) with 123. cbn [Z.eqb Pos.eqb negb].
  destruct (Hscan (Datatypes.S (Z.to_nat (sc_size (at_ t s 0)))) 0%nat 0) as [mode' Hm];
    [lia|cbn [at_ sc_size]; lia|].
  rewrite (lift_bind _ _ _ Hm). cbn beta iota.
  match goal with |- context [match ?x with Some _ => _ | None => _ end] => change x with (@None fmt_value) end.
  unfold mbind, M_bind. cbn [mret M_ret]. unfold lift at 1.
  assert (fmt_scanner_next (at_ t s (List.length t)) = Err BadAccess) as ->; [|done].
  unfold fmt_scanner_next, at_. cbn [sc_offset sc_format]. rewrite deref_oob; [done|].
  subst s t. cbn [List.length]. rewrite length_app. cbn [List.length]. lia.
Qed.

Lemma fmt_unterminated_overread_witness :
  PRINT_FORMAT collect (replicate 32 0) (Some [123; 120; 0]) [] [] = Err BadAccess.
Proof. apply (fmt_unterminated_overread collect (replicate 32 0) [120]). repeat constructor; lia. Defined.
