(* ===== verification/Services.v ===== *)
(** What the scheduler, the system calls and the ELF loader ask of the memory
    subsystem below them: the heap (kernel/kmalloc.h), the frame and page-table
    operations behind arch/arch.h, and the processor's memory.

    [K] is the state of that subsystem.  Objects the kernel only reaches through
    their C type (processes, vectors) are kept in typed maps by their address;
    this interface supplies the addresses. *)
From S2P Require Import Prelude Machine Range.

Class KernelServices (K : Type) : Type := {
  ks_hw : K → hw;
  ks_set_hw : hw → K → K;
  (** [kmalloc], [krealloc], [kfree]; NULL is 0 *)
  ks_malloc : Z → M K Z;
  ks_realloc : Z → Z → M K Z;
  ks_free : Z → M K unit;
  (** [pmm_alloc], [pmm_free] *)
  ks_pmm_alloc : Z → M K range_t;
  ks_pmm_free : range_t → M K unit;
  (** [arch_vmm_map], [arch_create_space], [arch_space_destroy] *)
  ks_vmm_map : Z → range_t → range_t → bool → M K unit;
  ks_space_create : M K Z;
  ks_space_destroy : Z → M K unit
}.

(** The services are lawful when they give back the processor state they are
    given and a successful [krealloc] returns a pointer. *)
Class KernelServicesLaws (K : Type) `{KernelServices K} : Type := {
  ks_get_set h k : ks_hw (ks_set_hw h k) = h;
  ks_set_get k : ks_set_hw (ks_hw k) k = k;
  ks_set_set h h' k : ks_set_hw h (ks_set_hw h' k) = ks_set_hw h k
}.

Definition ks_mem {K} `{KernelServices K} (k : K) : memory := hw_mem (ks_hw k).
Definition ks_set_mem {K} `{KernelServices K} (f : memory → memory) (k : K) : K :=
  ks_set_hw (hw_set_mem f (ks_hw k)) k.

(** [kcalloc] of kernel/kmalloc.c: the result of [liballoc_malloc] is zeroed
    without a test, so NULL is dereferenced. *)
Definition kcalloc {K} `{KernelServices K} (count : Z) : M K Z :=
  ks_malloc count ≫= λ ptr,
  (if ptr =? 0 then if truth count then fail BadAccess else mret tt
   else modify (ks_set_mem (memset ptr 0 count))) ≫= λ _,
  mret ptr.

(** ** A concrete implementation

    Blocks and frames handed out one after the other and never reused; mapping
    is not recorded.  The theorems above the interface apply to it as they do to
    the kernel's own heap. *)
Record bump : Type := mk_bump { bp_hw : hw; bp_next : Z }.

Definition bump_take (n : Z) : M bump Z := λ k, Ok (bp_next k, mk_bump (bp_hw k) (bp_next k + n)).
#[export] Instance bump_services : KernelServices bump := {
  ks_hw := bp_hw;
  ks_set_hw := λ h k, mk_bump h (bp_next k);
  ks_malloc := bump_take;
  ks_realloc := λ _ n, bump_take n;
  ks_free := λ _, mret tt;
  ks_pmm_alloc := λ n, bump_take n ≫= λ b, mret (mk_range b n);
  ks_pmm_free := λ _, mret tt;
  ks_vmm_map := λ _ _ _ _, mret tt;
  ks_space_create := bump_take 4096;
  ks_space_destroy := λ _, mret tt
}.
#[export] Instance bump_laws : KernelServicesLaws bump.
Proof. split; [done|by intros []|done]. Qed.

Definition sample_bump : bump := mk_bump (mk_hw (λ _, 0) true 0x1000 []) 0x10000.
