(* ===== verification/Vec.v ===== *)
(** libs/navy/vec.c and vec.h: growable arrays.

    [v_cells] is what the array at [v_ptr] holds; a cell that was never written
    is not in the list. *)
From S2P Require Import Prelude.

Record vec (T : Type) : Type := mk_vec {
  v_ptr : Z;
  v_cells : list T;
  v_length : Z;
  v_capacity : Z;
  v_iter : Z
}.
Arguments mk_vec {T}.
Arguments v_ptr {T}.
Arguments v_cells {T}.
Arguments v_length {T}.
Arguments v_capacity {T}.
Arguments v_iter {T}.

(** [vec_init]: all zero. *)
Definition vec_init {T} : vec T := mk_vec 0 [] 0 0 0.

(** [v->data[i]] *)
Definition vec_at {T} (v : vec T) (i : Z) : res T :=
  if i <? 0 then Err BadAccess
  else match v_cells v !! Z.to_nat i with Some x => Ok x | None => Err BadAccess end.

(** [v->data[i] = val], [i] being inside the array or one past the written cells. *)
Definition vec_store {T} (v : vec T) (i : Z) (val : T) : res (vec T) :=
  if (0 <=? i) && (i <? v_capacity v) && (i <=? Z.of_nat (length (v_cells v))) then
    Ok (mk_vec (v_ptr v) (take (Z.to_nat i) (v_cells v) ++ val :: drop (S (Z.to_nat i)) (v_cells v))
          (v_length v) (v_capacity v) (v_iter v))
  else Err BadAccess.

Section vec.
Context {K T : Type} (realloc : Z → Z → M K Z) (memsz : Z).

Definition vec_expand_ (v : vec T) : M K (vec T) :=
  if v_capacity v <? u64 (v_length v + 1) then
    let n := if v_capacity v =? 0 then 1 else u64 (Z.shiftl (v_capacity v) 1) in
    realloc (v_ptr v) (u64 (n * memsz)) ≫= λ ptr,
    assert_ (truth ptr) ≫= λ _,
    mret (mk_vec ptr (v_cells v) (v_length v) n (v_iter v))
  else mret v.

Definition vec_push (v : vec T) (val : T) : M K (vec T) :=
  vec_expand_ v ≫= λ v,
  lift (vec_store v (v_length v) val) ≫= λ v,
  mret (mk_vec (v_ptr v) (v_cells v) (u64 (v_length v + 1)) (v_capacity v) (v_iter v)).
End vec.

(** [vec_pop]: the value of [data[--length]]; nothing is tested. *)
Definition vec_pop {T} (v : vec T) : res (T * vec T) :=
  let length := u64 (v_length v - 1) in
  x ← vec_at (mk_vec (v_ptr v) (v_cells v) length (v_capacity v) (v_iter v)) length;
  Ok (x, mk_vec (v_ptr v) (v_cells v) length (v_capacity v) (v_iter v)).

(** [vec_free]: what is passed to [free]; the vector itself is unchanged. *)
Definition vec_free {T} (v : vec T) : Z := v_ptr v.

(** [vec_foreach]: run [body] on each element in order, the position in [iter]. *)
Fixpoint vec_foreach_loop {K T} (k : nat) (v : vec T) (body : T → M K unit) : M K (vec T) :=
  match k with
  | O => fail OutOfFuel
  | S k =>
      if v_iter v <? v_length v then
        lift (vec_at v (v_iter v)) ≫= λ t,
        body t ≫= λ _,
        vec_foreach_loop k (mk_vec (v_ptr v) (v_cells v) (v_length v) (v_capacity v) (v_iter v + 1)) body
      else mret v
  end.
Definition vec_foreach {K T} (v : vec T) (body : T → M K unit) : M K (vec T) :=
  if 0 <? v_length v then
    vec_foreach_loop (S (Z.to_nat (v_length v)))
      (mk_vec (v_ptr v) (v_cells v) (v_length v) (v_capacity v) 0) body
  else mret v.

(** ** A vector as a list *)

Record vec_ok {T} (v : vec T) : Prop := {
  vk_length : 0 ≤ v_length v ≤ Z.of_nat (length (v_cells v));
  vk_capacity : Z.of_nat (length (v_cells v)) ≤ v_capacity v;
  vk_pow2 : v_capacity v = 0 ∨ ∃ k, 0 ≤ k < 62 ∧ v_capacity v = 2 ^ k;
  vk_ptr : v_capacity v ≠ 0 → v_ptr v ≠ 0
}.
(** The elements of a vector. *)
Definition vec_list {T} (v : vec T) : list T := take (Z.to_nat (v_length v)) (v_cells v).

Lemma vec_init_ok {T} : vec_ok (@vec_init T).
Proof. split; cbn; try lia; by left. Qed.

Lemma vec_list_length {T} (v : vec T) : vec_ok v → Z.of_nat (length (vec_list v)) = v_length v.
Proof. intros []. unfold vec_list. rewrite length_take. lia. Qed.

Lemma vec_capacity_bound {T} (v : vec T) : vec_ok v → 0 ≤ v_capacity v < 0x4000000000000000.
Proof.
  intros [_ _ [->|(k & Hk & ->)] _]; [lia|]. split; [apply Z.pow_nonneg; lia|].
  change 0x4000000000000000 with (2 ^ 62). apply Z.pow_lt_mono_r; lia.
Qed.

Lemma vec_at_list {T} (v : vec T) (i : nat) x :
  vec_list v !! i = Some x → vec_at v (Z.of_nat i) = Ok x.
Proof.
  intros Hx. unfold vec_list in Hx. apply lookup_take_Some in Hx as [Hx _]. unfold vec_at.
  rewrite (proj2 (Z.ltb_ge _ _)) by lia. by rewrite Nat2Z.id, Hx.
Qed.

Lemma vec_at_oob {T} (v : vec T) i : Z.of_nat (length (v_cells v)) ≤ i → vec_at v i = Err BadAccess.
Proof.
  intros Hi. unfold vec_at. destruct (i <? 0); [done|].
  rewrite (lookup_ge_None_2 (v_cells v) (Z.to_nat i)) by lia. done.
Qed.

(** Room for one more: doubling, unless there is room already. *)
Lemma vec_expand_spec {K T} (realloc : Z → Z → M K Z) memsz (v : vec T) k ptr k' :
  vec_ok v → v_length v < 2 ^ 60 →
  (v_length v = v_capacity v →
   realloc (v_ptr v) (u64 ((if v_capacity v =? 0 then 1 else 2 * v_capacity v) * memsz)) k = Ok (ptr, k') ∧ ptr ≠ 0) →
  ∃ v1, vec_expand_ realloc memsz v k = Ok (v1, if decide (v_length v = v_capacity v) then k' else k) ∧
    vec_ok v1 ∧ v_cells v1 = v_cells v ∧ v_length v1 = v_length v ∧ v_length v < v_capacity v1.
Proof.
  intros Hv Hlen Hre. pose proof (vec_capacity_bound v Hv). pose proof Hv as [Hl Hc Hp Hptr].
  change (2 ^ 60) with 0x1000000000000000 in Hlen.
  unfold vec_expand_. rewrite u64_small by lia. case_decide as Hd.
  - destruct (Hre Hd) as [Hrun Hne]. rewrite (proj2 (Z.ltb_lt _ _)) by lia.
    set (n := if v_capacity v =? 0 then 1 else 2 * v_capacity v) in *.
    assert ((if v_capacity v =? 0 then 1 else u64 (Z.shiftl (v_capacity v) 1)) = n) as ->.
    { subst n. destruct (v_capacity v =? 0); [done|]. rewrite Z.shiftl_mul_pow2, u64_small by lia. lia. }
    assert ((n = 1 ∨ ∃ j, 0 ≤ j < 62 ∧ n = 2 ^ j) ∧ v_length v < n) as [Hn Hlt].
    { subst n. destruct (Z.eqb_spec (v_capacity v) 0) as [H0|H0]; [split; [by left|lia]|].
      split; [|lia]. right. destruct Hp as [?|(j & Hj & Hcj)]; [done|].
      assert (j < 60) by (apply (Z.pow_lt_mono_r_iff 2); [lia..|]; change (2 ^ 60) with 0x1000000000000000; lia).
      exists (Z.succ j). split; [lia|]. rewrite Z.pow_succ_r by lia. lia. }
    exists (mk_vec ptr (v_cells v) (v_length v) n (v_iter v)).
    rewrite (bind_eq _ _ _ _ _ Hrun). rewrite (bind_eq _ _ _ tt k')
      by (apply assert_Ok; split; [unfold truth; by rewrite (proj2 (Z.eqb_neq ptr 0) Hne)|done]).
    split_and!; [done| |done|done|cbn; lia].
    split; cbn; [lia|lia| |done]. right. destruct Hn as [->|?]; [by exists 0|done].
  - rewrite (proj2 (Z.ltb_ge _ _)) by lia. exists v. split_and!; try done; lia.
Qed.

(** A push with room, or with memory for more. *)
Lemma push_spec {K T} (realloc : Z → Z → M K Z) memsz (v : vec T) (x : T) k ptr k' :
  vec_ok v → v_length v < 2 ^ 60 →
  (v_length v = v_capacity v →
   realloc (v_ptr v) (u64 ((if v_capacity v =? 0 then 1 else 2 * v_capacity v) * memsz)) k = Ok (ptr, k') ∧ ptr ≠ 0) →
  ∃ v', vec_push realloc memsz v x k = Ok (v', if decide (v_length v = v_capacity v) then k' else k) ∧
    vec_ok v' ∧ vec_list v' = vec_list v ++ [x] ∧ v_length v' = v_length v + 1.
Proof.
  intros Hv Hlen Hre. pose proof (vec_capacity_bound v Hv). pose proof Hv as [Hl Hc Hp Hptr].
  destruct (vec_expand_spec realloc memsz v k ptr k' Hv Hlen Hre) as (v1 & Hrun & Hv1 & Hcells & Hlen1 & Hlt).
  change (2 ^ 60) with 0x1000000000000000 in Hlen.
  pose proof (vec_capacity_bound v1 Hv1). destruct Hv1 as [Hl1 Hc1 Hp1 Hptr1].
  rewrite Hcells in Hl1, Hc1.
  unfold vec_push. rewrite (bind_eq _ _ _ _ _ Hrun). unfold vec_store.
  rewrite Hlen1, Hcells, (proj2 (Z.leb_le 0 _)), (proj2 (Z.ltb_lt _ _)), (proj2 (Z.leb_le _ _)) by lia.
  cbn [andb]. eexists. split; [by unfold mbind, M_bind|].
  cbn [v_ptr v_cells v_length v_capacity v_iter]. split; [split|]; cbn [v_cells v_length v_capacity v_ptr]; try done.
  - rewrite u64_small by lia. rewrite length_app, length_take. cbn. rewrite length_drop. lia.
  - rewrite length_app, length_take. cbn. rewrite length_drop. lia.
  - unfold vec_list. cbn [v_cells v_length]. rewrite u64_small by lia. split; [|done].
    replace (Z.to_nat (v_length v + 1)) with (S (Z.to_nat (v_length v))) by lia.
    rewrite take_app, take_take, length_take. rewrite Nat.min_r, Nat.min_l by lia.
    replace (S (Z.to_nat (v_length v)) - Z.to_nat (v_length v))%nat with 1%nat by lia. done.
Qed.

(** Where the array is after a push, and how large. *)
Definition doubled (c : Z) : Z := if c =? 0 then 1 else 2 * c.
Lemma push_array {K T} (realloc : Z → Z → M K Z) memsz (v : vec T) (x : T) k v' k' :
  vec_ok v → v_length v < 2 ^ 60 → vec_push realloc memsz v x k = Ok (v', k') →
  if decide (v_length v = v_capacity v) then
    realloc (v_ptr v) (u64 (doubled (v_capacity v) * memsz)) k = Ok (v_ptr v', k') ∧ v_ptr v' ≠ 0 ∧ v_capacity v' = doubled (v_capacity v)
  else k' = k ∧ v_ptr v' = v_ptr v ∧ v_capacity v' = v_capacity v.
Proof.
  intros Hv Hlen Hrun. pose proof (vec_capacity_bound v Hv). pose proof Hv as [Hl Hc _ _]. change (2 ^ 60) with 0x1000000000000000 in Hlen.
  unfold vec_push, vec_expand_, vec_store in Hrun. rewrite u64_small in Hrun by lia.
  assert ((if v_capacity v =? 0 then 1 else u64 (Z.shiftl (v_capacity v) 1)) = doubled (v_capacity v)) as Hn.
  { unfold doubled. destruct (v_capacity v =? 0); [done|]. rewrite Z.shiftl_mul_pow2, u64_small by lia. lia. }
  rewrite Hn in Hrun. case_decide as Hd.
  - rewrite (proj2 (Z.ltb_lt _ _)) in Hrun by lia. unfold mbind, M_bind in Hrun.
    destruct (realloc _ _ k) as [[ptr k1]|e] eqn:Hre; [|done]. unfold assert_, truth in Hrun.
    destruct (Z.eqb_spec ptr 0); [done|]. cbn [negb mret M_ret v_length v_capacity v_cells v_ptr v_iter] in Hrun.
    unfold lift in Hrun. destruct (_ && _); [|done]. injection Hrun as <- <-. done.
  - rewrite (proj2 (Z.ltb_ge _ _)) in Hrun by lia. unfold mbind, M_bind, lift in Hrun. cbn [mret M_ret] in Hrun.
    destruct (_ && _); [|done]. injection Hrun as <- <-. done.
Qed.

(** A push whose reallocation stops. *)
Lemma push_fails {K T} (realloc : Z → Z → M K Z) memsz (v : vec T) (x : T) k e :
  vec_ok v → v_length v < 2 ^ 60 → v_length v = v_capacity v →
  realloc (v_ptr v) (u64 ((if v_capacity v =? 0 then 1 else 2 * v_capacity v) * memsz)) k = Err e →
  vec_push realloc memsz v x k = Err e.
Proof.
  intros Hv Hlen Hd Hre. pose proof (vec_capacity_bound v Hv). pose proof Hv as [Hl Hc _ _].
  unfold vec_push, vec_expand_. change (2 ^ 60) with 0x1000000000000000 in Hlen.
  rewrite u64_small, (proj2 (Z.ltb_lt _ _)) by lia.
  assert ((if v_capacity v =? 0 then 1 else u64 (Z.shiftl (v_capacity v) 1)) =
          (if v_capacity v =? 0 then 1 else 2 * v_capacity v)) as ->.
  { destruct (v_capacity v =? 0); [done|]. rewrite Z.shiftl_mul_pow2, u64_small by lia. lia. }
  apply bind_Err. by apply bind_Err.
Qed.

(** [vec_push] appends: the array doubles exactly when it is
    full (from 1), elements keep their place, and the invariant (length within
    the written cells, written cells within a capacity that is a power of two)
    is preserved; when the reallocation fails the assertion fails. *)
Theorem vec_push_appends {K T} (realloc : Z → Z → M K Z) memsz (v : vec T) (x : T) k ptr k' :
  vec_ok v → v_length v < 2 ^ 60 →
  let grow := bool_decide (v_length v = v_capacity v) in
  let request := u64 ((if v_capacity v =? 0 then 1 else 2 * v_capacity v) * memsz) in
  (v_length v = v_capacity v → realloc (v_ptr v) request k = Ok (ptr, k')) →
  if grow && (ptr =? 0) then vec_push realloc memsz v x k = Err AssertFailed
  else ∃ v', vec_push realloc memsz v x k = Ok (v', if grow then k' else k) ∧
    vec_ok v' ∧ vec_list v' = vec_list v ++ [x] ∧ v_length v' = v_length v + 1.
Proof.
  intros Hv Hlen grow request Hre. pose proof (vec_capacity_bound v Hv). pose proof Hv as [Hl Hc Hp Hptr].
  subst grow. destruct (bool_decide (v_length v = v_capacity v) && (ptr =? 0)) eqn:Hcase.
  - apply andb_true_iff in Hcase as [Hd%bool_decide_eq_true ->%Z.eqb_eq].
    unfold vec_push, vec_expand_. change (2 ^ 60) with 0x1000000000000000 in Hlen.
    rewrite u64_small, (proj2 (Z.ltb_lt _ _)) by lia.
    assert ((if v_capacity v =? 0 then 1 else u64 (Z.shiftl (v_capacity v) 1)) =
            (if v_capacity v =? 0 then 1 else 2 * v_capacity v)) as ->.
    { destruct (v_capacity v =? 0); [done|]. rewrite Z.shiftl_mul_pow2, u64_small by lia. lia. }
    apply bind_Err. by rewrite (bind_eq _ _ _ _ _ (Hre Hd)).
  - destruct (push_spec realloc memsz v x k ptr k' Hv Hlen) as (v' & Hrun & ?).
    { intros Hd. split; [by apply Hre|]. rewrite bool_decide_true in Hcase by done. by apply Z.eqb_neq in Hcase. }
    exists v'. rewrite Hrun. split; [|done]. by repeat case_decide; repeat case_bool_decide.
Qed.

Lemma vec_push_appends_witness :
  ∃ v', vec_push (λ _ n k, Ok (0x1000, k)) 8 (@vec_init Z) 7 tt = Ok (v', tt) ∧ vec_list v' = [7].
Proof.
  destruct (vec_push_appends (λ _ n (k : unit), Ok (0x1000, k)) 8 (@vec_init Z) 7 tt 0x1000 tt)
    as (v' & Hrun & _ & Hlist & _); [apply vec_init_ok|done|done|].
  exists v'. split; [exact Hrun|exact Hlist].
Defined.

(** A pop of a vector that is not empty. *)
Lemma pop_spec {T} (v : vec T) l x :
  vec_ok v → vec_list v = l ++ [x] →
  ∃ v', vec_pop v = Ok (x, v') ∧ vec_ok v' ∧ vec_list v' = l.
Proof.
  intros Hv Hl'. pose proof (vec_capacity_bound v Hv). pose proof Hv as [Hl Hc Hp Hptr].
  pose proof (vec_list_length v Hv) as Hlen. unfold vec_pop. rewrite Hl', length_app in Hlen. cbn in Hlen.
  rewrite u64_small by lia. replace (v_length v - 1) with (Z.of_nat (length l)) by lia.
  assert (v_cells v !! length l = Some x) as Hx.
  { assert (vec_list v !! length l = Some x) as H1 by (rewrite Hl'; by rewrite lookup_app_r, Nat.sub_diag).
    unfold vec_list in H1. by apply lookup_take_Some in H1 as [? _]. }
  unfold vec_at. cbn [v_cells]. rewrite (proj2 (Z.ltb_ge _ 0)), Nat2Z.id, Hx by lia. cbn [mbind res_bind].
  eexists. split; [done|]. split; [split; cbn; auto; lia|].
  unfold vec_list at 1. cbn [v_cells v_length]. rewrite Nat2Z.id.
  transitivity (take (length l) (vec_list v)); [|rewrite Hl'; by rewrite take_app_length].
  unfold vec_list. rewrite take_take. f_equal. lia.
Qed.

(** [vec_pop] removes and returns the last element, so pushes and
    pops are last-in first-out; on an empty vector nothing stops it and it reads
    far outside the array. *)
Theorem vec_pop_last {T} (v : vec T) :
  vec_ok v →
  match last (vec_list v) with
  | Some x => ∃ v' l, vec_pop v = Ok (x, v') ∧ vec_ok v' ∧ vec_list v = l ++ [x] ∧ vec_list v' = l
  | None => vec_pop v = Err BadAccess
  end.
Proof.
  intros Hv. destruct (last (vec_list v)) as [x|] eqn:Hlast.
  - apply last_Some in Hlast as [l Hl']. destruct (pop_spec v l x Hv Hl') as (v' & ? & ? & ?). by exists v', l.
  - pose proof (vec_capacity_bound v Hv). pose proof Hv as [_ Hc _ _]. pose proof (vec_list_length v Hv) as Hlen.
    apply last_None in Hlast. rewrite Hlast in Hlen. cbn in Hlen. unfold vec_pop. rewrite <- Hlen.
    change (Z.of_nat 0) with 0. change (u64 (0 - 1)) with 0xffffffffffffffff. rewrite vec_at_oob; [done|]. cbn [v_cells]. lia.
Qed.

Lemma vec_pop_last_witness :
  vec_pop (mk_vec 0x1000 [3; 5] 2 2 0) = Ok (5, mk_vec 0x1000 [3; 5] 1 2 0) ∧
  vec_pop (@vec_init Z) = Err BadAccess.
Proof.
  split.
  - destruct (vec_pop_last (mk_vec 0x1000 [3; 5] 2 2 0)) as (v' & l & Hrun & _); [|rewrite Hrun].
    + split; cbn; try lia. right. exists 1. done.
    + rewrite <- Hrun. reflexivity.
  - apply (vec_pop_last (@vec_init Z)), vec_init_ok.
Defined.
