(* ===== verification/Sched.v ===== *)
(** kernel/sched.c and sched.h, with the context switch of arch/x86_64/arch.c:
    the table of processes and the round-robin scheduler.

    A process is found by the address [kcalloc] gave it; [registers_t] (struct
    interrupt_stackframe of arch/x86_64/interrupt.h) maps each of its fields. *)
From S2P Require Import Prelude Machine Range FrameAllocator Services Vec.

Inductive reg : Type :=
| r15 | r14 | r13 | r12 | r11 | r10 | r9 | r8 | rbp | rdi | rsi | rdx | rcx | rbx | rax
| intno | err | rip | cs | rflags | rsp | ss.
#[export] Instance reg_eq_dec : EqDecision reg.
Proof. solve_decision. Defined.

Definition registers_t : Type := reg → Z.
Definition zero_regs : registers_t := λ _, 0.
Definition set_reg (r : reg) (v : Z) (m : registers_t) : registers_t :=
  λ r', if decide (r' = r) then v else m r'.

Inductive TASK_STATE : Type := TASK_RUNNING | TASK_IDLE | TASK_WAITINGFORDEATH | TASK_DEAD.
#[export] Instance task_state_eq_dec : EqDecision TASK_STATE.
Proof. solve_decision. Defined.

(** [ipc_t] of libs/navy/ipc.h. *)
Record ipc_t : Type := mk_ipc { sender : Z; receiver : Z; data : Z }.

Record process : Type := mk_process {
  syscall_kernel_stack : Z;
  syscall_user_stack : Z;
  syscall_kernel_bstack : Z;
  stack : range_t;
  regs : registers_t;
  pid : Z;
  pml : Z;
  state : TASK_STATE;
  return_value : Z;
  mailbox : vec ipc_t
}.
(** [sizeof(process_t)]: 3 pointers, a range, 22 registers, pid, pml, two
    32-bit fields and a vector header. *)
Definition SIZEOF_PROCESS : Z := 3 * 8 + 16 + 22 * 8 + 8 + 8 + 4 + 4 + 32.
(** What [kcalloc] makes of one: [TASK_RUNNING] is 0. *)
Definition zero_process : process :=
  mk_process 0 0 0 (mk_range 0 0) zero_regs 0 0 TASK_RUNNING 0 vec_init.

Definition p_set_regs (r : registers_t) (p : process) : process :=
  mk_process (syscall_kernel_stack p) (syscall_user_stack p) (syscall_kernel_bstack p) (stack p) r
    (pid p) (pml p) (state p) (return_value p) (mailbox p).
Definition p_set_pid (i : Z) (p : process) : process :=
  mk_process (syscall_kernel_stack p) (syscall_user_stack p) (syscall_kernel_bstack p) (stack p) (regs p)
    i (pml p) (state p) (return_value p) (mailbox p).
Definition p_set_pml (a : Z) (p : process) : process :=
  mk_process (syscall_kernel_stack p) (syscall_user_stack p) (syscall_kernel_bstack p) (stack p) (regs p)
    (pid p) a (state p) (return_value p) (mailbox p).
Definition p_set_state (t : TASK_STATE) (p : process) : process :=
  mk_process (syscall_kernel_stack p) (syscall_user_stack p) (syscall_kernel_bstack p) (stack p) (regs p)
    (pid p) (pml p) t (return_value p) (mailbox p).
Definition p_set_return (v : Z) (p : process) : process :=
  mk_process (syscall_kernel_stack p) (syscall_user_stack p) (syscall_kernel_bstack p) (stack p) (regs p)
    (pid p) (pml p) (state p) v (mailbox p).
Definition p_set_mailbox (m : vec ipc_t) (p : process) : process :=
  mk_process (syscall_kernel_stack p) (syscall_user_stack p) (syscall_kernel_bstack p) (stack p) (regs p)
    (pid p) (pml p) (state p) (return_value p) m.
Definition p_set_stack (r : range_t) (p : process) : process :=
  mk_process (syscall_kernel_stack p) (syscall_user_stack p) (syscall_kernel_bstack p) r (regs p)
    (pid p) (pml p) (state p) (return_value p) (mailbox p).
Definition p_set_kstack (b top : Z) (p : process) : process :=
  mk_process top (syscall_user_stack p) b (stack p) (regs p)
    (pid p) (pml p) (state p) (return_value p) (mailbox p).

Definition SWITCH_TICK : Z := 9.
Definition KERNEL_STACK_SIZE : Z := 16384.
Definition USER_STACK_BASE : Z := 0xc0000000.
Definition MSR_GS_BASE : Z := 0xC0000101.
Definition MSR_KERN_GS_BASE : Z := 0xc0000102.

Record sched_state (K : Type) : Type := mk_sched {
  sc_k : K;                      (** the memory subsystem *)
  procs : gmap Z process;        (** the process objects *)
  processes : vec Z;             (** [vec_process_t processes] *)
  tick : Z;
  sched_lock : Z;                (** [lock] *)
  usertask_lock : Z;
  current_pid : Z;
  last_pid : Z;
  sched_is_init : bool;
  is_scheduler : bool;           (** of arch/x86_64/interrupt.c *)
  msr : gmap Z Z                 (** model-specific registers *)
}.
Arguments mk_sched {K}.
Arguments sc_k {K}.
Arguments procs {K}.
Arguments processes {K}.
Arguments tick {K}.
Arguments sched_lock {K}.
Arguments usertask_lock {K}.
Arguments current_pid {K}.
Arguments last_pid {K}.
Arguments sched_is_init {K}.
Arguments is_scheduler {K}.
Arguments msr {K}.

Section sched.
Context {K : Type} `{KernelServices K}.
Implicit Types s : sched_state K.

Definition set_k (k : K) s := mk_sched k (procs s) (processes s) (tick s) (sched_lock s) (usertask_lock s)
  (current_pid s) (last_pid s) (sched_is_init s) (is_scheduler s) (msr s).
Definition set_procs (m : gmap Z process) s := mk_sched (sc_k s) m (processes s) (tick s) (sched_lock s)
  (usertask_lock s) (current_pid s) (last_pid s) (sched_is_init s) (is_scheduler s) (msr s).
Definition set_processes (v : vec Z) s := mk_sched (sc_k s) (procs s) v (tick s) (sched_lock s)
  (usertask_lock s) (current_pid s) (last_pid s) (sched_is_init s) (is_scheduler s) (msr s).
Definition set_tick (t : Z) s := mk_sched (sc_k s) (procs s) (processes s) t (sched_lock s)
  (usertask_lock s) (current_pid s) (last_pid s) (sched_is_init s) (is_scheduler s) (msr s).
Definition set_sched_lock (l : Z) s := mk_sched (sc_k s) (procs s) (processes s) (tick s) l
  (usertask_lock s) (current_pid s) (last_pid s) (sched_is_init s) (is_scheduler s) (msr s).
Definition set_usertask_lock (l : Z) s := mk_sched (sc_k s) (procs s) (processes s) (tick s) (sched_lock s)
  l (current_pid s) (last_pid s) (sched_is_init s) (is_scheduler s) (msr s).
Definition set_current (c : Z) s := mk_sched (sc_k s) (procs s) (processes s) (tick s) (sched_lock s)
  (usertask_lock s) c (last_pid s) (sched_is_init s) (is_scheduler s) (msr s).
Definition set_last_pid (c : Z) s := mk_sched (sc_k s) (procs s) (processes s) (tick s) (sched_lock s)
  (usertask_lock s) (current_pid s) c (sched_is_init s) (is_scheduler s) (msr s).
Definition set_flags (i e : bool) s := mk_sched (sc_k s) (procs s) (processes s) (tick s) (sched_lock s)
  (usertask_lock s) (current_pid s) (last_pid s) i e (msr s).
Definition set_msr (m : gmap Z Z) s := mk_sched (sc_k s) (procs s) (processes s) (tick s) (sched_lock s)
  (usertask_lock s) (current_pid s) (last_pid s) (sched_is_init s) (is_scheduler s) m.

Definition on_k {A} (m : M K A) : M (sched_state K) A := zoom sc_k set_k m.
Definition sc_hw s : hw := ks_hw (sc_k s).
Definition on_cpu (f : hw → hw) : M (sched_state K) unit :=
  modify (λ s, set_k (ks_set_hw (f (sc_hw s)) (sc_k s)) s).

(** [arch_acquire] and [arch_release] on a lock word of this component. *)
Definition acquire (get : sched_state K → Z) (set : Z → sched_state K → sched_state K) : M (sched_state K) unit := λ s,
  match arch_acquire (get s) (sc_hw s) with
  | Ok (l, h) => Ok (tt, set l (set_k (ks_set_hw h (sc_k s)) s))
  | Err e => Err e
  end.
Definition release (set : Z → sched_state K → sched_state K) : M (sched_state K) unit := modify (λ s,
  let '(l, h) := arch_release (sc_hw s) in set l (set_k (ks_set_hw h (sc_k s)) s)).

(** [*p] and [*p = v] on a process object. *)
Definition get_process (p : Z) : M (sched_state K) process := λ s,
  match procs s !! p with Some x => Ok (x, s) | None => Err BadAccess end.
Definition upd_process (p : Z) (f : process → process) : M (sched_state K) unit := λ s,
  match procs s !! p with
  | Some x => Ok (tt, set_procs (<[p := f x]> (procs s)) s)
  | None => Err BadAccess
  end.
(** [processes.data[i]] *)
Definition process_at (i : Z) : M (sched_state K) Z := λ s,
  match vec_at (processes s) i with Ok p => Ok (p, s) | Err e => Err e end.

Definition asm_write_msr (r value : Z) : M (sched_state K) unit := modify (λ s,
  let low := Z.land value 0xFFFFFFFF in
  let high := Z.shiftr value 32 in
  set_msr (<[r := Z.lor (Z.shiftl high 32) low]> (msr s)) s).

Definition arch_context_save (ctx : Z) (r : registers_t) : M (sched_state K) unit :=
  upd_process ctx (p_set_regs r).
Definition arch_context_switch (ctx : Z) : M (sched_state K) registers_t :=
  asm_write_msr MSR_GS_BASE ctx ≫= λ _,
  asm_write_msr MSR_KERN_GS_BASE ctx ≫= λ _,
  get_process ctx ≫= λ p,
  mret (regs p).
Definition arch_space_switch (ctx : Z) : M (sched_state K) unit :=
  on_cpu (load_cr3 (mmap_io_to_phys ctx)).
Definition arch_read_space : M (sched_state K) Z := gets (λ s, hw_cr3 (sc_hw s)).
Definition arch_enable_scheduler : M (sched_state K) unit :=
  modify (λ s, set_flags (sched_is_init s) true s).

Definition next_pid : M (sched_state K) Z :=
  gets current_pid ≫= λ c,
  gets processes ≫= λ v,
  when (u64 (c + 1) =? v_length v) (modify (set_current (u64 (-1)))) ≫= λ _,
  modify (λ s, set_current (u64 (current_pid s + 1)) s) ≫= λ _,
  gets current_pid.

(** [while ((current_process = processes.data[next_pid()])->state != TASK_RUNNING);] *)
Fixpoint next_running (fuel : nat) : M (sched_state K) Z :=
  match fuel with
  | O => fail OutOfFuel
  | S fuel =>
      next_pid ≫= λ i,
      process_at i ≫= λ p,
      get_process p ≫= λ x,
      if decide (state x = TASK_RUNNING) then mret p else next_running fuel
  end.

(** The argument and the result are the registers in the interrupt frame
    [regs] points to. *)
Definition yield_task (r : registers_t) : M (sched_state K) registers_t :=
  acquire sched_lock set_sched_lock ≫= λ _,
  modify (λ s, set_tick (u64 (tick s + 1)) s) ≫= λ _,
  gets tick ≫= λ t,
  (if SWITCH_TICK + 1 <=? t then
     modify (set_tick 0) ≫= λ _,
     gets current_pid ≫= λ c,
     process_at c ≫= λ current_process,
     arch_context_save current_process r ≫= λ _,
     gets processes ≫= λ v,
     (* one lap meets every process *)
     next_running (Z.to_nat (v_length v)) ≫= λ current_process,
     arch_context_switch current_process ≫= λ r,
     get_process current_process ≫= λ x,
     arch_space_switch (pml x) ≫= λ _,
     mret r
   else mret r) ≫= λ r,
  release set_sched_lock ≫= λ _,
  mret r.

Definition force_yield : M (sched_state K) unit := modify (set_tick SWITCH_TICK).

(** A zeroed process object at the address [kcalloc] returned. *)
Definition new_process : M (sched_state K) Z :=
  on_k (kcalloc SIZEOF_PROCESS) ≫= λ p,
  modify (λ s, set_procs (<[p := zero_process]> (procs s)) s) ≫= λ _,
  mret p.

(** [vec_push(&processes, p)] *)
Definition push_process (p : Z) : M (sched_state K) unit :=
  gets processes ≫= λ v,
  on_k (vec_push ks_realloc 8 v p) ≫= λ v,
  modify (set_processes v).

Definition sched_init : M (sched_state K) unit :=
  modify (set_processes vec_init) ≫= λ _,
  new_process ≫= λ kernel_process,
  upd_process kernel_process (p_set_pid 0) ≫= λ _,
  upd_process kernel_process (p_set_state TASK_RUNNING) ≫= λ _,
  arch_read_space ≫= λ cr3,
  upd_process kernel_process (p_set_pml (mmap_phys_to_io cr3)) ≫= λ _,
  push_process kernel_process ≫= λ _,
  arch_enable_scheduler ≫= λ _,
  modify (λ s, set_flags true (is_scheduler s) s).

(** The body of the inner loop of [task_slayer]. *)
Definition slay (i : Z) : M (sched_state K) unit :=
  process_at i ≫= λ proc,
  get_process proc ≫= λ x,
  when (bool_decide (state x = TASK_WAITINGFORDEATH))
    (on_k (ks_free (syscall_kernel_bstack x)) ≫= λ _,
     on_k (ks_pmm_free (stack x)) ≫= λ _,
     on_k (ks_space_destroy (pml x)) ≫= λ _,
     on_k (ks_free (vec_free (mailbox x)))).
(** One turn of [for(;;)], the table having [n] entries throughout. *)
Definition task_slayer_pass : M (sched_state K) unit :=
  gets processes ≫= λ v, forZ (Z.to_nat (v_length v)) 0 slay.
(** [task_slayer] for [turns] turns of its endless loop. *)
Fixpoint task_slayer (turns : nat) : M (sched_state K) unit :=
  match turns with O => mret tt | S turns => task_slayer_pass ≫= λ _, task_slayer turns end.

Definition task_init (pml0 rip0 : Z) : M (sched_state K) Z :=
  acquire usertask_lock set_usertask_lock ≫= λ _,
  new_process ≫= λ new_task,
  upd_process new_task (p_set_pml pml0) ≫= λ _,
  upd_process new_task (p_set_state TASK_RUNNING) ≫= λ _,
  upd_process new_task (λ p, p_set_regs (set_reg cs 0x23 (set_reg ss 0x1b (regs p))) p) ≫= λ _,
  upd_process new_task (λ p, p_set_regs (set_reg rip rip0 (regs p)) p) ≫= λ _,
  on_k (ks_malloc KERNEL_STACK_SIZE) ≫= λ b,
  upd_process new_task (p_set_kstack b (u64 (b + KERNEL_STACK_SIZE))) ≫= λ _,
  on_k (ks_pmm_alloc KERNEL_STACK_SIZE) ≫= λ st,
  upd_process new_task (p_set_stack st) ≫= λ _,
  upd_process new_task (p_set_mailbox vec_init) ≫= λ _,
  assert_ (truth (length st)) ≫= λ _,
  on_k (ks_vmm_map pml0 (mk_range USER_STACK_BASE KERNEL_STACK_SIZE) st true) ≫= λ _,
  upd_process new_task (λ p, p_set_regs
    (set_reg rflags 0x202 (set_reg rbp USER_STACK_BASE
       (set_reg rsp (USER_STACK_BASE + KERNEL_STACK_SIZE) (regs p)))) p) ≫= λ _,
  release set_usertask_lock ≫= λ _,
  mret new_task.

Definition sched_push_process5 (p arg1 arg2 arg3 arg4 : Z) : M (sched_state K) unit :=
  acquire usertask_lock set_usertask_lock ≫= λ _,
  gets last_pid ≫= λ i,
  modify (set_last_pid (u64 (i + 1))) ≫= λ _,
  upd_process p (p_set_pid i) ≫= λ _,
  upd_process p (λ x, p_set_regs
    (set_reg rcx arg4 (set_reg rdx arg3 (set_reg rsi arg2 (set_reg rdi arg1 (regs x))))) x) ≫= λ _,
  push_process p ≫= λ _,
  release set_usertask_lock.
Definition sched_push_process1 (p : Z) := sched_push_process5 p 0 0 0 0.
Definition sched_push_process2 (p arg1 : Z) := sched_push_process5 p arg1 0 0 0.
Definition sched_push_process3 (p arg1 arg2 : Z) := sched_push_process5 p arg1 arg2 0 0.
Definition sched_push_process4 (p arg1 arg2 arg3 : Z) := sched_push_process5 p arg1 arg2 arg3 0.

Definition sched_current_process : M (sched_state K) Z :=
  gets current_pid ≫= λ c, process_at c.

(** NULL is 0. *)
Definition sched_get_by_pid (i : Z) : M (sched_state K) Z :=
  gets processes ≫= λ v,
  if i <? v_length v then
    process_at i ≫= λ p,
    get_process p ≫= λ x,
    if decide (state x = TASK_RUNNING) then process_at i else mret 0
  else mret 0.

Definition is_sched_init s : bool := sched_is_init s.
End sched.

(** ** The process table *)

(** The process object of table entry [i]. *)
Definition entry {K} (s : sched_state K) (i : Z) : option process :=
  if i <? 0 then None else vec_list (processes s) !! Z.to_nat i ≫= λ p, procs s !! p.
Definition runnable {K} (s : sched_state K) (i : Z) : bool :=
  match entry s i with Some x => bool_decide (state x = TASK_RUNNING) | None => false end.
Definition table_length {K} (s : sched_state K) : Z := v_length (processes s).

(** The table is well formed: entry [i] is the process with pid [i], the current
    process is an entry, the next pid is the length of the table. *)
Record table_ok {K} (s : sched_state K) : Prop := {
  sk_vec : vec_ok (processes s);
  sk_length : 0 < table_length s < 0x100000000;
  sk_current : 0 ≤ current_pid s < table_length s;
  sk_entry (i : nat) p : vec_list (processes s) !! i = Some p →
    0 < p < 0x10000000000000000 ∧ ∃ x, procs s !! p = Some x ∧ pid x = Z.of_nat i;
  sk_last : last_pid s = table_length s
}.
(** Between operations, moreover, the locks are free. *)
Record sched_ok {K} (s : sched_state K) : Prop := {
  so_table : table_ok s;
  so_tick : 0 ≤ tick s ≤ SWITCH_TICK;
  so_locks : sched_lock s = 0 ∧ usertask_lock s = 0
}.

Lemma entry_lookup {K} (s : sched_state K) i :
  table_ok s → 0 ≤ i < table_length s →
  ∃ p x, vec_at (processes s) i = Ok p ∧ vec_list (processes s) !! Z.to_nat i = Some p ∧
    procs s !! p = Some x ∧ entry s i = Some x ∧ pid x = i ∧ 0 < p < 0x10000000000000000.
Proof.
  intros [Hv Hn _ He _] Hi. pose proof (vec_list_length _ Hv) as Hl. unfold table_length in *.
  destruct (lookup_lt_is_Some_2 (vec_list (processes s)) (Z.to_nat i)) as [p Hp]; [lia|].
  destruct (He _ _ Hp) as (Hr & x & Hx & Hpid). rewrite Z2Nat.id in Hpid by lia.
  exists p, x. split_and!; try done; try lia.
  - rewrite <- (Z2Nat.id i) by lia. by apply vec_at_list.
  - unfold entry. destruct (Z.ltb_spec i 0); [lia|]. by rewrite Hp.
Qed.

Lemma entry_bound {K} (s : sched_state K) i x : table_ok s → entry s i = Some x → 0 ≤ i < table_length s.
Proof.
  intros Hok He. unfold entry in He. destruct (Z.ltb_spec i 0); [done|].
  destruct (vec_list (processes s) !! Z.to_nat i) eqn:Hl; [|done].
  apply lookup_lt_Some in Hl. pose proof (vec_list_length _ (sk_vec _ Hok)). unfold table_length. lia.
Qed.

Lemma split_join_u64 v :
  0 ≤ v < 0x10000000000000000 → Z.lor (Z.shiftl (Z.shiftr v 32) 32) (Z.land v 0xFFFFFFFF) = v.
Proof.
  intros Hv. change 0xFFFFFFFF with (Z.ones 32). apply Z.bits_inj'. intros i Hi.
  rewrite Z.lor_spec, Z.land_spec. destruct (decide (i < 32)) as [Hl|Hl].
  - rewrite Z.shiftl_spec_low, Z.ones_spec_low, andb_true_r by lia. done.
  - rewrite Z.shiftl_spec_high, Z.shiftr_spec, Z.ones_spec_high, andb_false_r, orb_false_r by lia.
    f_equal. lia.
Qed.

Section scheduling.
Context {K : Type} `{KernelServicesLaws K}.
Implicit Types s : sched_state K.

Lemma next_pid_eq s :
  0 ≤ current_pid s < table_length s → table_length s < 0x100000000 →
  let j := (current_pid s + 1) mod table_length s in next_pid s = Ok (j, set_current j s).
Proof.
  intros Hc Hn j. unfold next_pid, when, mbind, M_bind, gets, modify, mret, M_ret. unfold table_length in *.
  rewrite u64_small by lia. subst j. destruct (Z.eqb_spec (current_pid s + 1) (v_length (processes s))) as [He|He].
  - cbn. rewrite He, Z.mod_same by lia. done.
  - cbn. rewrite (Z.mod_small (current_pid s + 1)), u64_small by lia. done.
Qed.

(** The search for the next runnable process, [d] places on. *)
Lemma next_running_found s d fuel :
  table_ok s → 1 ≤ d → (Z.to_nat d ≤ fuel)%nat →
  runnable s ((current_pid s + d) mod table_length s) = true →
  (∀ e, 1 ≤ e < d → runnable s ((current_pid s + e) mod table_length s) = false) →
  ∃ p x, next_running fuel s = Ok (p, set_current ((current_pid s + d) mod table_length s) s) ∧
    procs s !! p = Some x ∧ entry s ((current_pid s + d) mod table_length s) = Some x ∧
    vec_at (processes s) ((current_pid s + d) mod table_length s) = Ok p ∧
    0 < p < 0x10000000000000000.
Proof.
  set (n := table_length s). intros Hok Hd Hfuel Hrun Hno.
  assert (∀ k (c : Z) d, 0 ≤ c < n → 1 ≤ d → (Z.to_nat d ≤ k)%nat → runnable s ((c + d) mod n) = true →
    (∀ e, 1 ≤ e < d → runnable s ((c + e) mod n) = false) →
    ∃ p x, next_running k (set_current c s) = Ok (p, set_current ((c + d) mod n) s) ∧
      procs s !! p = Some x ∧ entry s ((c + d) mod n) = Some x ∧ vec_at (processes s) ((c + d) mod n) = Ok p ∧
      0 < p < 0x10000000000000000) as Hgen.
  { clear d fuel Hd Hfuel Hrun Hno. pose proof (sk_length _ Hok) as Hn. fold n in Hn.
    induction k as [|k IH]; intros c d Hc Hd Hfuel Hrun Hno; [lia|]. cbn [next_running].
    pose proof (next_pid_eq (set_current c s) Hc (proj2 Hn)) as Hnp. cbv zeta in Hnp.
    change (table_length (set_current c s)) with n in Hnp. change (current_pid (set_current c s)) with c in Hnp.
    rewrite (bind_eq _ _ _ _ _ Hnp). set (j := (c + 1) mod n) in *.
    change (set_current j (set_current c s)) with (set_current j s).
    assert (0 ≤ j < n) as Hj by (apply Z.mod_pos_bound; lia).
    destruct (entry_lookup s j Hok Hj) as (p & x & Hat & _ & Hx & Hen & _ & Hp).
    rewrite (bind_eq _ _ _ p (set_current j s)) by (unfold process_at; cbn [processes set_current]; by rewrite Hat).
    rewrite (bind_eq _ _ _ x (set_current j s)) by (unfold get_process; cbn [procs set_current]; by rewrite Hx).
    destruct (decide (d = 1)) as [->|Hd1].
    - exists p, x. fold j in Hrun |- *. unfold runnable in Hrun. rewrite Hen in Hrun.
      apply bool_decide_eq_true in Hrun. by rewrite decide_True.
    - specialize (Hno 1 ltac:(lia)) as H1. fold j in H1. unfold runnable in H1. rewrite Hen in H1.
      apply bool_decide_eq_false in H1. rewrite decide_False by done.
      assert (∀ e, (j + e) mod n = (c + (e + 1)) mod n) as Hje
        by (intros e; unfold j; rewrite Zplus_mod_idemp_l; f_equal; lia).
      destruct (IH j (d - 1) Hj) as (q & y & Hq & ?); [lia|lia|rewrite Hje; by replace (d - 1 + 1) with d by lia| |].
      { intros e He. rewrite Hje. apply Hno. lia. }
      rewrite Hje in Hq. replace (d - 1 + 1) with d in * by lia. exists q, y. rewrite Hq.
      rewrite Hje in H2. by replace (d - 1 + 1) with d in H2 by lia. }
  destruct (Hgen fuel (current_pid s) d) as (p & x & Hr & ?); [apply Hok|done..|].
  exists p, x. split; [|done]. rewrite <- Hr. by destruct s.
Qed.

Lemma next_running_none s fuel :
  table_ok s → (∀ i, 0 ≤ i < table_length s → runnable s i = false) → next_running fuel s = Err OutOfFuel.
Proof.
  intros Hok Hno. assert (∀ c, 0 ≤ c < table_length s → next_running fuel (set_current c s) = Err OutOfFuel) as Hgen.
  { pose proof (sk_length _ Hok) as Hn. induction fuel as [|fuel IH]; intros c Hc; [done|]. cbn [next_running].
    pose proof (next_pid_eq (set_current c s) Hc (proj2 Hn)) as Hnp. cbv zeta in Hnp.
    rewrite (bind_eq _ _ _ _ _ Hnp). change (table_length (set_current c s)) with (table_length s).
    change (current_pid (set_current c s)) with c. set (j := (c + 1) mod table_length s).
    change (set_current j (set_current c s)) with (set_current j s).
    assert (0 ≤ j < table_length s) as Hj by (apply Z.mod_pos_bound; lia).
    destruct (entry_lookup s j Hok Hj) as (p & x & Hat & _ & Hx & Hen & _ & Hp).
    rewrite (bind_eq _ _ _ p (set_current j s)) by (unfold process_at; cbn [processes set_current]; by rewrite Hat).
    rewrite (bind_eq _ _ _ x (set_current j s)) by (unfold get_process; cbn [procs set_current]; by rewrite Hx).
    specialize (Hno j Hj). unfold runnable in Hno. rewrite Hen in Hno. apply bool_decide_eq_false in Hno.
    rewrite decide_False by done. by apply IH. }
  specialize (Hgen (current_pid s) (sk_current _ Hok)). by destruct s.
Qed.

(** Saving registers leaves the table and who may run alone. *)
Definition saved p r s : sched_state K := set_procs (alter (p_set_regs r) p (procs s)) s.

Lemma entry_saved p r s i :
  entry (saved p r s) i = (λ x, if decide (vec_list (processes s) !! Z.to_nat i = Some p) then p_set_regs r x else x)
    <$> entry s i.
Proof.
  unfold entry, saved. cbn [processes procs set_procs]. destruct (i <? 0); [done|].
  destruct (vec_list (processes s) !! Z.to_nat i) as [q|]; [|done]. cbn.
  destruct (decide (q = p)) as [->|Hne].
  - rewrite lookup_alter_eq. destruct (procs s !! p); cbn; [by rewrite decide_True|done].
  - rewrite lookup_alter_ne by congruence. destruct (procs s !! q); cbn; [|done].
    rewrite decide_False by congruence. done.
Qed.
Lemma runnable_saved p r s i : runnable (saved p r s) i = runnable s i.
Proof.
  unfold runnable. rewrite entry_saved. destruct (entry s i) as [x|]; [|done]. cbn. by case_decide.
Qed.
Lemma table_ok_saved p r s : table_ok s → table_ok (saved p r s).
Proof.
  intros [Hv Hn Hc He Hl]. split; try done. intros i q Hq. destruct (He i q Hq) as (Hr & x & Hx & Hpid).
  split; [done|]. unfold saved. cbn [procs set_procs]. destruct (decide (q = p)) as [->|Hne].
  - rewrite lookup_alter_eq, Hx. by exists (p_set_regs r x).
  - rewrite lookup_alter_ne by congruence. by exists x.
Qed.

(** Runnability, the table and the tick only depend on these fields. *)
Lemma table_ok_ext s s' :
  processes s' = processes s → procs s' = procs s → current_pid s' = current_pid s →
  last_pid s' = last_pid s → table_ok s → table_ok s'.
Proof. intros H1 H2 H3 H4 [Hv Hn Hc He Hl]. unfold table_length in *. split; unfold table_length; by rewrite ?H1, ?H2, ?H3, ?H4. Qed.
Lemma runnable_ext s s' i : processes s' = processes s → procs s' = procs s → runnable s' i = runnable s i.
Proof. intros H1 H2. unfold runnable, entry. by rewrite H1, H2. Qed.

(** What a context switch to place [j], entered with registers [r], leaves. *)
Record switched s (r : registers_t) (j : Z) (r' : registers_t) s' : Prop := {
  sw_current : current_pid s' = j;
  sw_tick : tick s' = 0;
  sw_lock : sched_lock s' = 0 ∧ usertask_lock s' = usertask_lock s;
  sw_table : processes s' = processes s ∧ last_pid s' = last_pid s;
  sw_saved : ∃ p, vec_at (processes s) (current_pid s) = Ok p ∧ procs s' = procs (saved p r s);
  sw_resumed : ∃ q x, vec_at (processes s) j = Ok q ∧ procs s' !! q = Some x ∧ r' = regs x ∧
    hw_cr3 (sc_hw s') = mmap_io_to_phys (pml x) ∧
    msr s' !! MSR_GS_BASE = Some q ∧ msr s' !! MSR_KERN_GS_BASE = Some q;
  sw_cpu : hw_if (sc_hw s') = true ∧ hw_mem (sc_hw s') = hw_mem (sc_hw s);
  sw_services : ∃ h, sc_k s' = ks_set_hw h (sc_k s);
  sw_flags : is_scheduler s' = is_scheduler s
}.

Lemma yield_prefix s r :
  sched_lock s = 0 → 0 ≤ tick s ≤ SWITCH_TICK →
  yield_task r s =
    let s1 := set_tick (tick s + 1) (set_sched_lock 1 (set_k (ks_set_hw (hw_set_if false (sc_hw s)) (sc_k s)) s)) in
    ((if SWITCH_TICK + 1 <=? tick s + 1 then
       modify (set_tick 0) ≫= λ _,
       gets current_pid ≫= λ c,
       process_at c ≫= λ current_process,
       arch_context_save current_process r ≫= λ _,
       gets processes ≫= λ v,
       next_running (Z.to_nat (v_length v)) ≫= λ current_process,
       arch_context_switch current_process ≫= λ r,
       get_process current_process ≫= λ x,
       arch_space_switch (pml x) ≫= λ _,
       mret r
     else mret r) ≫= λ r, release set_sched_lock ≫= λ _, mret r) s1.
Proof.
  intros Hl Ht. unfold SWITCH_TICK in Ht. unfold yield_task.
  rewrite (bind_eq _ _ _ tt (set_sched_lock 1 (set_k (ks_set_hw (hw_set_if false (sc_hw s)) (sc_k s)) s)))
    by (unfold acquire; by rewrite Hl).
  rewrite (bind_eq _ _ _ tt (set_tick (tick s + 1) (set_sched_lock 1 (set_k (ks_set_hw (hw_set_if false (sc_hw s)) (sc_k s)) s)))).
  2: { unfold modify. cbn [tick set_sched_lock set_k]. by rewrite u64_small by lia. }
  by rewrite (bind_eq _ _ _ (tick s + 1) (set_tick (tick s + 1)
     (set_sched_lock 1 (set_k (ks_set_hw (hw_set_if false (sc_hw s)) (sc_k s)) s)))).
Qed.

(** A tick that is not the last of the slice. *)
Lemma yield_tick s r :
  sched_lock s = 0 → 0 ≤ tick s < SWITCH_TICK →
  ∃ s', yield_task r s = Ok (r, s') ∧ tick s' = tick s + 1 ∧ sched_lock s' = 0 ∧
    usertask_lock s' = usertask_lock s ∧ processes s' = processes s ∧ procs s' = procs s ∧
    current_pid s' = current_pid s ∧ last_pid s' = last_pid s ∧ msr s' = msr s ∧
    sc_k s' = ks_set_hw (hw_set_if true (sc_hw s)) (sc_k s) ∧ is_scheduler s' = is_scheduler s.
Proof.
  intros Hl Ht. rewrite yield_prefix by (done || lia). unfold SWITCH_TICK in *. cbv zeta.
  rewrite (proj2 (Z.leb_gt _ _)) by lia. eexists. split; [done|]. split_and!; try done.
  cbn. unfold sc_hw. cbn. by rewrite ks_get_set, ks_set_set.
Qed.

(** The last tick of a slice. *)
Lemma yield_switch s r d :
  table_ok s → sched_lock s = 0 → tick s = SWITCH_TICK → 1 ≤ d ≤ table_length s →
  runnable s ((current_pid s + d) mod table_length s) = true →
  (∀ e, 1 ≤ e < d → runnable s ((current_pid s + e) mod table_length s) = false) →
  ∃ r' s', yield_task r s = Ok (r', s') ∧ switched s r ((current_pid s + d) mod table_length s) r' s'.
Proof.
  intros Hok Hl Ht Hd Hrun Hno. rewrite yield_prefix by (done || by rewrite Ht). cbv zeta.
  set (s1 := set_tick 0 (set_sched_lock 1 (set_k (ks_set_hw (hw_set_if false (sc_hw s)) (sc_k s)) s))).
  rewrite Ht. cbn [SWITCH_TICK]. change (SWITCH_TICK + 1 <=? SWITCH_TICK + 1) with true. cbv iota.
  destruct (entry_lookup s (current_pid s) Hok (sk_current _ Hok)) as (p & x & Hat & _ & Hx & _).
  set (s2 := saved p r s1).
  assert (table_ok s2) as Hok2 by (apply table_ok_saved; by apply (table_ok_ext s)).
  destruct (next_running_found s2 d (Z.to_nat (table_length s))) as (q & y & Hnr & Hy & Hen & Hqj & Hq);
    [done|lia|lia|unfold s2; rewrite runnable_saved; exact Hrun|
     intros e He; unfold s2; rewrite runnable_saved; exact (Hno e He)|].
  set (j := (current_pid s + d) mod table_length s) in *.
  change ((current_pid s2 + d) mod table_length s2) with j in Hnr, Hen, Hqj.
  set (s3 := set_current j s2) in *.
  set (s4 := set_msr (<[MSR_KERN_GS_BASE := q]> (<[MSR_GS_BASE := q]> (msr s))) s3).
  set (s5 := set_k (ks_set_hw (load_cr3 (mmap_io_to_phys (pml y)) (sc_hw s4)) (sc_k s4)) s4).
  exists (regs y), (set_sched_lock 0 (set_k (ks_set_hw (hw_set_if true (sc_hw s5)) (sc_k s5)) s5)). split.
  - rewrite (bind_eq _ _ _ (regs y) s5); [done|].
    rewrite (bind_eq _ _ _ tt s1), (bind_eq _ _ _ (current_pid s) s1) by done.
    rewrite (bind_eq _ _ _ p s1) by (unfold process_at; cbn [processes s1 set_tick set_sched_lock set_k]; by rewrite Hat).
    rewrite (bind_eq _ _ _ tt s2).
    2: { unfold arch_context_save, upd_process, s2, saved. cbn [procs s1 set_tick set_sched_lock set_k]. rewrite Hx.
      do 3 f_equal. apply map_eq. intros a. destruct (decide (a = p)) as [->|].
      - by rewrite lookup_insert_eq, lookup_alter_eq, Hx.
      - by rewrite lookup_insert_ne, lookup_alter_ne by congruence. }
    rewrite (bind_eq _ _ _ (processes s) s2) by done. rewrite (bind_eq _ _ _ q s3) by exact Hnr.
    rewrite (bind_eq _ _ _ (regs y) s4).
    2: { unfold arch_context_switch, asm_write_msr. rewrite split_join_u64 by lia.
      unfold mbind, M_bind, modify, get_process. cbn [procs set_msr s3 set_current]. by rewrite Hy. }
    rewrite (bind_eq _ _ _ y s4) by (unfold get_process; cbn [procs set_msr s3 s4 set_current]; by rewrite Hy).
    done.
  - split; try done.
    + by exists p.
    + exists q, y. split_and!; try done.
      * unfold sc_hw. cbn [sc_k set_sched_lock set_k]. rewrite ks_get_set. cbn.
        unfold sc_hw. cbn [sc_k s5 set_k]. by rewrite ks_get_set.
      * cbn [msr set_sched_lock set_k s5 s4 set_msr]. rewrite lookup_insert_ne by done. by rewrite lookup_insert_eq.
      * cbn [msr set_sched_lock set_k s5 s4 set_msr]. by rewrite lookup_insert_eq.
    + unfold sc_hw. cbn [sc_k set_sched_lock set_k]. rewrite ks_get_set. split; [done|]. cbn.
      unfold sc_hw. cbn [sc_k s5 set_k]. rewrite ks_get_set. cbn.
      unfold sc_hw. cbn [sc_k s4 s3 s2 s1 saved set_msr set_current set_procs set_tick set_sched_lock set_k].
      by rewrite ks_get_set.
    + eexists. cbn. by rewrite !ks_set_set.
Qed.

Lemma distance c q n :
  0 ≤ c < n → 0 ≤ q < n → let d := (q - c - 1) mod n + 1 in 1 ≤ d ≤ n ∧ (c + d) mod n = q.
Proof.
  intros Hc Hq d. pose proof (Z.mod_pos_bound (q - c - 1) n ltac:(lia)). subst d. split; [lia|].
  replace (c + ((q - c - 1) mod n + 1)) with ((q - c - 1) mod n + (c + 1)) by lia.
  rewrite Zplus_mod_idemp_l. replace (q - c - 1 + (c + 1)) with q by lia. by apply Z.mod_small.
Qed.

(** [d] places on from [c], [q] is [d] places nearer. *)
Lemma distance_step c q d n :
  0 ≤ c < n → 0 ≤ q < n → let D := (q - c - 1) mod n + 1 in
  1 ≤ d < D → (q - (c + d) mod n - 1) mod n + 1 = D - d.
Proof.
  intros Hc Hq D Hd. pose proof (Z.mod_pos_bound (q - c - 1) n ltac:(lia)). subst D.
  assert ((q - (c + d) mod n - 1) mod n = (q - c - 1) mod n - d) as ->; [|lia].
  rewrite <- (Z.mod_small ((q - c - 1) mod n - d) n) by lia.
  rewrite Zminus_mod_idemp_l. replace (q - (c + d) mod n - 1) with (q - 1 - (c + d) mod n) by lia.
  rewrite Zminus_mod_idemp_r. f_equal. lia.
Qed.

Lemma switched_ok s r j r' s' :
  sched_ok s → 0 ≤ j < table_length s → switched s r j r' s' →
  sched_ok s' ∧ table_length s' = table_length s ∧ ∀ i, runnable s' i = runnable s i.
Proof.
  intros [Hok Ht [Hl Hu]] Hj [Hc Ht' [Hl' Hu'] [Hp Hlast] (p & _ & Hprocs) _ _ _ _].
  assert (table_length s' = table_length s) as Hn by (unfold table_length; by rewrite Hp).
  split_and!; [split| |]; try done.
  - pose proof (table_ok_saved p r s Hok) as [Hv _ _ He Hla]. split; rewrite ?Hn, ?Hp, ?Hlast, ?Hc, ?Hprocs; try apply Hok.
    + lia.
    + exact He.
  - rewrite Ht'. unfold SWITCH_TICK. lia.
  - by rewrite Hl', Hu'.
  - intros i. rewrite (runnable_ext (saved p r s) s' i Hp Hprocs). apply runnable_saved.
Qed.

(** What one tick does while [q] may run. *)
Definition yielded s (r : registers_t) (q : Z) (r' : registers_t) s' : Prop :=
  if tick s <? SWITCH_TICK then
    r' = r ∧ tick s' = tick s + 1 ∧ current_pid s' = current_pid s ∧ procs s' = procs s ∧
    processes s' = processes s ∧ sc_k s' = ks_set_hw (hw_set_if true (sc_hw s)) (sc_k s) ∧ is_scheduler s' = is_scheduler s
  else ∃ d, 1 ≤ d ≤ (q - current_pid s - 1) mod table_length s + 1 ∧
    runnable s ((current_pid s + d) mod table_length s) = true ∧
    (∀ e, 1 ≤ e < d → runnable s ((current_pid s + e) mod table_length s) = false) ∧
    switched s r ((current_pid s + d) mod table_length s) r' s'.

(** One timer tick, in full. *)
Lemma yield_step s r q :
  sched_ok s → 0 ≤ q < table_length s → runnable s q = true →
  ∃ r' s', yield_task r s = Ok (r', s') ∧ sched_ok s' ∧ table_length s' = table_length s ∧
    (∀ i, runnable s' i = runnable s i) ∧ yielded s r q r' s'.
Proof.
  intros Hok Hq Hrun. pose proof Hok as [Htab Ht [Hl Hu]]. pose proof (sk_length _ Htab) as Hn. unfold yielded.
  destruct (Z.ltb_spec (tick s) SWITCH_TICK) as [Hlt|Hge].
  - destruct (yield_tick s r Hl) as (s' & Hrun' & Ht' & Hl' & Hu' & Hp' & Hpr' & Hc' & Hla' & _ & Hk' & Hf'); [lia|].
    exists r, s'. split_and!; try done.
    + split; [by apply (table_ok_ext s)|lia|by rewrite Hl', Hu'].
    + unfold table_length. by rewrite Hp'.
    + intros i. by apply runnable_ext.
  - destruct (distance (current_pid s) q (table_length s) (sk_current _ Htab) Hq) as [HD HDq].
    set (D := (q - current_pid s - 1) mod table_length s + 1) in *.
    destruct (least_positive (λ d, runnable s ((current_pid s + d) mod table_length s)) D) as (d & Hd & Hrd & Hno);
      [lia|by rewrite HDq|].
    destruct (yield_switch s r d) as (r' & s' & Hy & Hsw); [done|done|lia|lia|done|done|].
    destruct (switched_ok s r _ r' s' Hok (Z.mod_pos_bound _ _ (proj1 Hn)) Hsw) as (Hok' & Hn' & Hr').
    exists r', s'. split_and!; try done. exists d. split_and!; try done; lia.
Qed.

(** C14. A timer tick returns whenever some process may
    run.  Ticks 1 to 9 of a slice only count; on the tenth the registers are
    saved in the current process, the next runnable process in cyclic table
    order is resumed with its own saved registers, its address space and its
    GS base, and the count restarts.  The process table stays well formed, no
    process changes state, the lock is free and interrupts are on. *)
Theorem yield_task_round_robin s r q :
  sched_ok s → 0 ≤ q < table_length s → runnable s q = true →
  ∃ r' s', yield_task r s = Ok (r', s') ∧ sched_ok s' ∧ (∀ i, runnable s' i = runnable s i) ∧
    if tick s <? SWITCH_TICK then
      r' = r ∧ tick s' = tick s + 1 ∧ current_pid s' = current_pid s ∧ procs s' = procs s
    else ∃ d, 1 ≤ d ≤ table_length s ∧
      runnable s ((current_pid s + d) mod table_length s) = true ∧
      (∀ e, 1 ≤ e < d → runnable s ((current_pid s + e) mod table_length s) = false) ∧
      switched s r ((current_pid s + d) mod table_length s) r' s'.
Proof.
  intros Hok Hq Hrun. destruct (yield_step s r q Hok Hq Hrun) as (r' & s' & Hy & Hok' & _ & Hr' & Hcase).
  exists r', s'. split_and!; try done. unfold yielded in Hcase. destruct (tick s <? SWITCH_TICK); [by destruct Hcase as (? & ? & ? & ? & _)|].
  destruct Hcase as (d & Hd & ?). exists d. split; [|done].
  pose proof (Z.mod_pos_bound (q - current_pid s - 1) (table_length s)). lia.
Qed.

(** With no runnable process left the search for one never
    ends, however long it goes on; the tick is spent with the scheduler's lock
    held and interrupts off. *)
Theorem yield_task_stuck s fuel :
  sched_ok s → (∀ i, 0 ≤ i < table_length s → runnable s i = false) →
  next_running fuel (set_sched_lock 1 s) = Err OutOfFuel.
Proof.
  intros Hok Hno. apply next_running_none; [|done]. apply (table_ok_ext s); try done. apply Hok.
Qed.

(** [k] timer ticks, the interrupted registers being [f i], [f (i + 1)], ... *)
Fixpoint run_ticks (f : nat → registers_t) (k i : nat) (r : registers_t) : M (sched_state K) registers_t :=
  match k with
  | O => mret r
  | S k => yield_task (f i) ≫= λ r', run_ticks f k (S i) r'
  end.

(** Ticks left, at most, before [q] is resumed. *)
Definition wait s (q : Z) : Z :=
  10 * ((q - current_pid s - 1) mod table_length s + 1) + (SWITCH_TICK - tick s).

(** Each tick brings [q] nearer. *)
Lemma yielded_nearer s r q r' s' :
  sched_ok s → 0 ≤ q < table_length s → table_length s' = table_length s → yielded s r q r' s' →
  switched s r q r' s' ∨ wait s' q + 1 ≤ wait s q.
Proof.
  intros Hok Hq Hn Hcase. pose proof (sk_current _ (so_table _ Hok)) as Hc. pose proof (so_tick _ Hok) as Htk. unfold yielded in Hcase.
  destruct (Z.ltb_spec (tick s) SWITCH_TICK) as [Hlt|Hge].
  - right. destruct Hcase as (_ & Ht1 & Hc1 & _). unfold wait. rewrite Hc1, Ht1, Hn. lia.
  - destruct Hcase as (d & Hd & _ & _ & Hsw). destruct (distance (current_pid s) q _ Hc Hq) as [HD HDq].
    destruct (decide (d = (q - current_pid s - 1) mod table_length s + 1)) as [Heq|Hne]; [left; by rewrite Heq, HDq in Hsw|right].
    pose proof (sw_current _ _ _ _ _ Hsw) as Hc1. pose proof (sw_tick _ _ _ _ _ Hsw) as Ht1.
    pose proof (distance_step (current_pid s) q d _ Hc Hq) as HD1. cbv zeta in HD1.
    unfold wait. rewrite Ht1, Hc1, Hn, HD1 by lia. unfold SWITCH_TICK in *. lia.
Qed.

Lemma sched_fair_wait q f w s i r0 :
  sched_ok s → 0 ≤ q < table_length s → runnable s q = true → wait s q ≤ Z.of_nat w →
  ∃ (k : nat) r s', Z.of_nat k ≤ Z.of_nat w ∧ run_ticks f k i r0 s = Ok (r, s') ∧
    current_pid s' = q ∧ tick s' = 0 ∧ ∃ x, entry s' q = Some x ∧ r = regs x.
Proof.
  revert s i r0. induction w as [|w IH]; intros s i r0 Hok Hq Hrun Hw.
  { pose proof (so_tick _ Hok). pose proof (Z.mod_pos_bound (q - current_pid s - 1) (table_length s)).
    unfold wait in Hw. lia. }
  destruct (yield_step s (f i) q Hok Hq Hrun) as (r1 & s1 & Hy & Hok1 & Hn1 & Hr1 & Hcase).
  destruct (yielded_nearer s (f i) q r1 s1 Hok Hq Hn1 Hcase) as [Hsw|Hnear].
  - exists 1%nat, r1, s1. split; [lia|]. split; [cbn [run_ticks]; by rewrite (bind_eq _ _ _ _ _ Hy)|].
    split; [apply Hsw|]. split; [apply Hsw|]. destruct (sw_resumed _ _ _ _ _ Hsw) as (p & x & Hp & Hx & -> & _).
    exists x. split; [|done]. destruct (entry_lookup s1 q (so_table _ Hok1)) as (p' & x' & Hp' & _ & Hx' & He & _); [by rewrite Hn1|].
    destruct (sw_table _ _ _ _ _ Hsw) as [Hpr _]. rewrite Hpr, Hp in Hp'.
    injection Hp' as <-. rewrite Hx in Hx'. by injection Hx' as ->.
  - destruct (IH s1 (S i) r1 Hok1) as (k & r & s' & Hk & Hrt & ?); [by rewrite Hn1|by rewrite Hr1|lia|].
    exists (S k), r, s'. split; [lia|]. split; [|done]. cbn [run_ticks]. by rewrite (bind_eq _ _ _ _ _ Hy).
Qed.

(** C18. Every runnable process is resumed, with the registers saved for
    it, within ten ticks per entry of the table (and the nine of a slice),
    whatever registers the interrupted processes have and whichever process is
    current: no runnable process starves. *)
Theorem sched_fair s f q i r0 :
  sched_ok s → 0 ≤ q < table_length s → runnable s q = true →
  ∃ (k : nat) r s', Z.of_nat k ≤ 10 * table_length s + 9 ∧ run_ticks f k i r0 s = Ok (r, s') ∧
    current_pid s' = q ∧ tick s' = 0 ∧ ∃ x, entry s' q = Some x ∧ r = regs x.
Proof.
  intros Hok Hq Hrun. pose proof (so_tick _ Hok) as Ht.
  pose proof (Z.mod_pos_bound (q - current_pid s - 1) (table_length s)) as Hm.
  assert (0 ≤ wait s q ≤ 10 * table_length s + 9) as Hw by (unfold wait, SWITCH_TICK in *; lia).
  destruct (sched_fair_wait q f (Z.to_nat (wait s q)) s i r0 Hok Hq Hrun) as (k & r & s' & Hk & ?); [lia|].
  exists k, r, s'. split; [lia|done].
Qed.
End scheduling.
