(* ===== verification/Process.v ===== *)
(** Life of a process: the theorems about [sched_init], [sched_push_process],
    [sched_get_by_pid] and [task_slayer] of kernel/sched.c. *)
From S2P Require Import Prelude Machine Range FrameAllocator Services Vec Sched.

Section process.
Context {K : Type} `{KernelServicesLaws K}.
Implicit Types s : sched_state K.

Lemma get_by_pid_eq s i :
  table_ok s → 0 ≤ i →
  sched_get_by_pid i s =
    Ok (if runnable s i then match vec_at (processes s) i with Ok p => p | Err _ => 0 end else 0, s).
Proof.
  intros Hok Hi. unfold sched_get_by_pid. rewrite (bind_eq _ _ _ (processes s) s) by done.
  fold (table_length s). destruct (Z.ltb_spec i (table_length s)) as [Hlt|Hge].
  - destruct (entry_lookup s i Hok (conj Hi Hlt)) as (p & x & Hat & _ & Hx & He & _).
    rewrite (bind_eq _ _ _ p s) by (unfold process_at; by rewrite Hat).
    rewrite (bind_eq _ _ _ x s) by (unfold get_process; by rewrite Hx).
    unfold runnable. rewrite He, Hat. case_decide; case_bool_decide; try done. unfold process_at. by rewrite Hat.
  - unfold runnable, entry. destruct (Z.ltb_spec i 0); [lia|].
    rewrite (lookup_ge_None_2 (vec_list (processes s)) (Z.to_nat i)); [done|].
    pose proof (vec_list_length _ (sk_vec _ Hok)). unfold table_length in Hge. lia.
Qed.

(** In a well-formed table, [sched_get_by_pid] returns
    the process with that pid when there is one and it is running, and NULL
    otherwise; it changes nothing. *)
Theorem sched_get_by_pid_finds s i :
  sched_ok s → 0 ≤ i →
  ∃ p, sched_get_by_pid i s = Ok (p, s) ∧
    (p = 0 ∨ ∃ x, procs s !! p = Some x ∧ pid x = i ∧ state x = TASK_RUNNING) ∧
    ((∃ q x, q ∈ vec_list (processes s) ∧ procs s !! q = Some x ∧ pid x = i ∧ state x = TASK_RUNNING) → p ≠ 0).
Proof.
  intros [Hok _ _] Hi. rewrite get_by_pid_eq by done. unfold runnable.
  destruct (decide (i < table_length s)) as [Hlt|Hge].
  - destruct (entry_lookup s i Hok (conj Hi Hlt)) as (p & x & Hat & Hl & Hx & He & Hpid & Hp0). rewrite He, Hat.
    eexists. split; [done|]. case_bool_decide as Hrun; (split; [|intros (q & y & Hq & Hy & Hyp & Hyr)]);
      [right; by exists x| |by left|].
    all: apply list_elem_of_lookup_1 in Hq as [j Hj]; destruct (sk_entry _ Hok j q Hj) as (_ & y' & Hy' & Hpj).
    all: assert (y' = y) as -> by congruence; assert (j = Z.to_nat i) as -> by lia; (lia || congruence).
  - eexists. split; [done|].
    assert (entry s i = None) as ->.
    { unfold entry. destruct (Z.ltb_spec i 0); [done|].
      rewrite (lookup_ge_None_2 (vec_list (processes s)) (Z.to_nat i)); [done|].
      pose proof (vec_list_length _ (sk_vec _ Hok)). unfold table_length in Hge. lia. }
    split; [by left|]. intros (q & y & Hq & Hy & Hyp & _).
    apply list_elem_of_lookup_1 in Hq as [j Hj]. destruct (sk_entry _ Hok j q Hj) as (_ & y' & Hy' & Hpj).
    apply lookup_lt_Some in Hj. pose proof (vec_list_length _ (sk_vec _ Hok)). unfold table_length in Hge.
    assert (y' = y) as -> by congruence. lia.
Qed.

(** The processor and memory under a lock taken from [s]. *)
Definition locked_k s : K := ks_set_hw (hw_set_if false (sc_hw s)) (sc_k s).
Definition unlocked_k (k : K) : K := ks_set_hw (hw_set_if true (ks_hw k)) k.

Lemma push_process_run s p x a1 a2 a3 a4 ptr k' :
  sched_ok s → procs s !! p = Some x → p ∉ vec_list (processes s) → 0 < p < 0x10000000000000000 →
  table_length s < 0xffffffff →
  (v_length (processes s) = v_capacity (processes s) →
   ks_realloc (v_ptr (processes s)) (u64 ((if v_capacity (processes s) =? 0 then 1 else 2 * v_capacity (processes s)) * 8))
     (locked_k s) = Ok (ptr, k') ∧ ptr ≠ 0) →
  ∃ s' y, sched_push_process5 p a1 a2 a3 a4 s = Ok (tt, s') ∧ sched_ok s' ∧
    table_length s' = table_length s + 1 ∧ entry s' (table_length s) = Some y ∧
    pid y = table_length s ∧ pml y = pml x ∧ state y = state x ∧ stack y = stack x ∧ mailbox y = mailbox x ∧
    (∀ r, regs y r = if decide (r = rdi) then a1 else if decide (r = rsi) then a2
                     else if decide (r = rdx) then a3 else if decide (r = rcx) then a4 else regs x r) ∧
    (∀ i, 0 ≤ i < table_length s → entry s' i = entry s i) ∧
    vec_list (processes s') = vec_list (processes s) ++ [p] ∧ procs s' = <[p := y]> (procs s) ∧
    sc_k s' = unlocked_k (if decide (v_length (processes s) = v_capacity (processes s)) then k' else locked_k s) ∧
    sched_is_init s' = sched_is_init s ∧ is_scheduler s' = is_scheduler s ∧ current_pid s' = current_pid s ∧ tick s' = tick s ∧
    if decide (v_length (processes s) = v_capacity (processes s))
    then v_ptr (processes s') = ptr ∧ v_capacity (processes s') = doubled (v_capacity (processes s))
    else v_ptr (processes s') = v_ptr (processes s) ∧ v_capacity (processes s') = v_capacity (processes s).
Proof.
  intros [Hok Ht [Hl Hu]] Hx Hnew Hp Hlen Hre. pose proof Hok as [Hv Hn Hc He Hla].
  set (y := p_set_regs (set_reg rcx a4 (set_reg rdx a3 (set_reg rsi a2 (set_reg rdi a1 (regs x)))))
              (p_set_pid (table_length s) x)).
  set (s1 := set_last_pid (table_length s + 1) (set_usertask_lock 1 (set_k (locked_k s) s))).
  set (s2 := set_procs (<[p := y]> (procs s)) s1).
  unfold table_length in Hlen, Hn.
  destruct (push_spec ks_realloc 8 (processes s) p (locked_k s) ptr k' Hv) as (v' & Hpush & Hv' & Hlist & Hlen');
    [change (2 ^ 60) with 0x1000000000000000; lia|done|].
  set (k2 := if decide (v_length (processes s) = v_capacity (processes s)) then k' else locked_k s) in *.
  set (s3 := set_processes v' (set_k k2 s2)).
  exists (set_usertask_lock 0 (set_k (ks_set_hw (hw_set_if true (sc_hw s3)) (sc_k s3)) s3)), y.
  assert (p ∉ vec_list (processes s)) as Hnew' by done.
  assert (∀ i, 0 ≤ i < table_length s → entry (set_usertask_lock 0 (set_k (ks_set_hw (hw_set_if true (sc_hw s3)) (sc_k s3)) s3)) i = entry s i) as Hent.
  { intros i Hi. destruct (entry_lookup s i Hok Hi) as (q & z & _ & Hq & Hz & Hez & _). rewrite Hez.
    unfold entry. cbn [processes procs set_usertask_lock set_k s3 set_processes s2 set_procs s1 set_last_pid].
    destruct (Z.ltb_spec i 0); [lia|]. rewrite Hlist, lookup_app_l by by eapply lookup_lt_Some. rewrite Hq. cbn.
    rewrite lookup_insert_ne; [done|]. intros ->. by apply Hnew, (list_elem_of_lookup_2 _ (Z.to_nat i)). }
  assert (entry (set_usertask_lock 0 (set_k (ks_set_hw (hw_set_if true (sc_hw s3)) (sc_k s3)) s3)) (table_length s) = Some y) as Henty.
  { unfold entry. cbn [processes procs set_usertask_lock set_k s3 set_processes s2 set_procs s1 set_last_pid].
    unfold table_length. destruct (Z.ltb_spec (v_length (processes s)) 0); [lia|].
    assert (Z.to_nat (v_length (processes s)) = List.length (vec_list (processes s))) as -> by (pose proof (vec_list_length _ Hv); lia).
    rewrite Hlist, lookup_app_r, Nat.sub_diag by lia. cbn. by rewrite lookup_insert_eq. }
  split_and!; try done.
  - unfold sched_push_process5.
    rewrite (bind_eq _ _ _ tt (set_usertask_lock 1 (set_k (locked_k s) s))) by (unfold acquire; by rewrite Hu).
    rewrite (bind_eq _ _ _ (table_length s) (set_usertask_lock 1 (set_k (locked_k s) s))) by (unfold gets; cbn; by rewrite Hla).
    rewrite (bind_eq _ _ _ tt s1) by (unfold modify, table_length; by rewrite u64_small by lia).
    rewrite (bind_eq _ _ _ tt (set_procs (<[p := p_set_pid (table_length s) x]> (procs s)) s1)) by (unfold upd_process; cbn [procs s1 set_last_pid set_usertask_lock set_k]; by rewrite Hx).
    rewrite (bind_eq _ _ _ tt s2).
    2: { unfold upd_process. cbn [procs set_procs]. rewrite lookup_insert_eq. unfold s2, set_procs.
      cbn [sc_k procs processes tick sched_lock usertask_lock current_pid last_pid sched_is_init is_scheduler msr].
      by rewrite insert_insert_eq. }
    rewrite (bind_eq _ _ _ tt s3).
    2: { unfold push_process. rewrite (bind_eq _ _ _ (processes s) s2) by done.
      rewrite (bind_eq _ _ _ v' (set_k k2 s2)); [done|]. unfold on_k, zoom. cbn [sc_k s2 set_procs s1 set_last_pid set_usertask_lock set_k].
      by rewrite Hpush. }
    done.
  - split; [split|done|done].
    + exact Hv'.
    + unfold table_length. cbn [processes set_usertask_lock set_k s3 set_processes]. rewrite Hlen'. lia.
    + unfold table_length in *. cbn [processes current_pid set_usertask_lock set_k s3 set_processes s2 set_procs s1 set_last_pid]. rewrite Hlen'. lia.
    + intros i q. cbn [processes procs set_usertask_lock set_k s3 set_processes s2 set_procs s1 set_last_pid].
      rewrite Hlist. intros [Hq|[Hge Hq]]%lookup_app_Some.
      * destruct (He i q Hq) as (Hr & z & Hz & Hpz). split; [done|]. exists z. split; [|done].
        rewrite lookup_insert_ne; [done|]. intros ->. by apply Hnew, (list_elem_of_lookup_2 _ i).
      * apply list_lookup_singleton_Some in Hq as [Hi <-]. split; [done|]. rewrite lookup_insert_eq. exists y. split; [done|].
        cbn. unfold table_length. pose proof (vec_list_length _ Hv). lia.
    + symmetry. exact Hlen'.
  - intros r. cbn [y p_set_regs regs p_set_pid]. unfold set_reg. repeat case_decide; subst; done.
  - pose proof (push_array ks_realloc 8 (processes s) p (locked_k s) v' k2 Hv ltac:(change (2 ^ 60) with 0x1000000000000000; lia) Hpush) as Ha.
    cbn [processes set_usertask_lock set_k s3 set_processes]. destruct (decide (v_length (processes s) = v_capacity (processes s))) as [Hd|]; [|by destruct Ha].
    destruct Ha as (Hr & _ & Hcap), (Hre Hd) as [Hr' _]. unfold doubled in Hr. rewrite Hr' in Hr. by injection Hr as <-.
Qed.


(** *** The reaper *)

(** What [task_slayer] gives back for one process that waits for death. *)
Definition reap (x : process) : M K unit :=
  ks_free (syscall_kernel_bstack x) ≫= λ _,
  ks_pmm_free (stack x) ≫= λ _,
  ks_space_destroy (pml x) ≫= λ _,
  ks_free (v_ptr (mailbox x)).
Fixpoint reap_list (l : list process) : M K unit :=
  match l with [] => mret tt | x :: l => reap x ≫= λ _, reap_list l end.
(** The processes that wait for death, among table entries [ps]. *)
Definition doomed s (ps : list Z) : list process :=
  filter (λ x, state x = TASK_WAITINGFORDEATH) (omap (λ p, procs s !! p) ps).
Definition with_k s (r : res (unit * K)) : res (unit * sched_state K) :=
  match r with Ok (_, k) => Ok (tt, set_k k s) | Err e => Err e end.

Lemma with_k_bind s (m n : M K unit) (g : M (sched_state K) unit) k :
  (∀ k', g (set_k k' s) = with_k s (n k')) →
  match with_k s (m k) with Ok (_, s') => g s' | Err e => Err e end = with_k s ((m ≫= λ _, n) k).
Proof. intros Hg. unfold mbind, M_bind. destruct (m k) as [[[] k']|e]; cbn; [apply Hg|done]. Qed.

Lemma reap_list_app l1 l2 k : reap_list (l1 ++ l2) k = (reap_list l1 ≫= λ _, reap_list l2) k.
Proof.
  revert k. induction l1 as [|x l1 IH]; intros k; [done|]. cbn. unfold mbind, M_bind in *.
  destruct (reap x k) as [[[] k']|e]; [apply IH|done].
Qed.

Lemma slay_eq s i p x k :
  vec_at (processes s) i = Ok p → procs s !! p = Some x →
  slay i (set_k k s) = with_k s (if decide (state x = TASK_WAITINGFORDEATH) then reap x k else Ok (tt, k)).
Proof.
  intros Hp Hx. unfold slay.
  rewrite (bind_eq _ _ _ p (set_k k s)) by (unfold process_at; cbn [processes set_k]; by rewrite Hp).
  rewrite (bind_eq _ _ _ x (set_k k s)) by (unfold get_process; cbn [procs set_k]; by rewrite Hx).
  unfold when. case_bool_decide; case_decide; try done.
  unfold reap, mbind, M_bind, on_k, zoom, vec_free. cbn [sc_k set_k].
  destruct (ks_free (syscall_kernel_bstack x) k) as [[[] k1]|]; [|done]. cbn [sc_k set_k].
  destruct (ks_pmm_free (stack x) k1) as [[[] k2]|]; [|done]. cbn [sc_k set_k].
  destruct (ks_space_destroy (pml x) k2) as [[[] k3]|]; [|done]. cbn [sc_k set_k].
  by destruct (ks_free (v_ptr (mailbox x)) k3) as [[[] k4]|].
Qed.

Lemma slay_loop s ps n i k :
  table_ok s → drop i (vec_list (processes s)) = ps → n = List.length ps →
  forZ n (Z.of_nat i) slay (set_k k s) = with_k s (reap_list (doomed s ps) k).
Proof.
  intros Hok. revert n i k. induction ps as [|p ps IH]; intros n i k Hps ->; [done|].
  assert (vec_list (processes s) !! i = Some p) as Hp.
  { rewrite <- (Nat.add_0_r i), <- lookup_drop, Hps. done. }
  destruct (sk_entry _ Hok i p Hp) as (_ & x & Hx & _). cbn [List.length forZ].
  unfold mbind at 1, M_bind at 1. rewrite (slay_eq s _ p x) by (done || by apply vec_at_list).
  assert (∀ k', forZ (List.length ps) (Z.of_nat i + 1) slay (set_k k' s) = with_k s (reap_list (doomed s ps) k')) as Hrest.
  { intros k'. replace (Z.of_nat i + 1) with (Z.of_nat (S i)) by lia. apply IH; [|done].
    replace (S i) with (i + 1)%nat by lia. rewrite <- drop_drop, Hps. done. }
  unfold doomed. cbn [omap list_omap]. rewrite Hx, filter_cons. case_decide.
  - cbn [reap_list]. by apply (with_k_bind s (reap x)).
  - apply Hrest.
Qed.

Lemma set_k_self s : set_k (sc_k s) s = s.
Proof. by destruct s. Qed.

Lemma task_slayer_run s turns :
  sched_ok s →
  task_slayer turns s =
    with_k s (reap_list (mjoin (replicate turns (doomed s (vec_list (processes s))))) (sc_k s)).
Proof.
  intros [Hok _ _]. set (ps := vec_list (processes s)).
  assert (∀ k, task_slayer_pass (set_k k s) = with_k s (reap_list (doomed s ps) k)) as Hpass.
  { intros k. unfold task_slayer_pass. rewrite (bind_eq _ _ _ (processes s) (set_k k s)) by done.
    apply (slay_loop s ps _ 0); [done|done|]. pose proof (vec_list_length _ (sk_vec _ Hok)). unfold ps. lia. }
  assert (∀ k, task_slayer turns (set_k k s) = with_k s (reap_list (mjoin (replicate turns (doomed s ps))) k)) as Hgen.
  { induction turns as [|turns IH]; intros k; [done|]. cbn [task_slayer replicate mjoin list_join].
    unfold mbind at 1, M_bind at 1. rewrite Hpass, (with_k_bind s _ _ _ k IH).
    f_equal. by rewrite <- reap_list_app. }
  rewrite <- Hgen. by rewrite set_k_self.
Qed.

Lemma task_slayer_idle s turns : sched_ok s → doomed s (vec_list (processes s)) = [] → task_slayer turns s = Ok (tt, s).
Proof.
  intros Hok Hd. rewrite task_slayer_run, Hd by done.
  assert (mjoin (replicate turns (@nil process)) = []) as ->; [|by destruct s]. induction turns as [|n IH]; [done|exact IH].
Qed.

(** Each turn of [task_slayer]'s endless loop releases the
    kernel stack, the user stack, the address space and the mailbox of every
    process that waits for death, in table order; no state, pid or table entry
    changes, the state of a reaped process included.  So [turns] turns release
    the same resources [turns] times. *)
Theorem task_slayer_again s turns :
  sched_ok s →
  task_slayer turns s =
    with_k s (reap_list (mjoin (replicate turns (doomed s (vec_list (processes s))))) (sc_k s)).
Proof. apply task_slayer_run. Qed.
End process.

(** ** The theorems at a concrete table of two processes *)

Definition sample_process (i rip0 : Z) (t : TASK_STATE) : process :=
  mk_process 0 0 0 (mk_range 0 0) (set_reg rip rip0 zero_regs) i (u64 (MMAP_IO_BASE + 0x7000 * (i + 1))) t 0 vec_init.
Definition sample_sched (t0 t1 : TASK_STATE) : sched_state bump :=
  mk_sched sample_bump {[ 0x5000 := sample_process 0 0x100 t0; 0x6000 := sample_process 1 0x200 t1 ]}
    (mk_vec 0x4000 [0x5000; 0x6000] 2 2 0) SWITCH_TICK 0 0 0 2 true true ∅.

Lemma sample_sched_ok t0 t1 : sched_ok (sample_sched t0 t1).
Proof.
  split; [split|done|done]; cbn; try lia.
  - split; cbn; try lia. right. by exists 1.
  - intros [|[|i]] p Hp; cbn in Hp; [injection Hp as <-..|done]; (split; [lia|]); eexists; (split; [vm_compute; reflexivity|done]).
Qed.

Lemma yield_task_round_robin_witness :
  ∃ r' s', yield_task zero_regs (sample_sched TASK_RUNNING TASK_RUNNING) = Ok (r', s') ∧
    r' rip = 0x200 ∧ sched_ok s'.
Proof.
  destruct (yield_task_round_robin (sample_sched TASK_RUNNING TASK_RUNNING) zero_regs 1) as (r' & s' & Hy & Hok & _);
    [apply sample_sched_ok|done|reflexivity|].
  exists r', s'. split; [exact Hy|]. split; [|exact Hok].
  vm_compute in Hy. injection Hy as <- <-. reflexivity.
Defined.

Lemma yield_task_stuck_witness :
  next_running 1000 (set_sched_lock 1 (sample_sched TASK_DEAD TASK_WAITINGFORDEATH)) = Err OutOfFuel.
Proof.
  apply (yield_task_stuck _ 1000 (sample_sched_ok TASK_DEAD TASK_WAITINGFORDEATH)).
  intros i Hi. change (table_length (sample_sched TASK_DEAD TASK_WAITINGFORDEATH)) with 2 in Hi.
  assert (i = 0 ∨ i = 1) as [-> | ->] by lia; reflexivity.
Defined.

Lemma sched_fair_witness :
  ∃ (k : nat) r s', Z.of_nat k ≤ 29 ∧
    run_ticks (λ _, zero_regs) k 0 zero_regs (sample_sched TASK_IDLE TASK_RUNNING) = Ok (r, s') ∧ current_pid s' = 1.
Proof.
  destruct (sched_fair (sample_sched TASK_IDLE TASK_RUNNING) (λ _, zero_regs) 1 0 zero_regs)
    as (k & r & s' & Hk & Hrun & Hc & _); [apply sample_sched_ok|done|reflexivity|].
  exists k, r, s'. split; [exact Hk|]. by split.
Defined.

Lemma sched_get_by_pid_finds_witness :
  sched_get_by_pid 1 (sample_sched TASK_RUNNING TASK_RUNNING) =
    Ok (0x6000, sample_sched TASK_RUNNING TASK_RUNNING).
Proof.
  destruct (sched_get_by_pid_finds (sample_sched TASK_RUNNING TASK_RUNNING) 1) as (p & Hrun & _);
    [apply sample_sched_ok|done|].
  rewrite Hrun. vm_compute in Hrun. injection Hrun as <-. reflexivity.
Defined.

Definition sample_unpushed : sched_state bump :=
  set_procs (<[0x8000 := sample_process 0 0x300 TASK_RUNNING]> (procs (sample_sched TASK_RUNNING TASK_RUNNING)))
    (sample_sched TASK_RUNNING TASK_RUNNING).
Lemma sample_unpushed_ok : sched_ok sample_unpushed.
Proof.
  destruct (sample_sched_ok TASK_RUNNING TASK_RUNNING) as [[Hv Hn Hc _ Hl] Ht Hk].
  split; [split|done|done]; try done.
  intros [|[|i]] p Hp; cbn in Hp; [injection Hp as <-..|done]; (split; [lia|]); eexists; (split; [vm_compute; reflexivity|done]).
Qed.

(** Two turns give the same four resources back twice. *)
Lemma task_slayer_again_witness :
  task_slayer 2 (sample_sched TASK_RUNNING TASK_WAITINGFORDEATH) =
    with_k (sample_sched TASK_RUNNING TASK_WAITINGFORDEATH)
      (reap_list [sample_process 1 0x200 TASK_WAITINGFORDEATH; sample_process 1 0x200 TASK_WAITINGFORDEATH] sample_bump).
Proof. exact (task_slayer_again _ 2 (sample_sched_ok TASK_RUNNING TASK_WAITINGFORDEATH)). Defined.
