(* ===== verification/Elf.v ===== *)
(** kernel/elf.c and libs/navy/elf.h: the loader that turns a boot module into a
    process.  Log calls are left out. *)
From S2P Require Import Prelude Machine Range FrameAllocator Services Vec Sched.

Definition PT_LOAD : Z := 1.
(** The fields of [Elf64_Ehdr] and [Elf64_Phdr] the loader reads, at their
    offsets in the structures. *)
Definition e_entry (m : memory) (h : Z) : Z := load64 m (h + 24).
Definition e_phoff (m : memory) (h : Z) : Z := load64 m (h + 32).
Definition e_phentsize (m : memory) (h : Z) : Z := load16 m (h + 54).
Definition e_phnum (m : memory) (h : Z) : Z := load16 m (h + 56).
Definition p_type (m : memory) (p : Z) : Z := load32 m p.
Definition p_offset (m : memory) (p : Z) : Z := load64 m (p + 8).
Definition p_vaddr (m : memory) (p : Z) : Z := load64 m (p + 16).
Definition p_filesz (m : memory) (p : Z) : Z := load64 m (p + 32).
Definition p_memsz (m : memory) (p : Z) : Z := load64 m (p + 40).

(** The scheduler's state with the [lock] of elf.c. *)
Record loader (K : Type) : Type := mk_loader { ld_sched : sched_state K; ld_lock : Z }.
Arguments mk_loader {K}. Arguments ld_sched {K}. Arguments ld_lock {K}.

Section elf.
Context {K : Type} `{KernelServices K}.

Definition on_task {A} (m : M (sched_state K) A) : M (loader K) A := zoom ld_sched (λ s l, mk_loader s (ld_lock l)) m.
Definition on_svc {A} (m : M K A) : M (loader K) A := on_task (on_k m).
Definition ld_k (l : loader K) : K := sc_k (ld_sched l).
Notation ld_mem l := (ks_mem (ld_k l)).
Definition upd_mem (f : memory → memory) : M (loader K) unit := on_svc (modify (ks_set_mem f)).

Definition ld_acquire : M (loader K) unit := λ l,
  match arch_acquire (ld_lock l) (ks_hw (sc_k (ld_sched l))) with
  | Ok (v, h) => Ok (tt, mk_loader (set_k (ks_set_hw h (sc_k (ld_sched l))) (ld_sched l)) v)
  | Err e => Err e
  end.
Definition ld_release : M (loader K) unit := modify (λ l,
  let '(v, h) := arch_release (ks_hw (sc_k (ld_sched l))) in
  mk_loader (set_k (ks_set_hw h (sc_k (ld_sched l))) (ld_sched l)) v).

(** The body of the loop for a [PT_LOAD] header at [phdr]. *)
Definition load_segment (elf : range_t) (pml phdr : Z) : M (loader K) unit :=
  gets (λ l, p_memsz (ld_mem l) phdr) ≫= λ memsz,
  on_svc (ks_pmm_alloc (ALIGN_UP memsz PAGE_SIZE)) ≫= λ addr,
  assert_ (truth (length addr)) ≫= λ _,
  gets (λ l, p_vaddr (ld_mem l) phdr) ≫= λ vaddr,
  on_svc (ks_vmm_map pml (mk_range vaddr (length addr)) addr true) ≫= λ _,
  gets (λ l, (p_offset (ld_mem l) phdr, p_filesz (ld_mem l) phdr)) ≫= λ '(offset, filesz),
  upd_mem (λ m, (memcpy (mmap_phys_to_io (base addr)) (u64 (base elf + offset)) filesz m).2) ≫= λ _,
  gets (λ l, (p_filesz (ld_mem l) phdr, p_memsz (ld_mem l) phdr)) ≫= λ '(filesz, memsz),
  upd_mem (memset (u64 (mmap_phys_to_io (base addr) + filesz)) 0 (u64 (memsz - filesz))).

(** [for (i = 0; i < header->e_phnum; i++)]. *)
Fixpoint load_segments (fuel : nat) (i : Z) (elf : range_t) (pml phdr : Z) : M (loader K) unit :=
  match fuel with
  | O => fail OutOfFuel
  | Datatypes.S fuel =>
      gets (λ l, e_phnum (ld_mem l) (base elf)) ≫= λ n,
      if i <? n then
        gets (λ l, p_type (ld_mem l) phdr) ≫= λ ty,
        (if ty =? PT_LOAD then load_segment elf pml phdr else mret tt) ≫= λ _,
        gets (λ l, e_phentsize (ld_mem l) (base elf)) ≫= λ size,
        load_segments fuel (i + 1) elf pml (u64 (phdr + size))
      else mret tt
  end.
(** [e_phnum] has 16 bits. *)
Definition PHNUM_FUEL : nat := Z.to_nat 0x10000.

Definition load_elf_module (elf : range_t) : M (loader K) Z :=
  ld_acquire ≫= λ _,
  gets (λ l, u64 (base elf + e_phoff (ld_mem l) (base elf))) ≫= λ phdr,
  on_svc ks_space_create ≫= λ pml,
  load_segments PHNUM_FUEL 0 elf pml phdr ≫= λ _,
  ld_release ≫= λ _,
  gets (λ l, e_entry (ld_mem l) (base elf)) ≫= λ entry,
  on_task (task_init pml entry).
End elf.

(** ** What the loader asks of the services

    [lk_taken] are the addresses handed out; [lk_quiet] those the services never
    write nor hand out, where boot modules lie; [lk_area] the areas of the heap
    (address and length), [lk_space] the address spaces; [lk_mapped] the mappings
    made, oldest first; [lk_stops] the faults the services may stop with. *)
Class LoaderView (K : Type) : Type := {
  lk_ok : K → Prop;
  lk_taken : K → Z → Prop;
  lk_quiet : Z → Prop;
  lk_area : K → Z → Z → Prop;
  lk_space : K → Z → Prop;
  lk_mapped : K → list (Z * range_t * range_t * bool);
  lk_stops : fault → Prop
}.
(** Memory handed out before, and memory where modules lie, keeps its contents;
    areas and spaces stay, and so does the root register. *)
Definition kept {K} `{KernelServices K, LoaderView K} (k k' : K) : Prop :=
  lk_ok k' ∧ (∀ x, 0 ≤ x < 0x10000000000000000 → lk_taken k x ∨ lk_quiet x → load8 (ks_mem k') x = load8 (ks_mem k) x) ∧
  (∀ x, lk_taken k x → lk_taken k' x) ∧
  (∀ p n, lk_area k p n → lk_area k' p n) ∧ (∀ t, lk_space k t → lk_space k' t) ∧ hw_cr3 (ks_hw k') = hw_cr3 (ks_hw k).
(** Only contents of memory change. *)
Definition steady {K} `{KernelServices K, LoaderView K} (k k' : K) : Prop :=
  lk_ok k' ∧ (∀ x, lk_taken k' x ↔ lk_taken k x) ∧ lk_mapped k' = lk_mapped k ∧
  (∀ p n, lk_area k p n → lk_area k' p n) ∧ (∀ t, lk_space k t → lk_space k' t) ∧ hw_cr3 (ks_hw k') = hw_cr3 (ks_hw k).

(** Whole frames from a page on, below 2^46. *)
Definition page_frames (r : range_t) : Prop := base r mod 4096 = 0 ∧ 0 ≤ base r ∧ 0 ≤ length r ∧ base r + length r ≤ 0x400000000000.
Lemma page_frames_io r : page_frames r → mmap_phys_to_io (base r) = base r + MMAP_IO_BASE ∧ block_ok (mmap_phys_to_io (base r)) (length r) ∧
  0 < mmap_phys_to_io (base r) ∧ mmap_phys_to_io (base r) + length r < 0x10000000000000000.
Proof.
  intros (_ & Hb & Hl & He). assert (mmap_phys_to_io (base r) = base r + MMAP_IO_BASE) as -> by (unfold mmap_phys_to_io, MMAP_IO_BASE; rewrite u64_small; lia).
  unfold block_ok, MMAP_IO_BASE. lia.
Qed.

Class LoaderServices (K : Type) `{KernelServicesLaws K, LoaderView K} : Prop := {
  lk_assert : lk_stops AssertFailed;
  (** where the kernel sees the root of a space *)
  lk_root k t : lk_ok k → lk_space k t → ∃ f, t = frame_io f ∧ 0 ≤ f < 0x800000000;
  (** a client that writes in what it was given disturbs nothing *)
  lk_frame f k :
    lk_ok k → (∀ x, 0 ≤ x < 0x10000000000000000 → ¬ lk_taken k x → load8 (f (ks_mem k)) x = load8 (ks_mem k) x) →
    steady k (ks_set_mem f k);
  (** frames are given out once, in ranges as long as the request *)
  lk_alloc n k :
    lk_ok k → 0 < n < 0x8000000000000000 → n mod 4096 = 0 →
    runs lk_stops (ks_pmm_alloc n) (λ r k', kept k k' ∧ lk_mapped k' = lk_mapped k ∧
      (length r = 0 ∨ length r = n ∧ page_frames r ∧
         ∀ x, in_block (mmap_phys_to_io (base r)) n x → ¬ lk_taken k x ∧ ¬ lk_quiet x ∧ lk_taken k' x)) k;
  lk_map pml v p u k :
    lk_ok k → lk_space k pml → length p = length v → 0 ≤ length v ≤ 0x1000000000000 →
    runs lk_stops (ks_vmm_map pml v p u) (λ _ k', kept k k' ∧ lk_mapped k' = lk_mapped k ++ [(pml, v, p, u)]) k;
  lk_create k :
    lk_ok k → runs lk_stops ks_space_create (λ t k', kept k k' ∧ lk_mapped k' = lk_mapped k ∧ lk_space k' t ∧ ¬ lk_space k t) k;
  (** the services do not look at the interrupt flag *)
  lk_irq b k : lk_ok k → kept k (ks_set_hw (hw_set_if b (ks_hw k)) k) ∧ lk_mapped (ks_set_hw (hw_set_if b (ks_hw k)) k) = lk_mapped k
}.
Notation run := (runs lk_stops).

Section loading.
Context {K : Type} `{LoaderServices K}.

Notation ld_mem l := (ks_mem (ld_k l)).

Lemma mem_kept_refl k : lk_ok k → kept k k.
Proof. intros Hok. by split_and!. Qed.
Lemma mem_kept_trans k1 k2 k3 : kept k1 k2 → kept k2 k3 → kept k1 k3.
Proof.
  intros (Ha & Hb & Hc & Har & Hsp & Hcr) (Hd & He & Hf & Har' & Hsp' & Hcr'). split; [done|]. split; [|split_and!; auto; congruence].
  intros x Hr Hx. rewrite He, Hb; [done|done|done|done|]. destruct Hx; auto.
Qed.
Lemma kept_irq b k : lk_ok k → kept k (ks_set_hw (hw_set_if b (ks_hw k)) k) ∧ lk_mapped (ks_set_hw (hw_set_if b (ks_hw k)) k) = lk_mapped k.
Proof. apply lk_irq. Qed.

Lemma steady_trans k1 k2 k3 : steady k1 k2 → steady k2 k3 → steady k1 k3.
Proof.
  intros (_ & Ht & Hm & Ha & Hs & Hc) (Hok & Ht' & Hm' & Ha' & Hs' & Hc'). split; [done|]. split_and!; auto; try congruence. intros x. by rewrite Ht', Ht.
Qed.
Lemma steady_kept k k' :
  steady k k' → (∀ x, 0 ≤ x < 0x10000000000000000 → lk_taken k x ∨ lk_quiet x → load8 (ks_mem k') x = load8 (ks_mem k) x) → kept k k'.
Proof. intros (Hok & Ht & _ & Ha & Hs & Hc) Hm. split; [done|]. split; [done|]. split; [by intros x; apply Ht|done]. Qed.

(** The loader's state after the services' changes and no other. *)
Definition undisturbed (l l' : loader K) : Prop := kept (ld_k l) (ld_k l') ∧ ld_sched l' = set_k (ld_k l') (ld_sched l).
Lemma undisturbed_refl l : lk_ok (ld_k l) → undisturbed l l.
Proof. intros Hok. split; [by apply mem_kept_refl|]. by destruct l as [[] ?]. Qed.
Lemma undisturbed_trans l1 l2 l3 : undisturbed l1 l2 → undisturbed l2 l3 → undisturbed l1 l3.
Proof. intros [Ha Hb] [Hc Hd]. split; [by eapply mem_kept_trans|by rewrite Hd, Hb]. Qed.

(** A field of a header in quiet memory reads the same throughout. *)
Definition quiet_block (a n : Z) : Prop := ∀ x, in_block a n x → lk_quiet x.
Lemma quiet_load n a k k' : kept k k' → quiet_block a (Z.of_nat n) → block_ok a (Z.of_nat n) → load_le n (ks_mem k') a = load_le n (ks_mem k) a.
Proof. intros (_ & Hm & _) Hq Ha. apply load_le_ext. intros x Hx. apply Hm; [unfold block_ok, in_block in *; lia|]. right. by apply Hq. Qed.

Lemma on_svc_run {A} (m : M K A) l :
  on_svc m l = match m (ld_k l) with
    | Ok (a, k) => Ok (a, mk_loader (set_k k (ld_sched l)) (ld_lock l)) | Err e => Err e end.
Proof. unfold on_svc, on_task, on_k, zoom, ld_k. by destruct (m _) as [[]|]. Qed.

(** The header of a segment that can be loaded. *)
Record segment_ok (elf : range_t) (m : memory) (p : Z) : Prop := {
  so_header : quiet_block p 48 ∧ block_ok p 48;
  so_sizes : 0 < p_memsz m p ∧ p_filesz m p ≤ p_memsz m p ∧ p_memsz m p + 4095 < 0x8000000000000000;
  so_source : quiet_block (u64 (base elf + p_offset m p)) (p_filesz m p) ∧
    0 < u64 (base elf + p_offset m p) ∧ block_ok (u64 (base elf + p_offset m p)) (p_filesz m p)
}.
(** The segment's bytes in the frames at [r]: the file's, then zeros. *)
Definition loaded (elf : range_t) (m : memory) (p : Z) (r : range_t) (m' : memory) : Prop :=
  length r = ALIGN_UP (p_memsz m p) PAGE_SIZE ∧
  ∀ i, 0 ≤ i < p_memsz m p → load8 m' (mmap_phys_to_io (base r) + i) =
    if i <? p_filesz m p then load8 m (u64 (base elf + p_offset m p) + i) else 0.

(** Copying the file's bytes and clearing the rest of the block. *)
Lemma fill_block d src fs ms m x :
  block_ok d ms → block_ok src fs → 0 ≤ fs ≤ ms → (d + ms ≤ src ∨ src + fs ≤ d ∨ fs = 0) → 0 < src → 0 ≤ x < 0x10000000000000000 →
  load8 (memset (d + fs) 0 (ms - fs) (memcpy d src fs m).2) x =
    if decide (in_block d ms x) then if x - d <? fs then load8 m (src + (x - d)) else 0 else load8 m x.
Proof.
  intros Hd Hs Hfs Hdis Hsrc Hx. unfold memcpy. rewrite (proj2 (Z.eqb_neq src 0)) by lia. cbn [snd].
  rewrite load8_memset by (unfold block_ok in *; lia). unfold in_block.
  assert (load8 (copy_loop (Z.to_nat fs) 0 d src m) x = if decide (d ≤ x < d + fs) then load8 m (src + (x - d)) else load8 m x) as Hc.
  { destruct (decide (fs = 0)) as [->|Hne]; [by rewrite decide_False by lia|].
    rewrite load8_copy_loop; rewrite ?Z.add_0_r, ?Z2Nat.id; unfold block_ok in *; try lia. done. }
  destruct (decide (d + fs ≤ x < d + fs + (ms - fs))) as [Hin|Hout].
  - rewrite decide_True by lia. by rewrite (proj2 (Z.ltb_ge _ _)) by lia.
  - rewrite Hc. destruct (decide (d ≤ x < d + fs)).
    + rewrite decide_True by lia. by rewrite (proj2 (Z.ltb_lt _ _)) by lia.
    + by rewrite decide_False by lia.
Qed.

(** One segment: its frames hold its bytes, it is mapped at its address, and
    nothing else that matters changed. *)
Definition fresh_frames (k k' : K) (r : range_t) : Prop :=
  page_frames r ∧
  ∀ x, in_block (mmap_phys_to_io (base r)) (length r) x → ¬ lk_taken k x ∧ lk_taken k' x.
Definition segment_done (elf : range_t) (pml p : Z) (l l' : loader K) (r : range_t) : Prop :=
  undisturbed l l' ∧ ld_lock l' = ld_lock l ∧ loaded elf (ld_mem l) p r (ld_mem l') ∧ fresh_frames (ld_k l) (ld_k l') r ∧
  lk_mapped (ld_k l') = lk_mapped (ld_k l) ++ [(pml, mk_range (p_vaddr (ld_mem l) p) (length r), r, true)].

Lemma header_same p k k' : kept k k' → quiet_block p 48 → block_ok p 48 →
  p_type (ks_mem k') p = p_type (ks_mem k) p ∧ p_offset (ks_mem k') p = p_offset (ks_mem k) p ∧
  p_vaddr (ks_mem k') p = p_vaddr (ks_mem k) p ∧ p_filesz (ks_mem k') p = p_filesz (ks_mem k) p ∧
  p_memsz (ks_mem k') p = p_memsz (ks_mem k) p.
Proof.
  intros Hl Hq Hb. assert (∀ n o, 0 ≤ o → o + Z.of_nat n ≤ 48 → load_le n (ks_mem k') (p + o) = load_le n (ks_mem k) (p + o)) as Hload.
  { intros n o Ho Hn. apply quiet_load; [done| |unfold block_ok in *; lia]. intros x Hx. apply Hq. unfold in_block in *. lia. }
  split_and!; try (apply Hload; lia). unfold p_type. rewrite <- (Z.add_0_r p). by apply Hload.
Qed.

Lemma upd_mem_run f l :
  upd_mem f l = Ok (tt, mk_loader (set_k (ks_set_mem f (ld_k l)) (ld_sched l)) (ld_lock l)).
Proof. unfold upd_mem. by rewrite on_svc_run. Qed.
Lemma ld_mem_upd f k s lk : ld_mem (mk_loader (set_k (ks_set_mem f k) s) lk) = f (ks_mem k).
Proof. unfold ld_mem, ks_mem, ks_set_mem. cbn. by rewrite ks_get_set. Qed.

(** The two writes, once the frames are there. *)
Definition write_segment (elf : range_t) (phdr : Z) (addr : range_t) : M (loader K) unit :=
  gets (λ l, (p_offset (ld_mem l) phdr, p_filesz (ld_mem l) phdr)) ≫= λ '(offset, filesz),
  upd_mem (λ m, (memcpy (mmap_phys_to_io (base addr)) (u64 (base elf + offset)) filesz m).2) ≫= λ _,
  gets (λ l, (p_filesz (ld_mem l) phdr, p_memsz (ld_mem l) phdr)) ≫= λ '(filesz, memsz),
  upd_mem (memset (u64 (mmap_phys_to_io (base addr) + filesz)) 0 (u64 (memsz - filesz))).
Lemma write_segment_run elf p r l :
  lk_ok (ld_k l) → segment_ok elf (ld_mem l) p → 0 < mmap_phys_to_io (base r) →
  mmap_phys_to_io (base r) + length r < 0x10000000000000000 → p_memsz (ld_mem l) p ≤ length r →
  (∀ x, in_block (mmap_phys_to_io (base r)) (length r) x → lk_taken (ld_k l) x ∧ ¬ lk_quiet x) →
  ∃ l', write_segment elf p r l = Ok (tt, l') ∧ ld_lock l' = ld_lock l ∧ ld_sched l' = set_k (ld_k l') (ld_sched l) ∧ steady (ld_k l) (ld_k l') ∧
    ∀ x, 0 ≤ x < 0x10000000000000000 → load8 (ld_mem l') x =
      if decide (in_block (mmap_phys_to_io (base r)) (p_memsz (ld_mem l) p) x)
      then if x - mmap_phys_to_io (base r) <? p_filesz (ld_mem l) p
           then load8 (ld_mem l) (u64 (base elf + p_offset (ld_mem l) p) + (x - mmap_phys_to_io (base r))) else 0
      else load8 (ld_mem l) x.
Proof.
  intros Hok Hseg Hr Hrend Hlen Htk. set (d := mmap_phys_to_io (base r)) in *. destruct Hseg as [Hhd (Hms & Hfs & Hup) (Hsq & Hs0 & Hsb)].
  set (m := ld_mem l) in *. set (fs := p_filesz m p) in *. set (ms := p_memsz m p) in *. set (src := u64 (base elf + p_offset m p)) in *.
  assert (0 ≤ fs) as Hfs0 by (apply load_le_range). 
  assert (d + ms ≤ src ∨ src + fs ≤ d ∨ fs = 0) as Hdis.
  { destruct (decide (fs = 0)); [by right; right|]. destruct (decide (d + ms ≤ src)); [by left|]. destruct (decide (src + fs ≤ d)); [by right; left|].
    exfalso. destruct (Htk (Z.max d src)) as [_ Hn]; [unfold in_block; lia|]. apply Hn, Hsq. unfold in_block. lia. }
  unfold write_segment. fold d. rewrite (bind_eq _ _ _ (p_offset m p, fs) l) by done. cbv iota beta. fold src.
  rewrite (bind_eq _ _ _ _ _ (upd_mem_run _ l)). set (l1 := mk_loader _ _).
  assert (ld_mem l1 = (memcpy d src fs m).2) as Hm1 by (unfold l1; by rewrite ld_mem_upd).
  assert (∀ x, 0 ≤ x < 0x10000000000000000 → ¬ in_block d ms x → load8 (ld_mem l1) x = load8 m x) as Hout1.
  { intros x Hx Hno. rewrite Hm1. unfold memcpy. rewrite (proj2 (Z.eqb_neq src 0)) by lia. cbn [snd]. destruct (decide (fs = 0)) as [->|Hne]; [done|].
    rewrite load8_copy_loop; rewrite ?Z.add_0_r, ?Z2Nat.id; unfold block_ok, in_block in *; try lia. by rewrite decide_False by lia. }
  assert (∀ n a, quiet_block a (Z.of_nat n) → block_ok a (Z.of_nat n) → load_le n (ld_mem l1) a = load_le n m a) as Hq1.
  { intros n a Hq Ha. apply load_le_ext. intros x Hx. apply Hout1; [unfold block_ok, in_block in *; lia|].
    intros Hin. destruct (Htk x) as [_ Hn]; [unfold in_block in *; lia|]. by apply Hn, Hq. }
  destruct Hhd as [Hhd Hhb].
  assert (p_filesz (ld_mem l1) p = fs ∧ p_memsz (ld_mem l1) p = ms) as [Hfs1 Hms1].
  { assert (∀ o, 0 ≤ o ≤ 40 → quiet_block (p + o) (Z.of_nat 8) ∧ block_ok (p + o) (Z.of_nat 8)) as Hfield.
    { intros o Ho. change (Z.of_nat 8) with 8. unfold block_ok in *. split; [|lia]. intros x Hx. apply Hhd. unfold in_block in *. lia. }
    split; apply (Hq1 8%nat); apply Hfield; lia. }
  rewrite (bind_eq _ _ _ (fs, ms) l1) by (unfold gets; by rewrite Hfs1, Hms1). cbv iota beta.
  rewrite (upd_mem_run _ l1). set (l2 := mk_loader _ _).
  assert (u64 (d + fs) = d + fs ∧ u64 (ms - fs) = ms - fs) as [Hd1 Hd2] by (unfold block_ok in *; rewrite !u64_small; lia).
  assert (ld_mem l2 = memset (d + fs) 0 (ms - fs) (memcpy d src fs m).2) as Hm2
    by (unfold l2; rewrite ld_mem_upd; change (ks_mem (ld_k l1)) with (ld_mem l1); by rewrite Hm1, Hd1, Hd2).
  assert (∀ x, 0 ≤ x < 0x10000000000000000 → load8 (ld_mem l2) x = if decide (in_block d ms x) then if x - d <? fs then load8 m (src + (x - d)) else 0 else load8 m x) as Hfill.
  { intros x Hx. rewrite Hm2. apply fill_block; try done; try lia. unfold block_ok in *. lia. }
  assert (∀ x, ¬ lk_taken (ld_k l) x → ¬ in_block d ms x) as Hfree.
  { intros x Hno Hin. apply Hno, Htk. unfold in_block in *. lia. }
  assert (steady (ld_k l) (ld_k l1)) as Hst1.
  { apply (lk_frame (λ m, (memcpy d src fs m).2) (ld_k l) Hok). intros x Hx Hno. change (ks_mem (ld_k l)) with m. rewrite <- Hm1. by apply Hout1, Hfree. }
  assert (steady (ld_k l1) (ld_k l2)) as Hst2.
  { apply (lk_frame (memset (u64 (d + fs)) 0 (u64 (ms - fs))) (ld_k l1)); [apply Hst1|].
    intros x Hx Hno. rewrite Hd1, Hd2. change (ks_mem (ld_k l1)) with (ld_mem l1). rewrite Hm1, <- Hm2.
    assert (¬ in_block d ms x) as Hnb by (apply Hfree; intros Hin; by apply Hno, Hst1).
    rewrite Hfill, decide_False by done. by rewrite <- Hm1, Hout1. }
  exists l2. split; [done|]. split; [done|]. split; [done|]. split; [by eapply steady_trans|exact Hfill].
Qed.

Lemma load_segment_run elf pml p l :
  lk_ok (ld_k l) → lk_space (ld_k l) pml → segment_ok elf (ld_mem l) p →
  run (load_segment elf pml p) (λ _ l', ∃ r, segment_done elf pml p l l' r) l.
Proof.
  intros Hok Hpml Hseg. pose proof Hseg as [[Hhd Hhb] (Hms & Hfs & Hup) _]. set (m := ld_mem l) in *.
  pose proof (ALIGN_UP_bounds (p_memsz m p) ltac:(lia) ltac:(lia)) as [Hal Hmod].
  unfold load_segment. eapply runs_eq; [done|]. fold m. apply runs_bind. unfold runs at 1. rewrite on_svc_run.
  pose proof (lk_alloc (ALIGN_UP (p_memsz m p) PAGE_SIZE) (ld_k l) Hok ltac:(lia) Hmod) as Hal1. unfold runs in Hal1.
  destruct (ks_pmm_alloc _ (ld_k l)) as [[r k1]|e]; [|done]. destruct Hal1 as (Hk1 & Hmp1 & Hr).
  set (l1 := mk_loader _ _). assert (undisturbed l l1) as Hu1 by (split; [exact Hk1|done]).
  destruct (Z.eqb_spec (length r) 0) as [Hz|Hnz].
  { apply runs_bind. unfold truth. rewrite Hz. apply lk_assert. }
  destruct Hr as [?|(Hlen & Hpf & Hrx)]; [done|]. pose proof (page_frames_io r Hpf) as (_ & Hbk & Hr0 & Hr1). pose proof Hpf as (_ & ? & ? & ?).
  eapply runs_eq; [unfold truth; rewrite (proj2 (Z.eqb_neq _ _) Hnz); done|]. eapply runs_eq; [done|].
  apply runs_bind. unfold runs at 1. rewrite on_svc_run. change (ld_k l1) with k1.
  assert (lk_space k1 pml) as Hpml1 by by apply Hk1.
  pose proof (lk_map pml (mk_range (p_vaddr (ld_mem l1) p) (length r)) r true k1 (proj1 Hk1) Hpml1 eq_refl ltac:(cbn; lia)) as Hmap. unfold runs in Hmap.
  destruct (ks_vmm_map _ _ _ _ k1) as [[[] k2]|e]; [|done]. destruct Hmap as (Hk2 & Hmp2).
  set (l2 := mk_loader _ _). assert (undisturbed l1 l2) as Hu2 by (split; [exact Hk2|done]).
  pose proof (undisturbed_trans _ _ _ Hu1 Hu2) as Hu. destruct (header_same p _ _ (proj1 Hu) Hhd Hhb) as (_ & Ho2 & _ & Hf2 & Hs2).
  destruct (header_same p _ _ (proj1 Hu1) Hhd Hhb) as (_ & _ & Hv1 & _). fold m in Ho2, Hf2, Hs2, Hv1.
  assert (∀ x, in_block (mmap_phys_to_io (base r)) (length r) x → lk_taken (ld_k l2) x ∧ ¬ lk_quiet x) as Hblk.
  { intros x Hx. rewrite Hlen in Hx. destruct (Hrx x Hx) as (_ & Hq & Ht). split; [by apply Hk2|done]. }
  assert (segment_ok elf (ld_mem l2) p) as Hseg2 by (destruct Hseg; split; rewrite ?Ho2, ?Hf2, ?Hs2; done).
  destruct (write_segment_run elf p r l2 ltac:(apply Hk2) Hseg2 Hr0) as (l3 & Hw & Hlk3 & Hsc3 & Hst3 & Hmem3); [done|rewrite Hs2, Hlen; lia|exact Hblk|].
  fold (write_segment elf p r). unfold runs. rewrite Hw. exists r. rewrite Ho2, Hf2, Hs2 in Hmem3.
  assert (quiet_block (u64 (base elf + p_offset m p)) (p_filesz m p)) as Hsq by apply Hseg.
  assert (∀ x, 0 ≤ x < 0x10000000000000000 → lk_taken (ld_k l) x ∨ lk_quiet x → load8 (ld_mem l3) x = load8 (ld_mem l2) x) as Hkeep.
  { intros x Hrange Hx. rewrite Hmem3 by done. rewrite decide_False; [done|]. intros Hin.
    destruct (Hrx x) as (Hnt & Hnq & _); [unfold in_block in *; lia|]. by destruct Hx. }
  split; [|split; [by rewrite Hlk3|split; [split; [done|]|split; [split; [done|]|]]]].
  - split; [|by rewrite Hsc3]. destruct (proj1 Hu) as (_ & Hmem & Htk & Har & Hsp & Hcr). destruct Hst3 as (Hok3 & Htk3 & _ & Har3 & Hsp3 & Hcr3).
    split; [exact Hok3|]. split; [|split; [intros x Hx; by apply Htk3, Htk|split; [auto|split; [auto|congruence]]]].
    intros x Hrange Hx. rewrite Hkeep by done. by apply Hmem.
  - fold m. intros i Hi. rewrite Hmem3 by lia. rewrite decide_True by (unfold in_block; lia).
    replace (mmap_phys_to_io (base r) + i - mmap_phys_to_io (base r)) with i by lia. destruct (Z.ltb_spec i (p_filesz m p)); [|done].
    destruct Hseg as [_ _ (_ & Hs0 & Hsb)]. apply (proj1 Hu); [unfold block_ok in Hsb; lia|]. right. apply Hsq. unfold in_block. lia.
  - intros x Hx. rewrite Hlen in Hx. destruct (Hrx x Hx) as (Hnt & _ & Ht). split; [done|]. apply Hst3. by apply Hk2.
  - change (p_vaddr (ld_mem l) p) with (p_vaddr m p). rewrite <- Hv1, <- Hmp1. destruct Hst3 as (_ & _ & -> & _). exact Hmp2.
Qed.

(** The headers the loop visits. *)
Fixpoint phdrs (n : nat) (size phdr : Z) : list Z :=
  match n with O => [] | Datatypes.S n => phdr :: phdrs n size (u64 (phdr + size)) end.
Definition loadable (m : memory) (ps : list Z) : list Z := filter (λ p, p_type m p = PT_LOAD) ps.
Definition header_ok (elf : range_t) (m : memory) (p : Z) : Prop :=
  quiet_block p 48 ∧ block_ok p 48 ∧ (p_type m p = PT_LOAD → segment_ok elf m p).
Definition image_ok (elf : range_t) (m : memory) (ps : list Z) : Prop :=
  quiet_block (base elf) 64 ∧ block_ok (base elf) 64 ∧ Forall (header_ok elf m) ps.
Definition mapping (m : memory) (pml : Z) (p : Z) (r : range_t) : Z * range_t * range_t * bool :=
  (pml, mk_range (p_vaddr m p) (length r), r, true).

(** All the loadable segments, in frames of their own. *)
Definition segments_done (elf : range_t) (pml : Z) (ps : list Z) (l l' : loader K) : Prop :=
  undisturbed l l' ∧ ld_lock l' = ld_lock l ∧ ∃ rs,
    Forall2 (λ p r, loaded elf (ld_mem l) p r (ld_mem l')) ps rs ∧
    Forall (fresh_frames (ld_k l) (ld_k l')) rs ∧
    lk_mapped (ld_k l') = lk_mapped (ld_k l) ++ zip_with (mapping (ld_mem l) pml) ps rs.

Lemma segments_done_nil elf pml l : lk_ok (ld_k l) → segments_done elf pml [] l l.
Proof.
  intros Hok. split; [by apply undisturbed_refl|]. split; [done|]. exists []. split; [constructor|]. split; [constructor|]. by rewrite app_nil_r.
Qed.

(** Loading a segment leaves the other headers and their bytes as they were. *)
Lemma segment_ok_same elf p k k' : kept k k' → segment_ok elf (ks_mem k) p → segment_ok elf (ks_mem k') p.
Proof.
  intros Hu [[Hq Hb] Hs Hc]. destruct (header_same p k k' Hu Hq Hb) as (_ & Ho & _ & Hf & Hm).
  split; rewrite ?Ho, ?Hf, ?Hm; done.
Qed.
Lemma header_ok_same elf p k k' : kept k k' → header_ok elf (ks_mem k) p → header_ok elf (ks_mem k') p.
Proof.
  intros Hu (Hq & Hb & Hs). destruct (header_same p k k' Hu Hq Hb) as (Ht & _). split; [done|]. split; [done|].
  rewrite Ht. intros ?. by apply (segment_ok_same elf p k k'), Hs.
Qed.
Lemma loadable_same elf ps k k' : kept k k' → Forall (header_ok elf (ks_mem k)) ps → loadable (ks_mem k') ps = loadable (ks_mem k) ps.
Proof.
  intros Hu. unfold loadable. induction 1 as [|p ps (Hq & Hb & _) _ IH]; [done|]. rewrite !filter_cons, IH.
  destruct (header_same p k k' Hu Hq Hb) as (Ht & _). rewrite Ht. by case_decide.
Qed.
Lemma loaded_same elf p r k k' m : kept k k' → segment_ok elf (ks_mem k) p → loaded elf (ks_mem k') p r m → loaded elf (ks_mem k) p r m.
Proof.
  intros Hu [[Hq Hb] _ (Hsq & Hs0 & Hsb)]. destruct (header_same p k k' Hu Hq Hb) as (_ & Ho & _ & Hf & Hm).
  unfold loaded. rewrite Ho, Hf, Hm. intros [Hl Hc]. split; [done|]. intros i Hi. rewrite Hc by done.
  destruct (Z.ltb_spec i (p_filesz (ks_mem k) p)); [|done]. apply Hu; [unfold block_ok in Hsb; lia|]. right. apply Hsq. unfold in_block. lia.
Qed.
(** ... and what comes later leaves it as it is. *)
Lemma fresh_frames_before k k1 k' r : kept k k1 → fresh_frames k1 k' r → fresh_frames k k' r.
Proof. intros Hk [Hb Hx]. split; [done|]. intros x Hin. destruct (Hx x Hin) as [Hn Ht]. split; [|done]. intros ?. by apply Hn, Hk. Qed.
Lemma fresh_frames_after k k1 k' r : kept k1 k' → fresh_frames k k1 r → fresh_frames k k' r.
Proof. intros Hk [Hb Hx]. split; [done|]. intros x Hin. destruct (Hx x Hin) as [Hn Ht]. split; [done|]. by apply Hk. Qed.
Lemma loaded_kept elf m p r k k1 k' : kept k1 k' → fresh_frames k k1 r → 0 < p_memsz m p → p_memsz m p + 4095 < 0x8000000000000000 →
  loaded elf m p r (ks_mem k1) → loaded elf m p r (ks_mem k').
Proof.
  intros Hu [(_ & Hb & _)%page_frames_io Htk] Hpos Hup [Hl Hc]. split; [done|]. intros i Hi. rewrite <- Hc by done.
  destruct (ALIGN_UP_bounds (p_memsz m p)) as [Hal _]; [lia|lia|].
  apply Hu; [unfold block_ok in Hb; lia|]. left. apply Htk. unfold in_block. lia.
Qed.
Lemma loaded_all_kept elf m ps rs k k1 k' : kept k1 k' → Forall (fresh_frames k k1) rs → Forall (segment_ok elf m) ps →
  Forall2 (λ p r, loaded elf m p r (ks_mem k1)) ps rs → Forall2 (λ p r, loaded elf m p r (ks_mem k')) ps rs.
Proof.
  intros Hk Hfr Hps Hf. induction Hf as [|p r ps rs Hl _ IH]; [done|]. apply Forall_cons in Hfr as [Hr Hfr]. apply Forall_cons in Hps as [[_ (? & _ & ?) _] Hps].
  constructor; [by apply (loaded_kept elf m p r k k1 k')|by apply IH].
Qed.
Lemma loaded_all_same elf pml ps rs k k' m : kept k k' → Forall (segment_ok elf (ks_mem k)) ps →
  Forall2 (λ p r, loaded elf (ks_mem k') p r m) ps rs →
  Forall2 (λ p r, loaded elf (ks_mem k) p r m) ps rs ∧ zip_with (mapping (ks_mem k') pml) ps rs = zip_with (mapping (ks_mem k) pml) ps rs.
Proof.
  intros Hu Hps Hf. induction Hf as [|p r ps rs Hl _ IH]; [done|]. apply Forall_cons in Hps as [Hp Hps].
  destruct (IH Hps) as [IH1 IH2]. split.
  - constructor; [by apply (loaded_same elf p r k k')|done].
  - cbn [zip_with]. rewrite IH2. f_equal. destruct Hp as [[Hq Hb] _ _]. unfold mapping.
    by destruct (header_same p k k' Hu Hq Hb) as (_ & _ & -> & _).
Qed.

Lemma segments_done_cons elf pml p ps l l1 l2 r :
  segment_ok elf (ld_mem l) p → Forall (segment_ok elf (ld_mem l)) ps → segment_done elf pml p l l1 r →
  segments_done elf pml ps l1 l2 → segments_done elf pml (p :: ps) l l2.
Proof.
  intros Hp Hps (Hu1 & Hl1 & Hld & Hfr & Hmp) (Hu2 & Hl2 & rs & Hf & Hfrs & Hmps). pose proof Hp as [_ (? & _ & ?) _].
  destruct (loaded_all_same elf pml ps rs (ld_k l) (ld_k l1) _ (proj1 Hu1) Hps Hf) as [Hf' Hz].
  split; [by eapply undisturbed_trans|]. split; [congruence|]. exists (r :: rs). split; [|split].
  - constructor; [|done]. by apply (loaded_kept elf _ p r (ld_k l) (ld_k l1) (ld_k l2) (proj1 Hu2)).
  - constructor; [by apply (fresh_frames_after _ (ld_k l1)); [apply Hu2|]|].
    eapply Forall_impl; [exact Hfrs|]. intros q. by apply fresh_frames_before, Hu1.
  - rewrite Hmps, Hmp, <- app_assoc. f_equal. cbn [zip_with app]. by rewrite Hz.
Qed.

(** The loop visits the [n] headers that are left. *)
Definition phnum_left (elf : range_t) (m : memory) (i : Z) (n : nat) (size : Z) : Prop :=
  e_phnum m (base elf) = i + Z.of_nat n ∧ e_phentsize m (base elf) = size.
Lemma elf_header_same elf k k' : kept k k' → quiet_block (base elf) 64 → block_ok (base elf) 64 →
  e_phnum (ks_mem k') (base elf) = e_phnum (ks_mem k) (base elf) ∧ e_phentsize (ks_mem k') (base elf) = e_phentsize (ks_mem k) (base elf) ∧
  e_entry (ks_mem k') (base elf) = e_entry (ks_mem k) (base elf) ∧ e_phoff (ks_mem k') (base elf) = e_phoff (ks_mem k) (base elf).
Proof.
  intros Hl Hq Hb. assert (∀ n o, 0 ≤ o → o + Z.of_nat n ≤ 64 → load_le n (ks_mem k') (base elf + o) = load_le n (ks_mem k) (base elf + o)) as Hload.
  { intros n o Ho Hn. apply quiet_load; [done| |unfold block_ok in *; lia]. intros x Hx. apply Hq. unfold in_block in *. lia. }
  split_and!; apply Hload; lia.
Qed.
Lemma image_ok_same elf ps k k' : kept k k' → image_ok elf (ks_mem k) ps → image_ok elf (ks_mem k') ps.
Proof. intros Hu (Hq & Hb & Hf). split; [done|]. split; [done|]. eapply Forall_impl; [exact Hf|]. intros p. by apply header_ok_same. Qed.
Lemma loadable_ok elf m ps : Forall (header_ok elf m) ps → Forall (segment_ok elf m) (loadable m ps).
Proof.
  intros Hf. apply Forall_forall. intros p [Ht Hp]%list_elem_of_filter. by apply (proj1 (Forall_forall _ _) Hf).
Qed.

Lemma load_segments_run elf pml size n : ∀ fuel i phdr l,
  (n < fuel)%nat → lk_ok (ld_k l) → lk_space (ld_k l) pml → phnum_left elf (ld_mem l) i n size → image_ok elf (ld_mem l) (phdrs n size phdr) →
  run (load_segments fuel i elf pml phdr) (λ _ l', segments_done elf pml (loadable (ld_mem l) (phdrs n size phdr)) l l') l.
Proof.
  induction n as [|n IH]; intros [|fuel] i phdr l Hfuel Hok Hpml [Hn Hsz] Hig; try lia; cbn [load_segments phdrs].
  - eapply runs_eq; [done|]. rewrite Hn, (proj2 (Z.ltb_ge _ _)) by lia. apply runs_ret. by apply segments_done_nil.
  - eapply runs_eq; [done|]. rewrite Hn, (proj2 (Z.ltb_lt _ _)) by lia. eapply runs_eq; [done|].
    pose proof Hig as (Hq & Hb & [Hp Hps]%Forall_cons).
    assert (∀ l1, undisturbed l l1 → run (gets (λ l, e_phentsize (ld_mem l) (base elf)) ≫= λ size', load_segments fuel (i + 1) elf pml (u64 (phdr + size')))
      (λ _ l', segments_done elf pml (loadable (ld_mem l) (phdrs n size (u64 (phdr + size)))) l1 l') l1) as Hrest.
    { intros l1 Hu. destruct (elf_header_same elf _ _ (proj1 Hu) Hq Hb) as (Hn1 & Hs1 & _). eapply runs_eq; [done|]. rewrite Hs1, Hsz.
      rewrite <- (loadable_same elf (phdrs n size (u64 (phdr + size))) _ _ (proj1 Hu) Hps). apply IH; [lia|apply Hu|by apply Hu| |].
      - split; [rewrite Hn1; lia|by rewrite Hs1].
      - apply (image_ok_same elf _ _ _ (proj1 Hu)). by split_and!. }
    apply runs_bind. unfold loadable. rewrite filter_cons. destruct (Z.eqb_spec (p_type (ld_mem l) phdr) PT_LOAD) as [Ht|Ht].
    + rewrite decide_True by done. assert (segment_ok elf (ld_mem l) phdr) as Hseg by by apply Hp.
      eapply runs_post; [|by apply load_segment_run]. intros [] l1 [r Hd].
      eapply runs_post; [|apply Hrest; apply Hd]. intros [] l2 Hd2.
      by apply (segments_done_cons elf pml phdr _ l l1 l2 r), Hd2; [|apply loadable_ok|].
    + rewrite decide_False by done. apply runs_ret. apply Hrest. by apply undisturbed_refl.
Qed.

Lemma e_phnum_range m h : 0 ≤ e_phnum m h < 0x10000.
Proof. apply (load_le_range 2). Qed.
Lemma phnum_fuel m h : (Z.to_nat (e_phnum m h) < PHNUM_FUEL)%nat.
Proof. apply Z2Nat.inj_lt; pose proof (e_phnum_range m h); lia. Qed.

(** Changes of the loader's own state around the loop. *)
Lemma segments_done_around elf pml ps l l1 l2 l3 :
  undisturbed l l1 → Forall (segment_ok elf (ld_mem l)) ps → lk_mapped (ld_k l1) = lk_mapped (ld_k l) →
  segments_done elf pml ps l1 l2 →
  undisturbed l2 l3 → ld_mem l3 = ld_mem l2 → lk_mapped (ld_k l3) = lk_mapped (ld_k l2) → ld_lock l3 = ld_lock l →
  segments_done elf pml ps l l3.
Proof.
  intros Hu Hps Hmp (Hu2 & _ & rs & Hf & Htk & Hmp2) Hu3 Hm3 Hmp3 Hlk. split; [by do 2 (eapply undisturbed_trans; [done|])|].
  split; [done|]. exists rs. rewrite Hm3. destruct (loaded_all_same elf pml ps rs _ _ _ (proj1 Hu) Hps Hf) as [Hf' Hz]. split; [done|]. split.
  - eapply Forall_impl; [exact Htk|]. intros r Hr. eapply fresh_frames_before; [apply Hu|]. eapply fresh_frames_after; [apply Hu3|done].
  - by rewrite Hmp3, Hmp2, Hmp, Hz.
Qed.

Lemma undisturbed_irq b v l : lk_ok (ld_k l) →
  let l' := mk_loader (set_k (ks_set_hw (hw_set_if b (ks_hw (ld_k l))) (ld_k l)) (ld_sched l)) v in
  undisturbed l l' ∧ ld_mem l' = ld_mem l ∧ lk_mapped (ld_k l') = lk_mapped (ld_k l).
Proof.
  intros Hok l'. destruct (kept_irq b (ld_k l) Hok) as [Hk Hmp]. split; [by split|]. split; [|done].
  unfold ks_mem, l'. cbn. by rewrite ks_get_set.
Qed.

Lemma ld_release_run l : lk_ok (ld_k l) →
  ∃ l', ld_release l = Ok (tt, l') ∧ ld_lock l' = 0 ∧ undisturbed l l' ∧ ld_mem l' = ld_mem l ∧ lk_mapped (ld_k l') = lk_mapped (ld_k l).
Proof. intros Hok. eexists. split; [done|]. split; [done|]. by apply (undisturbed_irq true 0 l). Qed.

Definition image_phdrs (m : memory) (elf : range_t) : list Z :=
  phdrs (Z.to_nat (e_phnum m (base elf))) (e_phentsize m (base elf)) (u64 (base elf + e_phoff m (base elf))).
Lemma space_create_undisturbed l : lk_ok (ld_k l) →
  run (on_svc ks_space_create) (λ t l', undisturbed l l' ∧ ld_lock l' = ld_lock l ∧ lk_mapped (ld_k l') = lk_mapped (ld_k l) ∧
    lk_space (ld_k l') t ∧ ¬ lk_space (ld_k l) t) l.
Proof.
  intros Hok. unfold runs. rewrite on_svc_run. pose proof (lk_create (ld_k l) Hok) as Hs. unfold runs in Hs.
  destruct (ks_space_create (ld_k l)) as [[a k]|e]; [|done]. destruct Hs as (Hk & Hmp & Hsp). destruct Hsp as [Hs1 Hs2]. split; [by split|]. by repeat split.
Qed.

Lemma load_elf_module_cases elf l :
  ld_lock l = 0 → lk_ok (ld_k l) → image_ok elf (ld_mem l) (image_phdrs (ld_mem l) elf) →
  (∃ e, lk_stops e ∧ load_elf_module elf l = Err e) ∨
  ∃ pml l1, segments_done elf pml (loadable (ld_mem l) (image_phdrs (ld_mem l) elf)) l l1 ∧ ld_lock l1 = 0 ∧
    ¬ lk_space (ld_k l) pml ∧ lk_space (ld_k l1) pml ∧
    load_elf_module elf l = on_task (task_init pml (e_entry (ld_mem l) (base elf))) l1.
Proof.
  intros Hlk Hok Hig. unfold load_elf_module.
  pose proof (phnum_fuel (ld_mem l) (base elf)) as Hfuel. revert Hfuel. generalize PHNUM_FUEL as fuel. intros fuel Hfuel. pose proof Hig as (Hq & Hb & Hps).
  destruct (undisturbed_irq false 1 l Hok) as (Hu1 & Hm1 & Hmp1). set (l1 := mk_loader _ _) in *.
  rewrite (bind_eq _ _ _ tt l1) by (unfold ld_acquire; by rewrite Hlk).
  rewrite (bind_eq _ _ _ (u64 (base elf + e_phoff (ld_mem l) (base elf))) l1) by (unfold gets; by rewrite Hm1).
  pose proof (space_create_undisturbed l1 ltac:(apply Hu1)) as Hsp. unfold runs in Hsp.
  destruct (on_svc ks_space_create l1) as [[pml l2]|e] eqn:Esp; [|left; exists e; split; [done|by apply bind_Err]].
  destruct Hsp as (Hu2 & _ & Hmp2 & Hnew & Hold). rewrite (bind_eq _ _ _ _ _ Esp).
  pose proof (undisturbed_trans _ _ _ Hu1 Hu2) as Hu. destruct (elf_header_same elf _ _ (proj1 Hu) Hq Hb) as (Hn & Hs & _ & _).
  pose proof (load_segments_run elf pml (e_phentsize (ld_mem l) (base elf)) (Z.to_nat (e_phnum (ld_mem l) (base elf))) fuel 0
    (u64 (base elf + e_phoff (ld_mem l) (base elf))) l2) as Hload.
  specialize (Hload Hfuel ltac:(apply Hu2) Hnew).
  specialize (Hload ltac:(split; [rewrite Hn, Z2Nat.id by apply e_phnum_range; lia|done]) (image_ok_same elf _ _ _ (proj1 Hu) Hig)).
  fold (image_phdrs (ld_mem l) elf) in Hload. rewrite (loadable_same elf _ _ _ (proj1 Hu) Hps) in Hload. unfold runs in Hload.
  destruct (load_segments _ _ _ _ _ l2) as [[[] l3]|e] eqn:El; [|left; exists e; split; [done|by apply bind_Err]].
  rewrite (bind_eq _ _ _ _ _ El). right. destruct (ld_release_run l3 ltac:(apply Hload)) as (l4 & Hrel & Hl4 & Hu4 & Hm4 & Hmp4).
  rewrite (bind_eq _ _ _ _ _ Hrel).
  pose proof (undisturbed_trans _ _ _ (undisturbed_trans _ _ _ Hu (proj1 Hload)) Hu4) as Hu5.
  destruct (elf_header_same elf _ _ (proj1 Hu5) Hq Hb) as (_ & _ & He & _). rewrite (bind_eq _ _ _ (e_entry (ld_mem l) (base elf)) l4) by (unfold gets; by rewrite He).
  exists pml, l4. split; [|split; [done|split; [intros Hpo; by apply Hold, Hu1|split; [|done]]]].
  2: { apply Hu4, Hload, Hnew. }
  apply (segments_done_around elf pml _ l l2 l3 l4); [exact Hu|by apply loadable_ok|congruence|exact Hload|exact Hu4|exact Hm4|exact Hmp4|congruence].
Qed.

End loading.

(** ** Services that record their mappings

    Whole frames handed out one after the other up to [MAPPER_END], and the
    mappings asked for. *)
Record mapper : Type := mk_mapper { mp_hw : hw; mp_next : Z; mp_maps : list (Z * range_t * range_t * bool) }.
Definition MAPPER_END : Z := 0x400000000000.
Definition whole_pages (n : Z) : Z := (n + 4095) / 4096 * 4096.
Definition mapper_take (n : Z) : M mapper range_t := λ k,
  if (0 <? n) && (mp_next k + whole_pages n <? MAPPER_END) then Ok (mk_range (mp_next k) n, mk_mapper (mp_hw k) (mp_next k + whole_pages n) (mp_maps k))
  else Ok (mk_range 0 0, k).
(** The same for the kernel's own objects, which are there or the assertion fails. *)
Definition mapper_object (n : Z) : M mapper Z :=
  mapper_take n ≫= λ r, assert_ (truth (length r)) ≫= λ _, mret (mmap_phys_to_io (base r)).
#[export] Instance mapper_services : KernelServices mapper := {
  ks_hw := mp_hw;
  ks_set_hw := λ h k, mk_mapper h (mp_next k) (mp_maps k);
  ks_malloc := mapper_object;
  ks_realloc := λ _, mapper_object;
  ks_free := λ _, mret tt;
  ks_pmm_alloc := mapper_take;
  ks_pmm_free := λ _, mret tt;
  ks_vmm_map := λ pml v p u, modify (λ k, mk_mapper (mp_hw k) (mp_next k) (mp_maps k ++ [(pml, v, p, u)]));
  ks_space_create := mapper_object PAGE_SIZE;
  ks_space_destroy := λ _, mret tt
}.
#[export] Instance mapper_laws : KernelServicesLaws mapper.
Proof. split; [done|by intros []|done]. Qed.

Definition mapper_taken (k : mapper) (x : Z) : Prop := MMAP_IO_BASE ≤ x < MMAP_IO_BASE + mp_next k.
(** Each object is at once an area and, if it starts at a page, a space. *)
#[export] Instance mapper_view : LoaderView mapper := {
  lk_ok := λ k, 0 ≤ mp_next k < MAPPER_END ∧ mp_next k mod 4096 = 0;
  lk_taken := mapper_taken;
  lk_quiet := λ x, x < MMAP_IO_BASE;
  lk_area := λ k p n, MMAP_IO_BASE ≤ p ∧ p + n ≤ MMAP_IO_BASE + mp_next k;
  lk_space := λ k t, ∃ f, t = frame_io f ∧ 0 ≤ f ∧ 4096 * f < mp_next k;
  lk_mapped := mp_maps;
  lk_stops := λ e, e = AssertFailed
}.
Lemma mapper_kept (k k' : mapper) : lk_ok k' → mp_next k ≤ mp_next k' →
  hw_mem (mp_hw k') = hw_mem (mp_hw k) → hw_cr3 (mp_hw k') = hw_cr3 (mp_hw k) → kept k k'.
Proof.
  intros Hok Hn Hh Hc. split; [done|]. split; [intros x _ _; unfold ks_mem; cbn; by rewrite Hh|]. split; [intros x; cbn; unfold mapper_taken; lia|].
  split; [intros p n; cbn; lia|]. split; [|done]. intros t (f & -> & Hf & Hlt). exists f. split; [done|]. lia.
Qed.
Lemma mapper_take_spec n (k : mapper) : lk_ok k →
  ∃ r k', mapper_take n k = Ok (r, k') ∧ kept k k' ∧ mp_maps k' = mp_maps k ∧
    (length r = 0 ∨ length r = n ∧ 0 < n ∧ base r = mp_next k ∧ mp_next k' = mp_next k + whole_pages n ∧ n ≤ whole_pages n).
Proof.
  intros Hk. pose proof Hk as [Hb Hm]. unfold mapper_take. destruct (andb _ _) eqn:E; (eexists _, _; split; [done|]).
  - apply andb_true_iff in E as [?%Z.ltb_lt ?%Z.ltb_lt]. assert (n ≤ whole_pages n ∧ whole_pages n mod 4096 = 0) as [Hw Hw'].
    { unfold whole_pages. split; [Z.div_mod_to_equations; lia|by apply Z.mod_mul]. }
    split; [apply mapper_kept; cbn; [split; [lia|]|lia|done|done]|split; [done|right; done]].
    rewrite Z.add_mod, Hm, Hw' by done. done.
  - split; [by apply mapper_kept|]. split; [done|]. by left.
Qed.
Lemma mapper_object_spec n (k : mapper) : lk_ok k → 0 < n →
  runs lk_stops (mapper_object n) (λ p k', kept k k' ∧ mp_maps k' = mp_maps k ∧ p = MMAP_IO_BASE + mp_next k ∧
    n ≤ whole_pages n ∧ mp_next k' = mp_next k + whole_pages n) k.
Proof.
  intros Hk Hn. destruct (mapper_take_spec n k Hk) as (r & k' & Ht & Hkept & Hmp & Hr). unfold mapper_object.
  eapply runs_eq; [exact Ht|]. unfold truth. destruct (Z.eqb_spec (length r) 0) as [Hz|Hz]; [done|].
  eapply runs_eq; [done|]. destruct Hr as [?|(_ & _ & Hb & Hnx & Hw)]; [done|]. cbv [runs mret M_ret]. split_and!; try done.
  destruct Hk as [Hk _]. unfold mmap_phys_to_io, MAPPER_END, MMAP_IO_BASE in *. rewrite Hb, u64_small; lia.
Qed.
#[export] Instance mapper_loader : LoaderServices mapper.
Proof.
  split.
  - done.
  - intros k t [Hk _] (f & -> & Hf & Hlt). exists f. split; [done|]. unfold MAPPER_END in Hk. lia.
  - intros f k Hk _. by split_and!.
  - intros n k Hk Hn _. destruct (mapper_take_spec n k Hk) as (r & k' & Ht & Hkept & Hmp & Hr). unfold runs. change (ks_pmm_alloc n k) with (mapper_take n k).
    rewrite Ht. split; [done|]. split; [done|]. destruct Hr as [?|(Hl & _ & Hb & Hnx & Hw)]; [by left|right]. split; [done|].
    destruct Hk as [Hk Hmod], Hkept as ([Hk' _] & _). cbn. unfold mmap_phys_to_io, MMAP_IO_BASE, mapper_taken, MAPPER_END, in_block in *.
    rewrite u64_small by lia. split; [unfold page_frames; rewrite Hb, Hl; split; [done|lia]|]. intros x Hx. unfold MMAP_IO_BASE. lia.
  - intros pml v p u k Hk _ _ _. split; [by apply mapper_kept|done].
  - intros k Hk. eapply runs_post; [|exact (mapper_object_spec PAGE_SIZE k Hk ltac:(done))].
    intros t k' (Hkept & Hmp & -> & _ & Hnx). split; [done|]. split; [done|]. destruct Hk as [Hk Hm].
    assert (MMAP_IO_BASE + mp_next k = frame_io (mp_next k / 4096)) as -> by (unfold frame_io; Z.div_mod_to_equations; lia).
    change (whole_pages PAGE_SIZE) with 4096 in Hnx. split.
    + exists (mp_next k / 4096). split; [done|]. rewrite Hnx. Z.div_mod_to_equations; lia.
    + intros (f & Heq & Hf & Hlt). assert (f = mp_next k / 4096) as -> by (unfold frame_io in Heq; lia). Z.div_mod_to_equations; lia.
  - intros b k Hk. split; [by apply mapper_kept|done].
Qed.

(** A module at 0x1000: one segment of three file bytes in ten, and a note. *)
Definition sample_image : memory :=
  store_le 4 0x1078 4 (store64 0x1068 10 (store64 0x1060 3 (store64 0x1050 0x400000 (store64 0x1048 0x100 (store_le 4 0x1040 PT_LOAD
  (store_le 2 0x1038 2 (store_le 2 0x1036 56 (store64 0x1020 64 (store64 0x1018 0x400000 (store8 0x1100 0x11 (store8 0x1101 0x22 (store8 0x1102 0x33
  (λ _, 0))))))))))))).
Definition sample_loader : loader mapper :=
  mk_loader (mk_sched (mk_mapper (mk_hw sample_image true 0 []) 0x10000 []) ∅ (mk_vec 0x4000 [] 0 2 0) 0 0 0 0 1 false false ∅) 0.
Definition sample_elf : range_t := mk_range 0x1000 0x1000.
Lemma sample_image_ok : image_phdrs sample_image sample_elf = [0x1040; 0x1078] ∧ image_ok (K := mapper) sample_elf sample_image [0x1040; 0x1078].
Proof.
  split; [vm_compute; reflexivity|].
  assert (∀ a n, 0 ≤ a → a + n < 0x10000 → quiet_block (K := mapper) a n) as Hq by (intros a n Ha Hn x; unfold in_block; cbn; unfold MMAP_IO_BASE; lia).
  split; [by apply Hq|]. split; [done|]. constructor; [|constructor; [|constructor]]; (split; [by apply Hq|]); (split; [done|]).
  - intros _. assert (p_memsz sample_image 0x1040 = 10 ∧ p_filesz sample_image 0x1040 = 3 ∧ u64 (base sample_elf + p_offset sample_image 0x1040) = 0x1100)
      as (Hm & Hf & Hs) by (vm_compute; done).
    split; [split; [by apply Hq|done]|rewrite Hm, Hf; lia|]. rewrite Hs, Hf. split; [by apply Hq|done].
  - intros Ht. by vm_compute in Ht.
Qed.
