(* ===== verification/Devices.v ===== *)
(** arch/cross-x86: port I/O (asm.c), the interrupt controller (pic.c), the timer
    (pit.c), the real-time clock (rtc.c) and the serial port (serial.c).

    What the devices answer is not in the source: a [Bus] is their state with
    its reaction to a read and to a write of a port.  The driver's own writes
    are recorded in order in [outs].  Loops that wait for a device take the
    number of reads to wait for. *)
From S2P Require Import Prelude CString.

Class Bus (B : Type) : Type := {
  bus_in : Z → B → Z * B;
  bus_out : Z → Z → B → B
}.

Record devices (B : Type) : Type := mk_devices {
  dv_bus : B;
  outs : list (Z * Z);        (** port and byte of each write, oldest first *)
  is_serial_init : bool
}.
Arguments mk_devices {B}.
Arguments dv_bus {B}.
Arguments outs {B}.
Arguments is_serial_init {B}.

Definition MASTER_CMD : Z := 0x20.
Definition MASTER_DATA : Z := 0x21.
Definition MASTER_OFFSET : Z := 0x20.
Definition SLAVE_CMD : Z := 0xa0.
Definition SLAVE_DATA : Z := 0xa1.
Definition SLAVE_OFFSET : Z := 0x28.
Definition SERIAL_COM1 : Z := 0x3f8.

Section devices.
Context {B : Type} `{Bus B}.
Abbreviation D := (M (devices B)).

Definition asm_in8 (port : Z) : D Z := λ d,
  let '(v, b) := bus_in (u16 port) (dv_bus d) in Ok (u8 v, mk_devices b (outs d) (is_serial_init d)).
Definition asm_out8 (port data : Z) : D unit := modify (λ d,
  mk_devices (bus_out (u16 port) (u8 data) (dv_bus d)) (outs d ++ [(u16 port, u8 data)]) (is_serial_init d)).
(** Two jumps. *)
Definition io_wait : D unit := mret tt.

Definition pic_init : D unit :=
  asm_out8 MASTER_CMD (Z.lor 0x10 0x01) ≫= λ _,
  io_wait ≫= λ _,
  asm_out8 SLAVE_CMD (Z.lor 0x10 0x01) ≫= λ _,
  io_wait ≫= λ _,
  asm_out8 MASTER_DATA MASTER_OFFSET ≫= λ _,
  io_wait ≫= λ _,
  asm_out8 SLAVE_DATA SLAVE_OFFSET ≫= λ _,
  io_wait ≫= λ _,
  asm_out8 MASTER_DATA 4 ≫= λ _,
  io_wait ≫= λ _,
  asm_out8 SLAVE_DATA 2 ≫= λ _,
  io_wait ≫= λ _,
  asm_out8 MASTER_DATA 0x01 ≫= λ _,
  io_wait ≫= λ _,
  asm_out8 SLAVE_DATA 0x01 ≫= λ _,
  io_wait ≫= λ _,
  asm_out8 MASTER_DATA 0 ≫= λ _,
  io_wait ≫= λ _,
  asm_out8 SLAVE_DATA 0 ≫= λ _,
  io_wait.

(** [intno] is an [int]. *)
Definition pic_sendEOI (intno : Z) : D unit :=
  when (40 <=? s32 intno) (asm_out8 SLAVE_CMD 0x20) ≫= λ _,
  asm_out8 MASTER_CMD 0x20.

Definition pit_read_count : D Z :=
  asm_out8 0x43 0 ≫= λ _,
  asm_in8 0x40 ≫= λ counter,
  asm_in8 0x40 ≫= λ high,
  mret (Z.lor counter (Z.shiftl high 8)).

Definition pit_init (hz : Z) : D unit :=
  (if hz =? 0 then fail DivideError else mret (Z.quot 1193180 hz)) ≫= λ divisor,
  asm_out8 0x43 0x36 ≫= λ _,
  asm_out8 0x40 (Z.land divisor 0xff) ≫= λ _,
  asm_out8 0x40 (Z.land (Z.shiftr divisor 8) 0xff).

Fixpoint pit_wait (reads : nat) : D unit :=
  match reads with
  | O => fail OutOfFuel
  | S reads => pit_read_count ≫= λ c, if c =? 0 then pit_wait reads else mret tt
  end.
(** [ms] is a [uint16_t]. *)
Definition pit_sleep (reads : nat) (ms : Z) : D unit :=
  asm_out8 0x43 0x30 ≫= λ _,
  asm_out8 0x40 (Z.land (u16 ms) 0xff) ≫= λ _,
  asm_out8 0x40 (Z.land (Z.shiftr (u16 ms) 8) 0xff) ≫= λ _,
  pit_wait reads.

Definition is_updating : D Z :=
  asm_out8 0x70 0x0a ≫= λ _,
  asm_in8 0x71 ≫= λ v,
  mret (Z.land v 0x80).
Fixpoint rtc_wait (reads : nat) : D unit :=
  match reads with
  | O => fail OutOfFuel
  | S reads => is_updating ≫= λ u, if truth u then rtc_wait reads else mret tt
  end.
(** [read] of rtc.c. *)
Definition rtc_read (reads : nat) (reg : Z) : D Z :=
  rtc_wait reads ≫= λ _,
  asm_out8 0x70 reg ≫= λ _,
  asm_in8 0x71.
Definition rtc_sec (reads : nat) : D Z :=
  rtc_read reads 0 ≫= λ sec,
  mret (u8 (Z.land sec 0xf + Z.quot sec 0x10 * 0xa)).

Definition serial_init (port : Z) : D unit :=
  asm_out8 (port + 1) 0x00 ≫= λ _,
  asm_out8 (port + 0) 0x03 ≫= λ _,
  asm_out8 (port + 1) 0x00 ≫= λ _,
  asm_out8 (port + 3) 0x03 ≫= λ _,
  asm_out8 (port + 2) 0xc7 ≫= λ _,
  asm_out8 (port + 4) 0x0b ≫= λ _,
  asm_out8 (port + 4) 0x1e ≫= λ _,
  asm_out8 (port + 0) 0xae ≫= λ _,
  asm_out8 (port + 4) 0x0f ≫= λ _,
  modify (λ d, mk_devices (dv_bus d) (outs d) true).

Fixpoint serial_wait (reads : nat) : D unit :=
  match reads with
  | O => fail OutOfFuel
  | S reads =>
      asm_in8 (SERIAL_COM1 + 5) ≫= λ v,
      if Z.land v 0x20 =? 0 then serial_wait reads else mret tt
  end.
Definition serial_putc (reads : nat) (c : Z) : D unit :=
  gets is_serial_init ≫= λ i,
  when (negb i) (serial_init SERIAL_COM1) ≫= λ _,
  serial_wait reads ≫= λ _,
  asm_out8 SERIAL_COM1 c.

(** [while ( *s != '\0') serial_putc( *s++)], the string being the list from [s]. *)
Fixpoint serial_loop (reads : nat) (s : list Z) : D unit :=
  match s with
  | [] => fail BadAccess
  | c :: s => if c =? 0 then mret tt else serial_putc reads c ≫= λ _, serial_loop reads s
  end.
Definition serial_puts (reads : nat) (s : charp) : D unit :=
  match s with None => fail BadAccess | Some s => serial_loop reads s end.

(** *** What the waits need of a device: to answer in a bounded number of reads *)

(** The device after [k] reads of [port] that leave the line busy. *)
Fixpoint polls (port : Z) (k : nat) (b : B) : B :=
  match k with O => b | S k => polls port k (snd (bus_in port b)) end.
Definition transmitter_ready (reads : nat) : Prop :=
  ∀ b, ∃ k, (k < reads)%nat ∧ Z.testbit (fst (bus_in (SERIAL_COM1 + 5) (polls (SERIAL_COM1 + 5) k b))) 5 = true.

(** The writes of [serial_init]. *)
Definition serial_setup : list (Z * Z) :=
  [(0x3f9, 0); (0x3f8, 3); (0x3f9, 0); (0x3fb, 3); (0x3fa, 0xc7); (0x3fc, 0xb); (0x3fc, 0x1e); (0x3f8, 0xae); (0x3fc, 0xf)].

Lemma serial_wait_ready reads d :
  (∃ k, (k < reads)%nat ∧ Z.testbit (fst (bus_in (SERIAL_COM1 + 5) (polls (SERIAL_COM1 + 5) k (dv_bus d)))) 5 = true) →
  ∃ b, serial_wait reads d = Ok (tt, mk_devices b (outs d) (is_serial_init d)).
Proof.
  revert d. induction reads as [|reads IH]; intros d (k & Hk & Hbit); [lia|].
  cbn [serial_wait]. unfold mbind at 1, M_bind at 1, asm_in8. change (u16 (SERIAL_COM1 + 5)) with (SERIAL_COM1 + 5).
  destruct (bus_in (SERIAL_COM1 + 5) (dv_bus d)) as [v b] eqn:Hin.
  pose proof (land_pow2_truth (u8 v) 5 ltac:(lia)) as Ht. change (Z.shiftl 1 5) with 0x20 in Ht.
  rewrite testbit_u8 in Ht by lia. unfold truth in Ht.
  destruct (Z.land (u8 v) 0x20 =? 0); cbn [negb] in Ht; [|by exists b].
  apply (IH (mk_devices b (outs d) (is_serial_init d))). destruct k as [|k].
  - cbn [polls] in Hbit. rewrite Hin in Hbit. cbn [fst] in Hbit. congruence.
  - exists k. split; [lia|]. cbn [polls] in Hbit. by rewrite Hin in Hbit.
Qed.

Lemma serial_putc_eq reads c d :
  transmitter_ready reads → is_char c →
  ∃ b, serial_putc reads c d =
    Ok (tt, mk_devices b (outs d ++ (if is_serial_init d then [] else serial_setup) ++ [(SERIAL_COM1, c)]) true).
Proof.
  intros Hready Hc. unfold serial_putc. rewrite (bind_eq _ _ _ (is_serial_init d) d) by done.
  destruct d as [b o i]. cbn [is_serial_init outs]. unfold is_char in Hc.
  destruct i; cbn [negb when].
  - rewrite (bind_eq _ _ _ tt _ eq_refl). destruct (serial_wait_ready reads (mk_devices b o true) (Hready b)) as [b' Hw].
    rewrite (bind_eq _ _ _ _ _ Hw). eexists. unfold asm_out8, modify. cbn. by rewrite u8_small by lia.
  - destruct (serial_init SERIAL_COM1 (mk_devices b o false)) as [[[] [b1 o1 i1]]|] eqn:Hinit;
      [|cbv in Hinit; discriminate].
    unfold serial_init, mbind, M_bind, asm_out8, modify in Hinit. cbn [dv_bus outs is_serial_init] in Hinit.
    injection Hinit as Hb1 Ho1 <-. rewrite <- !app_assoc in Ho1. cbn [app] in Ho1.
    rewrite (bind_eq _ _ _ tt (mk_devices b1 o1 true)).
    2: { unfold serial_init, mbind, M_bind, asm_out8, modify. cbn [dv_bus outs is_serial_init].
      rewrite <- !app_assoc. cbn [app]. by rewrite Hb1, Ho1. }
    destruct (serial_wait_ready reads (mk_devices b1 o1 true) (Hready b1)) as [b' Hw].
    rewrite (bind_eq _ _ _ _ _ Hw). eexists. unfold asm_out8, modify. cbn. rewrite <- Ho1, <- app_assoc, u8_small by lia.
    reflexivity.
Qed.

Lemma serial_loop_ready reads t rest d :
  transmitter_ready reads → Forall is_char t → is_serial_init d = true →
  ∃ b, serial_loop reads (t ++ 0 :: rest) d =
    Ok (tt, mk_devices b (outs d ++ map (λ c, (SERIAL_COM1, c)) t) true).
Proof.
  intros Hready Ht. revert d. induction Ht as [|c t Hc _ IH]; intros d Hd.
  - exists (dv_bus d). cbn. rewrite app_nil_r, <- Hd. by destruct d.
  - cbn [app serial_loop]. rewrite (proj2 (Z.eqb_neq c 0)) by (unfold is_char in Hc; lia).
    destruct (serial_putc_eq reads c d Hready Hc) as [b Hrun]. rewrite (bind_eq _ _ _ _ _ Hrun).
    destruct (IH (mk_devices b (outs d ++ (if is_serial_init d then [] else serial_setup) ++ [(SERIAL_COM1, c)]) true))
      as [b' Hrun']; [done|]. rewrite Hrun'. exists b'. cbn [outs map]. by rewrite Hd, <- app_assoc.
Qed.

(** [serial_puts] returns when the line status shows an
    empty transmitter within the reads allowed, and then has written exactly the
    bytes of the string to COM1, in order, after the set-up of the port if this
    is the first character ever; an empty string does not set the port up. *)
Theorem serial_puts_writes reads t s d :
  transmitter_ready reads → cstr t s →
  ∃ d', serial_puts reads (Some s) d = Ok (tt, d') ∧
    outs d' = outs d ++ (if is_serial_init d || bool_decide (t = []) then [] else serial_setup)
                     ++ map (λ c, (SERIAL_COM1, c)) t ∧
    is_serial_init d' = is_serial_init d || bool_decide (t ≠ []).
Proof.
  intros Hready [Ht [rest ->]]. unfold serial_puts. destruct Ht as [|c t Hc Ht].
  - exists d. cbn. rewrite orb_true_r, orb_false_r, app_nil_r. done.
  - cbn [app serial_loop]. rewrite (proj2 (Z.eqb_neq c 0)) by (unfold is_char in Hc; lia).
    destruct (serial_putc_eq reads c d Hready Hc) as [b Hrun]. rewrite (bind_eq _ _ _ _ _ Hrun).
    destruct (serial_loop_ready reads t rest
      (mk_devices b (outs d ++ (if is_serial_init d then [] else serial_setup) ++ [(SERIAL_COM1, c)]) true))
      as [b' Hrun']; [done..|]. rewrite Hrun'. eexists. split; [done|]. cbn [outs is_serial_init].
    rewrite !bool_decide_false, !bool_decide_true by done. rewrite orb_false_r, orb_true_r.
    split; [|done]. cbn [map]. by rewrite <- !app_assoc.
Qed.

(** *** Clock and timer *)

Lemma bcd_value s :
  0 ≤ s < 60 → Z.land (16 * (s / 10) + s mod 10) 0xf + Z.quot (16 * (s / 10) + s mod 10) 0x10 * 0xa = s.
Proof.
  intros Hs. change 0xf with (Z.ones 4). rewrite Z.land_ones by lia. change (2 ^ 4) with 16.
  rewrite Z.quot_div_nonneg by (Z.div_mod_to_equations; lia). Z.div_mod_to_equations. lia.
Qed.

(** [rtc_sec] converts the clock's binary-coded seconds, when the clock answers
    the read of register 0 and reports no update in progress. *)
Lemma rtc_sec_decodes reads s d b :
  0 ≤ s < 60 →
  rtc_wait reads d = Ok (tt, mk_devices b (outs d) (is_serial_init d)) →
  fst (bus_in 0x71 (bus_out 0x70 0 b)) = 16 * (s / 10) + s mod 10 →
  ∃ d', rtc_sec reads d = Ok (s, d').
Proof.
  intros Hs Hw Hin. unfold rtc_sec, rtc_read, asm_out8, asm_in8, modify.
  assert (0 ≤ 16 * (s / 10) + s mod 10 < 0x100) as Hr by (Z.div_mod_to_equations; lia).
  unfold mbind, M_bind. rewrite Hw. cbn [dv_bus outs is_serial_init].
  change (u16 0x71) with 0x71. change (u16 0x70) with 0x70. change (u8 0) with 0.
  destruct (bus_in 0x71 (bus_out 0x70 0 b)) as [v b'] eqn:Hb. cbn [fst] in Hin. subst v.
  eexists. unfold mret, M_ret. rewrite (u8_small _ Hr), bcd_value, u8_small by lia. done.
Qed.

(** [pit_init] programs channel 0 with the clock divided by
    the frequency, low byte first.  The 16 bits hold the divisor from 19 Hz up;
    below that the timer runs at another rate, and at 0 Hz the division faults. *)
Theorem pit_init_divisor hz d :
  0 ≤ hz < 0x80000000 →
  if hz =? 0 then pit_init hz d = Err DivideError
  else ∃ d' lo hi, pit_init hz d = Ok (tt, d') ∧ outs d' = outs d ++ [(0x43, 0x36); (0x40, lo); (0x40, hi)] ∧
    0 ≤ lo < 0x100 ∧ 0 ≤ hi < 0x100 ∧
    (lo + 0x100 * hi = 1193180 / hz ↔ 19 ≤ hz).
Proof.
  intros Hhz. unfold pit_init. destruct (Z.eqb_spec hz 0) as [->|Hne]; [done|].
  set (q := Z.quot 1193180 hz). assert (q = 1193180 / hz) as Hq by (apply Z.quot_div_nonneg; lia).
  assert (0 ≤ q) as Hq0 by (rewrite Hq; apply Z.div_pos; lia).
  rewrite (bind_eq _ _ _ q d) by done.
  change 0xff with (Z.ones 8). rewrite !Z.land_ones, Z.shiftr_div_pow2 by lia. change (2 ^ 8) with 0x100.
  pose proof (Z.mod_pos_bound q 0x100 ltac:(lia)). pose proof (Z.mod_pos_bound (q / 0x100) 0x100 ltac:(lia)).
  eexists _, (q mod 0x100), (q / 0x100 mod 0x100). split; [done|]. cbn [outs].
  rewrite !(u8_small (_ mod 0x100)) by done. change (u16 0x43) with 0x43. change (u16 0x40) with 0x40.
  change (u8 0x36) with 0x36. rewrite <- !app_assoc. split; [done|]. split; [done|]. split; [done|].
  rewrite <- Hq. transitivity (q < 0x10000).
  - split; intros ?; Z.div_mod_to_equations; lia.
  - rewrite Hq. split; intros Hlt.
    + assert (¬ hz ≤ 18); [|lia]. intros Hle.
      assert (1193180 / 18 ≤ 1193180 / hz) by (apply Z.div_le_compat_l; lia).
      change (1193180 / 18) with 66287 in *. lia.
    + assert (1193180 / hz ≤ 1193180 / 19) by (apply Z.div_le_compat_l; lia).
      change (1193180 / 19) with 62798 in *. lia.
Qed.
End devices.

(** A bus that answers 0x20, the empty transmitter, everywhere. *)
#[export] Instance ready_bus : Bus unit := { bus_in := λ _ b, (0x20, b); bus_out := λ _ _ b, b }.

Lemma serial_puts_writes_witness :
  ∃ d', serial_puts 1 (Some [72; 105; 0]) (mk_devices tt [] true) = Ok (tt, d') ∧
    outs d' = [(0x3f8, 72); (0x3f8, 105)].
Proof.
  destruct (serial_puts_writes 1 [72; 105] [72; 105; 0] (mk_devices tt [] true)) as (d' & Hrun & Ho & _).
  - intros b. exists 0%nat. split; [lia|reflexivity].
  - split; [repeat constructor; unfold is_char; lia|by exists []].
  - exists d'. split; [exact Hrun|]. cbn in Ho. exact Ho.
Defined.

Lemma pit_init_divisor_witness :
  ∃ d' lo hi, pit_init 1000 (mk_devices tt [] false) = Ok (tt, d') ∧
    outs d' = [(0x43, 0x36); (0x40, lo); (0x40, hi)] ∧ lo + 0x100 * hi = 1193.
Proof.
  destruct (pit_init_divisor 1000 (mk_devices tt [] false)) as (d' & lo & hi & Hrun & Ho & _ & _ & Hi); [lia|].
  exists d', lo, hi. split; [exact Hrun|]. split; [exact Ho|]. apply Hi. lia.
Defined.
