(* ===== verification/Symbols.v ===== *)
(** kernel/symbols.c: looking an address up in the symbol listing (the output of
    nm) the boot loader passes as a module. [hex2int] is in [CStdlib].

    [line] and [buffer] are the arrays of 128 and 64 characters; the listing is
    read from memory. *)
From S2P Require Import Prelude Machine CString Range Itoa CStdlib.

Definition SPACE : charp := Some [32; 0].

(** The string at offset [o] of the buffer [strtok] works on. *)
Definition str_at (buf : list Z) (o : option Z) : charp :=
  match o with None => None | Some o => Some (drop (Z.to_nat o) buf) end.

(** [memcpy(buffer, function, strlen(function))]; a NULL source copies nothing. *)
Definition copy_name (function : charp) (buffer : list Z) : res (list Z) :=
  n ← strlen function;
  match function with
  | None => Ok buffer
  | Some f =>
      if n <=? Z.of_nat (List.length buffer) then
        Ok (take (Z.to_nat n) f ++ drop (Z.to_nat n) buffer)
      else Err BadAccess
  end.

(** [address] and [size] are [int]s. *)
Definition in_symbol (address size ptr : Z) : bool :=
  (u64 address <=? ptr) && (ptr <=? u64 (s32 (address + size))).

(** A complete line: the second branch of the loop. *)
Definition find_line (ptr : Z) (line buffer : list Z) : res (list Z) :=
  '(addr, st) ← strtok (Some 0) SPACE (mk_strtok line None);
  '(len, st) ← strtok None SPACE st;
  c ← deref (str_at (tok_buf st) len) 0;
  '(len, function, buf) ← (if (c =? 84) || (c =? 116) then
      '(function, st) ← strtok None SPACE st;
      Ok (Some [48; 0], str_at (tok_buf st) function, tok_buf st)
    else
      '(_, st) ← strtok None SPACE st;
      '(function, st) ← strtok None SPACE st;
      Ok (str_at (tok_buf st) len, str_at (tok_buf st) function, tok_buf st));
  address ← hex2int (str_at buf addr);
  size ← hex2int len;
  if in_symbol (s32 address) (s32 size) ptr then copy_name function buffer else Ok buffer.

(** The loop from character [i] on. *)
Fixpoint find_loop (k : nat) (i : Z) (m : memory) (symbols : range_t) (ptr : Z) (line : list Z) (offset : Z)
    (buffer : list Z) : res (list Z) :=
  match k with
  | O => Ok buffer
  | S k =>
      c ← (if offset =? 0 then Ok 0 else deref (Some line) (offset - 1));
      if (offset =? 0) || negb (c =? 10) then
        line ← set_at line offset (load8 m (i + base symbols));
        find_loop k (i + 1) m symbols ptr line (offset + 1) buffer
      else
        line ← set_at line (offset - 1) 0;
        buffer ← find_line ptr line buffer;
        let line := replicate (Z.to_nat offset) 0 ++ drop (Z.to_nat offset) line in
        find_loop k (i + 1) m symbols ptr line 0 buffer
  end.
Definition find_symbols (m : memory) (symbols : range_t) (ptr : Z) (buffer : list Z) : res (list Z) :=
  find_loop (Z.to_nat (length symbols)) 0 m symbols ptr (replicate 128 0) 0 buffer.

(** The registered range is the state. *)
Definition register_symbols (range : range_t) : M range_t unit := modify (λ _, range).

(** ** What a listing means *)

(** A line of the listing: address and size in hexadecimal, type and name; text
    symbols may lack the size. *)
Record symbol : Type := mk_symbol { s_addr : list Z; s_size : option (list Z); s_type : list Z; s_name : list Z }.

Definition token (w : list Z) : Prop := w ≠ [] ∧ Forall (λ c, is_char c ∧ c ≠ 32 ∧ c ≠ 10) w.
(** The line without its newline. *)
Definition symbol_text (y : symbol) : list Z :=
  s_addr y ++ 32 :: match s_size y with Some z => z ++ [32] | None => [] end ++ s_type y ++ 32 :: s_name y.
Record symbol_ok (y : symbol) : Prop := {
  yk_addr : s_addr y ≠ [] ∧ Forall (is_digit 16) (s_addr y) ∧ (List.length (s_addr y) ≤ 16)%nat;
  yk_size : match s_size y with
            | Some z => z ≠ [] ∧ Forall (is_digit 16) z ∧ (List.length z ≤ 16)%nat
            | None => s_type y = [84] ∨ s_type y = [116]
            end;
  yk_type : token (s_type y);
  yk_name : token (s_name y) ∧ (List.length (s_name y) ≤ 64)%nat;
  yk_length : (List.length (symbol_text y) < 128)%nat
}.
Definition address_of (y : symbol) : Z := s32 (numeral 16 (s_addr y)).
Definition size_of (y : symbol) : Z := match s_size y with Some z => s32 (numeral 16 z) | None => 0 end.

(** The name is written over the start of the buffer, without a NUL. *)
Definition overlay (ptr : Z) (buffer : list Z) (y : symbol) : list Z :=
  if in_symbol (address_of y) (size_of y) ptr then s_name y ++ drop (List.length (s_name y)) buffer else buffer.

(** ** Cutting a line up *)

Lemma SPACE_cstr : cstr [32] [32; 0].
Proof. split; [repeat constructor|by exists []]. Qed.

(** [strtok] at a token, ended by a space or by the end of the string. *)
Lemma strtok_cut pre w e post (first : bool) st0 :
  token w → e = 32 ∨ e = 0 →
  strtok (if first then Some (Z.of_nat (List.length pre)) else None) SPACE
    (mk_strtok (pre ++ w ++ e :: post) (if first then st0 else Some (Z.of_nat (List.length pre)))) =
  Ok (Some (Z.of_nat (List.length pre)),
      mk_strtok (pre ++ w ++ 0 :: post) (Some (Z.of_nat (List.length pre + List.length w) + (if e =? 0 then 0 else 1)))).
Proof.
  intros [Hne Hw] He. set (buf := pre ++ w ++ e :: post).
  assert (∃ y w', w = y :: w') as (y & w' & Hyw) by (destruct w; [done|by eexists _, _]).
  assert (buf !! List.length pre = Some y) as Hy by (unfold buf; rewrite Hyw, lookup_app_r, Nat.sub_diag by lia; done).
  assert (y ≠ 0 ∧ y ≠ 32) as [Hy0 Hy1].
  { rewrite Hyw in Hw. apply Forall_cons in Hw as [(Hc & ? & _) _]. unfold is_char in Hc. lia. }
  assert (buf !! (List.length pre + List.length w)%nat = Some e) as Hbe.
  { unfold buf. rewrite lookup_app_r by lia.
    replace (List.length pre + List.length w - List.length pre)%nat with (List.length w) by lia.
    by rewrite lookup_app_r, Nat.sub_diag by lia. }
  assert (strtok_scan (S (List.length buf)) buf (Z.of_nat (List.length pre)) SPACE =
    Ok (Z.of_nat (List.length pre + List.length w), negb (e =? 0))) as Hscan.
  { apply (strtok_scan_skip _ buf _ w [32]); [exact SPACE_cstr| | | |done|].
    - eapply Forall_impl; [exact Hw|]. intros c (Hc & H32 & _). unfold is_char in Hc. split; [lia|].
      by rewrite list_elem_of_singleton.
    - unfold buf. rewrite !length_app. lia.
    - unfold buf. by rewrite drop_app_length, take_app_length.
    - destruct He as [-> | ->]; [right; by apply list_elem_of_singleton|by left]. }
  assert (is_delim y SPACE = Ok false) as Hd.
  { unfold SPACE. rewrite (is_delim_spec _ [32]) by exact SPACE_cstr.
    by rewrite bool_decide_false by (by rewrite list_elem_of_singleton). }
  unfold strtok. cbn [tok_buf tok_p]. fold buf.
  assert (∀ p : option Z, (c ← deref (Some buf) (Z.of_nat (List.length pre));
    d ← is_delim c SPACE;
    c0 ← deref (Some buf) (if (d : bool) then Z.of_nat (List.length pre) + 1 else Z.of_nat (List.length pre));
    if c0 =? 0 then mret (None, mk_strtok buf p) else
    '(pos, hit) ← strtok_scan (S (List.length buf)) buf (if (d : bool) then Z.of_nat (List.length pre) + 1 else Z.of_nat (List.length pre)) SPACE;
    mret (Some (if (d : bool) then Z.of_nat (List.length pre) + 1 else Z.of_nat (List.length pre)),
      if (hit : bool) then mk_strtok (<[Z.to_nat pos := 0]> buf) (Some (pos + 1)) else mk_strtok buf (Some pos))) =
    Ok (Some (Z.of_nat (List.length pre)),
      mk_strtok (pre ++ w ++ 0 :: post) (Some (Z.of_nat (List.length pre + List.length w) + (if e =? 0 then 0 else 1))))) as Hgen.
  { intros p. rewrite (deref_nat _ _ _ Hy). cbn [mbind res_bind]. rewrite Hd. cbn [mbind res_bind].
    rewrite (deref_nat _ _ _ Hy). cbn [mbind res_bind]. rewrite (proj2 (Z.eqb_neq y 0)), Hscan by done. cbn [mbind res_bind].
    destruct He as [-> | ->]; cbn; [|by rewrite Z.add_0_r].
    rewrite Nat2Z.id. unfold buf. rewrite insert_app_r_alt by lia.
    replace (List.length pre + List.length w - List.length pre)%nat with (List.length w) by lia.
    by rewrite insert_app_r_alt, Nat.sub_diag by lia. }
  destruct first; [destruct st0|]; apply Hgen.
Qed.

Lemma numeral_lt t : Forall (is_digit 16) t → numeral 16 t < 16 ^ Z.of_nat (List.length t).
Proof.
  induction 1 as [|c t (d & Hd & ->) Ht IH]; [done|].
  rewrite numeral_cons, char_digit_char by lia. cbn [List.length]. rewrite Nat2Z.inj_succ, Z.pow_succ_r by lia. nia.
Qed.
Lemma hex2int_at t rest :
  Forall (is_digit 16) t → (List.length t ≤ 16)%nat → hex2int (Some (t ++ 0 :: rest)) = Ok (numeral 16 t).
Proof.
  intros Ht Hl. cbn [hex2int]. rewrite hex2int_loop_digits; [f_equal; lia|done|lia|].
  pose proof (numeral_lt t Ht). assert (16 ^ Z.of_nat (List.length t) ≤ 16 ^ 16) by (apply Z.pow_le_mono_r; lia).
  change (16 ^ 16) with 0x10000000000000000 in *. lia.
Qed.

Lemma digits_token t : t ≠ [] → Forall (is_digit 16) t → token t.
Proof.
  intros Hne Ht. split; [done|]. eapply Forall_impl; [exact Ht|]. intros c (d & Hd & ->).
  pose proof (digit_char_is_char d ltac:(lia)). unfold digit_char, is_char in *. destruct (Z.ltb_spec d 10); lia.
Qed.
Lemma token_cstr t rest : token t → cstr t (t ++ 0 :: rest).
Proof. intros [_ Ht]. apply cstr_app. eapply Forall_impl; [exact Ht|]. by intros c (? & _). Qed.

(** The offset where the next token starts. *)
Lemma next_offset (pre : list Z) : Z.of_nat (List.length pre) + 1 = Z.of_nat (List.length (pre ++ [0])).
Proof. rewrite length_app. cbn. lia. Qed.
Lemma str_at_pre pre rest : str_at (pre ++ rest) (Some (Z.of_nat (List.length pre))) = Some rest.
Proof. unfold str_at. by rewrite Nat2Z.id, drop_app_length. Qed.

Lemma copy_name_at f rest buffer :
  token f → (List.length f ≤ List.length buffer)%nat →
  copy_name (Some (f ++ 0 :: rest)) buffer = Ok (f ++ drop (List.length f) buffer).
Proof.
  intros Hf Hl. unfold copy_name. rewrite (strlen_cstr f) by by apply token_cstr. cbn [mbind res_bind].
  rewrite (proj2 (Z.leb_le _ _)), Nat2Z.id by lia. by rewrite take_app_length.
Qed.

Lemma find_line_sized ptr a z ty f post buffer :
  token a → Forall (is_digit 16) a → (List.length a ≤ 16)%nat →
  token z → Forall (is_digit 16) z → (List.length z ≤ 16)%nat →
  token ty → token f → (List.length f ≤ List.length buffer)%nat →
  find_line ptr (a ++ 32 :: z ++ 32 :: ty ++ 32 :: f ++ 0 :: post) buffer =
    Ok (if in_symbol (s32 (numeral 16 a)) (s32 (numeral 16 z)) ptr then f ++ drop (List.length f) buffer else buffer).
Proof.
  intros Ha Ha16 Hal Hz Hz16 Hzl Hty Hf Hfl. unfold find_line.
  pose proof (strtok_cut [] a 32 (z ++ 32 :: ty ++ 32 :: f ++ 0 :: post) true None Ha (or_introl eq_refl)) as H1.
  cbn [app] in H1. change (Z.of_nat (List.length [])) with 0 in H1. rewrite H1. cbn [mbind res_bind].
  change (if 32 =? 0 then 0 else 1) with 1. cbn [List.length Nat.add].
  pose proof (strtok_cut (a ++ [0]) z 32 (ty ++ 32 :: f ++ 0 :: post) false None Hz (or_introl eq_refl)) as H2.
  change (if 32 =? 0 then 0 else 1) with 1 in H2.
  rewrite (next_offset a). rewrite <- !app_assoc in H2. cbn [app] in H2. rewrite H2. cbn [mbind res_bind tok_buf].
  assert (∀ r, str_at (a ++ 0 :: r) (Some (Z.of_nat (List.length (a ++ [0])))) = Some r) as Hat1.
  { intros r. rewrite <- (str_at_pre (a ++ [0]) r). by rewrite <- app_assoc. }
  rewrite Hat1. destruct Hz16 as [|zc z' (d & Hd & ->) Hz']; [by destruct Hz|].
  change (deref (Some ((digit_char d :: z') ++ 0 :: ty ++ 32 :: f ++ 0 :: post)) 0) with (Ok (digit_char d)).
  cbn [mbind res_bind].
  assert ((digit_char d =? 84) || (digit_char d =? 116) = false) as ->.
  { unfold digit_char. destruct (Z.ltb_spec d 10); apply orb_false_iff; split; apply Z.eqb_neq; lia. }
  set (z := digit_char d :: z') in *.
  pose proof (strtok_cut (a ++ 0 :: z ++ [0]) ty 32 (f ++ 0 :: post) false None Hty (or_introl eq_refl)) as H3.
  change (if 32 =? 0 then 0 else 1) with 1 in H3.
  assert (Z.of_nat (List.length (a ++ [0]) + List.length z) + 1 = Z.of_nat (List.length (a ++ 0 :: z ++ [0]))) as ->
    by (rewrite !length_app; cbn [List.length]; rewrite length_app; cbn [List.length]; lia).
  rewrite <- !app_assoc in H3. cbn [app] in H3. rewrite <- !app_assoc in H3. cbn [app] in H3. rewrite H3.
  cbn [mbind res_bind].
  pose proof (strtok_cut (a ++ 0 :: z ++ 0 :: ty ++ [0]) f 0 post false None Hf (or_intror eq_refl)) as H4.
  assert (Z.of_nat (List.length (a ++ 0 :: z ++ [0]) + List.length ty) + 1 = Z.of_nat (List.length (a ++ 0 :: z ++ 0 :: ty ++ [0]))) as ->
    by (repeat (rewrite length_app || cbn [List.length]); lia).
  repeat (rewrite <- app_assoc in H4; cbn [app] in H4). rewrite H4.
  cbn [mbind res_bind tok_buf]. rewrite Hat1.
  assert (str_at (a ++ 0 :: z ++ 0 :: ty ++ 0 :: f ++ 0 :: post) (Some (Z.of_nat (List.length (a ++ 0 :: z ++ 0 :: ty ++ [0]))))
    = Some (f ++ 0 :: post)) as ->.
  { rewrite <- (str_at_pre (a ++ 0 :: z ++ 0 :: ty ++ [0])). by repeat (rewrite <- app_assoc; cbn [app]). }
  change (str_at (a ++ ?r) (Some 0)) with (Some (a ++ r)).
  rewrite (hex2int_at a _ Ha16 Hal). cbn [mbind res_bind].
  rewrite (hex2int_at z _ (Forall_cons_2 _ _ _ (ex_intro _ d (conj Hd eq_refl)) Hz') Hzl).
  cbn [mbind res_bind]. destruct (in_symbol _ _ ptr); [by apply copy_name_at|done].
Qed.

Lemma find_line_unsized ptr a c f post buffer :
  token a → Forall (is_digit 16) a → (List.length a ≤ 16)%nat → c = 84 ∨ c = 116 →
  token f → (List.length f ≤ List.length buffer)%nat →
  find_line ptr (a ++ 32 :: c :: 32 :: f ++ 0 :: post) buffer =
    Ok (if in_symbol (s32 (numeral 16 a)) 0 ptr then f ++ drop (List.length f) buffer else buffer).
Proof.
  intros Ha Ha16 Hal Hc Hf Hfl. unfold find_line.
  assert (token [c]) as Htc by (split; [done|repeat constructor; destruct Hc as [-> | ->]; done]).
  pose proof (strtok_cut [] a 32 (c :: 32 :: f ++ 0 :: post) true None Ha (or_introl eq_refl)) as H1.
  cbn [app] in H1. change (Z.of_nat (List.length [])) with 0 in H1. rewrite H1. cbn [mbind res_bind].
  change (if 32 =? 0 then 0 else 1) with 1. cbn [List.length Nat.add].
  pose proof (strtok_cut (a ++ [0]) [c] 32 (f ++ 0 :: post) false None Htc (or_introl eq_refl)) as H2.
  change (if 32 =? 0 then 0 else 1) with 1 in H2.
  rewrite (next_offset a). repeat (rewrite <- app_assoc in H2; cbn [app] in H2). cbn [app] in H2. rewrite H2.
  cbn [mbind res_bind tok_buf].
  assert (∀ r, str_at (a ++ 0 :: r) (Some (Z.of_nat (List.length (a ++ [0])))) = Some r) as Hat1.
  { intros r. rewrite <- (str_at_pre (a ++ [0]) r). by rewrite <- app_assoc. }
  rewrite Hat1. change (deref (Some (c :: 0 :: f ++ 0 :: post)) 0) with (Ok c). cbn [mbind res_bind].
  assert ((c =? 84) || (c =? 116) = true) as ->.
  { destruct Hc as [-> | ->]; done. }
  pose proof (strtok_cut (a ++ [0; c; 0]) f 0 post false None Hf (or_intror eq_refl)) as H3.
  assert (Z.of_nat (List.length (a ++ [0]) + List.length [c]) + 1 = Z.of_nat (List.length (a ++ [0; c; 0]))) as ->
    by (rewrite !length_app; cbn [List.length]; lia).
  repeat (rewrite <- app_assoc in H3; cbn [app] in H3). rewrite H3. cbn [mbind res_bind tok_buf].
  assert (str_at (a ++ 0 :: c :: 0 :: f ++ 0 :: post) (Some (Z.of_nat (List.length (a ++ [0; c; 0])))) = Some (f ++ 0 :: post)) as ->.
  { rewrite <- (str_at_pre (a ++ [0; c; 0])). by rewrite <- app_assoc. }
  change (str_at (a ++ ?r) (Some 0)) with (Some (a ++ r)).
  rewrite (hex2int_at a _ Ha16 Hal). cbn [mbind res_bind].
  change (hex2int (Some [48; 0])) with (Ok 0). cbn [mbind res_bind]. change (s32 0) with 0.
  destruct (in_symbol _ _ ptr); [by apply copy_name_at|done].
Qed.

Lemma find_line_spec ptr y post buffer :
  symbol_ok y → List.length buffer = 64%nat →
  find_line ptr (symbol_text y ++ 0 :: post) buffer = Ok (overlay ptr buffer y).
Proof.
  intros [(Ha & Ha16 & Hal) Hs Hty [Hf Hfl] _] Hb. unfold symbol_text, overlay, address_of, size_of.
  destruct y as [a [z|] ty f]; cbn [Symbols.s_addr Symbols.s_size Symbols.s_type Symbols.s_name] in *.
  - destruct Hs as (Hz & Hz16 & Hzl). repeat (rewrite <- app_assoc; cbn [app]).
    apply find_line_sized; auto using digits_token. lia.
  - repeat (rewrite <- app_assoc; cbn [app]).
    destruct Hs as [-> | ->]; apply find_line_unsized; auto using digits_token; lia.
Qed.
Lemma overlay_length ptr y buffer :
  symbol_ok y → List.length buffer = 64%nat → List.length (overlay ptr buffer y) = 64%nat.
Proof.
  intros [_ _ _ [_ Hf] _] Hb. unfold overlay. destruct (in_symbol _ _ _); [|done].
  rewrite length_app, length_drop. lia.
Qed.

(** ** The loop *)

(** [contents] are the characters of the listing. *)
Definition listing (m : memory) (r : range_t) (contents : list Z) : Prop :=
  length r = Z.of_nat (List.length contents) ∧
  ∀ i c, contents !! i = Some c → load8 m (Z.of_nat i + base r) = c.

Section loop.
Context (m : memory) (r : range_t) (contents : list Z) (ptr : Z).
Hypothesis Hlisting : listing m r contents.

(** Reading the characters [w], of which at most the last is a newline. *)
Lemma find_loop_read w i k line pre tail buffer :
  take (List.length w) (drop i contents) = w → Forall is_char w → (∀ j, w !! j = Some 10 → S j = List.length w) →
  line = pre ++ tail → last pre ≠ Some 10 → (List.length w ≤ List.length tail)%nat →
  find_loop (List.length w + k) (Z.of_nat i) m r ptr line (Z.of_nat (List.length pre)) buffer =
  find_loop k (Z.of_nat (i + List.length w)) m r ptr (pre ++ w ++ drop (List.length w) tail)
    (Z.of_nat (List.length (pre ++ w))) buffer.
Proof.
  revert i line pre tail. induction w as [|c w IH]; intros i line pre tail Hw Hc Hnl -> Hlast Hlen.
  - cbn. by rewrite Nat.add_0_r, app_nil_r.
  - destruct tail as [|t tail]; [cbn in Hlen; lia|]. cbn [List.length Nat.add find_loop].
    destruct (drop i contents) as [|c' l] eqn:Hd; [done|]. cbn [List.length take] in Hw. injection Hw as -> Hw.
    assert (contents !! i = Some c) as Hci.
    { pose proof (lookup_drop contents i 0) as H. rewrite Hd, Nat.add_0_r in H. by rewrite <- H. }
    apply Forall_cons in Hc as [Hcc Hc]. unfold is_char in Hcc.
    assert (∃ c0, (if Z.of_nat (List.length pre) =? 0 then Ok 0 else deref (Some (pre ++ t :: tail)) (Z.of_nat (List.length pre) - 1)) = Ok c0 ∧
      (Z.of_nat (List.length pre) =? 0) || negb (c0 =? 10) = true) as (c0 & Hc0 & Hcond).
    { destruct pre as [|p pre'] eqn:Hpre; [by exists 0|]. rewrite <- Hpre in *.
      destruct (last pre) as [x|] eqn:Hx; [|rewrite last_None in Hx; congruence]. exists x.
      rewrite (proj2 (Z.eqb_neq (Z.of_nat (List.length pre)) 0)) by (rewrite Hpre; cbn; lia).
      rewrite last_lookup in Hx. pose proof (lookup_lt_Some _ _ _ Hx).
      replace (Z.of_nat (List.length pre) - 1) with (Z.of_nat (pred (List.length pre))) by lia.
      rewrite (deref_nat _ _ x) by (by rewrite lookup_app_l). split; [done|].
      rewrite (proj2 (Z.eqb_neq x 10)); [done|]. congruence. }
    rewrite Hc0. cbn [mbind res_bind]. rewrite Hcond, (proj2 Hlisting i c Hci), set_at_ok. cbn [mbind res_bind].
    rewrite u8_small by lia.
    destruct (decide (c = 10)) as [->|Hne].
    + assert (w = []) as -> by (specialize (Hnl 0%nat eq_refl); destruct w; [done|cbn in Hnl; lia]).
      cbn [List.length Nat.add app drop]. rewrite Nat.add_1_r, length_app. cbn [List.length].
      f_equal; lia.
    + specialize (IH (S i) (pre ++ c :: tail) (pre ++ [c]) tail).
      rewrite length_app in IH. cbn [List.length] in IH.
      replace (Z.of_nat (List.length pre + 1)) with (Z.of_nat (List.length pre) + 1) in IH by lia.
      replace (Z.of_nat i + 1) with (Z.of_nat (S i)) by lia. rewrite IH; clear IH.
      * rewrite <- !app_assoc. cbn [app drop List.length]. by rewrite Nat.add_succ_r.
      * replace (S i) with (i + 1)%nat by lia. by rewrite <- drop_drop, Hd.
      * done.
      * intros j Hj. specialize (Hnl (S j) Hj). cbn in Hnl. lia.
      * by rewrite <- app_assoc.
      * rewrite last_snoc. congruence.
      * cbn in Hlen. lia.
Qed.

Lemma symbol_text_chars y : symbol_ok y → Forall (λ c, is_char c ∧ c ≠ 10) (symbol_text y).
Proof.
  assert (∀ t, token t → Forall (λ c, is_char c ∧ c ≠ 10) t) as Htok.
  { intros t [_ Ht]. eapply Forall_impl; [exact Ht|]. by intros c (? & _ & ?). }
  assert (is_char 32 ∧ 32 ≠ 10) as Hsp by done.
  intros [(Ha & Ha16 & Hal) Hs Hty [Hf Hfl] _]. unfold symbol_text.
  apply Forall_app. split; [by apply Htok, digits_token|]. constructor; [done|].
  apply Forall_app. split.
  - destruct (Symbols.s_size y) as [z|]; [|done]. destruct Hs as (Hz & Hz16 & _).
    apply Forall_app. split; [by apply Htok, digits_token|by repeat constructor].
  - apply Forall_app. split; [by apply Htok|]. constructor; [done|by apply Htok].
Qed.

(** A complete line and the character after it. *)
Lemma find_loop_line y c i k buffer :
  symbol_ok y → List.length buffer = 64%nat →
  take (List.length (symbol_text y) + 2) (drop i contents) = symbol_text y ++ [10; c] →
  find_loop (List.length (symbol_text y) + 2 + k) (Z.of_nat i) m r ptr (replicate 128 0) 0 buffer =
  find_loop k (Z.of_nat (i + (List.length (symbol_text y) + 2))) m r ptr (replicate 128 0) 0 (overlay ptr buffer y).
Proof.
  intros Hy Hb Ht. pose proof (yk_length _ Hy) as Hn. set (n := List.length (symbol_text y)) in *.
  set (w := symbol_text y ++ [10]). assert (List.length w = (n + 1)%nat) as Hw by (unfold w; rewrite length_app; done).
  replace (n + 2 + k)%nat with (List.length w + S k)%nat by lia.
  pose proof (symbol_text_chars y Hy) as Hch.
  assert (take (List.length w) (drop i contents) = w) as Hw1.
  { replace (List.length w) with ((n + 1) `min` (n + 2))%nat by lia. rewrite <- take_take, Ht.
    change [10; c] with ([10] ++ [c]). rewrite app_assoc. by rewrite take_app_length' by (fold w; lia). }
  assert (Forall is_char w) as Hw2.
  { apply Forall_app. split; [eapply Forall_impl; [exact Hch|by intros x []]|by repeat constructor]. }
  assert (∀ j, w !! j = Some 10 → S j = List.length w) as Hw3.
  { rewrite Hw. intros j [Hj|[Hge Hj]]%lookup_app_Some.
    + rewrite Forall_lookup in Hch. by destruct (Hch _ _ Hj).
    + apply list_lookup_singleton_Some in Hj as [Hj _]. fold n in Hj, Hge. lia. }
  pose proof (find_loop_read w i (S k) (replicate 128 0) [] (replicate 128 0) buffer) as Hread.
  cbn [app List.length] in Hread. change (Z.of_nat 0) with 0 in Hread.
  rewrite Hread by (done || (rewrite length_replicate; lia)). clear Hread. cbn [find_loop].
  rewrite Hw, drop_replicate. replace (Z.of_nat (n + 1) - 1) with (Z.of_nat n) by lia.
    rewrite (proj2 (Z.eqb_neq _ 0)) by lia. cbn [orb]. unfold w. rewrite <- app_assoc. cbn [app].
    rewrite (deref_nat _ n 10) by (unfold n; by rewrite lookup_app_r, Nat.sub_diag). cbn [mbind res_bind].
    change (negb (10 =? 10)) with false. cbv iota. unfold n at 1. rewrite set_at_ok. cbn [mbind res_bind].
    change (u8 0) with 0. rewrite find_line_spec by done. cbn [mbind res_bind]. rewrite Nat2Z.id.
    f_equal; [lia|].
    replace (n + 1)%nat with (S n) by lia. rewrite drop_app_ge by lia. fold n. replace (S n - n)%nat with 1%nat by lia.
    cbn [drop].
    change (drop 0 ?l) with l. rewrite <- replicate_add. f_equal. lia.
Qed.

(** The complete lines of a listing, each with the character after its newline. *)
Definition lines_text (ys : list (symbol * Z)) : list Z := concat (map (λ yc, symbol_text yc.1 ++ [10; yc.2]) ys).

Lemma find_loop_lines ys i k buffer :
  Forall (λ yc, symbol_ok yc.1) ys → List.length buffer = 64%nat →
  take (List.length (lines_text ys)) (drop i contents) = lines_text ys →
  find_loop (List.length (lines_text ys) + k) (Z.of_nat i) m r ptr (replicate 128 0) 0 buffer =
  find_loop k (Z.of_nat (i + List.length (lines_text ys))) m r ptr (replicate 128 0) 0
    (foldl (overlay ptr) buffer (map fst ys)).
Proof.
  intros Hys. revert i buffer. induction Hys as [|[y c] ys Hy Hys IH]; intros i buffer Hb Ht.
  - cbn. by rewrite Nat.add_0_r.
  - unfold lines_text in *. cbn [map concat fst snd foldl] in *. set (l := concat _) in *.
    rewrite !length_app in *. cbn [List.length] in *. set (n := List.length (symbol_text y)) in *.
    rewrite <- Nat.add_assoc.
    assert (take (n + 2) (drop i contents) = symbol_text y ++ [10; c]) as Hline.
    { rewrite <- (take_app_length (symbol_text y ++ [10; c]) l), <- Ht, take_take.
      rewrite length_app. cbn [List.length]. fold n. f_equal. lia. }
    rewrite (find_loop_line y c i _ _ Hy Hb Hline), IH.
    + fold n. f_equal. lia.
    + by apply overlay_length.
    + fold n. rewrite <- drop_drop. rewrite <- (drop_app_length (symbol_text y ++ [10; c]) l) at 2. rewrite <- Ht.
      rewrite length_app. cbn [List.length]. fold n. by rewrite <- take_drop_commute.
Qed.
End loop.

(** [find_symbols] on a listing of well-formed lines: of
    the complete lines, in order, each whose address range (as 32-bit [int]s,
    both ends included) holds the pointer has its name written over the start
    of the buffer.  After each newline one character is skipped, so every line
    but the first is read without its first digit, and what follows the last
    skipped character ([final]) is not looked up. *)
Theorem find_symbols_lookup m r ptr ys final buffer :
  listing m r (lines_text ys ++ final) → Forall (λ yc, symbol_ok yc.1) ys → List.length buffer = 64%nat →
  Forall is_char final → (List.length final ≤ 128)%nat → (∀ j, final !! j = Some 10 → S j = List.length final) →
  find_symbols m r ptr buffer = Ok (foldl (overlay ptr) buffer (map fst ys)).
Proof.
  intros Hl Hys Hb Hf Hlen Hnl. unfold find_symbols. rewrite (proj1 Hl), Nat2Z.id, length_app.
  pose proof (find_loop_lines m r _ ptr Hl ys 0 (List.length final) buffer Hys Hb) as Hlines.
  change (Z.of_nat 0) with 0 in Hlines. rewrite Hlines by by rewrite drop_0, take_app_length. clear Hlines.
  pose proof (find_loop_read m r _ ptr Hl final (0 + List.length (lines_text ys)) 0 (replicate 128 0) [] (replicate 128 0)
    (foldl (overlay ptr) buffer (map fst ys))) as Hread.
  cbn [app List.length Nat.add] in Hread. change (Z.of_nat 0) with 0 in Hread. rewrite (Nat.add_0_r (List.length final)) in Hread.
  cbn [Nat.add]. rewrite Hread; [done|by rewrite drop_app_length, firstn_all|done|done|done|done|by rewrite length_replicate].
Qed.

Definition sample_symbol (a n : Z) : symbol := mk_symbol [97; a] (Some [49; 48]) [84] [110; n].
(** "a1 10 T nx", newline, "b", "a2 10 T ny", newline, "c": the pointer 0xa1 is
    in the first symbol only. *)
Definition sample_lines : list (symbol * Z) := [(sample_symbol 49 120, 98); (sample_symbol 51 121, 99)].
Lemma sample_symbol_ok a n : is_digit 16 a → is_char n ∧ n ≠ 32 ∧ n ≠ 10 → symbol_ok (sample_symbol a n).
Proof.
  intros Ha Hn. assert (is_digit 16 97 ∧ is_digit 16 48 ∧ is_digit 16 49) as (H1 & H2 & H3)
    by (split_and!; [by exists 10|by exists 0|by exists 1]).
  assert (∀ x, is_char x ∧ x ≠ 32 ∧ x ≠ 10 → Forall (λ c, is_char c ∧ c ≠ 32 ∧ c ≠ 10) [110; x]) as Hnm
    by (intros x Hx; constructor; [done|by constructor]).
  split; unfold token; cbn; split_and?; try lia; try done; auto.
  by constructor.
Qed.
Lemma find_symbols_lookup_witness :
  find_symbols (λ a, default 0 (lines_text sample_lines !! Z.to_nat (a - 0x1000))) (mk_range 0x1000 24) 0xa2 (replicate 64 0) =
    Ok ([110; 120] ++ replicate 62 0).
Proof.
  rewrite (find_symbols_lookup _ _ 0xa2 sample_lines [] (replicate 64 0)).
  - vm_compute. reflexivity.
  - split; [reflexivity|]. intros i c Hi.
    rewrite app_nil_r in Hi. pose proof (lookup_lt_Some _ _ _ Hi) as Hlt. change (List.length (lines_text sample_lines)) with 24%nat in Hlt.
    change (base (mk_range 0x1000 24)) with 0x1000. unfold load8. rewrite u64_small by lia.
    replace (Z.to_nat (Z.of_nat i + 0x1000 - 0x1000)) with i by lia. rewrite Hi. cbn [default].
    apply u8_small. revert Hi. clear -Hlt. do 24 (destruct i as [|i]; [intros [= <-]; lia|]). lia.
  - constructor; [|constructor; [|done]]; apply sample_symbol_ok; [by exists 1|done|by exists 3|done].
  - reflexivity.
  - constructor.
  - cbn. lia.
  - intros j Hj. discriminate.
Defined.
