(* ===== verification/Kernel.v ===== *)
(** The state the system calls and the interrupt handler work on, with the
    console of arch/x86_64/arch.c ([arch_serial_puts]), [log_impl] of
    kernel/debug.c and [ASSERT] of libs/ansi/assert.c.

    The console is the list of the bytes given to [serial_puts], which
    [Devices] shows to reach the serial port.  A user pointer designates a byte
    of the address space that is loaded: there is one memory per value of CR3. *)
From S2P Require Import Prelude Machine CString Range Fmt Services Sched.
From Stdlib Require Import Strings.String Strings.Ascii.

Record kernel (K : Type) : Type := mk_kernel {
  kn_sched : sched_state K;
  kn_user : Z → memory;       (** user memory of each address space *)
  kn_console : list Z;        (** bytes sent to the serial port, oldest first *)
  serial_lock : Z;            (** [lock] of arch.c *)
  has_fault : bool;           (** of interrupt.c *)
  random_next : Z;            (** of stdlib.c *)
  kn_symbols : range_t;       (** [symbols] of symbols.c *)
  kn_eoi : list (Z * Z)       (** port and byte of the writes to the interrupt controller *)
}.
Arguments mk_kernel {K}.
Arguments kn_sched {K}.
Arguments kn_user {K}.
Arguments kn_console {K}.
Arguments serial_lock {K}.
Arguments has_fault {K}.
Arguments random_next {K}.
Arguments kn_symbols {K}.
Arguments kn_eoi {K}.

(** A string literal. *)
Fixpoint chars (s : string) : list Z :=
  match s with EmptyString => [] | String c s => Z.of_N (N_of_ascii c) :: chars s end.
Definition lit (s : string) : charp := Some (chars s ++ [0]).
Definition ESC : string := String (ascii_of_N 27) EmptyString.
Definition NL : string := String (ascii_of_N 10) EmptyString.
Definition TAB : string := String (ascii_of_N 9) EmptyString.

(** The bytes [serial_puts] sends for a string: up to the NUL. *)
Fixpoint c_bytes (s : list Z) : res (list Z) :=
  match s with
  | [] => Err BadAccess
  | c :: s => if c =? 0 then Ok [] else l ← c_bytes s; Ok (c :: l)
  end.
(** The same for a string in memory, of at most [n] characters. *)
Fixpoint mem_bytes (n : nat) (m : memory) (a : Z) : res (list Z) :=
  let c := load8 m a in
  if c =? 0 then Ok []
  else match n with O => Err OutOfFuel | Datatypes.S n => l ← mem_bytes n m (a + 1); Ok (c :: l) end.

Section kernel.
Context {K : Type} `{KernelServices K}.
Implicit Types k : kernel K.

Definition set_sched (s : sched_state K) k := mk_kernel s (kn_user k) (kn_console k) (serial_lock k) (has_fault k)
  (random_next k) (kn_symbols k) (kn_eoi k).
Definition set_user (u : Z → memory) k := mk_kernel (kn_sched k) u (kn_console k) (serial_lock k) (has_fault k)
  (random_next k) (kn_symbols k) (kn_eoi k).
Definition set_console (c : list Z) k := mk_kernel (kn_sched k) (kn_user k) c (serial_lock k) (has_fault k)
  (random_next k) (kn_symbols k) (kn_eoi k).
Definition set_serial_lock (l : Z) k := mk_kernel (kn_sched k) (kn_user k) (kn_console k) l (has_fault k)
  (random_next k) (kn_symbols k) (kn_eoi k).
Definition set_has_fault k := mk_kernel (kn_sched k) (kn_user k) (kn_console k) (serial_lock k) true
  (random_next k) (kn_symbols k) (kn_eoi k).
Definition set_random (r : Z) k := mk_kernel (kn_sched k) (kn_user k) (kn_console k) (serial_lock k) (has_fault k)
  r (kn_symbols k) (kn_eoi k).
Definition set_eoi (l : list (Z * Z)) k := mk_kernel (kn_sched k) (kn_user k) (kn_console k) (serial_lock k) (has_fault k)
  (random_next k) (kn_symbols k) l.

Definition on_sched {A} (m : M (sched_state K) A) : M (kernel K) A := zoom kn_sched set_sched m.
Definition kn_hw k : hw := sc_hw (kn_sched k).
Definition set_kn_hw (h : hw) k : kernel K := set_sched (set_k (ks_set_hw h (sc_k (kn_sched k))) (kn_sched k)) k.

(** Memory at a user pointer. *)
Definition user_mem k : memory := kn_user k (hw_cr3 (kn_hw k)).
Definition set_user_mem (m : memory) k : kernel K :=
  set_user (λ c, if c =? hw_cr3 (kn_hw k) then m else kn_user k c) k.

(** [arch_serial_puts], given how its string reads. *)
Definition puts_with (read : kernel K → res (list Z)) : M (kernel K) unit := λ k,
  '(l, h) ← arch_acquire (serial_lock k) (kn_hw k);
  let k := set_serial_lock l (set_kn_hw h k) in
  s ← read k;
  let k := set_console (kn_console k ++ s) k in
  let '(l, h) := arch_release (kn_hw k) in
  Ok (tt, set_serial_lock l (set_kn_hw h k)).
Definition arch_serial_puts (s : charp) : M (kernel K) unit :=
  puts_with (λ _, match s with None => Err BadAccess | Some s => c_bytes s end).

(** [print_format(arch_serial_puts, ...)]; [stack] is what the formatter's
    buffers hold before they are written. *)
Context (stack : list Z).
Definition kprint (format : charp) (args : fmt_args) : M (kernel K) unit :=
  PRINT_FORMAT arch_serial_puts stack format args.
Definition log_impl (filename : charp) (line_nbr : Z) (format : charp) (args : fmt_args) : M (kernel K) unit :=
  kprint (lit (ESC ++ "[33m{}:{}" ++ ESC ++ "[0m ")%string) [fmtvals filename; fmtvald line_nbr] ≫= λ _,
  kprint format args ≫= λ _,
  arch_serial_puts (lit NL).
(** The kernel's [ASSERT] after a failed [assert]; [raise_debug] is interrupt 1. *)
Definition ASSERT (raise_debug : M (kernel K) unit) (expr filename : charp) (line : Z) : M (kernel K) unit :=
  kprint (lit (ESC ++ "[31m{}:{}" ++ ESC ++ "[0m assertion failed ({})" ++ NL)%string)
    [fmtvals filename; fmtvald line; fmtvals expr] ≫= λ _,
  raise_debug.

End kernel.

(** ** Printing returns *)

Section printing.
Context {K : Type} `{KernelServicesLaws K}.
Implicit Types k : kernel K.

(** [k'] is [k] after printing: nothing but the console has changed, the lock is
    free and interrupts are whatever they are. *)
Record printed k k' : Prop := {
  pr_sched : ∃ h, kn_sched k' = set_k (ks_set_hw h (sc_k (kn_sched k))) (kn_sched k) ∧
    hw_mem h = hw_mem (kn_hw k) ∧ hw_cr3 h = hw_cr3 (kn_hw k);
  pr_irq : ∃ b, kn_hw k' = hw_set_if b (kn_hw k);
  pr_user : kn_user k' = kn_user k;
  pr_console : ∃ out, kn_console k' = kn_console k ++ out;
  pr_lock : serial_lock k' = 0;
  pr_rest : has_fault k' = has_fault k ∧ random_next k' = random_next k ∧ kn_symbols k' = kn_symbols k ∧ kn_eoi k' = kn_eoi k
}.

Lemma printed_refl k : serial_lock k = 0 → printed k k.
Proof.
  intros Hl. split; try done.
  - exists (kn_hw k). split; [|done]. unfold kn_hw, sc_hw. rewrite ks_set_get. by destruct (kn_sched k).
  - exists (hw_if (kn_hw k)). by destruct (kn_hw k).
  - exists []. by rewrite app_nil_r.
Qed.

Lemma printed_trans k1 k2 k3 : printed k1 k2 → printed k2 k3 → printed k1 k3.
Proof.
  intros [(h & Hs & Hm & Hc) (b & Hb) Hu (o & Ho) Hl (Hf & Hr & Hy & He)] [(h' & Hs' & Hm' & Hc') (b' & Hb') Hu' (o' & Ho') Hl' (Hf' & Hr' & Hy' & He')].
  assert (kn_hw k2 = h) as Hh by (unfold kn_hw, sc_hw; rewrite Hs; apply ks_get_set).
  split; try congruence.
  - exists h'. rewrite Hs', Hs. cbn. rewrite ks_set_set. split; [done|]. rewrite Hm', Hc', Hh. done.
  - exists b'. rewrite Hb', Hb. done.
  - exists (o ++ o'). by rewrite Ho', Ho, app_assoc.
  - split_and!; congruence.
Qed.

Lemma c_bytes_cstr t s : cstr t s → c_bytes s = Ok t.
Proof.
  intros [Ht [rest ->]]. induction Ht as [|c t Hc Ht IH]; [done|]. cbn [app c_bytes].
  rewrite (proj2 (Z.eqb_neq c 0)) by (unfold is_char in Hc; lia). by rewrite IH.
Qed.

(** Printing what reads as [t] appends it. *)
Lemma puts_with_returns read t k :
  serial_lock k = 0 → (∀ k', kn_user k' = kn_user k → hw_cr3 (kn_hw k') = hw_cr3 (kn_hw k) → read k' = Ok t) →
  wp (puts_with read) (λ _ k', printed k k' ∧ kn_console k' = kn_console k ++ t) k.
Proof.
  intros Hl Hr. unfold wp, puts_with. rewrite Hl. cbn [arch_acquire mbind res_bind].
  change (arch_acquire 0 (kn_hw k)) with (Ok (1, hw_set_if false (kn_hw k))). cbn [mbind res_bind].
  rewrite Hr; [|done|].
  2: { unfold kn_hw, sc_hw. cbn. by rewrite ks_get_set. }
  cbn [mbind res_bind arch_release]. split; [|done].
  split; try done; [| |by exists t].
  - eexists. cbn. unfold kn_hw, sc_hw. cbn. rewrite ks_set_set, ks_get_set. done.
  - exists true. unfold kn_hw, sc_hw. cbn. by rewrite !ks_get_set.
Qed.
Lemma arch_serial_puts_returns t s k :
  cstr t s → serial_lock k = 0 → wp (arch_serial_puts (Some s)) (λ _ k', printed k k' ∧ kn_console k' = kn_console k ++ t) k.
Proof. intros Hs Hl. apply puts_with_returns; [done|]. intros k' _ _. by apply c_bytes_cstr. Qed.

Context (stack : list Z) (Hstack : List.length stack = 32%nat).

Lemma kprint_returns f args k :
  format_okb (chars f) = true → Forall value_ok args → serial_lock k = 0 → wp (kprint stack (lit f) args) (λ _, printed k) k.
Proof.
  intros Hf Hargs Hl. unfold kprint, lit.
  apply (print_format_returns arch_serial_puts stack (λ k', printed k k') Hstack); [|done|done|by apply printed_refl].
  intros t s k1 Hs Hk1. eapply wp_mono; [|by apply (arch_serial_puts_returns t s k1), (pr_lock _ _ Hk1)].
  intros _ k2 [Hk2 _]. by eapply printed_trans.
Qed.

Definition lit_okb (s : string) : bool := forallb charb (chars s).
Lemma lit_cstr s : lit_okb s = true → ∃ t l, lit s = Some l ∧ cstr t l.
Proof.
  intros Hs. exists (chars s), (chars s ++ [0]). split; [done|]. apply cstr_app. rewrite List.Forall_forall.
  unfold lit_okb in Hs. rewrite forallb_forall in Hs. intros c Hc. by apply charb_spec, Hs.
Qed.
Lemma lit_value s : lit_okb s = true → value_ok (fmtvals (lit s)).
Proof. apply lit_cstr. Qed.

Lemma puts_lit_returns s k : lit_okb s = true → serial_lock k = 0 → wp (arch_serial_puts (lit s)) (λ _, printed k) k.
Proof.
  intros (t & l & Hl & Hs)%lit_cstr Hk. rewrite Hl. eapply wp_mono; [|by apply (arch_serial_puts_returns t)]. by intros _ k' [].
Qed.

Lemma log_impl_returns file line f args k :
  lit_okb file = true → format_okb (chars f) = true → Forall value_ok args → serial_lock k = 0 →
  wp (log_impl stack (lit file) line (lit f) args) (λ _, printed k) k.
Proof.
  intros Hfile Hf Hargs Hl. unfold log_impl.
  apply wp_bind. eapply wp_mono; [|apply kprint_returns; [vm_compute; reflexivity| |done]].
  2: { repeat constructor; [by apply lit_value|apply fmtvald_ok..]. }
  intros [] k1 Hk1. apply wp_bind. eapply wp_mono; [|apply kprint_returns; [done|done|apply Hk1]].
  intros [] k2 Hk2. eapply wp_mono; [|apply puts_lit_returns; [done|apply Hk2]].
  intros [] k3 Hk3. eapply printed_trans; [exact Hk1|]. by eapply printed_trans.
Qed.
End printing.
