(* ===== verification/Syscall.v ===== *)
(** kernel/syscall.c: the system calls, with their user-space side in
    libs/ansi/unistd.c and libs/navy/ipc.c.

    A handler that returns is [Return]; [Wait] is one more turn of the loop in
    [syscall_ipcrcv_sync], which interrupts may come between; [Stop] is the
    [for(;;)] that ends [syscall_exit]. *)
From S2P Require Import Prelude Machine CString Range Fmt Services Vec Sched Process Kernel.
From Stdlib Require Import Strings.String.

Inductive outcome : Type := Return (v : Z) | Wait | Stop.

Definition SYS_IPC_SEND : Z := 0.
Definition SYS_IPC_RCV_SYNC : Z := 1.
Definition SYS_IPC_RCV_ONESHOT : Z := 2.
Definition SYS_LOG : Z := 3.
Definition SYS_ALLOC : Z := 4.
Definition SYS_FREE : Z := 5.
Definition SYS_REALLOC : Z := 6.
Definition SYS_EXIT : Z := 7.
Definition SYS_GETPID : Z := 8.

Definition SIZEOF_IPC : Z := 24.
Definition load_ipc (m : memory) (a : Z) : ipc_t := mk_ipc (load64 m a) (load64 m (a + 8)) (load64 m (a + 16)).
Definition store_ipc (a : Z) (v : ipc_t) (m : memory) : memory :=
  store64 (a + 16) (data v) (store64 (a + 8) (receiver v) (store64 a (sender v) m)).

Section syscall.
Context {K : Type} `{KernelServices K} (stack : list Z).
Implicit Types k : kernel K.

(** The object [sched_current_process] points to, with its address. *)
Definition current_process : M (kernel K) (Z * process) :=
  on_sched sched_current_process ≫= λ p,
  on_sched (get_process p) ≫= λ x,
  mret (p, x).

Definition syscall_exit (regs : registers_t) : M (kernel K) outcome :=
  current_process ≫= λ '(current, x),
  log_impl stack (lit "syscall.c") 34 (lit "PID {} exited {}") [fmtvald (pid x); fmtvald (regs rbx)] ≫= λ _,
  on_sched (upd_process current (p_set_return (s32 (regs rbx)))) ≫= λ _,
  on_sched (upd_process current (p_set_state TASK_WAITINGFORDEATH)) ≫= λ _,
  mret Stop.

(** [limit] bounds the length of the string looked for. *)
Definition syscall_log (limit : nat) (regs : registers_t) : M (kernel K) outcome :=
  puts_with (λ k, mem_bytes limit (user_mem k) (regs rbx)) ≫= λ _,
  mret (Return 0).

Definition syscall_getpid (regs : registers_t) : M (kernel K) outcome :=
  current_process ≫= λ '(_, x),
  mret (Return (pid x)).

Definition syscall_ipcsend (regs : registers_t) : M (kernel K) outcome :=
  let msg := regs rbx in
  current_process ≫= λ '(_, x),
  modify (λ k, set_user_mem (store64 msg (pid x) (user_mem k)) k) ≫= λ _,
  gets (λ k, receiver (load_ipc (user_mem k) msg)) ≫= λ to,
  on_sched (sched_get_by_pid to) ≫= λ proc,
  assert_ (truth proc) ≫= λ _,
  on_sched (get_process proc) ≫= λ y,
  gets (λ k, load_ipc (user_mem k) msg) ≫= λ v,
  on_sched (on_k (vec_push ks_realloc SIZEOF_IPC (mailbox y) v)) ≫= λ mb,
  on_sched (upd_process proc (p_set_mailbox mb)) ≫= λ _,
  mret (Return 0).

(** [*msg = vec_pop(&proc->mailbox)] *)
Definition receive (proc : Z) (x : process) (msg : Z) : M (kernel K) unit :=
  lift (vec_pop (mailbox x)) ≫= λ '(v, mb),
  on_sched (upd_process proc (p_set_mailbox mb)) ≫= λ _,
  modify (λ k, set_user_mem (store_ipc msg v (user_mem k)) k).

(** From the loop's test on. *)
Definition syscall_ipcrcv_sync (regs : registers_t) : M (kernel K) outcome :=
  current_process ≫= λ '(proc, x),
  if v_length (mailbox x) =? 0 then on_sched force_yield ≫= λ _, mret Wait
  else receive proc x (regs rbx) ≫= λ _, mret (Return 0).

Definition syscall_ipcrcv_oneshot (regs : registers_t) : M (kernel K) outcome :=
  current_process ≫= λ '(proc, x),
  when (negb (v_length (mailbox x) =? 0)) (receive proc x (regs rbx)) ≫= λ _,
  mret (Return 0).

(** The table: indices without a designated initialiser are NULL. *)
Definition syscall_matrix (limit : nat) : list (option (registers_t → M (kernel K) outcome)) :=
  [Some syscall_ipcsend; Some syscall_ipcrcv_sync; Some syscall_ipcrcv_oneshot; Some (syscall_log limit);
   None; None; None; Some syscall_exit; Some syscall_getpid].
Definition syscall_handler (limit : nat) (regs : registers_t) : M (kernel K) outcome :=
  if regs rax <? 0 then fail BadAccess
  else match syscall_matrix limit !! Z.to_nat (regs rax) with
       | Some (Some f) => f regs
       | _ => fail BadAccess
       end.

(** *** User space: the registers the [syscall] instruction is executed with *)
Definition syscall5 (r : registers_t) (limit : nat) (syscall_id arg1 arg2 arg3 arg4 : Z) : M (kernel K) outcome :=
  syscall_handler limit
    (set_reg rdi arg4 (set_reg rsi arg3 (set_reg rdx arg2 (set_reg rbx arg1 (set_reg rax syscall_id r))))).
Definition syscall4 r limit syscall_id arg1 arg2 arg3 := syscall5 r limit syscall_id arg1 arg2 arg3 0.
Definition syscall3 r limit syscall_id arg1 arg2 := syscall5 r limit syscall_id arg1 arg2 0 0.
Definition syscall2 r limit syscall_id arg1 := syscall5 r limit syscall_id arg1 0 0 0.
Definition syscall1 r limit syscall_id := syscall5 r limit syscall_id 0 0 0 0.

Definition sys_log r limit (s : Z) := syscall2 r limit SYS_LOG s.
Definition getpid r limit := syscall1 r limit SYS_GETPID.
(** libs/ansi/stdlib.c in a user program; [status] is an [int]. *)
Definition user_exit r limit (status : Z) := syscall2 r limit SYS_EXIT (u64 status).
Definition user_malloc r limit (size : Z) := syscall2 r limit SYS_ALLOC size.
Definition user_free r limit (ptr : Z) := syscall2 r limit SYS_FREE ptr.
Definition user_realloc r limit (ptr size : Z) := syscall3 r limit SYS_REALLOC ptr size.
Definition ipc_send r limit (ipc : Z) := syscall2 r limit SYS_IPC_SEND ipc.
Definition ipc_rcv_sync r limit (ipc : Z) := syscall2 r limit SYS_IPC_RCV_SYNC ipc.
Definition ipc_rcv_oneshot r limit (ipc : Z) := syscall2 r limit SYS_IPC_RCV_ONESHOT ipc.
End syscall.

(** ** Messages *)

Section ipc.
Context {K : Type} `{KernelServicesLaws K}.
Implicit Types (k : kernel K) (s : sched_state K).

Lemma current_process_eq k :
  table_ok (kn_sched k) →
  ∃ p x, current_process k = Ok ((p, x), k) ∧ vec_list (processes (kn_sched k)) !! Z.to_nat (current_pid (kn_sched k)) = Some p ∧
    procs (kn_sched k) !! p = Some x ∧ entry (kn_sched k) (current_pid (kn_sched k)) = Some x ∧
    pid x = current_pid (kn_sched k).
Proof.
  intros Hok. destruct (entry_lookup _ _ Hok (sk_current _ Hok)) as (p & x & Hat & Hl & Hx & He & Hpid & _).
  exists p, x. split_and!; try done. unfold current_process.
  rewrite (bind_eq _ _ _ p k).
  2: { unfold on_sched, zoom, sched_current_process. rewrite (bind_eq _ _ _ (current_pid (kn_sched k)) (kn_sched k)) by done.
    unfold process_at. rewrite Hat. by destruct k. }
  rewrite (bind_eq _ _ _ x k); [done|]. unfold on_sched, zoom, get_process. rewrite Hx. by destruct k.
Qed.

(** Rewriting one process object that keeps its pid. *)
Lemma table_ok_alter s p x f :
  table_ok s → procs s !! p = Some x → pid (f x) = pid x → table_ok (set_procs (<[p := f x]> (procs s)) s).
Proof.
  intros [Hv Hn Hc He Hl] Hx Hf. split; try done. intros i q Hq. destruct (He i q Hq) as (Hr & y & Hy & Hpid).
  split; [done|]. cbn [procs set_procs]. destruct (decide (q = p)) as [->|Hne].
  - rewrite lookup_insert_eq. assert (x = y) as <- by congruence. exists (f x). split; [done|congruence].
  - rewrite lookup_insert_ne by done. by exists y.
Qed.
Lemma entry_alter s i j p x y :
  table_ok s → 0 ≤ i < table_length s → 0 ≤ j < table_length s →
  vec_list (processes s) !! Z.to_nat i = Some p → procs s !! p = Some x →
  entry (set_procs (<[p := y]> (procs s)) s) j = if decide (j = i) then Some y else entry s j.
Proof.
  intros Hok Hi Hj Hp Hx. destruct (entry_lookup s j Hok Hj) as (q & z & _ & Hq & Hz & Hez & Hpz & _).
  unfold entry in *. cbn [processes procs set_procs]. destruct (Z.ltb_spec j 0); [lia|]. rewrite Hq. cbn.
  destruct (decide (j = i)) as [->|Hne].
  - assert (q = p) as -> by congruence. by rewrite lookup_insert_eq.
  - rewrite lookup_insert_ne; [done|]. intros ->. destruct (sk_entry _ Hok _ _ Hp) as (_ & u & Hu & Hpu).
    assert (u = z) as -> by congruence. lia.
Qed.

(** What a state has in common with another one but for the mailbox of entry [i]. *)
Definition mailbox_updated s s' (i : Z) (mb : vec ipc_t) : Prop :=
  processes s' = processes s ∧ current_pid s' = current_pid s ∧ last_pid s' = last_pid s ∧
  sched_lock s' = sched_lock s ∧ usertask_lock s' = usertask_lock s ∧ tick s' = tick s ∧
  ∀ j, 0 ≤ j < table_length s →
    entry s' j = if decide (j = i) then p_set_mailbox mb <$> entry s i else entry s j.

Lemma user_mem_set m k : user_mem (set_user_mem m k) = m.
Proof. unfold user_mem, set_user_mem. cbn. by rewrite Z.eqb_refl. Qed.

Lemma load_ipc_sender m msg v :
  block_ok msg SIZEOF_IPC →
  load_ipc (store64 msg v m) msg = mk_ipc (u64 v) (load64 m (msg + 8)) (load64 m (msg + 16)).
Proof.
  intros (Hb0 & _ & Hb1). unfold SIZEOF_IPC in Hb1. unfold load_ipc. f_equal.
  - apply load64_store64_eq. unfold block_ok. lia.
  - apply load64_store64_ne; unfold block_ok, blocks_disjoint; lia.
  - apply load64_store64_ne; unfold block_ok, blocks_disjoint; lia.
Qed.
Lemma load_store_ipc m msg v :
  block_ok msg SIZEOF_IPC → load_ipc (store_ipc msg v m) msg = mk_ipc (u64 (sender v)) (u64 (receiver v)) (u64 (data v)).
Proof.
  intros (Hb0 & _ & Hb1). unfold SIZEOF_IPC in Hb1. unfold load_ipc, store_ipc.
  f_equal; repeat (rewrite load64_store64_ne by (unfold block_ok, blocks_disjoint; lia));
    by rewrite load64_store64_eq by (unfold block_ok; lia).
Qed.

Lemma get_by_pid_run k i p x :
  table_ok (kn_sched k) → 0 ≤ i → entry (kn_sched k) i = Some x → vec_at (processes (kn_sched k)) i = Ok p →
  procs (kn_sched k) !! p = Some x →
  on_sched (sched_get_by_pid i) k = Ok (if decide (state x = TASK_RUNNING) then p else 0, k).
Proof.
  intros Hok Hi He Hat Hx. unfold on_sched, zoom, sched_get_by_pid.
  pose proof (entry_bound _ _ _ Hok He) as [_ Hlt].
  rewrite (bind_eq _ _ _ (processes (kn_sched k)) (kn_sched k)) by done. fold (table_length (kn_sched k)).
  rewrite (proj2 (Z.ltb_lt _ _)) by done.
  rewrite (bind_eq _ _ _ p (kn_sched k)) by (unfold process_at; by rewrite Hat).
  rewrite (bind_eq _ _ _ x (kn_sched k)) by (unfold get_process; by rewrite Hx).
  case_decide; [unfold process_at; rewrite Hat|]; by destruct k.
Qed.
Lemma get_by_pid_none k i :
  table_ok (kn_sched k) → 0 ≤ i → runnable (kn_sched k) i = false → on_sched (sched_get_by_pid i) k = Ok (0, k).
Proof.
  intros Hok Hi Hr. destruct (decide (i < table_length (kn_sched k))) as [Hlt|Hge].
  - destruct (entry_lookup _ _ Hok (conj Hi Hlt)) as (p & x & Hat & _ & Hx & He & _).
    rewrite (get_by_pid_run k i p x) by done. unfold runnable in Hr. rewrite He in Hr.
    apply bool_decide_eq_false in Hr. by rewrite decide_False.
  - unfold on_sched, zoom, sched_get_by_pid.
    rewrite (bind_eq _ _ _ (processes (kn_sched k)) (kn_sched k)) by done. fold (table_length (kn_sched k)).
    rewrite (proj2 (Z.ltb_ge _ _)) by lia. by destruct k.
Qed.

(** Where a send goes and what it carries. *)
Definition send_to k (regs : registers_t) : Z := load64 (user_mem k) (regs rbx + 8).
Definition sent_message k (regs : registers_t) : ipc_t :=
  mk_ipc (current_pid (kn_sched k)) (send_to k regs) (load64 (user_mem k) (regs rbx + 16)).
Definition stamped k (regs : registers_t) : kernel K :=
  set_user_mem (store64 (regs rbx) (current_pid (kn_sched k)) (user_mem k)) k.

Lemma send_prefix k regs (g : Z → M (kernel K) outcome) :
  table_ok (kn_sched k) → block_ok (regs rbx) SIZEOF_IPC →
  (current_process ≫= λ '(_, x),
    modify (λ k, set_user_mem (store64 (regs rbx) (pid x) (user_mem k)) k) ≫= λ _,
    gets (λ k, receiver (load_ipc (user_mem k) (regs rbx))) ≫= g) k = g (send_to k regs) (stamped k regs) ∧
  load_ipc (user_mem (stamped k regs)) (regs rbx) = sent_message k regs.
Proof.
  intros Hok Hb. destruct (current_process_eq k Hok) as (p & x & Hcur & _ & _ & _ & Hpid).
  pose proof (sk_current _ Hok). pose proof (sk_length _ Hok).
  assert (load_ipc (user_mem (stamped k regs)) (regs rbx) = sent_message k regs) as Hload.
  { unfold stamped, sent_message, send_to. rewrite user_mem_set, load_ipc_sender by done. by rewrite u64_small by lia. }
  split; [|done]. rewrite (bind_eq _ _ _ _ _ Hcur), Hpid.
  rewrite (bind_eq _ _ _ tt (stamped k regs)) by done.
  by rewrite (bind_eq _ _ _ (send_to k regs) (stamped k regs)) by (unfold gets; by rewrite Hload).
Qed.

Lemma send_run k regs y ptr kk :
  let s := kn_sched k in
  table_ok s → block_ok (regs rbx) SIZEOF_IPC →
  entry s (send_to k regs) = Some y → state y = TASK_RUNNING →
  vec_ok (mailbox y) → v_length (mailbox y) < 2 ^ 60 →
  (v_length (mailbox y) = v_capacity (mailbox y) →
   ks_realloc (v_ptr (mailbox y)) (u64 ((if v_capacity (mailbox y) =? 0 then 1 else 2 * v_capacity (mailbox y)) * SIZEOF_IPC))
     (sc_k s) = Ok (ptr, kk) ∧ ptr ≠ 0) →
  ∃ k' mb, syscall_ipcsend regs k = Ok (Return 0, k') ∧ table_ok (kn_sched k') ∧
    vec_ok mb ∧ vec_list mb = vec_list (mailbox y) ++ [sent_message k regs] ∧
    mailbox_updated s (kn_sched k') (send_to k regs) mb ∧ kn_user k' = kn_user (stamped k regs).
Proof.
  intros s Hok Hb Hy Hrun Hmb Hlen Hre. unfold syscall_ipcsend. cbv zeta.
  destruct (send_prefix k regs (λ to,
    on_sched (sched_get_by_pid to) ≫= λ proc, assert_ (truth proc) ≫= λ _,
    on_sched (get_process proc) ≫= λ y, gets (λ k, load_ipc (user_mem k) (regs rbx)) ≫= λ v,
    on_sched (on_k (vec_push ks_realloc SIZEOF_IPC (mailbox y) v)) ≫= λ mb,
    on_sched (upd_process proc (p_set_mailbox mb)) ≫= λ _, mret (Return 0)) Hok Hb) as [-> Hload].
  set (k1 := stamped k regs) in *. assert (kn_sched k1 = s) as Hs1 by done.
  pose proof (entry_bound _ _ _ Hok Hy) as Hin. fold s in Hin.
  destruct (entry_lookup s _ Hok Hin) as (q & y' & Hat & Hl & Hq & He & Hpid & Hq0).
  assert (y' = y) as -> by congruence.
  rewrite (bind_eq _ _ _ q k1) by (rewrite (get_by_pid_run k1 _ q y) by (done || lia); by rewrite decide_True).
  rewrite (bind_eq _ _ _ tt k1) by (apply assert_Ok; split; [unfold truth; by rewrite (proj2 (Z.eqb_neq q 0)) by lia|done]).
  rewrite (bind_eq _ _ _ y k1).
  2: { unfold on_sched, zoom, get_process. rewrite Hs1, Hq. by destruct k. }
  rewrite (bind_eq _ _ _ (sent_message k regs) k1) by (unfold gets; by rewrite Hload).
  destruct (push_spec ks_realloc SIZEOF_IPC (mailbox y) (sent_message k regs) (sc_k s) ptr kk Hmb Hlen Hre)
    as (mb & Hpush & Hmb' & Hlist & _).
  set (kk' := if decide _ then kk else _) in Hpush.
  rewrite (bind_eq _ _ _ mb (set_sched (set_k kk' s) k1)).
  2: { unfold on_sched, zoom, on_k, zoom. rewrite Hs1, Hpush. done. }
  rewrite (bind_eq _ _ _ tt (set_sched (set_procs (<[q := p_set_mailbox mb y]> (procs s)) (set_k kk' s)) k1)).
  2: { unfold on_sched, zoom, upd_process. cbn [kn_sched set_sched procs set_k]. by rewrite Hq. }
  eexists _, mb. split; [done|]. cbn [kn_sched set_sched kn_user]. split_and!; try done.
  - apply (table_ok_ext (set_procs (<[q := p_set_mailbox mb y]> (procs s)) s)); try done.
    by apply (table_ok_alter s q y).
  - split_and!; try done. intros j Hj. change (entry (set_procs _ (set_k kk' s)) j) with
      (entry (set_procs (<[q := p_set_mailbox mb y]> (procs s)) s) j).
    rewrite (entry_alter s (send_to k regs) j q y) by done. rewrite Hy. by case_decide.
Qed.

(** The receiving side, with a message in the mailbox. *)
Lemma receive_run k x msg l v :
  let s := kn_sched k in
  table_ok s → entry s (current_pid s) = Some x →
  vec_ok (mailbox x) → vec_list (mailbox x) = l ++ [v] →
  ∃ p k' mb, (∀ (g : outcome), (current_process ≫= λ '(proc, x), receive proc x msg ≫= λ _, mret g) k = Ok (g, k')) ∧
    current_process k = Ok ((p, x), k) ∧
    table_ok (kn_sched k') ∧ vec_ok mb ∧ vec_list mb = l ∧ mailbox_updated s (kn_sched k') (current_pid s) mb ∧
    kn_user k' = kn_user (set_user_mem (store_ipc msg v (user_mem k)) k) ∧
    user_mem k' = store_ipc msg v (user_mem k).
Proof.
  intros s Hok Hx Hmb Hl. destruct (current_process_eq k Hok) as (p & x' & Hcur & Hp & Hpx & Hx' & Hpid).
  fold s in Hp, Hpx, Hx', Hpid. assert (x' = x) as -> by congruence.
  destruct (pop_spec (mailbox x) l v Hmb Hl) as (mb & Hpop & Hmb' & Hlist).
  set (k1 := set_sched (set_procs (<[p := p_set_mailbox mb x]> (procs s)) s) k).
  exists p, (set_user_mem (store_ipc msg v (user_mem k)) k1), mb. split_and!; try done.
  - intros g. rewrite (bind_eq _ _ _ _ _ Hcur).
    rewrite (bind_eq _ _ _ tt (set_user_mem (store_ipc msg v (user_mem k)) k1)); [done|].
    unfold receive. rewrite (bind_eq _ _ _ (v, mb) k) by (unfold lift; by rewrite Hpop).
    rewrite (bind_eq _ _ _ tt k1) by (unfold on_sched, zoom, upd_process; fold s; by rewrite Hpx).
    done.
  - apply (table_ok_alter s p x); done.
  - split_and!; try done. intros j Hj. change (entry (kn_sched _) j) with
      (entry (set_procs (<[p := p_set_mailbox mb x]> (procs s)) s) j).
    rewrite (entry_alter s (current_pid s) j p x) by (done || apply Hok). rewrite Hx. by case_decide.
  - apply user_mem_set.
Qed.

(** A send to a running process appends the message, its
    sender field overwritten with the caller's pid, to the receiver's mailbox
    and changes no other process; the message in user memory is stamped too.  A
    send to anything else fails the kernel's assertion: any process can halt
    the kernel. *)
Theorem ipcsend_delivers k regs ptr kk :
  let s := kn_sched k in
  table_ok s → block_ok (regs rbx) SIZEOF_IPC →
  match (if runnable s (send_to k regs) then entry s (send_to k regs) else None) with
  | None => syscall_ipcsend regs k = Err AssertFailed
  | Some y =>
      vec_ok (mailbox y) → v_length (mailbox y) < 2 ^ 60 →
      (v_length (mailbox y) = v_capacity (mailbox y) →
       ks_realloc (v_ptr (mailbox y)) (u64 ((if v_capacity (mailbox y) =? 0 then 1 else 2 * v_capacity (mailbox y)) * SIZEOF_IPC))
         (sc_k s) = Ok (ptr, kk) ∧ ptr ≠ 0) →
      ∃ k' mb, syscall_ipcsend regs k = Ok (Return 0, k') ∧ table_ok (kn_sched k') ∧
        vec_ok mb ∧ vec_list mb = vec_list (mailbox y) ++ [sent_message k regs] ∧
        mailbox_updated s (kn_sched k') (send_to k regs) mb ∧ kn_user k' = kn_user (stamped k regs)
  end.
Proof.
  intros s Hok Hb. destruct (runnable s (send_to k regs)) eqn:Hr.
  - unfold runnable in Hr. destruct (entry s (send_to k regs)) as [y|] eqn:Hy; [|done].
    apply bool_decide_eq_true in Hr. intros Hmb Hlen Hre. by apply (send_run k regs y ptr kk).
  - unfold syscall_ipcsend. cbv zeta.
    destruct (send_prefix k regs (λ to,
      on_sched (sched_get_by_pid to) ≫= λ proc, assert_ (truth proc) ≫= λ _,
      on_sched (get_process proc) ≫= λ y, gets (λ k, load_ipc (user_mem k) (regs rbx)) ≫= λ v,
      on_sched (on_k (vec_push ks_realloc SIZEOF_IPC (mailbox y) v)) ≫= λ mb,
      on_sched (upd_process proc (p_set_mailbox mb)) ≫= λ _, mret (Return 0)) Hok Hb) as [-> _].
    pose proof (load64_range (user_mem k) (regs rbx + 8)).
    rewrite (bind_eq _ _ _ 0 (stamped k regs)); [by apply bind_Err|].
    apply get_by_pid_none; [done|unfold send_to; lia|done].
Qed.

(** Both receiving calls on a mailbox with messages take the
    one sent last, write it at the caller's pointer and return 0.  On an empty
    mailbox the one-shot call returns 0 and changes nothing, and the waiting one
    only sets the tick count so that the next timer tick switches. *)
Theorem ipcrcv_receives k regs x :
  let s := kn_sched k in
  table_ok s → entry s (current_pid s) = Some x → vec_ok (mailbox x) →
  match last (vec_list (mailbox x)) with
  | Some v =>
      ∃ k' mb, syscall_ipcrcv_sync regs k = Ok (Return 0, k') ∧ syscall_ipcrcv_oneshot regs k = Ok (Return 0, k') ∧
        table_ok (kn_sched k') ∧ vec_ok mb ∧ vec_list (mailbox x) = vec_list mb ++ [v] ∧
        mailbox_updated s (kn_sched k') (current_pid s) mb ∧
        kn_user k' = kn_user (set_user_mem (store_ipc (regs rbx) v (user_mem k)) k)
  | None =>
      syscall_ipcrcv_oneshot regs k = Ok (Return 0, k) ∧
      syscall_ipcrcv_sync regs k = Ok (Wait, set_sched (set_tick SWITCH_TICK s) k)
  end.
Proof.
  intros s Hok Hx Hmb. pose proof (vec_list_length _ Hmb) as Hlen.
  destruct (last (vec_list (mailbox x))) as [v|] eqn:Hlast.
  - apply last_Some in Hlast as [l Hl].
    destruct (receive_run k x (regs rbx) l v Hok Hx Hmb Hl) as (p & k' & mb & Hrun & Hcur & Hok' & Hmb' & Hl' & Hupd & Hu & _).
    assert (v_length (mailbox x) =? 0 = false) as Hne.
    { apply Z.eqb_neq. rewrite <- Hlen, Hl, length_app. cbn. lia. }
    exists k', mb. split_and!; try done; [| |by rewrite Hl'];
      rewrite <- (Hrun (Return 0)); unfold syscall_ipcrcv_sync, syscall_ipcrcv_oneshot;
      rewrite !(bind_eq _ _ _ _ _ Hcur), Hne; done.
  - apply last_None in Hlast. rewrite Hlast in Hlen. cbn in Hlen.
    destruct (current_process_eq k Hok) as (p & x' & Hcur & _ & _ & Hx' & _). fold s in Hx'.
    assert (x' = x) as -> by congruence. unfold syscall_ipcrcv_sync, syscall_ipcrcv_oneshot.
    rewrite !(bind_eq _ _ _ _ _ Hcur), <- Hlen. done.
Qed.

(** What a process sends is what the receiver reads: whatever
    happens in between, if the receiver's process object is as the send left it
    when it calls a receiving system call, the structure at its pointer then
    holds the sender's pid, its own pid and the data sent. *)
Theorem ipc_roundtrip k regs y ptr kk :
  let s := kn_sched k in
  table_ok s → block_ok (regs rbx) SIZEOF_IPC →
  entry s (send_to k regs) = Some y → state y = TASK_RUNNING →
  vec_ok (mailbox y) → v_length (mailbox y) < 2 ^ 60 →
  (v_length (mailbox y) = v_capacity (mailbox y) →
   ks_realloc (v_ptr (mailbox y)) (u64 ((if v_capacity (mailbox y) =? 0 then 1 else 2 * v_capacity (mailbox y)) * SIZEOF_IPC))
     (sc_k s) = Ok (ptr, kk) ∧ ptr ≠ 0) →
  ∃ k1, syscall_ipcsend regs k = Ok (Return 0, k1) ∧
    ∀ k2 regs2, table_ok (kn_sched k2) → current_pid (kn_sched k2) = send_to k regs →
      entry (kn_sched k2) (send_to k regs) = entry (kn_sched k1) (send_to k regs) →
      block_ok (regs2 rbx) SIZEOF_IPC →
      ∃ k3, syscall_ipcrcv_sync regs2 k2 = Ok (Return 0, k3) ∧
        load_ipc (user_mem k3) (regs2 rbx) =
          mk_ipc (current_pid s) (send_to k regs) (load64 (user_mem k) (regs rbx + 16)).
Proof.
  intros s Hok Hb Hy Hrun Hmb Hlen Hre.
  destruct (send_run k regs y ptr kk Hok Hb Hy Hrun Hmb Hlen Hre) as (k1 & mb & Hsend & Hok1 & Hmb1 & Hl1 & Hupd & _).
  exists k1. split; [done|]. intros k2 regs2 Hok2 Hcur2 Hent Hb2.
  pose proof (entry_bound _ _ _ Hok Hy) as Hin. fold s in Hin.
  destruct Hupd as (_ & _ & _ & _ & _ & _ & Hupd). rewrite Hupd, decide_True in Hent by done.
  change (kn_sched k) with s in Hent. rewrite Hy in Hent. cbn [fmap option_fmap option_map] in Hent. rewrite <- Hcur2 in Hent.
  destruct (receive_run k2 (p_set_mailbox mb y) (regs2 rbx) (vec_list (mailbox y)) (sent_message k regs) Hok2 Hent Hmb1 Hl1)
    as (p & k3 & mb3 & Hrun3 & Hcur3 & _ & _ & _ & _ & _ & Hu).
  exists k3. split.
  - rewrite <- (Hrun3 (Return 0)). unfold syscall_ipcrcv_sync. rewrite !(bind_eq _ _ _ _ _ Hcur3).
    assert (v_length (mailbox (p_set_mailbox mb y)) =? 0 = false) as ->; [|done].
    apply Z.eqb_neq. cbn [mailbox p_set_mailbox]. rewrite <- (vec_list_length _ Hmb1), Hl1, length_app. cbn. lia.
  - rewrite Hu, load_store_ipc by done. unfold sent_message. cbn [sender receiver data].
    pose proof (sk_current _ Hok). pose proof (sk_length _ Hok).
    rewrite !u64_small; [done|apply load64_range|apply load64_range|unfold s in *; lia].
Qed.

(** [syscall_exit] logs, records the low 32 bits of [rbx] as
    the return value and marks the caller as waiting for death, then never
    returns; no other process changes, so the caller is the only process that is
    no longer runnable. *)
Theorem syscall_exit_ends stack k regs x :
  let s := kn_sched k in
  List.length stack = 32%nat → table_ok s → serial_lock k = 0 → entry s (current_pid s) = Some x →
  ∃ k', syscall_exit stack regs k = Ok (Stop, k') ∧ table_ok (kn_sched k') ∧ serial_lock k' = 0 ∧
    ∀ j, 0 ≤ j < table_length s →
      entry (kn_sched k') j =
        (if decide (j = current_pid s) then Some (p_set_state TASK_WAITINGFORDEATH (p_set_return (s32 (regs rbx)) x))
         else entry s j) ∧
      runnable (kn_sched k') j = (runnable s j && negb (j =? current_pid s)).
Proof.
  intros s Hst Hok Hlock Hx. destruct (current_process_eq k Hok) as (p & x' & Hcur & Hp & Hpx & Hx' & Hpid).
  fold s in Hp, Hpx, Hx', Hpid. assert (x' = x) as -> by congruence.
  assert (wp (log_impl stack (lit "syscall.c") 34 (lit "PID {} exited {}") [fmtvald (pid x); fmtvald (regs rbx)])
    (λ _, printed k) k) as Hlog.
  { apply log_impl_returns; [done|by vm_compute..| |done]. repeat constructor; apply fmtvald_ok. }
  apply wp_elim in Hlog as ([] & k1 & Hlog & [(h & Hs1 & _) _ _ _ Hl1 _]).
  unfold syscall_exit. rewrite (bind_eq _ _ _ _ _ Hcur), (bind_eq _ _ _ _ _ Hlog).
  set (x1 := p_set_return (s32 (regs rbx)) x). set (x2 := p_set_state TASK_WAITINGFORDEATH x1).
  assert (procs (kn_sched k1) = procs s) as Hp1 by by rewrite Hs1.
  rewrite (bind_eq _ _ _ tt (set_sched (set_procs (<[p := x1]> (procs s)) (kn_sched k1)) k1)).
  2: { unfold on_sched, zoom, upd_process. by rewrite Hp1, Hpx. }
  rewrite (bind_eq _ _ _ tt (set_sched (set_procs (<[p := x2]> (procs s)) (kn_sched k1)) k1)).
  2: { unfold on_sched, zoom, upd_process. cbn [kn_sched set_sched procs set_procs]. rewrite lookup_insert_eq.
    cbn [kn_sched set_sched procs set_procs]. by rewrite insert_insert_eq. }
  assert (table_ok (set_procs (<[p := x2]> (procs s)) s)) as Hok2 by by apply (table_ok_alter s p x (λ _, x2)).
  eexists. split; [done|]. cbn [kn_sched set_sched serial_lock]. split_and!; [|done|].
  - apply (table_ok_ext (set_procs (<[p := x2]> (procs s)) s)); try (by rewrite Hs1); done.
  - intros j Hj. assert (entry (set_procs (<[p:=x2]> (procs s)) (kn_sched k1)) j = if decide (j = current_pid s) then Some x2 else entry s j) as Hent.
    { rewrite <- (entry_alter s (current_pid s) j p x x2) by (done || apply Hok). rewrite Hs1. done. }
    split; [done|]. unfold runnable. rewrite Hent. case_decide as Hd.
    + rewrite Hd, Z.eqb_refl, andb_false_r. done.
    + by rewrite (proj2 (Z.eqb_neq _ _) Hd), andb_true_r.
Qed.
End ipc.

(** The numbers [SYS_ALLOC], [SYS_FREE] and [SYS_REALLOC] of unistd.h, and every
    number past the table, make the kernel call through a pointer that is NULL
    or not in the table. *)
Lemma syscall_handler_unchecked {K} `{KernelServices K} stack limit regs (k : kernel K) :
  0 ≤ regs rax → regs rax ∉ [SYS_IPC_SEND; SYS_IPC_RCV_SYNC; SYS_IPC_RCV_ONESHOT; SYS_LOG; SYS_EXIT; SYS_GETPID] →
  syscall_handler stack limit regs k = Err BadAccess.
Proof.
  intros Hr Hno. unfold syscall_handler. destruct (Z.ltb_spec (regs rax) 0); [done|].
  destruct (syscall_matrix stack limit !! Z.to_nat (regs rax)) as [[f|]|] eqn:Hf; [|done..].
  exfalso. apply Hno. apply list_elem_of_In. unfold SYS_IPC_SEND, SYS_IPC_RCV_SYNC, SYS_IPC_RCV_ONESHOT, SYS_LOG, SYS_EXIT, SYS_GETPID.
  cbn. apply lookup_lt_Some in Hf as Hlt. cbn in Hlt.
  remember (Z.to_nat (regs rax)) as i eqn:Hi. do 9 (destruct i as [|i]; [first [discriminate Hf|lia]|]). lia.
Qed.

(** ** A sender with pid 0, a receiver with pid 1 and one message *)

Definition sample_message : Z := 0x400000.
Definition sample_user : memory :=
  store64 (sample_message + 16) 0xdeadbeef (store64 (sample_message + 8) 1 (store64 sample_message 77 (λ _, 0))).
Definition sample_kernel (receiver_state : TASK_STATE) (cur : Z) : kernel bump :=
  mk_kernel (set_current cur (Process.sample_sched TASK_RUNNING receiver_state)) (λ _, sample_user) [] 0 false 0 (mk_range 0 0) [].
Definition sample_regs : registers_t := set_reg rbx sample_message zero_regs.

Lemma sample_kernel_ok t cur : 0 ≤ cur < 2 → table_ok (kn_sched (sample_kernel t cur)).
Proof. intros Hc. destruct (Process.sample_sched_ok TASK_RUNNING t) as [[Hv Hn _ He Hl] _ _]. by split. Qed.
Lemma sample_kernel_ok0 t : table_ok (kn_sched (sample_kernel t 0)).
Proof. apply sample_kernel_ok. lia. Qed.
Lemma sample_block : block_ok (sample_regs rbx) SIZEOF_IPC.
Proof. split; [done|split; [done|reflexivity || (vm_compute; discriminate)]]. Qed.

Lemma ipcsend_delivers_witness :
  (∃ k' mb, syscall_ipcsend sample_regs (sample_kernel TASK_RUNNING 0) = Ok (Return 0, k') ∧
     vec_list mb = [mk_ipc 0 1 0xdeadbeef] ∧ entry (kn_sched k') 1 = Some (p_set_mailbox mb (Process.sample_process 1 0x200 TASK_RUNNING))) ∧
  syscall_ipcsend sample_regs (sample_kernel TASK_DEAD 0) = Err AssertFailed.
Proof.
  split.
  - pose proof (ipcsend_delivers (sample_kernel TASK_RUNNING 0) sample_regs 0x10000
      (mk_bump (bp_hw sample_bump) (0x10000 + 24)) (sample_kernel_ok0 TASK_RUNNING) sample_block) as Hsend. cbv beta zeta in Hsend.
    assert (send_to (sample_kernel TASK_RUNNING 0) sample_regs = 1) as Hto by (vm_compute; reflexivity). rewrite Hto in Hsend.
    assert (runnable (kn_sched (sample_kernel TASK_RUNNING 0)) 1 = true) as Hr by reflexivity. rewrite Hr in Hsend.
    assert (entry (kn_sched (sample_kernel TASK_RUNNING 0)) 1 = Some (Process.sample_process 1 0x200 TASK_RUNNING)) as He by reflexivity.
    rewrite He in Hsend. destruct Hsend as (k' & mb & Hrun & _ & _ & Hl & Hupd & _).
    + apply vec_init_ok.
    + reflexivity.
    + intros _. split; [reflexivity|lia].
    + exists k', mb. split; [exact Hrun|]. split; [rewrite Hl; vm_compute; reflexivity|].
      destruct Hupd as (_ & _ & _ & _ & _ & _ & Hent). rewrite (Hent 1) by (vm_compute; split; congruence). reflexivity.
  - exact (ipcsend_delivers (sample_kernel TASK_DEAD 0) sample_regs 0 sample_bump
      (sample_kernel_ok0 _) sample_block).
Defined.

Lemma ipcrcv_receives_witness :
  syscall_ipcrcv_sync sample_regs (sample_kernel TASK_RUNNING 1) =
    Ok (Wait, set_sched (set_tick SWITCH_TICK (kn_sched (sample_kernel TASK_RUNNING 1))) (sample_kernel TASK_RUNNING 1)).
Proof.
  apply (ipcrcv_receives (sample_kernel TASK_RUNNING 1) sample_regs (Process.sample_process 1 0x200 TASK_RUNNING)).
  - apply sample_kernel_ok. lia.
  - reflexivity.
  - apply vec_init_ok.
Defined.

Lemma ipc_roundtrip_witness :
  ∃ k1, syscall_ipcsend sample_regs (sample_kernel TASK_RUNNING 0) = Ok (Return 0, k1) ∧
    ∃ k3, syscall_ipcrcv_sync sample_regs (set_sched (set_current 1 (kn_sched k1)) k1) = Ok (Return 0, k3) ∧
      load_ipc (user_mem k3) sample_message = mk_ipc 0 1 0xdeadbeef.
Proof.
  destruct (ipc_roundtrip (sample_kernel TASK_RUNNING 0) sample_regs (Process.sample_process 1 0x200 TASK_RUNNING) 0x10000
    (mk_bump (bp_hw sample_bump) (0x10000 + 24)) (sample_kernel_ok0 _) sample_block)
    as (k1 & Hsend & Hrcv).
  - reflexivity.
  - reflexivity.
  - apply vec_init_ok.
  - reflexivity.
  - intros _. split; [reflexivity|lia].
  - exists k1. split; [exact Hsend|].
    destruct (send_run (sample_kernel TASK_RUNNING 0) sample_regs (Process.sample_process 1 0x200 TASK_RUNNING) 0x10000
      (mk_bump (bp_hw sample_bump) (0x10000 + 24)) (sample_kernel_ok0 _) sample_block)
      as (k1' & mb & Hrun & Hok1 & _);
      [reflexivity|reflexivity|apply vec_init_ok|reflexivity|intros _; split; [reflexivity|lia]|].
    assert (k1' = k1) as -> by (rewrite Hsend in Hrun; congruence).
    destruct (Hrcv (set_sched (set_current 1 (kn_sched k1)) k1) sample_regs) as (k3 & Hr3 & Hl3).
    + destruct Hok1 as [Hv Hn _ He Hl]. split; [exact Hv|exact Hn| |exact He|exact Hl].
      assert (table_length (kn_sched k1) = 2) as H2; [|unfold table_length in *; cbn; lia].
      clear -Hsend. vm_compute in Hsend. injection Hsend as <-. reflexivity.
    + reflexivity.
    + reflexivity.
    + exact sample_block.
    + exists k3. split; [exact Hr3|]. etransitivity; [exact Hl3|]. vm_compute. reflexivity.
Defined.

Lemma syscall_exit_ends_witness :
  ∃ k', syscall_exit (replicate 32 0) sample_regs (sample_kernel TASK_RUNNING 0) = Ok (Stop, k') ∧
    runnable (kn_sched k') 0 = false ∧ runnable (kn_sched k') 1 = true.
Proof.
  destruct (syscall_exit_ends (replicate 32 0) (sample_kernel TASK_RUNNING 0) sample_regs
    (Process.sample_process 0 0x100 TASK_RUNNING) eq_refl (sample_kernel_ok0 _) eq_refl eq_refl) as (k' & Hrun & _ & _ & Hent).
  exists k'. split; [exact Hrun|].
  split; [rewrite (proj2 (Hent 0 ltac:(vm_compute; split; congruence)))|
          rewrite (proj2 (Hent 1 ltac:(vm_compute; split; congruence)))]; vm_compute; reflexivity.
Defined.
