(* ===== verification/Interrupt.v ===== *)
(** arch/x86_64/interrupt.c: exceptions, the panic screen with its backtrace, and
    the dispatch of hardware interrupts.

    The handler returns the registers to resume with ([Resume]) or stops the
    processor with interrupts off ([Halted]); a non-maskable interrupt that
    wakes it from [hlt] is not modelled. *)
From S2P Require Import Prelude Machine CString Range Fmt CStdlib Symbols Services Sched Process Devices Kernel.
From Stdlib Require Import Strings.String.

Inductive int_result : Type := Resume (r : registers_t) | Halted.

Definition exceptions : list string :=
  ["Division by zero";
   "Debug";
   "Non-maskable Interrupt";
   "Breakpoint";
   "Overflow";
   "Bound Range Exceeded";
   "Invalid Opcode";
   "Device Not Available";
   "Double Fault";
   "Coprocessor Segment Overrun";
   "Invalid TSS";
   "Segment Not Present";
   "Stack-Segment Fault";
   "General Protection Fault";
   "Page Fault";
   "Reserved";
   "x87 Floating-Point Exception";
   "Aligment Check";
   "Machine Check";
   "SIMD Floating-Point Exception";
   "Virtualization Exception";
   "Reserved";
   "Reserved";
   "Reserved";
   "Reserved";
   "Reserved";
   "Reserved";
   "Reserved";
   "Reserved";
   "Reserved";
   "Security Exception";
   "Reserved"]%string.

Definition comments : list string :=
  ["Panic At The Kernel !";
   "Press F to pay respect.";
   "Could not boot up kernel because no";
   "Booting up is not supported on this kernel";
   "Seems like Duolingo halted the kernel";
   "Hey /r/softwaregore";
   "Believe me, everything is fine :)";
   "The kernel defined that 1 + 1 = 3";
   "Congratulations, this kernel can now run Half Life 3 !";
   "Still more stable than Windows";
   "Looks like the CPU took a lil' nap";
   "Stability is bloat";
   "The kernel took some vacations";
   "https://www.youtube.com/watch?v=dQw4w9WgXcQ";
   "Still faster developpement than GNU Hurd";
   "Did you try to rewrite the kernel in rust ?";
   "Better of doing a megalithic kernel";
   "Keyboard Slayer, just contribute to brutal wtf";
   "The dev of this kernel is the worst at copying and pasting";
   "Maybe if you create your own cpu architecture it will work";
   "DevseChan, what if we kissed during the kernel panic";
   "Paging hell is real"]%string.

(** The panic screen: the formats printed one after the other, with their
    arguments, up to the empty line and after it. *)
Definition panic_banner (comment exception : charp) (stackframe : registers_t) : list (string * fmt_args) :=
  [
   ((" ____________________" ++ NL)%string, []);
   (("/                    \" ++ NL)%string, []);
   (("!    Kernel Panic    !" ++ NL)%string, []);
   (("!   (Do not panic)   !" ++ NL)%string, []);
   (("\____________________/" ++ NL)%string, []);
   (("         !  !" ++ NL)%string, []);
   (("         !  !" ++ NL)%string, []);
   (("         L_ !" ++ NL)%string, []);
   (("        / _)!" ++ NL)%string, []);
   (("       / /__L" ++ NL)%string, []);
   ((" _____/ (____)" ++ TAB ++ TAB ++ TAB ++ "{}" ++ NL)%string, [fmtvals comment]);
   (("        (____)" ++ TAB ++ TAB ++ TAB ++ "Exception: {}" ++ NL)%string, [fmtvals exception]);
   ((" _____  (____)" ++ TAB ++ TAB ++ TAB ++ "Error: {}" ++ NL)%string, [fmtvald (stackframe err)]);
   (("      \_(____)" ++ NL)%string, []);
   (("         !  !" ++ NL)%string, []);
   (("         !  !" ++ NL)%string, []);
   (("         \__/ " ++ NL)%string, [])].
Definition panic_registers (stackframe : registers_t) (cr2 cr3 : Z) (function : list Z) : list (string * fmt_args) :=
  [
   (("RAX={a} RBX={a} RCX={a} RDX={a}" ++ NL)%string,
    [fmtvald (stackframe rax); fmtvald (stackframe rbx); fmtvald (stackframe rcx); fmtvald (stackframe rdx)]);
   (("RSI={a} RDI={a} RBP={a} RSP={a}" ++ NL)%string,
    [fmtvald (stackframe rsi); fmtvald (stackframe rdi); fmtvald (stackframe rbp); fmtvald (stackframe rsp)]);
   (("R8= {a} R9= {a} R10={a} R11={a}" ++ NL)%string,
    [fmtvald (stackframe r8); fmtvald (stackframe r9); fmtvald (stackframe r10); fmtvald (stackframe r11)]);
   (("R12={a} R13={a} R14={a} R15={a}" ++ NL)%string,
    [fmtvald (stackframe r12); fmtvald (stackframe r13); fmtvald (stackframe r14); fmtvald (stackframe r15)]);
   (("CR2={a} CR3={a}" ++ NL)%string,
    [fmtvald cr2; fmtvald cr3]);
   (("RIP={a} ({})" ++ NL)%string,
    [fmtvald (stackframe rip); fmtvals (Some function)])].

(** A bus nothing answers on: the interrupt controller is only written to. *)
#[local] Instance silent_bus : Bus unit := { bus_in := λ _ b, (0, b); bus_out := λ _ _ b, b }.
(** What [pic_sendEOI] writes. *)
Definition eoi_writes (intno : Z) : list (Z * Z) :=
  match pic_sendEOI intno (mk_devices tt [] true) with Ok (_, d) => outs d | Err _ => [] end.

Section interrupt.
Context {K : Type} `{KernelServices K} (stack : list Z).

Definition kernel_mem (k : kernel K) : memory := ks_mem (sc_k (kn_sched k)).

Fixpoint print_all (l : list (string * fmt_args)) : M (kernel K) unit :=
  match l with
  | [] => mret tt
  | (format, args) :: l => kprint stack (lit format) args ≫= λ _, print_all l
  end.

(** [find_symbols] into a zeroed array of 64. *)
Definition lookup_symbol (ptr : Z) : M (kernel K) (list Z) := λ k,
  match find_symbols (kernel_mem k) (kn_symbols k) ptr (replicate 64 0) with
  | Ok function => Ok (function, k)
  | Err e => Err e
  end.

(** A [struct stackframe] is the caller's [rbp], then the return address;
    [depth] bounds the frames followed. *)
Fixpoint backtrace (depth : nat) (stackframe : Z) : M (kernel K) unit :=
  match depth with
  | O => fail OutOfFuel
  | Datatypes.S depth =>
      if truth stackframe then
        gets (λ k, load64 (kernel_mem k) (stackframe + 8)) ≫= λ rip,
        lookup_symbol rip ≫= λ function,
        (if default 0 (head function) =? 0 then kprint stack (lit ("{a}" ++ NL)%string) [fmtvald rip]
         else kprint stack (lit ("{a} ({})" ++ NL)%string) [fmtvald rip; fmtvals (Some function)]) ≫= λ _,
        gets (λ k, load64 (kernel_mem k) stackframe) ≫= λ next,
        backtrace depth next
      else mret tt
  end.

(** [cli]; [hlt]. *)
Definition arch_hlt : M (kernel K) unit := modify (λ k, set_kn_hw (hw_set_if false (kn_hw k)) k).

Definition send_eoi (intno : Z) : M (kernel K) unit := modify (λ k, set_eoi (kn_eoi k ++ eoi_writes intno) k).

(** The first branch of [interrupts_handler]; [now] is what [rtc_sec] returns. *)
Definition panic (depth : nat) (now cr2 : Z) (stackframe : registers_t) : M (kernel K) int_result :=
  modify set_has_fault ≫= λ _,
  zoom random_next set_random (srandom now) ≫= λ _,
  zoom random_next set_random random ≫= λ r,
  let funny_id := r mod Z.of_nat (List.length comments) in
  lookup_symbol (stackframe rip) ≫= λ function,
  let comment := lit (default EmptyString (comments !! Z.to_nat funny_id)) in
  let exception := lit (default EmptyString (exceptions !! Z.to_nat (stackframe intno))) in
  print_all (panic_banner comment exception stackframe) ≫= λ _,
  arch_serial_puts (lit NL) ≫= λ _,
  gets (λ k, hw_cr3 (kn_hw k)) ≫= λ cr3,
  print_all (panic_registers stackframe cr2 cr3 function) ≫= λ _,
  gets (λ k, is_sched_init (kn_sched k)) ≫= λ i,
  when i
    (on_sched sched_current_process ≫= λ p,
     on_sched (get_process p) ≫= λ x,
     kprint stack (lit "PID: {}") [fmtvald (pid x)]) ≫= λ _,
  arch_serial_puts (lit (NL ++ " *** Backtrace *** " ++ NL)%string) ≫= λ _,
  backtrace depth (stackframe rbp) ≫= λ _,
  arch_hlt ≫= λ _,
  mret Halted.

(** [limit] bounds the string printed for interrupt 0x80. *)
Definition interrupts_handler (limit depth : nat) (now cr2 : Z) (stackframe : registers_t) : M (kernel K) int_result :=
  gets has_fault ≫= λ fault,
  if fault : bool then
    log_impl stack (lit "interrupt.c") 132 (lit "DOUBLE FAULT HALTING !!") [] ≫= λ _,
    modify (λ k, set_kn_hw (hw_set_if false (kn_hw k)) k) ≫= λ _,
    mret Halted
  else if stackframe intno <? 32 then panic depth now cr2 stackframe
  else
    (if stackframe intno <? 48 then
       let irq := u8 (stackframe intno - 32) in
       if irq =? 0 then
         gets (λ k, is_scheduler (kn_sched k)) ≫= λ e,
         if e : bool then on_sched (yield_task stackframe) else mret stackframe
       else mret stackframe
     else
       when (stackframe intno =? 0x80) (puts_with (λ k, mem_bytes limit (user_mem k) (stackframe rdi))) ≫= λ _,
       mret stackframe) ≫= λ regs,
    send_eoi (stackframe intno) ≫= λ _,
    mret (Resume regs).
End interrupt.

(** ** The panic handler returns *)

(** A chain of stack frames that ends. *)
Inductive frames (m : memory) : Z → nat → Prop :=
| frames_end : frames m 0 0
| frames_next a n : a ≠ 0 → frames m (load64 m a) n → frames m a (Datatypes.S n).

(** Every address looks up to a string, possibly empty. *)
Definition symbols_ok (m : memory) (r : range_t) : Prop :=
  ∀ ptr, ∃ t function, find_symbols m r ptr (replicate 64 0) = Ok function ∧ cstr t function.

Section panicking.
Context {K : Type} `{KernelServicesLaws K} (stack : list Z) (Hstack : List.length stack = 32%nat).
Implicit Types k : kernel K.

Lemma printed_mem k k' : printed k k' → kernel_mem k' = kernel_mem k ∧ kn_symbols k' = kn_symbols k.
Proof.
  intros [(h & Hs & Hm & _) _ _ _ _ (_ & _ & Hy & _)]. split; [|done].
  unfold kernel_mem. rewrite Hs. cbn. unfold ks_mem. by rewrite ks_get_set.
Qed.
Lemma printed_procs k k' : printed k k' →
  processes (kn_sched k') = processes (kn_sched k) ∧ procs (kn_sched k') = procs (kn_sched k) ∧
  current_pid (kn_sched k') = current_pid (kn_sched k) ∧ last_pid (kn_sched k') = last_pid (kn_sched k).
Proof. intros [(h & -> & _) _ _ _ _ _]. done. Qed.

(** Steps of the kind "print, then go on". *)
Lemma wp_printed {A} (m : M (kernel K) unit) (f : unit → M (kernel K) A) Q k0 k :
  printed k0 k → wp m (λ _, printed k) k → (∀ k', printed k0 k' → wp (f tt) Q k') → wp (m ≫= f) Q k.
Proof.
  intros Hk Hm Hf. apply wp_bind. eapply wp_mono; [|exact Hm]. intros [] k' Hk'. apply Hf. by eapply printed_trans.
Qed.

Definition item_ok (x : string * fmt_args) : Prop := format_okb (chars x.1) = true ∧ Forall value_ok x.2.
Lemma print_all_returns l k : Forall item_ok l → serial_lock k = 0 → wp (print_all stack l) (λ _, printed k) k.
Proof.
  intros Hl. revert k. induction Hl as [|[f args] l [Hf Hargs] Hl IH]; intros k Hk; [by apply printed_refl|].
  cbn [print_all]. eapply (wp_printed _ _ _ k); [by apply printed_refl|by apply kprint_returns|].
  intros k' Hk'. eapply wp_mono; [|by apply IH, (pr_lock _ _ Hk')]. intros [] k2 Hk2. by eapply printed_trans.
Qed.

Lemma lookup_symbol_returns k ptr (Q : list Z → kernel K → Prop) :
  symbols_ok (kernel_mem k) (kn_symbols k) →
  (∀ t function, cstr t function → Q function k) → wp (lookup_symbol ptr) Q k.
Proof. intros Hs HQ. destruct (Hs ptr) as (t & f & Hf & Ht). unfold wp, lookup_symbol. rewrite Hf. by apply (HQ t). Qed.

Lemma backtrace_returns n depth a k :
  frames (kernel_mem k) a n → (n < depth)%nat → symbols_ok (kernel_mem k) (kn_symbols k) → serial_lock k = 0 →
  wp (backtrace stack depth a) (λ _, printed k) k.
Proof.
  intros Hfr. remember (kernel_mem k) as m eqn:Hm. revert depth k Hm.
  induction Hfr as [|a n Ha Hfr IH]; intros depth k -> Hd Hsym Hl; (destruct depth as [|depth]; [lia|]); cbn [backtrace].
  - by apply printed_refl.
  - unfold truth. rewrite (proj2 (Z.eqb_neq a 0) Ha). cbn [negb]. apply wp_bind, wp_gets, wp_bind.
    apply lookup_symbol_returns; [done|]. intros t f Hf.
    eapply (wp_printed _ _ _ k); [by apply printed_refl| |].
    + destruct (default 0 (head f) =? 0); (apply kprint_returns; [done|by vm_compute| |done]).
      * repeat constructor; apply fmtvald_ok.
      * constructor; [apply fmtvald_ok|]. constructor; [by exists t, f|done].
    + intros k1 Hk1. destruct (printed_mem _ _ Hk1) as [Hm1 Hy1]. apply wp_bind, wp_gets. cbn beta. rewrite Hm1.
      eapply wp_mono; [|apply (IH depth k1); [done|lia|by rewrite Hy1|apply Hk1]].
      intros [] k2 Hk2. by eapply printed_trans.
Qed.

Lemma exceptions_ok i : value_ok (fmtvals (lit (default EmptyString (exceptions !! i)))).
Proof.
  apply lit_value. assert (forallb lit_okb exceptions = true) as Hall by by vm_compute.
  destruct (exceptions !! i) as [e|] eqn:He; [|done]. rewrite forallb_forall in Hall.
  apply Hall, list_elem_of_In. by eapply list_elem_of_lookup_2.
Qed.
Lemma comments_ok i : value_ok (fmtvals (lit (default EmptyString (comments !! i)))).
Proof.
  apply lit_value. assert (forallb lit_okb comments = true) as Hall by by vm_compute.
  destruct (comments !! i) as [e|] eqn:He; [|done]. rewrite forallb_forall in Hall.
  apply Hall, list_elem_of_In. by eapply list_elem_of_lookup_2.
Qed.

Ltac item := split; [by vm_compute|repeat first [constructor | apply fmtvald_ok | assumption]].
Lemma panic_banner_ok c e fr : value_ok (fmtvals c) → value_ok (fmtvals e) → Forall item_ok (panic_banner c e fr).
Proof. intros Hc He. unfold panic_banner. repeat (apply Forall_cons_2; [item|]). done. Qed.
Lemma panic_registers_ok fr cr2 cr3 t f : cstr t f → Forall item_ok (panic_registers fr cr2 cr3 f).
Proof.
  intros Hf. assert (value_ok (fmtvals (Some f))) by by exists t, f.
  unfold panic_registers. repeat (apply Forall_cons_2; [item|]). done.
Qed.

Lemma panic_returns n depth now cr2 fr k :
  frames (kernel_mem k) (fr rbp) n → (n < depth)%nat → symbols_ok (kernel_mem k) (kn_symbols k) →
  serial_lock k = 0 → table_ok (kn_sched k) →
  wp (panic stack depth now cr2 fr)
    (λ r k', r = Halted ∧ has_fault k' = true ∧ hw_if (kn_hw k') = false ∧ serial_lock k' = 0 ∧ kn_eoi k' = kn_eoi k ∧
       procs (kn_sched k') = procs (kn_sched k)) k.
Proof.
  intros Hfr Hd Hsym Hl Hok. unfold panic.
  apply wp_bind, wp_modify. apply wp_bind.
  apply (wp_intro _ _ _ tt (set_random (u32 now) (set_has_fault k))); [reflexivity|].
  set (k0 := set_random (u32 (u32 now * 1103515245 + 12345)) (set_random (u32 now) (set_has_fault k))).
  apply wp_bind. apply (wp_intro _ _ _ (u32 (random_next k0 / 65536) mod 32768) k0); [reflexivity|]. cbv zeta.
  assert (printed k0 k0) as H00 by by apply printed_refl.
  apply wp_bind, lookup_symbol_returns; [done|]. intros t f Hf.
  eapply (wp_printed _ _ _ k0 k0 H00); [apply print_all_returns; [apply panic_banner_ok; [apply comments_ok|apply exceptions_ok]|done]|].
  intros k1 Hk1. eapply (wp_printed _ _ _ k0 k1 Hk1); [apply puts_lit_returns; [by vm_compute|apply Hk1]|].
  intros k2 Hk2. apply wp_bind, wp_gets.
  eapply (wp_printed _ _ _ k0 k2 Hk2); [apply print_all_returns; [by eapply panic_registers_ok|apply Hk2]|].
  intros k3 Hk3. apply wp_bind, wp_gets.
  eapply (wp_printed _ _ _ k0 k3 Hk3).
  { unfold when. destruct (is_sched_init (kn_sched k3)); [|apply printed_refl, Hk3].
    assert (table_ok (kn_sched k3)) as Hok3.
    { destruct (printed_procs _ _ Hk3) as (H1 & H2 & H3 & H4). by apply (table_ok_ext (kn_sched k)). }
    destruct (entry_lookup _ _ Hok3 (sk_current _ Hok3)) as (p & x & Hp & _ & Hx & _).
    assert (on_sched sched_current_process k3 = Ok (p, k3)) as Hcur.
    { unfold on_sched, zoom, sched_current_process. rewrite (bind_eq _ _ _ (current_pid (kn_sched k3)) (kn_sched k3)) by done.
      unfold process_at. rewrite Hp. by destruct k3. }
    apply wp_bind. apply (wp_intro _ _ _ _ _ Hcur). apply wp_bind.
    assert (on_sched (get_process p) k3 = Ok (x, k3)) as Hget.
    { unfold on_sched, zoom, get_process. rewrite Hx. by destruct k3. }
    apply (wp_intro _ _ _ _ _ Hget). apply kprint_returns; [done|by vm_compute| |apply Hk3].
    repeat constructor; apply fmtvald_ok. }
  intros k4 Hk4. eapply (wp_printed _ _ _ k0 k4 Hk4); [apply puts_lit_returns; [by vm_compute|apply Hk4]|].
  intros k5 Hk5. destruct (printed_mem _ _ Hk5) as [Hm5 Hy5].
  eapply (wp_printed _ _ _ k0 k5 Hk5).
  { apply (backtrace_returns n); [by rewrite Hm5|done|by rewrite Hm5, Hy5|apply Hk5]. }
  intros k6 Hk6. apply wp_bind, wp_modify, wp_ret. destruct (printed_procs _ _ Hk6) as (_ & Hpr & _).
  destruct Hk6 as [_ _ _ _ Hlk (Hft & _ & _ & He)]. split; [done|]. split; [exact Hft|].
  split; [unfold kn_hw, sc_hw; cbn; by rewrite ks_get_set|]. split; [exact Hlk|]. split; [exact He|exact Hpr].
Qed.


End panicking.

Section dispatch.
Context {K : Type} `{KernelServicesLaws K} (stack : list Z).
Implicit Types k : kernel K.

(** An exception raised while the serial port's lock is held,
    by the very code that prints, never prints: the handler spins on the lock
    with the fault recorded and interrupts off. *)
Theorem panic_deadlock limit depth now cr2 fr k :
  symbols_ok (kernel_mem k) (kn_symbols k) → Z.testbit (serial_lock k) 0 = true →
  has_fault k = false → 0 ≤ fr intno < 32 →
  interrupts_handler stack limit depth now cr2 fr k = Err Spinning.
Proof.
  intros Hsym Hl Hnf Hint. unfold interrupts_handler.
  rewrite (bind_eq _ _ _ false k) by (unfold gets; by rewrite Hnf). rewrite (proj2 (Z.ltb_lt _ _)) by lia.
  unfold panic. rewrite (bind_eq _ _ _ tt (set_has_fault k)) by done.
  rewrite (bind_eq _ _ _ tt (set_random (u32 now) (set_has_fault k))) by done.
  set (k0 := set_random (u32 (u32 now * 1103515245 + 12345)) (set_random (u32 now) (set_has_fault k))).
  rewrite (bind_eq _ _ _ (u32 (random_next k0 / 65536) mod 32768) k0) by done. cbv zeta.
  destruct (Hsym (fr rip)) as (t & f & Hf & _).
  rewrite (bind_eq _ _ _ f k0).
  2: { unfold lookup_symbol. change (kernel_mem k0) with (kernel_mem k). change (kn_symbols k0) with (kn_symbols k). by rewrite Hf. }
  apply bind_Err. unfold panic_banner. cbn [print_all]. apply bind_Err. unfold kprint, lit, PRINT_FORMAT.
  assert (cstr (chars (" ____________________" ++ NL)) (chars (" ____________________" ++ NL) ++ [0])) as Hs
    by (apply cstr_app; vm_compute; repeat constructor; done).
  rewrite (lift_bind _ _ _ (strlen_cstr _ _ Hs)). cbn [print_loop].
  rewrite (lift_bind _ 32) by reflexivity.
  change (negb (32 =? 0)) with true. change (32 =? 123) with false. cbv iota. apply bind_Err, bind_Err.
  unfold arch_serial_puts, puts_with, arch_acquire. change (serial_lock k0) with (serial_lock k). by rewrite Hl.
Qed.

(** A hardware interrupt is acknowledged exactly once at the
    controllers it came through, after its handler: the timer's is [yield_task]
    when the scheduler is on, the others have none and resume the interrupted
    registers unchanged. *)
Theorem irq_dispatch limit depth now cr2 fr k :
  has_fault k = false → 32 ≤ fr intno < 48 →
  interrupts_handler stack limit depth now cr2 fr k =
    let ack := if fr intno <? 40 then [(0x20, 0x20)] else [(0xa0, 0x20); (0x20, 0x20)] in
    if (fr intno =? 32) && is_scheduler (kn_sched k) then
      match yield_task fr (kn_sched k) with
      | Ok (r, s) => Ok (Resume r, set_eoi (kn_eoi k ++ ack) (set_sched s k))
      | Err e => Err e
      end
    else Ok (Resume fr, set_eoi (kn_eoi k ++ ack) k).
Proof.
  intros Hnf Hint. unfold interrupts_handler.
  rewrite (bind_eq _ _ _ false k) by (unfold gets; by rewrite Hnf).
  rewrite (proj2 (Z.ltb_ge _ 32)), (proj2 (Z.ltb_lt _ 48)) by lia.
  assert (eoi_writes (fr intno) = if fr intno <? 40 then [(0x20, 0x20)] else [(0xa0, 0x20); (0x20, 0x20)]) as Heoi.
  { unfold eoi_writes, pic_sendEOI. rewrite s32_small by lia. rewrite Z.leb_antisym.
    by destruct (fr intno <? 40). }
  cbv zeta. rewrite <- Heoi. rewrite u8_small by lia.
  assert (fr intno - 32 =? 0 = (fr intno =? 32)) as -> by (destruct (Z.eqb_spec (fr intno) 32); lia).
  destruct (fr intno =? 32); cbn [andb]; [|done].
  unfold mbind, M_bind, gets. cbn. destruct (is_scheduler (kn_sched k)); [|done].
  unfold on_sched, zoom. by destruct (yield_task fr (kn_sched k)) as [[r s]|].
Qed.
End dispatch.

(** ** The theorems at a concrete kernel of two processes, without symbols *)

Definition sample_panic_kernel (lock : Z) : kernel bump :=
  mk_kernel (sample_sched TASK_RUNNING TASK_RUNNING) (λ _ _, 0) [] lock false 0 (mk_range 0 0) [].
Definition sample_frame (n : Z) : registers_t := set_reg intno n zero_regs.
Lemma no_symbols_ok m : symbols_ok m (mk_range 0 0).
Proof. intros ptr. exists [], (replicate 64 0). split; [done|]. split; [done|]. by exists (replicate 63 0). Qed.


Lemma panic_deadlock_witness :
  interrupts_handler (replicate 32 0) 0 1 30 0 (sample_frame 14) (sample_panic_kernel 1) = Err Spinning.
Proof.
  apply (panic_deadlock (replicate 32 0) 0 1 30 0 (sample_frame 14) (sample_panic_kernel 1)).
  - apply no_symbols_ok.
  - reflexivity.
  - reflexivity.
  - change (sample_frame 14 intno) with 14. lia.
Defined.

Lemma irq_dispatch_witness :
  interrupts_handler (replicate 32 0) 0 1 30 0 (sample_frame 41) (sample_panic_kernel 0) =
    Ok (Resume (sample_frame 41), set_eoi [(0xa0, 0x20); (0x20, 0x20)] (sample_panic_kernel 0)).
Proof.
  rewrite (irq_dispatch (replicate 32 0) 0 1 30 0 (sample_frame 41) (sample_panic_kernel 0));
    [reflexivity|reflexivity|]. change (sample_frame 41 intno) with 41. lia.
Defined.
