(* ===== verification/Gdt.v ===== *)
(** arch/x86_64/gdt.c and gdt.h, idt.c and idt.h, and [syscall_init] of arch.c:
    the tables the processor reads, byte for byte.

    How the processor reads a descriptor, a gate and the STAR register is the
    architecture's: the [hw_] definitions decode the fields where the Intel and
    AMD manuals place them. *)
From S2P Require Import Prelude Machine Range Services Sched.

(** ** Data *)

(** The struct of [union gdt_entry], in the order of its declaration. *)
Record gdt_entry : Type := mk_gdt_entry {
  base_low : Z; limit_low : Z; base_mid : Z; access : Z; limit_high : Z; flags : Z; base_high : Z
}.
(** [raw]: 16, 16, 8, 8, 4, 4 and 8 bits, packed from the least significant. *)
Definition gdt_raw (e : gdt_entry) : Z :=
  base_low e + 0x10000 * (limit_low e + 0x10000 * (base_mid e + 0x100 * (access e +
    0x100 * (limit_high e + 0x10 * (flags e + 0x10 * base_high e))))).

Record tss_entry : Type := mk_tss_entry {
  te_length : Z; base_low16 : Z; base_mid8 : Z; flags1 : Z; flags2 : Z; base_high8 : Z; base_upper32 : Z; te_reserved : Z
}.
(** 16, 16, 8, 8, 8, 8, 32 and 32 bits. *)
Definition tss_raw (e : tss_entry) : Z :=
  te_length e + 0x10000 * (base_low16 e + 0x10000 * (base_mid8 e + 0x100 * (flags1 e + 0x100 * (flags2 e +
    0x100 * (base_high8 e + 0x100 * (base_upper32 e + 0x100000000 * te_reserved e)))))).

Record tss : Type := mk_tss { tss_rsp : list Z; tss_ist : list Z; iopb : Z }.
Definition SIZEOF_TSS : Z := 104.
Definition SIZEOF_TSS_ENTRY : Z := 16.
Definition SIZEOF_GDT : Z := 5 * 8 + 16.

Definition GDT_KERNEL : Z := 0x00.
Definition GDT_USER : Z := 0x60.
Definition GDT_CODE : Z := 0x18.
Definition GDT_DATA : Z := 0x10.
Definition GDT_KERNEL_CODE : Z := 1.
Definition GDT_KERNEL_DATA : Z := 2.
Definition GDT_USER_DATA : Z := 3.
Definition GDT_USER_CODE : Z := 4.

Record idt_descr : Type := mk_idt_descr {
  offset_1 : Z; selector : Z; ist : Z; type_attr : Z; offset_2 : Z; offset_3 : Z; id_zero : Z
}.
(** 16, 16, 8, 8, 16, 32 and 32 bits. *)
Definition idt_raw (e : idt_descr) : Z :=
  offset_1 e + 0x10000 * (selector e + 0x10000 * (ist e + 0x100 * (type_attr e + 0x100 * (offset_2 e +
    0x10000 * (offset_3 e + 0x100000000 * id_zero e))))).
Definition zero_gate : idt_descr := mk_idt_descr 0 0 0 0 0 0 0.
Definition INTGATE : Z := 0x8e.
Definition TRAPGATE : Z := 0xef.

(** The static tables of gdt.c and idt.c and the registers loaded from them. *)
Record tables (K : Type) : Type := mk_tables {
  tb_k : K;
  entries : list gdt_entry;
  gdt_tss : tss_entry;
  tb_tss : tss;
  gdtr : Z * Z;               (** limit and base *)
  segments : Z * Z;           (** CS and the data segments *)
  tr : Z;
  kidt : list idt_descr;
  idtr : Z * Z;
  tb_msr : gmap Z Z
}.
Arguments mk_tables {K}.
Arguments tb_k {K}.
Arguments entries {K}.
Arguments gdt_tss {K}.
Arguments tb_tss {K}.
Arguments gdtr {K}.
Arguments segments {K}.
Arguments tr {K}.
Arguments kidt {K}.
Arguments idtr {K}.
Arguments tb_msr {K}.

(** ** gdt.c *)

Definition init_descriptor (base limit acc : Z) : gdt_entry :=
  let flags := if negb (acc =? GDT_DATA) then 0x2 else 0 in
  mk_gdt_entry
    (u16 (Z.land base 0xffff))
    (u16 (Z.land limit 0xffff))
    (u8 (Z.shiftr (Z.land base 0xff0000) 16))
    (u8 (Z.lor 0x82 acc))
    (Z.shiftr (Z.land limit 0xf0000) 16 mod 0x10)
    flags
    (u8 (Z.shiftr (Z.land base 0xff000000) 24)).

Definition init_tss (tss : Z) : tss_entry :=
  mk_tss_entry
    SIZEOF_TSS_ENTRY
    (Z.land (u16 tss) 0xffff)
    (Z.land (u8 (Z.shiftr tss 16)) 0xff)
    0x89
    0
    (Z.land (u8 (Z.shiftr tss 24)) 0xff)
    (u32 (Z.shiftr tss 32))
    0.

Section tables.
Context {K : Type} `{KernelServices K}.
(** The addresses of the statics [gdt], [tss] and [kidt], of [syscall_handle] and
    of the entry points in [__interrupt_vector]. *)
Variables (gdt_addr tss_addr kidt_addr syscall_handle : Z) (interrupt_vector : list Z).
Implicit Types t : tables K.

Definition set_entries (l : list gdt_entry) (e : tss_entry) (s : tss) t : tables K :=
  mk_tables (tb_k t) l e s (gdtr t) (segments t) (tr t) (kidt t) (idtr t) (tb_msr t).
Definition set_tb_k (k : K) t : tables K :=
  mk_tables k (entries t) (gdt_tss t) (tb_tss t) (gdtr t) (segments t) (tr t) (kidt t) (idtr t) (tb_msr t).
Definition set_kidt (l : list idt_descr) (r : Z * Z) t : tables K :=
  mk_tables (tb_k t) (entries t) (gdt_tss t) (tb_tss t) (gdtr t) (segments t) (tr t) l r (tb_msr t).

Definition gdt_entry_get (index : Z) : M (tables K) gdt_entry := λ t,
  if index <? 0 then Err BadAccess
  else match entries t !! Z.to_nat index with Some e => Ok (e, t) | None => Err BadAccess end.

(** [cli], [gdt_flush] of gdt.s, [sti]. *)
Definition gdt_reload : M (tables K) unit := modify (λ t,
  mk_tables (ks_set_hw (hw_set_if true (ks_hw (tb_k t))) (tb_k t)) (entries t) (gdt_tss t) (tb_tss t)
    (SIZEOF_GDT - 1, gdt_addr) (0x8, 0x10) (tr t) (kidt t) (idtr t) (tb_msr t)).
Definition tss_flush : M (tables K) unit := modify (λ t,
  mk_tables (tb_k t) (entries t) (gdt_tss t) (tb_tss t) (gdtr t) (segments t) 0x28 (kidt t) (idtr t) (tb_msr t)).

Definition gdt_init : M (tables K) unit :=
  modify (λ t, set_entries
    [init_descriptor 0 0 0;
     init_descriptor 0 0 (Z.lor GDT_KERNEL GDT_CODE);
     init_descriptor 0 0 (Z.lor GDT_KERNEL GDT_DATA);
     init_descriptor 0 0 (Z.lor GDT_USER GDT_DATA);
     init_descriptor 0 0 (Z.lor GDT_USER GDT_CODE)]
    (init_tss tss_addr) (mk_tss (tss_rsp (tb_tss t)) (tss_ist (tb_tss t)) SIZEOF_TSS) t) ≫= λ _,
  gdt_reload ≫= λ _,
  tss_flush.

(** [(uint64_t) kmalloc(KERNEL_STACK_SIZE) + KERNEL_STACK_SIZE] *)
Definition stack_top : M (tables K) Z :=
  zoom tb_k set_tb_k (ks_malloc KERNEL_STACK_SIZE) ≫= λ p, mret (u64 (p + KERNEL_STACK_SIZE)).
Definition intstack_init : M (tables K) unit :=
  stack_top ≫= λ a,
  modify (λ t, set_entries (entries t) (gdt_tss t) (mk_tss (tss_rsp (tb_tss t)) (<[0%nat := a]> (tss_ist (tb_tss t))) (iopb (tb_tss t))) t) ≫= λ _,
  stack_top ≫= λ b,
  modify (λ t, set_entries (entries t) (gdt_tss t) (mk_tss (tss_rsp (tb_tss t)) (<[1%nat := b]> (tss_ist (tb_tss t))) (iopb (tb_tss t))) t) ≫= λ _,
  stack_top ≫= λ c,
  modify (λ t, set_entries (entries t) (gdt_tss t) (mk_tss (<[0%nat := c]> (tss_rsp (tb_tss t))) (tss_ist (tb_tss t)) (iopb (tb_tss t))) t).

(** ** idt.c *)

Definition idt_descr_init (offset type : Z) (ist : Z) : idt_descr :=
  mk_idt_descr (u16 offset) 0x08 (u8 ist) (u8 type) (u16 (Z.shiftr offset 16)) (u32 (Z.shiftr offset 32)) 0.
(** [idt_descr_init(__interrupt_vector[i], type, &kidt[i], 0)] *)
Definition set_gate (type i : Z) : M (tables K) unit := λ t,
  match interrupt_vector !! Z.to_nat i with
  | Some h =>
      if (0 <=? i) && (i <? Z.of_nat (List.length (kidt t))) then
        Ok (tt, set_kidt (<[Z.to_nat i := idt_descr_init h type 0]> (kidt t)) (idtr t) t)
      else Err BadAccess
  | None => Err BadAccess
  end.

Definition idt_reload : M (tables K) unit := modify (λ t, set_kidt (kidt t) (256 * 16 - 1, kidt_addr) t).
Definition idt_init : M (tables K) unit :=
  modify (λ t, set_kidt (replicate 256 zero_gate) (idtr t) t) ≫= λ _,
  forZ 3 0 (set_gate INTGATE) ≫= λ _,
  set_gate TRAPGATE 3 ≫= λ _,
  set_gate TRAPGATE 4 ≫= λ _,
  forZ 43 5 (set_gate INTGATE) ≫= λ _,
  idt_reload.

(** ** [syscall_init] of arch.c *)

Definition MSR_EFER : Z := 0xC0000080.
Definition MSR_STAR : Z := 0xC0000081.
Definition MSR_LSTAR : Z := 0xC0000082.
Definition MSR_SYSCALL_FLAG_MASK : Z := 0xC0000084.
Definition STAR_KCODE_OFFSET : Z := 32.
Definition STAR_UCODE_OFFSET : Z := 48.

Definition tb_write_msr (r v : Z) : M (tables K) unit := modify (λ t,
  let low := Z.land v 0xFFFFFFFF in
  let high := Z.shiftr v 32 in
  mk_tables (tb_k t) (entries t) (gdt_tss t) (tb_tss t) (gdtr t) (segments t) (tr t) (kidt t) (idtr t)
    (<[r := Z.lor (Z.shiftl high 32) low]> (tb_msr t))).
Definition asm_read_msr (r : Z) : M (tables K) Z := gets (λ t,
  let v := default 0 (tb_msr t !! r) in
  Z.lor (Z.shiftl (u32 (Z.shiftr v 32)) 32) (u32 v)).
Definition syscall_init : M (tables K) unit :=
  asm_read_msr MSR_EFER ≫= λ efer,
  tb_write_msr MSR_EFER (Z.lor efer 1) ≫= λ _,
  tb_write_msr MSR_STAR
    (Z.lor (u64 (Z.shiftl (GDT_KERNEL_CODE * 8) STAR_KCODE_OFFSET))
           (u64 (Z.shiftl (Z.lor ((GDT_USER_DATA - 1) * 8) 3) STAR_UCODE_OFFSET))) ≫= λ _,
  tb_write_msr MSR_LSTAR syscall_handle ≫= λ _,
  tb_write_msr MSR_SYSCALL_FLAG_MASK 0.
End tables.

(** ** How the processor reads them *)

(** Bits [hi] to [lo] of a descriptor. *)
Definition bits (v lo n : Z) : Z := v / 2 ^ lo mod 2 ^ n.
Definition hw_limit (d : Z) : Z := bits d 0 16 + 0x10000 * bits d 48 4.
Definition hw_base (d : Z) : Z := bits d 16 24 + 0x1000000 * bits d 56 8.
Definition hw_access (d : Z) : Z := bits d 40 8.
Definition hw_present (d : Z) : bool := Z.testbit d 47.
Definition hw_dpl (d : Z) : Z := bits d 45 2.
Definition hw_code (d : Z) : bool := Z.testbit d 43 && Z.testbit d 44.
Definition hw_writable_data (d : Z) : bool := negb (Z.testbit d 43) && Z.testbit d 44 && Z.testbit d 41.
Definition hw_long (d : Z) : bool := Z.testbit d 53 && negb (Z.testbit d 54).
(** A 16-byte system descriptor and a gate. *)
Definition hw_sys_base (d : Z) : Z := hw_base d + 0x100000000 * bits d 64 32.
Definition hw_gate_offset (d : Z) : Z := bits d 0 16 + 0x10000 * bits d 48 48.
Definition hw_gate_selector (d : Z) : Z := bits d 16 16.
Definition hw_gate_type (d : Z) : Z := bits d 40 4.
Definition hw_gate_ist (d : Z) : Z := bits d 32 3.

(** Taking apart a number packed from [lo] low bits and the rest. *)
Lemma bits_low a b n : 0 ≤ n → 0 ≤ a < 2 ^ n → bits (a + 2 ^ n * b) 0 n = a.
Proof.
  intros Hn Ha. assert (0 < 2 ^ n) by (by apply Z.pow_pos_nonneg). unfold bits. rewrite Z.pow_0_r, Z.div_1_r, Z.mul_comm, Z.mod_add by lia. by apply Z.mod_small.
Qed.
Lemma bits_skip a b k lo n : 0 ≤ k ≤ lo → 0 ≤ a < 2 ^ k → bits (a + 2 ^ k * b) lo n = bits b (lo - k) n.
Proof.
  intros Hk Ha. assert (0 < 2 ^ k) by (apply Z.pow_pos_nonneg; lia).
  assert (0 < 2 ^ (lo - k)) by (apply Z.pow_pos_nonneg; lia). unfold bits. replace lo with (k + (lo - k)) at 1 by lia.
  rewrite Z.pow_add_r, <- Z.div_div, (Z.mul_comm (2 ^ k)), Z.div_add, (Z.div_small a (2 ^ k)) by lia. done.
Qed.

Lemma land_field x lo n : 0 ≤ lo → 0 ≤ n → Z.shiftr (Z.land x (Z.shiftl (Z.ones n) lo)) lo = bits x lo n.
Proof.
  intros Hlo Hn. unfold bits. rewrite <- Z.shiftr_div_pow2, <- Z.land_ones by done.
  apply Z.bits_inj'. intros i Hi. rewrite !Z.land_spec, !Z.shiftr_spec, Z.land_spec, Z.shiftl_spec by lia.
  by replace (i + lo - lo) with i by lia.
Qed.
Lemma bits_range v lo n : 0 ≤ n → 0 ≤ bits v lo n < 2 ^ n.
Proof. intros Hn. apply Z.mod_pos_bound. by apply Z.pow_pos_nonneg. Qed.

(** Deciding what is where: the powers evaluated, the rest linear. *)
Ltac powers :=
  unfold bits in *;
  repeat match goal with
  | |- context [2 ^ ?n] => let v := eval vm_compute in (2 ^ n) in change (2 ^ n) with v
  | H : context [2 ^ ?n] |- _ => let v := eval vm_compute in (2 ^ n) in change (2 ^ n) with v in H
  end.

(** The descriptor [init_descriptor] writes has the
    access byte asked for, present and with the accessed-or-writable bit, but,
    the struct placing [base_low] before [limit_low], the processor reads the
    low 16 bits of the base as the limit's and the other way round: base and
    limit come out right exactly when those agree, as in the zeros of
    [gdt_init]. *)
Theorem init_descriptor_fields bs limit acc :
  0 ≤ bs < 0x100000000 → 0 ≤ limit < 0x100000 → 0 ≤ acc < 0x100 →
  let d := gdt_raw (init_descriptor bs limit acc) in
  hw_access d = Z.lor 0x82 acc ∧
  hw_limit d = bs mod 0x10000 + 0x10000 * (limit / 0x10000) ∧
  hw_base d = limit mod 0x10000 + 0x10000 * (bs / 0x10000) ∧
  ((hw_base d = bs ∧ hw_limit d = limit) ↔ bs mod 0x10000 = limit mod 0x10000).
Proof.
  intros Hbs Hl Ha d.
  assert (0 ≤ Z.lor 0x82 acc < 0x100) as Hacc.
  { split; [apply Z.lor_nonneg; lia|]. change 0x100 with (2 ^ 8). apply Z.log2_lt_cancel.
    rewrite Z.log2_pow2, Z.log2_lor by lia. change (Z.log2 0x82) with 7.
    assert (Z.log2 acc ≤ 7); [|lia]. change 7 with (Z.log2 255). apply Z.log2_le_mono. lia. }
  assert (∃ fl, (fl = 0 ∨ fl = 2) ∧ d = bs mod 0x10000 + 0x10000 * (limit mod 0x10000 + 0x10000 * (bits bs 16 8 +
    0x100 * (Z.lor 0x82 acc + 0x100 * (bits limit 16 4 + 0x10 * (fl + 0x10 * bits bs 24 8)))))) as (fl & Hfl & Hd).
  { exists (if negb (acc =? GDT_DATA) then 2 else 0). split; [destruct (negb _); auto|].
    subst d. unfold init_descriptor, gdt_raw.
    cbn [base_low limit_low base_mid access limit_high flags base_high].
    change 0xff0000 with (Z.shiftl (Z.ones 8) 16). change 0xff000000 with (Z.shiftl (Z.ones 8) 24).
    change 0xf0000 with (Z.shiftl (Z.ones 4) 16). change 0xffff with (Z.ones 16).
    rewrite !land_field, !Z.land_ones by lia. rewrite (u8_small (Z.lor _ _)) by lia.
    pose proof (bits_range bs 16 8 ltac:(lia)). pose proof (bits_range bs 24 8 ltac:(lia)). pose proof (bits_range limit 16 4 ltac:(lia)).
    change (2 ^ 16) with 0x10000. unfold u16. rewrite !Z.mod_mod by lia.
    change (2 ^ 8) with 0x100 in *. change (2 ^ 4) with 0x10 in *.
    rewrite !u8_small by lia. rewrite (Z.mod_small (bits limit 16 4)) by lia. done. }
  assert (hw_access d = Z.lor 0x82 acc) as H1.
  { unfold hw_access. rewrite Hd. powers. Z.div_mod_to_equations. lia. }
  assert (hw_limit d = bs mod 0x10000 + 0x10000 * (limit / 0x10000)) as H2.
  { unfold hw_limit. rewrite Hd. powers. Z.div_mod_to_equations. lia. }
  assert (hw_base d = limit mod 0x10000 + 0x10000 * (bs / 0x10000)) as H3.
  { unfold hw_base. rewrite Hd. powers. Z.div_mod_to_equations. lia. }
  split_and!; try done. rewrite H2, H3. split; intros; Z.div_mod_to_equations; lia.
Qed.

Lemma bits_0 x n : bits x 0 n = x mod 2 ^ n.
Proof. unfold bits. by rewrite Z.pow_0_r, Z.div_1_r. Qed.
Lemma testbit_bits v a m b : 0 ≤ a → 0 ≤ b < m → Z.testbit (bits v a m) b = Z.testbit v (a + b).
Proof.
  intros Ha Hb. unfold bits. rewrite Z.mod_pow2_bits_low by lia. rewrite <- Z.shiftr_div_pow2, Z.shiftr_spec by lia.
  f_equal. lia.
Qed.
Lemma bits_bits v a m b n : 0 ≤ a → 0 ≤ b → 0 ≤ n → b + n ≤ m → bits (bits v a m) b n = bits v (a + b) n.
Proof.
  intros Ha Hb Hn Hm. apply Z.bits_inj'. intros i Hi. unfold bits at 1 3.
  destruct (decide (i < n)) as [Hlt|Hge].
  - rewrite !Z.mod_pow2_bits_low by lia. rewrite <- !Z.shiftr_div_pow2, !Z.shiftr_spec, testbit_bits by lia. f_equal. lia.
  - by rewrite !Z.mod_pow2_bits_high by lia.
Qed.
Lemma shiftr_u k x n : 0 ≤ k → 0 ≤ n → Z.shiftr x k mod 2 ^ n = bits x k n.
Proof. intros Hk Hn. unfold bits. by rewrite Z.shiftr_div_pow2. Qed.

(** The descriptor of the task state: its base, for every 64-bit address. *)
Lemma init_tss_fields a :
  0 ≤ a < 0x10000000000000000 →
  let d := tss_raw (init_tss a) in
  hw_sys_base d = a ∧ hw_limit d = SIZEOF_TSS_ENTRY ∧ hw_access d = 0x89.
Proof.
  intros Ha d.
  assert (d = 0x10 + 0x10000 * (bits a 0 16 + 0x10000 * (bits a 16 8 + 0x100 * (0x89 + 0x100 * (0 + 0x100 * (bits a 24 8 +
    0x100 * (bits a 32 32 + 0x100000000 * 0))))))) as Hd.
  { subst d. unfold init_tss, tss_raw, u16, u8, u32. cbn [te_length base_low16 base_mid8 flags1 flags2 base_high8 base_upper32 te_reserved].
    change 0xffff with (Z.ones 16). change 0xff with (Z.ones 8). rewrite !Z.land_ones by lia.
    change 0x10000 with (2 ^ 16). change 0x100 with (2 ^ 8). change 0x100000000 with (2 ^ 32).
    rewrite !shiftr_u by lia. rewrite !(Z.mod_small (bits _ _ 8)) by (apply bits_range; lia).
    rewrite Z.mod_mod by done. by rewrite bits_0. }
  unfold hw_sys_base, hw_limit, hw_base, hw_access. change SIZEOF_TSS_ENTRY with 16.
  pose proof (bits_range a 0 16 ltac:(lia)) as R0. pose proof (bits_range a 16 8 ltac:(lia)) as R1.
  pose proof (bits_range a 24 8 ltac:(lia)) as R2. pose proof (bits_range a 32 32 ltac:(lia)) as R3.
  assert (bits a 0 16 + 0x10000 * bits a 16 8 + 0x1000000 * bits a 24 8 + 0x100000000 * bits a 32 32 = a) as Hall.
  { clear -Ha. powers. Z.div_mod_to_equations. lia. }
  revert Hall. generalize (bits a 0 16) (bits a 16 8) (bits a 24 8) (bits a 32 32) R0 R1 R2 R3 Hd.
  clear. intros x0 x1 x2 x3 R0 R1 R2 R3 -> <-. powers.
  split_and!; Z.div_mod_to_equations; lia.
Qed.

Lemma gate_fields h ty :
  0 ≤ h < 0x10000000000000000 → 0 ≤ ty < 0x100 →
  let d := idt_raw (idt_descr_init h ty 0) in
  hw_gate_offset d = h ∧ hw_gate_selector d = 0x8 ∧ hw_gate_ist d = 0 ∧ hw_access d = ty.
Proof.
  intros Hh Hty d.
  assert (d = bits h 0 16 + 0x10000 * (8 + 0x10000 * (0 + 0x100 * (ty + 0x100 * (bits h 16 16 +
    0x10000 * (bits h 32 32 + 0x100000000 * 0)))))) as Hd.
  { subst d. unfold idt_descr_init, idt_raw, u16, u8, u32. cbn [offset_1 selector ist type_attr offset_2 offset_3 id_zero].
    rewrite (Z.mod_small ty), (Z.mod_small 0) by lia.
    change 0x10000 with (2 ^ 16). change 0x100000000 with (2 ^ 32).
    rewrite !shiftr_u by lia. by rewrite bits_0. }
  unfold hw_gate_offset, hw_gate_selector, hw_gate_ist, hw_access.
  pose proof (bits_range h 0 16 ltac:(lia)) as R0. pose proof (bits_range h 16 16 ltac:(lia)) as R1.
  pose proof (bits_range h 32 32 ltac:(lia)) as R2.
  assert (bits h 0 16 + 0x10000 * bits h 16 16 + 0x100000000 * bits h 32 32 = h) as Hall.
  { clear -Hh. powers. Z.div_mod_to_equations. lia. }
  revert Hall. generalize (bits h 0 16) (bits h 16 16) (bits h 32 32) R0 R1 R2 Hd.
  clear -Hty. intros x0 x1 x2 R0 R1 R2 -> <-. powers.
  split_and!; Z.div_mod_to_equations; lia.
Qed.

Section theorems.
Context {K : Type} `{KernelServicesLaws K}.
Variables (gdt_addr tss_addr kidt_addr syscall_handle : Z) (interrupt_vector : list Z).
Implicit Types t : tables K.

(** One more gate, [n] more gates. *)
Lemma set_gates n ty i t l :
  (Z.to_nat i + n ≤ List.length interrupt_vector)%nat → 0 ≤ i → kidt t = l → (Z.to_nat i + n ≤ List.length l)%nat →
  ∃ l', forZ n i (set_gate interrupt_vector ty) t = Ok (tt, set_kidt l' (idtr t) t) ∧ List.length l' = List.length l ∧
    ∀ j : nat, l' !! j = if decide (Z.to_nat i ≤ j < Z.to_nat i + n)%nat
                         then (λ h, idt_descr_init h ty 0) <$> interrupt_vector !! j else l !! j.
Proof.
  revert i t l. induction n as [|n IH]; intros i t l Hv Hi <- Hl.
  - exists (kidt t). split; [by destruct t|]. split; [done|]. intros j. rewrite decide_False by lia. done.
  - cbn [forZ]. destruct (lookup_lt_is_Some_2 interrupt_vector (Z.to_nat i)) as [h Hh]; [lia|].
    set (t1 := set_kidt (<[Z.to_nat i := idt_descr_init h ty 0]> (kidt t)) (idtr t) t).
    rewrite (bind_eq _ _ _ tt t1).
    2: { unfold set_gate. rewrite Hh, (proj2 (Z.leb_le _ _)), (proj2 (Z.ltb_lt _ _)) by lia. done. }
    destruct (IH (i + 1) t1 (kidt t1)) as (l' & Hrun & Hlen & Hlook); [lia|lia|done|cbn; rewrite length_insert; lia|].
    exists l'. cbn in Hlen. rewrite length_insert in Hlen. split; [exact Hrun|]. split; [done|]. intros j. rewrite Hlook.
    cbn [kidt t1 set_kidt]. destruct (decide (j = Z.to_nat i)) as [->|Hne].
    + rewrite decide_False, decide_True by lia. rewrite list_lookup_insert_eq by lia. by rewrite Hh.
    + rewrite list_lookup_insert_ne by done. by repeat case_decide; try lia.
Qed.

End theorems.

(** ** Selectors

    The tables of [gdt_init], the selectors [task_init] gives a process and the
    STAR register of [syscall_init] name the same segments. *)

(** The descriptor a selector picks, and the privilege it asks for. *)
Definition hw_select {K} (t : tables K) (sel : Z) : option Z := gdt_raw <$> entries t !! Z.to_nat (sel / 8).
Definition hw_rpl (sel : Z) : Z := sel mod 4.
(** [syscall] loads CS from bits 47:32 of STAR and SS with 8 more; [sysret] to
    64-bit code loads CS from bits 63:48 with 16 more, SS with 8 more, both at
    privilege 3. *)
Definition syscall_cs (star : Z) : Z := bits star 32 16.
Definition syscall_ss (star : Z) : Z := bits star 32 16 + 8.
Definition sysret_cs (star : Z) : Z := Z.lor (bits star 48 16 + 16) 3.
Definition sysret_ss (star : Z) : Z := Z.lor (bits star 48 16 + 8) 3.

(** A selector names a present 64-bit code segment, or writable data, at a
    privilege equal to its own. *)
Definition code_selector {K} (t : tables K) (sel dpl : Z) : Prop :=
  ∃ d, hw_select t sel = Some d ∧ hw_present d = true ∧ hw_code d = true ∧ hw_long d = true ∧ hw_dpl d = dpl ∧ hw_rpl sel = dpl.
Definition data_selector {K} (t : tables K) (sel dpl : Z) : Prop :=
  ∃ d, hw_select t sel = Some d ∧ hw_present d = true ∧ hw_writable_data d = true ∧ hw_dpl d = dpl ∧ hw_rpl sel = dpl.

(** Deciding both on a given table. *)
Definition code_selectorb (l : list gdt_entry) (sel dpl : Z) : bool :=
  match l !! Z.to_nat (sel / 8) with
  | Some e => let d := gdt_raw e in hw_present d && hw_code d && hw_long d && (hw_dpl d =? dpl) && (hw_rpl sel =? dpl)
  | None => false
  end.
Definition data_selectorb (l : list gdt_entry) (sel dpl : Z) : bool :=
  match l !! Z.to_nat (sel / 8) with
  | Some e => let d := gdt_raw e in hw_present d && hw_writable_data d && (hw_dpl d =? dpl) && (hw_rpl sel =? dpl)
  | None => false
  end.
Lemma code_selectorb_spec {K} (t : tables K) sel dpl : code_selectorb (entries t) sel dpl = true → code_selector t sel dpl.
Proof.
  unfold code_selectorb, code_selector, hw_select. destruct (entries t !! _) as [e|]; [|done]. cbv zeta.
  rewrite !andb_true_iff, !Z.eqb_eq. intros ((((? & ?) & ?) & ?) & ?). by exists (gdt_raw e).
Qed.
Lemma data_selectorb_spec {K} (t : tables K) sel dpl : data_selectorb (entries t) sel dpl = true → data_selector t sel dpl.
Proof.
  unfold data_selectorb, data_selector, hw_select. destruct (entries t !! _) as [e|]; [|done]. cbv zeta.
  rewrite !andb_true_iff, !Z.eqb_eq. intros (((? & ?) & ?) & ?). by exists (gdt_raw e).
Qed.

(** The entries [gdt_init] writes and the state it leaves. *)
Definition initial_entries : list gdt_entry :=
  [init_descriptor 0 0 0; init_descriptor 0 0 GDT_CODE; init_descriptor 0 0 GDT_DATA;
   init_descriptor 0 0 (Z.lor GDT_USER GDT_DATA); init_descriptor 0 0 (Z.lor GDT_USER GDT_CODE)].
Definition loaded_tables {K} `{KernelServices K} (gdt_addr tss_addr : Z) (t : tables K) : tables K :=
  mk_tables (ks_set_hw (hw_set_if true (ks_hw (tb_k t))) (tb_k t)) initial_entries (init_tss tss_addr)
    (mk_tss (tss_rsp (tb_tss t)) (tss_ist (tb_tss t)) SIZEOF_TSS) (SIZEOF_GDT - 1, gdt_addr) (0x8, 0x10) 0x28
    (kidt t) (idtr t) (tb_msr t).
Lemma gdt_init_eq {K} `{KernelServices K} gdt_addr tss_addr (t : tables K) :
  gdt_init gdt_addr tss_addr t = Ok (tt, loaded_tables gdt_addr tss_addr t).
Proof. done. Qed.

Definition set_tb_msr {K} (m : gmap Z Z) (t : tables K) : tables K :=
  mk_tables (tb_k t) (entries t) (gdt_tss t) (tb_tss t) (gdtr t) (segments t) (tr t) (kidt t) (idtr t) m.
Definition STAR_VALUE : Z := 0x13000800000000.
Definition efer_of (m : gmap Z Z) : Z :=
  let v := default 0 (m !! MSR_EFER) in Z.lor (Z.shiftl (u32 (Z.shiftr v 32)) 32) (u32 v).
(** The registers after [syscall_init]. *)
Definition syscall_msrs (syscall_handle : Z) (m : gmap Z Z) : gmap Z Z :=
  <[MSR_SYSCALL_FLAG_MASK := 0]> (<[MSR_LSTAR := syscall_handle]> (<[MSR_STAR := STAR_VALUE]>
    (<[MSR_EFER := Z.lor (efer_of m) 1]> m))).

Lemma wrmsr_value {K} r v (t : tables K) :
  0 ≤ v < 0x10000000000000000 → tb_write_msr r v t = Ok (tt, set_tb_msr (<[r := v]> (tb_msr t)) t).
Proof. intros Hv. unfold tb_write_msr, modify, set_tb_msr. by rewrite split_join_u64. Qed.
Lemma efer_range m : 0 ≤ Z.lor (efer_of m) 1 < 0x10000000000000000.
Proof.
  assert (∀ a b, 0 ≤ a < 2 ^ 64 → 0 ≤ b < 2 ^ 64 → 0 ≤ Z.lor a b < 2 ^ 64) as Hlor.
  { intros a b Ha Hb. split; [apply Z.lor_nonneg; lia|].
    destruct (decide (Z.lor a b = 0)) as [->|Hne]; [done|].
    assert (0 ≤ Z.lor a b) by (apply Z.lor_nonneg; lia).
    apply Z.log2_lt_pow2; [lia|]. rewrite Z.log2_lor by lia.
    assert (∀ x, 0 ≤ x < 2 ^ 64 → Z.log2 x < 64) as Hlog.
    { intros x Hx. destruct (decide (x = 0)) as [->|]; [done|]. apply Z.log2_lt_pow2; lia. }
    apply Z.max_lub_lt; auto. }
  change 0x10000000000000000 with (2 ^ 64). apply Hlor; [|done].
  unfold efer_of. cbv zeta. set (v := default 0 _). pose proof (u32_range v). pose proof (u32_range (Z.shiftr v 32)).
  apply Hlor; [|change (2 ^ 64) with 0x10000000000000000; lia].
  rewrite Z.shiftl_mul_pow2 by lia. change (2 ^ 64) with 0x10000000000000000. change (2 ^ 32) with 0x100000000. lia.
Qed.
Lemma syscall_init_eq {K} syscall_handle (t : tables K) :
  0 ≤ syscall_handle < 0x10000000000000000 →
  syscall_init syscall_handle t = Ok (tt, set_tb_msr (syscall_msrs syscall_handle (tb_msr t)) t).
Proof.
  intros Hh. unfold syscall_init. rewrite (bind_eq _ _ _ (efer_of (tb_msr t)) t) by done.
  rewrite (bind_eq _ _ _ _ _ (wrmsr_value MSR_EFER _ t (efer_range (tb_msr t)))).
  change (Z.lor (u64 _) (u64 _)) with STAR_VALUE.
  rewrite (bind_eq _ _ _ _ _ (wrmsr_value MSR_STAR STAR_VALUE _ ltac:(done))).
  rewrite (bind_eq _ _ _ _ _ (wrmsr_value MSR_LSTAR _ _ Hh)).
  by rewrite wrmsr_value.
Qed.

(** C30. Once [gdt_init] and [syscall_init] have run, in this order,
    the kernel's own segments, those a system call enters with, those it returns
    to and those of a new process (0x23 and 0x1b) are present segments of the
    right kind and privilege, entry and return use the process's own selectors,
    the task register designates the descriptor of the task state, and system
    calls are on and enter at [syscall_handle]. *)
Theorem segments_agree {K} `{KernelServicesLaws K} gdt_addr tss_addr syscall_handle (t : tables K) :
  0 ≤ tss_addr < 0x10000000000000000 → 0 ≤ syscall_handle < 0x10000000000000000 →
  ∃ t' star, (gdt_init gdt_addr tss_addr ≫= λ _, syscall_init syscall_handle) t = Ok (tt, t') ∧
    tb_msr t' !! MSR_STAR = Some star ∧ tb_msr t' !! MSR_LSTAR = Some syscall_handle ∧
    (∃ efer, tb_msr t' !! MSR_EFER = Some efer ∧ Z.testbit efer 0 = true) ∧
    gdtr t' = (SIZEOF_GDT - 1, gdt_addr) ∧ tr t' = 5 * 8 ∧ hw_sys_base (tss_raw (gdt_tss t')) = tss_addr ∧
    code_selector t' (fst (segments t')) 0 ∧ data_selector t' (snd (segments t')) 0 ∧
    code_selector t' (syscall_cs star) 0 ∧ data_selector t' (syscall_ss star) 0 ∧
    code_selector t' 0x23 3 ∧ data_selector t' 0x1b 3 ∧
    sysret_cs star = 0x23 ∧ sysret_ss star = 0x1b.
Proof.
  intros Ha Hh. rewrite (bind_eq _ _ _ _ _ (gdt_init_eq gdt_addr tss_addr t)).
  set (t1 := loaded_tables gdt_addr tss_addr t). eexists _, STAR_VALUE.
  split; [apply (syscall_init_eq syscall_handle t1 Hh)|].
  assert (entries (set_tb_msr (syscall_msrs syscall_handle (tb_msr t1)) t1) = initial_entries) as Hen by done.
  cbn [tb_msr set_tb_msr].
  split; [unfold syscall_msrs; by rewrite !lookup_insert_ne, lookup_insert_eq by done|].
  split; [unfold syscall_msrs; by rewrite lookup_insert_ne, lookup_insert_eq by done|].
  split.
  { exists (Z.lor (efer_of (tb_msr t1)) 1). split; [unfold syscall_msrs; by rewrite !lookup_insert_ne, lookup_insert_eq by done|].
    rewrite Z.lor_spec. apply orb_true_r. }
  split; [done|]. split; [done|]. split; [by apply init_tss_fields|].
  split_and!; try (first [apply code_selectorb_spec | apply data_selectorb_spec]; rewrite Hen; clear; by vm_compute);
    clear; by vm_compute.
Qed.

(** The descriptor's limit leaves out the interrupt stacks of the task state:
    only [rsp0], its bytes 4 to 11, is inside the 16 it covers. *)
Lemma tss_limit_short a i :
  0 ≤ a < 0x10000000000000000 → 0 ≤ i < 7 →
  4 + 8 ≤ hw_limit (tss_raw (init_tss a)) + 1 ∧ hw_limit (tss_raw (init_tss a)) < 36 + 8 * i.
Proof. intros Ha Hi. destruct (init_tss_fields a Ha) as (_ & -> & _). unfold SIZEOF_TSS_ENTRY. lia. Qed.

(** ** At concrete addresses *)

Definition sample_tables : tables bump :=
  mk_tables sample_bump [] (init_tss 0) (mk_tss [0; 0; 0] (replicate 7 0) 0) (0, 0) (0, 0) 0 [] (0, 0) ∅.

Lemma init_descriptor_fields_witness :
  hw_base (gdt_raw (init_descriptor 0x12345678 0xfffff 0x18)) = 0x1234ffff ∧
  hw_limit (gdt_raw (init_descriptor 0x12345678 0xfffff 0x18)) = 0xf5678.
Proof.
  destruct (init_descriptor_fields 0x12345678 0xfffff 0x18) as (_ & Hl & Hb & _); [lia|lia|lia|].
  split; [rewrite Hb|rewrite Hl]; reflexivity.
Defined.


Lemma segments_agree_witness :
  ∃ t' star, (gdt_init 0x1000 0x2000 ≫= λ _, syscall_init 0x3000) sample_tables = Ok (tt, t') ∧
    tb_msr t' !! MSR_STAR = Some star ∧ sysret_cs star = 0x23.
Proof.
  destruct (segments_agree 0x1000 0x2000 0x3000 sample_tables) as (t' & star & Hrun & Hstar & Hrest); [lia|lia|].
  exists t', star. split; [exact Hrun|]. split; [exact Hstar|]. apply Hrest.
Defined.
