(* ===== verification/Stubs.v ===== *)
(** The assembly of the kernel: idt.s, syscall.s and gdt.s of arch/x86_64 on a
    processor with registers, a stack in memory and the GS bases.  [Interrupt] and
    [Syscall] model the handlers from the registers in the frame to the registers to
    go on with; here is why the frame has them and the processor goes on so.

    A [call] is any C function under the calling convention: it may change memory
    and the scratch registers and comes back with the stack pointer it was called
    with.  Straight-line code is a list of instructions; the address of an
    instruction is a parameter where the code pushes one. *)
From S2P Require Import Prelude Machine Sched Gdt.

(** ** The processor *)

Inductive sreg : Type := ds | es | fs | gs.
#[export] Instance sreg_eq_dec : EqDecision sreg.
Proof. solve_decision. Defined.
(** What pushing and popping does not concern. *)
Record cpu_env : Type := mk_env {
  gs_base : Z; kernel_gs_base : Z;
  selectors : sreg → Z;
  e_gdtr : Z; e_idtr : Z; e_tr : Z
}.
Definition set_gs (a b : Z) (e : cpu_env) : cpu_env := mk_env a b (selectors e) (e_gdtr e) (e_idtr e) (e_tr e).
Definition set_selector (s : sreg) (v : Z) (e : cpu_env) : cpu_env :=
  mk_env (gs_base e) (kernel_gs_base e) (λ s', if decide (s' = s) then v else selectors e s') (e_gdtr e) (e_idtr e) (e_tr e).
(** [intno] and [err] are no registers of the processor. *)
Record cpu : Type := mk_cpu { c_reg : registers_t; c_mem : memory; c_env : cpu_env }.
Definition put (r : reg) (v : Z) (c : cpu) : cpu := mk_cpu (set_reg r v (c_reg c)) (c_mem c) (c_env c).
Definition put_mem (m : memory) (c : cpu) : cpu := mk_cpu (c_reg c) m (c_env c).
Definition put_env (f : cpu_env → cpu_env) (c : cpu) : cpu := mk_cpu (c_reg c) (c_mem c) (f (c_env c)).

Inductive instr : Type :=
| Push (r : reg) | PushI (v : Z) | PushGS (o : Z) | Pushf | Pop (r : reg)
| Mov (d s : reg) | MovI (d : reg) (v : Z) | MovAX (v : Z) | MovSeg (s : sreg) | MovSS
| StoreGS (o : Z) (s : reg) | LoadGS (d : reg) (o : Z)
| AddRsp (v : Z) | Cld | Swapgs | Lgdt | Lidt | Ltr | Ret | Iretq | Sysret (star : Z).

Definition pushv (v : Z) (c : cpu) : cpu :=
  let sp := u64 (c_reg c rsp - 8) in put rsp sp (put_mem (store64 sp v (c_mem c)) c).
Definition popv (c : cpu) : Z * cpu := (load64 (c_mem c) (c_reg c rsp), put rsp (u64 (c_reg c rsp + 8)) c).
(** Interrupts enabled, and the direction flag. *)
Definition RFLAGS_IF : Z := 9.
Definition RFLAGS_DF : Z := 10.
Definition exec (i : instr) (c : cpu) : cpu :=
  match i with
  | Push r => pushv (c_reg c r) c
  | PushI v => pushv v c
  | PushGS o => pushv (load64 (c_mem c) (gs_base (c_env c) + o)) c
  | Pushf => pushv (c_reg c rflags) c
  | Pop r => let '(v, c) := popv c in put r v c
  | Mov d s => put d (c_reg c s) c
  | MovI d v => put d v c
  | MovAX v => put rax (Z.lor (Z.shiftl (Z.shiftr (c_reg c rax) 16) 16) v) c
  | MovSeg s => put_env (set_selector s (u16 (c_reg c rax))) c
  | MovSS => put ss (u16 (c_reg c rax)) c
  | StoreGS o s => put_mem (store64 (gs_base (c_env c) + o) (c_reg c s) (c_mem c)) c
  | LoadGS d o => put d (load64 (c_mem c) (gs_base (c_env c) + o)) c
  | AddRsp v => put rsp (u64 (c_reg c rsp + v)) c
  | Cld => put rflags (Z.clearbit (c_reg c rflags) RFLAGS_DF) c
  | Swapgs => put_env (λ e, set_gs (kernel_gs_base e) (gs_base e) e) c
  | Lgdt => put_env (λ e, mk_env (gs_base e) (kernel_gs_base e) (selectors e) (c_reg c rdi) (e_idtr e) (e_tr e)) c
  | Lidt => put_env (λ e, mk_env (gs_base e) (kernel_gs_base e) (selectors e) (e_gdtr e) (c_reg c rdi) (e_tr e)) c
  | Ltr => put_env (λ e, mk_env (gs_base e) (kernel_gs_base e) (selectors e) (e_gdtr e) (e_idtr e) (u16 (c_reg c rax))) c
  | Ret => let '(v, c) := popv c in put rip v c
  | Iretq =>
      let m := c_mem c in let sp := c_reg c rsp in
      put ss (u16 (load64 m (sp + 32))) (put rsp (load64 m (sp + 24)) (put rflags (load64 m (sp + 16))
        (put cs (u16 (load64 m (sp + 8))) (put rip (load64 m sp) c))))
  | Sysret star =>
      put ss (sysret_ss star) (put cs (sysret_cs star)
        (put rflags (Z.lor (Z.land (c_reg c r11) 0x3C7FD7) 2) (put rip (c_reg c rcx) c)))
  end.
Definition exec_list (l : list instr) (c : cpu) : cpu := foldl (λ c i, exec i c) c l.

(** A C function of one argument: the memory and the result it leaves. *)
Definition cfun : Type := memory → Z → memory * Z.
Definition caller_saved : list reg := [rcx; rdx; rsi; rdi; r8; r9; r10; r11; rflags].
Definition call (f : cfun) (ret : Z) (scratch : registers_t) (c : cpu) : cpu :=
  let '(m, v) := f (c_mem (pushv ret c)) (c_reg c rdi) in
  mk_cpu (set_reg rax v (λ r, if decide (r ∈ caller_saved) then scratch r else c_reg c r)) m (c_env c).

(** The processor takes interrupt [n]: on the stack that ends at [top] it saves where
    it was, and the error code if the exception has one. *)
Definition has_error (n : Z) : bool := bool_decide (n ∈ [8; 10; 11; 12; 13; 14; 17; 30]).
Definition cpu_interrupt (entry top n e : Z) (c : cpu) : cpu :=
  let c1 := foldl (λ c v, pushv v c) (put rsp top c) [c_reg c ss; c_reg c rsp; c_reg c rflags; c_reg c cs; c_reg c rip] in
  let c2 := if has_error n then pushv e c1 else c1 in
  put rip entry (put cs 0x8 (put rflags (Z.clearbit (c_reg c2 rflags) RFLAGS_IF) c2)).
(** The [syscall] instruction, with the registers [syscall_init] sets. *)
Definition cpu_syscall (star lstar : Z) (c : cpu) : cpu :=
  put ss (syscall_ss star) (put cs (syscall_cs star) (put rip lstar (put r11 (c_reg c rflags) (put rcx (c_reg c rip) c)))).

(** ** idt.s *)

Definition __pusha : list instr := Push <$> [rax; rbx; rcx; rdx; rsi; rdi; rbp; r8; r9; r10; r11; r12; r13; r14; r15].
Definition __popa : list instr := Pop <$> [r15; r14; r13; r12; r11; r10; r9; r8; rbp; rdi; rsi; rdx; rcx; rbx; rax].
Definition INTERRUPT_ERR (n : Z) : list instr := [PushI n].
Definition INTERRUPT_NOERR (n : Z) : list instr := [PushI 0; PushI n].
(** The table of stubs, in the order of the file. *)
Definition interrupt_stubs : list (list instr) :=
  (INTERRUPT_NOERR <$> [0; 1; 2; 3; 4; 5; 6; 7]) ++ [INTERRUPT_ERR 8; INTERRUPT_NOERR 9] ++
  (INTERRUPT_ERR <$> [10; 11; 12; 13; 14]) ++ [INTERRUPT_NOERR 15; INTERRUPT_NOERR 16; INTERRUPT_ERR 17] ++
  (INTERRUPT_NOERR <$> [18; 19; 20; 21; 22; 23; 24; 25; 26; 27; 28; 29]) ++ [INTERRUPT_ERR 30; INTERRUPT_NOERR 31] ++
  (INTERRUPT_NOERR <$> [32; 33; 34; 35; 36; 37; 38; 39; 40; 41; 42; 43; 44; 45; 46; 47]).
Definition interrupt_before : list instr := [Cld] ++ __pusha ++ [Mov rdi rsp].
Definition interrupt_after : list instr := [Mov rsp rax] ++ __popa ++ [AddRsp 16; Iretq].
Definition __interrupt_common (f : cfun) (ret : Z) (scratch : registers_t) (c : cpu) : cpu :=
  exec_list interrupt_after (call f ret scratch (exec_list interrupt_before c)).
(** The interrupt [n] from the processor's entry to its return. *)
Definition interrupted (stub : list instr) (entry top n e : Z) (f : cfun) (ret : Z) (scratch : registers_t) (c : cpu) : cpu :=
  __interrupt_common f ret scratch (exec_list stub (cpu_interrupt entry top n e c)).

(** ** syscall.s *)

Definition push_all : list instr := Push <$> [rax; rbx; rcx; rdx; rsi; rdi; rbp; r8; r9; r10; r11; r12; r13; r14; r15].
Definition pop_all : list instr := Pop <$> [r15; r14; r13; r12; r11; r10; r9; r8; rbp; rdi; rsi; rdx; rcx; rbx].
Definition syscall_before : list instr :=
  [Swapgs; StoreGS 8 rsp; LoadGS rsp 0; PushI 0x1b; PushGS 8; Push r11; PushI 0x23; Push rcx; Cld] ++ push_all ++ [Mov rdi rsp; MovI rbp 0].
Definition syscall_after (star : Z) : list instr := pop_all ++ [LoadGS rsp 8; Swapgs; Sysret star].
Definition syscall_handle (star : Z) (f : cfun) (ret : Z) (scratch : registers_t) (c : cpu) : cpu :=
  exec_list (syscall_after star) (call f ret scratch (exec_list syscall_before c)).

(** ** gdt.s, and [idt_flush] *)

Definition gdt_flush (trampoline : Z) : list instr :=
  [Lgdt; Push rbp; Mov rbp rsp; PushI 0x10; Push rbp; Pushf; PushI 0x8; PushI trampoline; Iretq;
   Pop rbp; MovAX 0x10; MovSeg ds; MovSeg es; MovSeg fs; MovSeg gs; MovSS; MovAX 0x28; Ret].
Definition tss_flush : list instr := [MovAX 0x28; Ltr; Ret].
Definition idt_flush : list instr := [Lidt; Ret].

(** ** [struct interrupt_stackframe] *)

Definition reg_index (r : reg) : Z :=
  match r with
  | r15 => 0 | r14 => 1 | r13 => 2 | r12 => 3 | r11 => 4 | r10 => 5 | r9 => 6 | r8 => 7 | rbp => 8 | rdi => 9 | rsi => 10
  | rdx => 11 | rcx => 12 | rbx => 13 | rax => 14 | intno => 15 | err => 16 | rip => 17 | cs => 18 | rflags => 19 | rsp => 20 | ss => 21
  end.
Definition SIZEOF_FRAME : Z := 176.
Definition frame_at (m : memory) (p : Z) : registers_t := λ r, load64 m (p + 8 * reg_index r).

(** ** Equal processors *)

#[export] Instance cpu_equiv : Equiv cpu := λ c c', (∀ r, c_reg c r = c_reg c' r) ∧ c_mem c = c_mem c' ∧ c_env c = c_env c'.
#[export] Instance cpu_equivalence : Equivalence (≡@{cpu}).
Proof.
  split.
  - by intros c.
  - intros c c' (Hr & Hm & He). by split.
  - intros c1 c2 c3 (Hr & Hm & He) (Hr' & Hm' & He'). split; [intros r; by rewrite Hr|]. split; congruence.
Qed.
#[export] Instance put_proper r v : Proper ((≡) ==> (≡)) (put r v).
Proof. intros c c' (Hr & Hm & He). split; [|done]. intros r'. cbn. unfold set_reg. case_decide; [done|apply Hr]. Qed.
#[export] Instance pushv_proper v : Proper ((≡) ==> (≡)) (pushv v).
Proof. intros c c' (Hr & Hm & He). unfold pushv. rewrite Hr, Hm. apply put_proper. by split. Qed.
#[export] Instance exec_proper i : Proper ((≡) ==> (≡)) (exec i).
Proof.
  intros c c' Hc. pose proof Hc as (Hr & Hm & He).
  destruct i; cbn [exec popv]; rewrite ?Hr, ?Hm, ?He; try (by apply pushv_proper); try (by repeat apply put_proper).
  all: split; [exact Hr|split; [done|]]; cbn; by rewrite He.
Qed.
#[export] Instance exec_list_proper l : Proper ((≡) ==> (≡)) (exec_list l).
Proof. induction l as [|i l IH]; intros c c' Hc; [done|]. apply IH. by apply exec_proper. Qed.
#[export] Instance call_proper f ret scratch : Proper ((≡) ==> (≡)) (call f ret scratch).
Proof.
  intros c c' Hc. pose proof Hc as (Hr & Hm & He). unfold call. destruct (pushv_proper ret _ _ Hc) as (_ & -> & _). rewrite Hr, He.
  destruct (f _ _) as [m v]. split; [|done]. intros r. cbn. unfold set_reg. case_decide; [done|]. case_decide; [done|apply Hr].
Qed.
Lemma exec_list_app l1 l2 c : exec_list (l1 ++ l2) c = exec_list l2 (exec_list l1 c).
Proof. apply foldl_app. Qed.

(** ** Pushing and popping *)

(** [vs] pushed one after the other below [sp]. *)
Fixpoint pushed (vs : list Z) (sp : Z) (m : memory) : memory :=
  match vs with [] => m | v :: vs => pushed vs (sp - 8) (store64 (sp - 8) v m) end.
Notation words vs := (8 * Z.of_nat (List.length vs)).
Definition pushvs (vs : list Z) (c : cpu) : cpu := foldl (λ c v, pushv v c) c vs.

Lemma load8_pushed vs sp m x : block_ok (sp - words vs) (words vs) → 0 ≤ x < 0x10000000000000000 → ¬ in_block (sp - words vs) (words vs) x →
  load8 (pushed vs sp m) x = load8 m x.
Proof.
  unfold block_ok, in_block. revert sp m. induction vs as [|v vs IH]; intros sp m Hb Hx Hno; [done|]. cbn [pushed]. cbn [List.length] in *.
  rewrite IH by lia. apply (load8_store_le_ne 8); unfold block_ok, in_block; lia.
Qed.
Lemma load64_pushed vs sp m i v : block_ok (sp - words vs) (words vs) → vs !! i = Some v →
  load64 (pushed vs sp m) (sp - 8 * (Z.of_nat i + 1)) = u64 v.
Proof.
  revert sp m i. induction vs as [|w vs IH]; intros sp m i Hb Hi; [done|]. cbn [pushed]. unfold block_ok in *. cbn [List.length] in Hb.
  destruct i as [|i].
  - injection Hi as ->. replace (sp - 8 * (Z.of_nat 0 + 1)) with (sp - 8) by lia. rewrite <- (load64_store64_eq m (sp - 8) v) by (unfold block_ok; lia).
    apply load_le_ext. intros x Hx. apply load8_pushed; unfold block_ok, in_block in *; lia.
  - replace (sp - 8 * (Z.of_nat (S i) + 1)) with (sp - 8 - 8 * (Z.of_nat i + 1)) by lia. apply IH; [lia|done].
Qed.
Lemma pushvs_spec vs c : block_ok (c_reg c rsp - words vs) (words vs) →
  pushvs vs c ≡ mk_cpu (set_reg rsp (c_reg c rsp - words vs) (c_reg c)) (pushed vs (c_reg c rsp) (c_mem c)) (c_env c).
Proof.
  revert c. induction vs as [|v vs IH]; intros c Hb.
  - split; [|done]. intros r. cbn. unfold set_reg. case_decide; [subst; lia|done].
  - unfold block_ok in Hb. cbn [List.length] in Hb. cbn [pushvs foldl]. fold (pushvs vs (pushv v c)).
    assert (c_reg (pushv v c) rsp = c_reg c rsp - 8) as Hsp by (unfold pushv; cbn; unfold set_reg; rewrite decide_True by done; apply u64_small; lia).
    rewrite IH by (rewrite Hsp; unfold block_ok; lia). rewrite Hsp. split; [|split; [|done]].
    + intros r. cbn [c_reg pushv put put_mem List.length]. unfold set_reg. case_decide; [lia|done].
    + cbn [c_mem pushed]. unfold pushv. cbn [c_mem put put_mem]. by rewrite u64_small by lia.
Qed.
(** Pushing registers pushes what they hold. *)
Lemma exec_pushes l c : rsp ∉ l → exec_list (Push <$> l) c = pushvs (c_reg c <$> l) c.
Proof.
  revert c. induction l as [|r l IH]; intros c Hno; [done|]. apply not_elem_of_cons in Hno as [Hr Hno].
  change (exec_list (Push <$> l) (pushv (c_reg c r) c) = pushvs (c_reg c <$> l) (pushv (c_reg c r) c)). rewrite IH by done. f_equal.
  apply list_fmap_ext. intros i r' Hi. cbn. unfold set_reg. rewrite decide_False; [done|]. intros ->. apply Hno. by eapply list_elem_of_lookup_2.
Qed.

(** What popping into [l] leaves. *)
Record popped (l : list reg) (c c' : cpu) : Prop := {
  po_popped (i : nat) r : l !! i = Some r → c_reg c' r = load64 (c_mem c) (c_reg c rsp + 8 * Z.of_nat i);
  po_rsp : c_reg c' rsp = c_reg c rsp + words l;
  po_other r : r ∉ l → r ≠ rsp → c_reg c' r = c_reg c r;
  po_rest : c_mem c' = c_mem c ∧ c_env c' = c_env c
}.
Lemma exec_pops l c : rsp ∉ l → NoDup l → 0 ≤ c_reg c rsp → c_reg c rsp + words l < 0x10000000000000000 → popped l c (exec_list (Pop <$> l) c).
Proof.
  revert c. induction l as [|r l IH]; intros c Hno Hnd Hsp Hend.
  - split; try done. cbn. lia.
  - apply not_elem_of_cons in Hno as [Hr Hno]. apply NoDup_cons in Hnd as [Hrl Hnd]. cbn [List.length] in Hend.
    change (exec_list (Pop <$> r :: l) c) with (exec_list (Pop <$> l) (exec (Pop r) c)). set (c1 := exec (Pop r) c).
    assert (c_reg c1 rsp = c_reg c rsp + 8) as Hsp1.
    { unfold c1. cbn. unfold set_reg. rewrite decide_False by done. rewrite decide_True by done. apply u64_small. lia. }
    destruct (IH c1 Hno Hnd) as [Hp Hs Ho [Hm He]]; [lia|lia|]. rewrite Hsp1 in *. split; [|cbn [List.length]; lia| |by split].
    + intros [|i] r' Hi.
      * injection Hi as <-. rewrite Ho by done. unfold c1. cbn [exec popv put c_reg c_mem]. unfold set_reg at 1. rewrite decide_True by done. f_equal. lia.
      * rewrite (Hp i r' Hi). change (c_mem c1) with (c_mem c). f_equal. lia.
    + intros r' [Hne Hr']%not_elem_of_cons Hrs. rewrite Ho by done. unfold c1. cbn. unfold set_reg. by rewrite !decide_False by done.
Qed.

(** Other registers do not matter to pushing. *)
Lemma pushvs_reg vs c r : r ≠ rsp → c_reg (pushvs vs c) r = c_reg c r.
Proof.
  intros Hr. revert c. induction vs as [|v vs IH]; intros c; [done|]. change (c_reg (pushvs vs (pushv v c)) r = c_reg c r). rewrite IH.
  cbn. unfold set_reg. by rewrite decide_False.
Qed.
#[export] Instance pushvs_proper vs : Proper ((≡) ==> (≡)) (pushvs vs).
Proof. induction vs as [|v vs IH]; intros c c' Hc; [done|]. apply IH. by apply pushv_proper. Qed.
Lemma put_pushv r w v c : r ≠ rsp → pushv v (put r w c) ≡ put r w (pushv v c).
Proof.
  intros Hr. assert (c_reg (put r w c) rsp = c_reg c rsp) as Hs by (cbn; unfold set_reg; by rewrite decide_False).
  unfold pushv. rewrite Hs. split; [|done]. intros r'. cbn. unfold set_reg. repeat case_decide; congruence.
Qed.
Lemma put_pushvs r w vs c : r ≠ rsp → pushvs vs (put r w c) ≡ put r w (pushvs vs c).
Proof.
  intros Hr. revert c. induction vs as [|v vs IH]; intros c; [done|].
  change (pushvs vs (pushv v (put r w c)) ≡ put r w (pushvs vs (pushv v c))). by rewrite <- IH, put_pushv.
Qed.
Lemma pushvs_app vs ws c : pushvs (vs ++ ws) c = pushvs ws (pushvs vs c).
Proof. apply foldl_app. Qed.
Lemma exec_cons i l c : exec_list (i :: l) c = exec_list l (exec i c).
Proof. done. Qed.

(** ** An interrupt *)

Definition general : list reg := [rax; rbx; rcx; rdx; rsi; rdi; rbp; r8; r9; r10; r11; r12; r13; r14; r15].
Lemma general_ne r : r ∈ general → r ≠ rsp ∧ r ≠ rip ∧ r ≠ cs ∧ r ≠ rflags ∧ r ≠ ss ∧ r ≠ intno ∧ r ≠ err.
Proof. intros Hr. unfold general in Hr. repeat (apply elem_of_cons in Hr as [->|Hr]; [by split_and!|]). by apply not_elem_of_nil in Hr. Qed.
Lemma rsp_general : rsp ∉ general.
Proof. intros Hr. by apply general_ne in Hr as [? _]. Qed.
(** What the handler finds in its frame. *)
Definition interrupt_frame (n e : Z) (c : cpu) : registers_t := λ r,
  if decide (r = intno) then n else if decide (r = err) then (if has_error n then e else 0) else c_reg c r.
Definition frame_words (fr : registers_t) : list Z := fr <$> [ss; rsp; rflags; cs; rip; err; intno] ++ general.
Lemma frame_word fr r : frame_words fr !! Z.to_nat (21 - reg_index r) = Some (fr r).
Proof. by destruct r. Qed.
Lemma frame_pushed fr top m r : block_ok (top - SIZEOF_FRAME) SIZEOF_FRAME → 0 ≤ fr r < 0x10000000000000000 →
  frame_at (pushed (frame_words fr) top m) (top - SIZEOF_FRAME) r = fr r.
Proof.
  intros Hb Hr. rewrite <- (u64_small (fr r)) by done. rewrite <- (load64_pushed (frame_words fr) top m _ _ Hb (frame_word fr r)).
  unfold frame_at. f_equal. unfold SIZEOF_FRAME. assert (0 ≤ reg_index r ≤ 21) by (destruct r; done). lia.
Qed.

(** Each stub pushes what the processor did not. *)
Lemma stub_pushes n stub : interrupt_stubs !! Z.to_nat n = Some stub → 0 ≤ n →
  0 ≤ n < 48 ∧ stub = PushI <$> (if has_error n then [n] else [0; n]).
Proof.
  intros Hs Hn. pose proof (lookup_lt_Some _ _ _ Hs) as Hlt. change (List.length interrupt_stubs) with 48%nat in Hlt. split; [lia|].
  rewrite <- (Z2Nat.id n) by done. revert Hs. generalize (Z.to_nat n) Hlt. clear. intros k Hk Hs.
  do 48 (destruct k as [|k]; [by injection Hs as <-|]). lia.
Qed.

Lemma exec_pushis l c : exec_list (PushI <$> l) c = pushvs l c.
Proof. revert c. induction l as [|v l IH]; intros c; [done|]. exact (IH (pushv v c)). Qed.
Lemma interrupt_entry n stub entry top e c : interrupt_stubs !! Z.to_nat n = Some stub → 0 ≤ n → block_ok (top - SIZEOF_FRAME) SIZEOF_FRAME →
  let c' := exec_list interrupt_before (exec_list stub (cpu_interrupt entry top n e c)) in
  c_reg c' rsp = top - SIZEOF_FRAME ∧ c_reg c' rdi = top - SIZEOF_FRAME ∧
  c_mem c' = pushed (frame_words (interrupt_frame n e c)) top (c_mem c) ∧ c_env c' = c_env c.
Proof.
  intros Hs Hn Hb. destruct (stub_pushes n stub Hs Hn) as [_ ->]. set (fr := interrupt_frame n e c).
  set (c0 := put rsp top c). set (first := [c_reg c ss; c_reg c rsp; c_reg c rflags; c_reg c cs; c_reg c rip; fr err; n]).
  assert (∃ fl, exec_list (PushI <$> (if has_error n then [n] else [0; n])) (cpu_interrupt entry top n e c) ≡
    put rip entry (put cs 0x8 (put rflags fl (pushvs first c0)))) as [fl Hstub].
  { set (five := [c_reg c ss; c_reg c rsp; c_reg c rflags; c_reg c cs; c_reg c rip]). set (ev := if has_error n then [e] else []).
    assert (first = five ++ ev ++ (if has_error n then [n] else [0; n])) as Hfirst.
    { unfold first, ev, five, fr, interrupt_frame. rewrite decide_False, decide_True by done. by destruct (has_error n). }
    eexists. rewrite exec_pushis, Hfirst, !pushvs_app.
    assert (cpu_interrupt entry top n e c = put rip entry (put cs 0x8 (put rflags (Z.clearbit (c_reg (pushvs ev (pushvs five c0)) rflags) RFLAGS_IF)
      (pushvs ev (pushvs five c0))))) as -> by (unfold cpu_interrupt, ev; by destruct (has_error n)).
    rewrite !put_pushvs by done. reflexivity. }
  set (c1 := put rflags (Z.clearbit fl RFLAGS_DF) (put rip entry (put cs 0x8 (put rflags fl (pushvs first c0))))).
  assert (c_reg c1 <$> general = c_reg c <$> general) as Hgen.
  { apply list_fmap_ext. intros i r (? & ? & ? & ? & _)%list_elem_of_lookup_2%general_ne. assert (c_reg (pushvs first c0) r = c_reg c r) as Hr.
    { rewrite pushvs_reg by done. cbn. unfold set_reg. by rewrite decide_False. }
    unfold c1. cbn [c_reg put]. unfold set_reg. by rewrite !decide_False. }
  assert (exec_list (Push <$> general) c1 ≡ put rflags (Z.clearbit fl RFLAGS_DF) (put rip entry (put cs 0x8 (put rflags fl (pushvs (frame_words fr) c0))))) as Hpush.
  { rewrite exec_pushes, Hgen by exact rsp_general. assert (frame_words fr = first ++ (c_reg c <$> general)) as -> by reflexivity.
    rewrite pushvs_app. unfold c1. generalize (c_reg c <$> general) as G, (pushvs first c0) as d, (Z.clearbit fl RFLAGS_DF) as w. clear. intros G d w.
    do 4 (rewrite put_pushvs by done). reflexivity. }
  assert (c_reg c0 rsp = top) as Hsp by done. rewrite pushvs_spec in Hpush by (rewrite Hsp; exact Hb). rewrite Hsp in Hpush.
  intros c'. assert (c' ≡ exec (Mov rdi rsp) (exec_list (Push <$> general) c1)) as Hc'.
  { unfold c'. rewrite Hstub. change interrupt_before with (Cld :: (Push <$> general) ++ [Mov rdi rsp]). rewrite exec_cons, exec_list_app. reflexivity. }
  rewrite Hpush in Hc'. destruct Hc' as (Hreg & Hmem & Henv). split; [|split; [|split]].
  - rewrite Hreg. reflexivity.
  - rewrite Hreg. reflexivity.
  - rewrite Hmem. reflexivity.
  - rewrite Henv. reflexivity.
Qed.

(** The way back loads the processor from the frame the handler names. *)
Definition loaded_from (m : memory) (p : Z) (r : reg) : Z :=
  if decide (r ∈ [cs; ss]) then u16 (frame_at m p r) else frame_at m p r.
Lemma iretq_reg c r : c_reg (exec Iretq c) r =
  match r with
  | rip => load64 (c_mem c) (c_reg c rsp) | cs => u16 (load64 (c_mem c) (c_reg c rsp + 8))
  | rflags => load64 (c_mem c) (c_reg c rsp + 16) | rsp => load64 (c_mem c) (c_reg c rsp + 24)
  | ss => u16 (load64 (c_mem c) (c_reg c rsp + 32)) | r => c_reg c r
  end.
Proof. by destruct r. Qed.
Lemma general_index r : r ∈ general → reverse general !! Z.to_nat (reg_index r) = Some r ∧ 0 ≤ reg_index r.
Proof. intros Hr. unfold general in Hr. repeat (apply elem_of_cons in Hr as [->|Hr]; [by split|]). by apply not_elem_of_nil in Hr. Qed.
(** A fact about constants that can be computed. *)
Ltac decided := match goal with |- ?P => exact (@bool_decide_unpack P _ I) end.
Lemma reg_cases r : r ∈ general ∨ r ∈ [intno; err; rip; cs; rflags; rsp; ss].
Proof. destruct r; try (left; decided); right; decided. Qed.
Lemma interrupt_exit c p : c_reg c rax = p → block_ok p SIZEOF_FRAME →
  let c' := exec_list interrupt_after c in
  (∀ r, r ∉ [intno; err] → c_reg c' r = loaded_from (c_mem c) p r) ∧ c_mem c' = c_mem c ∧ c_env c' = c_env c.
Proof.
  intros Hp Hb c'. unfold block_ok, SIZEOF_FRAME in Hb. set (d := exec (Mov rsp rax) c). set (d' := exec_list (Pop <$> reverse general) d).
  assert (c_reg d rsp = p) as Hd by (rewrite <- Hp; reflexivity). 
  assert (popped (reverse general) d d') as [Hpop Hsp Ho [Hm He]].
  { apply exec_pops; [| |lia|change (List.length (reverse general)) with 15%nat; lia]; decided. }
  rewrite Hd in *. change (List.length (reverse general)) with 15%nat in Hsp. set (d2 := exec (AddRsp 16) d').
  assert (c_reg d2 rsp = p + 136) as Hd2.
  { change (u64 (c_reg d' rsp + 16) = p + 136). rewrite Hsp. rewrite u64_small; lia. }
  assert (c' = exec Iretq d2) as -> by reflexivity.
  assert (c_mem d2 = c_mem c) as Hm2 by exact Hm. split; [|split; [exact Hm|exact He]].
  intros r Hr. rewrite iretq_reg, Hd2, Hm2. unfold loaded_from. destruct (reg_cases r) as [Hg|Hs].
  - destruct (general_index r Hg) as [Hi H0]. pose proof (Hpop _ _ Hi) as Hl. rewrite Z2Nat.id in Hl by done.
    destruct (general_ne r Hg) as (N1 & N2 & N3 & N4 & N5 & _). rewrite decide_False by (rewrite !elem_of_cons, elem_of_nil; tauto).
    assert (c_reg d2 r = c_reg d' r) as Hdr by (change (set_reg rsp (u64 (c_reg d' rsp + 16)) (c_reg d') r = c_reg d' r); unfold set_reg; by rewrite decide_False).
    unfold frame_at. change (c_mem c) with (c_mem d). rewrite <- Hl, <- Hdr. clear -N1 N2 N3 N4 N5. by destruct r.
  - repeat (apply elem_of_cons in Hs as [->|Hs]; [try (exfalso; apply Hr; decided); unfold frame_at; cbn [reg_index]; first [rewrite decide_True by decided|rewrite decide_False by decided]; first [f_equal; lia|f_equal; f_equal; lia]|]).
    by apply not_elem_of_nil in Hs.
Qed.

Definition cpu_ok (c : cpu) : Prop :=
  (∀ r, 0 ≤ c_reg c r < 0x10000000000000000) ∧ c_reg c cs < 0x10000 ∧ c_reg c ss < 0x10000.
(** What the call of the handler starts from and what it leaves. *)
Lemma call_spec f ret scratch c m p : block_ok (c_reg c rsp - 8) 8 → f (store64 (c_reg c rsp - 8) ret (c_mem c)) (c_reg c rdi) = (m, p) →
  let c' := call f ret scratch c in
  c_reg c' rax = p ∧ (∀ r, r ∉ rax :: caller_saved → c_reg c' r = c_reg c r) ∧ c_mem c' = m ∧ c_env c' = c_env c.
Proof.
  intros Hb Hf. unfold call. assert (c_mem (pushv ret c) = store64 (c_reg c rsp - 8) ret (c_mem c)) as ->.
  { unfold pushv. cbn [put put_mem c_mem]. rewrite u64_small; [done|]. unfold block_ok in Hb. lia. }
  rewrite Hf. split; [done|]. split; [|done]. intros r [Hr Hs]%not_elem_of_cons. cbn [c_reg]. unfold set_reg. by rewrite !decide_False.
Qed.
Lemma pushed_app vs ws sp m : pushed (vs ++ ws) sp m = pushed ws (sp - words vs) (pushed vs sp m).
Proof.
  revert sp m. induction vs as [|v vs IH]; intros sp m; [cbn [pushed app List.length]; by rewrite Z.sub_0_r|].
  cbn [pushed app List.length]. rewrite IH. f_equal. lia.
Qed.

Lemma frame_words_size fr : words (frame_words fr) = SIZEOF_FRAME.
Proof. done. Qed.

(** What is written below a frame is not in it. *)
Lemma frame_store m p a v r : block_ok p SIZEOF_FRAME → block_ok a 8 → a + 8 ≤ p → frame_at (store64 a v m) p r = frame_at m p r.
Proof.
  unfold block_ok, SIZEOF_FRAME. intros Hp Ha Hle. assert (0 ≤ reg_index r ≤ 21) by (destruct r; done).
  apply load64_store64_ne; unfold block_ok, blocks_disjoint; lia.
Qed.

(** C12. Whatever interrupt comes, the stub hands the handler the
    address of a frame with the registers as the interrupt found them, its number and
    the error code, or zero where the processor has none; and when the handler
    returns the address of a frame, the same or another, the processor goes on with
    the registers in that frame.  If the handler left them as they were, the
    interrupt left no trace in the registers.  Nothing else of memory is written
    but the 184 bytes below the stack's top. *)
Theorem interrupt_stub_resumes n stub entry top e f ret scratch c :
  interrupt_stubs !! Z.to_nat n = Some stub → 0 ≤ n → block_ok (top - 184) 184 → cpu_ok c → 0 ≤ e < 0x10000000000000000 →
  let c' := interrupted stub entry top n e f ret scratch c in
  ∃ m, (∀ r, frame_at m (top - SIZEOF_FRAME) r = interrupt_frame n e c r) ∧
    (∀ x, 0 ≤ x < 0x10000000000000000 → ¬ in_block (top - 184) 184 x → load8 m x = load8 (c_mem c) x) ∧
    ∀ m' p, f m (top - SIZEOF_FRAME) = (m', p) → block_ok p SIZEOF_FRAME →
      c_mem c' = m' ∧ c_env c' = c_env c ∧ (∀ r, r ∉ [intno; err] → c_reg c' r = loaded_from m' p r) ∧
      ((∀ r, frame_at m' p r = frame_at m (top - SIZEOF_FRAME) r) → ∀ r, r ∉ [intno; err] → c_reg c' r = c_reg c r).
Proof.
  intros Hs Hn Hb [Hc [Hcs Hss]] He c'. unfold block_ok in Hb. assert (block_ok (top - SIZEOF_FRAME) SIZEOF_FRAME) as Hb' by (unfold block_ok, SIZEOF_FRAME; lia).
  destruct (interrupt_entry n stub entry top e c Hs Hn Hb') as (Hsp & Hdi & Hm & Henv). set (c1 := exec_list interrupt_before _) in *.
  set (fr := interrupt_frame n e c) in *.
  assert (∀ r, 0 ≤ fr r < 0x10000000000000000) as Hfr.
  { intros r. unfold fr, interrupt_frame. destruct (stub_pushes n stub Hs Hn) as [? _]. case_decide; [lia|]. case_decide; [|done]. case_match; lia. }
  assert (store64 (c_reg c1 rsp - 8) ret (c_mem c1) = pushed (frame_words fr ++ [ret]) top (c_mem c)) as Hmem by (rewrite pushed_app, frame_words_size, Hsp, Hm; cbn [pushed]; reflexivity).
  set (m := pushed (frame_words fr ++ [ret]) top (c_mem c)) in *. exists m.
  assert (∀ r, frame_at m (top - SIZEOF_FRAME) r = fr r) as Hframe.
  { intros r. rewrite <- (frame_pushed fr top (c_mem c) r Hb' (Hfr r)). unfold m. rewrite pushed_app, frame_words_size. cbn [pushed].
    apply frame_store; [exact Hb'|unfold block_ok, SIZEOF_FRAME; lia|lia]. }
  split; [exact Hframe|]. split.
  { intros x Hx Hno. apply load8_pushed; [unfold block_ok| done|exact Hno]. rewrite length_app, Nat2Z.inj_add, Z.mul_add_distr_l, frame_words_size. unfold SIZEOF_FRAME. cbn. lia. }
  intros m' p Hf Hp. destruct (call_spec f ret scratch c1 m' p) as (Hax & _ & Hcm & Hce); [rewrite Hsp; unfold block_ok, SIZEOF_FRAME; lia|by rewrite Hmem, Hdi|].
  destruct (interrupt_exit _ p Hax Hp) as (Hreg & Hm' & He'). rewrite Hcm in Hreg, Hm'. rewrite Hce in He'.
  assert (∀ r, r ∉ [intno; err] → c_reg c' r = loaded_from m' p r) as Hreg' by exact Hreg.
  split; [exact Hm'|]. split; [etrans; [exact He'|exact Henv]|]. split; [exact Hreg'|].
  intros Hsame r Hr. rewrite (Hreg' r Hr). unfold loaded_from. rewrite Hsame, Hframe. unfold fr, interrupt_frame.
  rewrite !elem_of_cons, elem_of_nil in Hr. rewrite !(decide_False (P := r = intno)), !(decide_False (P := r = err)) by tauto. case_decide as Hw; [|done]. rewrite !elem_of_cons, elem_of_nil in Hw.
  unfold u16. apply Z.mod_small. pose proof (Hc r). destruct Hw as [->|[->|[]]]; lia.
Qed.

(** ** A system call *)

(** The registers the kernel sees: [syscall] has put the address to return to in rcx
    and the flags in r11. *)
Definition syscall_regs (c : cpu) : registers_t := set_reg r11 (c_reg c rflags) (set_reg rcx (c_reg c rip) (c_reg c)).
Definition SYSCALL_FRAME : Z := 160.
(** What is pushed: the registers, and above them what [iretq] would need. *)
Definition syscall_words (c : cpu) : list Z :=
  [0x1b; c_reg c rsp; c_reg c rflags; 0x23; c_reg c rip] ++ (syscall_regs c <$> general).
Lemma syscall_words_size c : words (syscall_words c) = SYSCALL_FRAME.
Proof. done. Qed.
Lemma syscall_word c r : r ∈ general → syscall_words c !! Z.to_nat (19 - reg_index r) = Some (syscall_regs c r) ∧ reg_index r ≤ 14.
Proof. intros Hr. unfold general in Hr. repeat (apply elem_of_cons in Hr as [->|Hr]; [done|]). by apply not_elem_of_nil in Hr. Qed.

(** The stack of the process in the kernel and the place for the user's stack pointer
    are the first two words of its structure, which the GS bases point to. *)
Record syscall_ready (c : cpu) (proc top : Z) : Prop := {
  sr_gs : gs_base (c_env c) = proc ∧ kernel_gs_base (c_env c) = proc;
  sr_top : load64 (c_mem c) proc = top;
  sr_blocks : block_ok proc 16 ∧ block_ok (top - 168) 168 ∧ blocks_disjoint proc 16 (top - 168) 168
}.
Lemma set_gs_same e : gs_base e = kernel_gs_base e → set_gs (kernel_gs_base e) (gs_base e) e = e.
Proof. destruct e. cbn. by intros ->. Qed.
Lemma syscall_entry star lstar c proc top : syscall_ready c proc top → cpu_ok c →
  let c' := exec_list syscall_before (cpu_syscall star lstar c) in
  c_reg c' rsp = top - SYSCALL_FRAME ∧ c_reg c' rdi = top - SYSCALL_FRAME ∧
  c_mem c' = pushed (syscall_words c) top (store64 (proc + 8) (c_reg c rsp) (c_mem c)) ∧ c_env c' = c_env c.
Proof.
  intros [[Hg Hk] Htop (Hbp & Hbt & Hd)] [Hc _] c'. unfold block_ok, blocks_disjoint in *. set (cs1 := cpu_syscall star lstar c) in *.
  set (m1 := store64 (proc + 8) (c_reg c rsp) (c_mem c)). set (c3 := put rsp top (put_mem m1 cs1)).
  assert (load64 m1 proc = top) as Hm1 by (rewrite <- Htop; apply load64_store64_ne; unfold block_ok, blocks_disjoint; lia).
  assert (exec_list [Swapgs; StoreGS 8 rsp; LoadGS rsp 0] cs1 ≡ c3) as H3.
  { assert (set_gs (kernel_gs_base (c_env c)) (gs_base (c_env c)) (c_env c) = c_env c) as He by (apply set_gs_same; congruence).
    rewrite exec_cons. assert (exec Swapgs cs1 ≡ cs1) as -> by (split; [done|split; [done|exact He]]).
    rewrite !exec_cons. assert (exec (StoreGS 8 rsp) cs1 = put_mem m1 cs1) as -> by (unfold m1; rewrite <- Hg; reflexivity).
    change (exec_list [] ?x) with x. cbn [exec]. change (c_env (put_mem m1 cs1)) with (c_env c). change (c_mem (put_mem m1 cs1)) with m1.
    by rewrite Hg, Z.add_0_r, Hm1. }
  assert (load64 (c_mem (pushv 0x1b c3)) (proc + 8) = c_reg c rsp) as Husp.
  { unfold pushv. cbn [put put_mem c_mem]. assert (c_reg c3 rsp = top) as -> by done. rewrite u64_small by lia.
    change (c_mem c3) with m1. rewrite load64_store64_ne by (unfold block_ok, blocks_disjoint; lia). unfold m1.
    rewrite load64_store64_eq by (unfold block_ok; lia). by apply u64_small. }
  set (five := [0x1b; c_reg c rsp; c_reg c rflags; 0x23; c_reg c rip]).
  assert (exec_list [PushI 0x1b; PushGS 8; Push r11; PushI 0x23; Push rcx] c3 = pushvs five c3) as Hfive.
  { unfold five. rewrite <- Husp. cbn [exec_list foldl exec pushvs]. change (c_env (pushv 0x1b c3)) with (c_env c). rewrite Hg. reflexivity. }
  set (fl := Z.clearbit (c_reg (pushvs five c3) rflags) RFLAGS_DF). set (d := put rflags fl (pushvs five c3)).
  assert (c_reg d <$> general = syscall_regs c <$> general) as Hgen.
  { apply list_fmap_ext. intros i r (? & ? & ? & ? & ? & _)%list_elem_of_lookup_2%general_ne. assert (c_reg (pushvs five c3) r = syscall_regs c r) as Hr.
    { rewrite pushvs_reg by done. unfold syscall_regs, set_reg. cbn [c_reg c3 put put_mem cs1 cpu_syscall]. unfold set_reg. repeat case_decide; congruence. }
    rewrite <- Hr. unfold d. generalize (pushvs five c3) as e. intros e. cbn [c_reg put]. unfold set_reg. by rewrite decide_False. }
  assert (exec_list (Push <$> general) d ≡ put rflags fl (pushvs (syscall_words c) c3)) as Hpush.
  { pose proof (exec_pushes general d rsp_general) as Hex. rewrite Hgen in Hex. rewrite Hex. assert (syscall_words c = five ++ (syscall_regs c <$> general)) as -> by reflexivity. rewrite pushvs_app.
    unfold d. generalize (syscall_regs c <$> general) as G, (pushvs five c3) as e. clear. intros G e. by rewrite put_pushvs. }
  assert (c_reg c3 rsp = top) as Hsp by done. rewrite pushvs_spec in Hpush by (rewrite Hsp, syscall_words_size; unfold block_ok, SYSCALL_FRAME; lia).
  rewrite Hsp in Hpush.
  assert (c' ≡ exec_list [Mov rdi rsp; MovI rbp 0] (exec_list (Push <$> general) d)) as Hc'.
  { unfold c'. change syscall_before with ([Swapgs; StoreGS 8 rsp; LoadGS rsp 0] ++ [PushI 0x1b; PushGS 8; Push r11; PushI 0x23; Push rcx] ++ [Cld] ++ (Push <$> general) ++ [Mov rdi rsp; MovI rbp 0]).
    rewrite exec_list_app, H3, exec_list_app, Hfive, !exec_list_app. reflexivity. }
  rewrite Hpush in Hc'. destruct Hc' as (Hreg & Hmem & Henv). split; [|split; [|split]].
  - rewrite Hreg. reflexivity.
  - rewrite Hreg. reflexivity.
  - rewrite Hmem. reflexivity.
  - rewrite Henv. reflexivity.
Qed.

Definition popped_back : list reg := [r15; r14; r13; r12; r11; r10; r9; r8; rbp; rdi; rsi; rdx; rcx; rbx].
Lemma popped_index r : r ∈ general → r ≠ rax → popped_back !! Z.to_nat (reg_index r) = Some r ∧ 0 ≤ reg_index r.
Proof. intros Hr. unfold general in Hr. repeat (apply elem_of_cons in Hr as [->|Hr]; [by split|]). by apply not_elem_of_nil in Hr. Qed.
Lemma sysret_reg star d : let c' := exec_list [LoadGS rsp 8; Swapgs; Sysret star] d in
  (∀ r, c_reg c' r = match r with
    | rip => c_reg d rcx | cs => sysret_cs star | ss => sysret_ss star
    | rflags => Z.lor (Z.land (c_reg d r11) 0x3C7FD7) 2
    | rsp => load64 (c_mem d) (gs_base (c_env d) + 8) | r => c_reg d r
    end) ∧ c_mem c' = c_mem d ∧ c_env c' = set_gs (kernel_gs_base (c_env d)) (gs_base (c_env d)) (c_env d).
Proof. split; [by intros []|done]. Qed.
(** Where the process goes on. *)
Record syscall_left (star proc p v : Z) (m : memory) (c' : cpu) : Prop := {
  sl_result : c_reg c' rax = v;
  sl_general r : r ∈ general → r ≠ rax → c_reg c' r = frame_at m p r;
  sl_stack : c_reg c' rsp = load64 m (proc + 8);
  sl_next : c_reg c' rip = frame_at m p rcx;
  sl_flags : c_reg c' rflags = Z.lor (Z.land (frame_at m p r11) 0x3C7FD7) 2;
  sl_user : c_reg c' cs = sysret_cs star ∧ c_reg c' ss = sysret_ss star;
  sl_memory : c_mem c' = m
}.
Lemma syscall_exit star c proc p : gs_base (c_env c) = proc → kernel_gs_base (c_env c) = proc → c_reg c rsp = p → block_ok p SYSCALL_FRAME →
  let c' := exec_list (syscall_after star) c in
  syscall_left star proc p (c_reg c rax) (c_mem c) c' ∧ c_env c' = c_env c.
Proof.
  intros Hg Hk Hp Hb c'. unfold block_ok, SYSCALL_FRAME in Hb. set (d := exec_list (Pop <$> popped_back) c).
  assert (popped popped_back c d) as [Hpop Hsp Ho [Hm He]].
  { apply exec_pops; [decided|decided|lia|change (List.length popped_back) with 14%nat; lia]. }
  assert (c' = exec_list [LoadGS rsp 8; Swapgs; Sysret star] d) as Hc'.
  { unfold c', syscall_after. by rewrite exec_list_app. }
  destruct (sysret_reg star d) as (Hreg & Hmem & Henv). rewrite <- Hc' in Hreg, Hmem, Henv. clearbody c' d. clear Hc'.
  assert (∀ r, r ∈ general → r ≠ rax → c_reg d r = frame_at (c_mem c) p r) as Hgen.
  { intros r Hr Hax. destruct (popped_index r Hr Hax) as [Hi H0]. rewrite (Hpop _ _ Hi), Hp, Z2Nat.id by done. done. }
  split; [|rewrite Henv, He; apply set_gs_same; congruence]. split.
  - rewrite Hreg. apply Ho; [decided|done].
  - intros r Hr Hax. rewrite Hreg, <- Hgen by done. destruct (general_ne r Hr) as (N1 & N2 & N3 & N4 & N5 & _). clear -N1 N2 N3 N4 N5. by destruct r.
  - by rewrite Hreg, Hm, He, Hg.
  - rewrite Hreg. apply Hgen; [decided|done].
  - rewrite Hreg, Hgen; [done|decided|done].
  - by rewrite !Hreg.
  - by rewrite Hmem.
Qed.

(** C13. A system call gets its registers, at the addresses at which
    [registers_t] has them, to the handler, on the process's own stack in the kernel;
    what the handler takes for the interrupt's number, the error code, rip, cs and
    rflags are the address to return to, the user's code selector, flags and stack
    pointer and the data selector, two words further down.  Whatever the handler
    does, the process goes on with its result in rax, with what it left in the frame
    and in the process's structure, in user mode; if it left those alone, behind the
    instruction, with all its other registers but the two the instruction takes. *)
Theorem syscall_stub_returns star lstar f ret scratch proc top c :
  syscall_ready c proc top → cpu_ok c →
  let p := top - SYSCALL_FRAME in
  let c' := syscall_handle star f ret scratch (cpu_syscall star lstar c) in
  ∃ m, (∀ r, r ∈ general → frame_at m p r = syscall_regs c r) ∧
    (frame_at m p intno = c_reg c rip ∧ frame_at m p err = 0x23 ∧ frame_at m p rip = c_reg c rflags ∧
     frame_at m p cs = c_reg c rsp ∧ frame_at m p rflags = 0x1b) ∧
    (∀ x, 0 ≤ x < 0x10000000000000000 → ¬ in_block (top - 168) 168 x → ¬ in_block (proc + 8) 8 x → load8 m x = load8 (c_mem c) x) ∧
    ∀ m' v, f m p = (m', v) → c_env c' = c_env c ∧ syscall_left star proc p v m' c' ∧
      ((∀ r, r ∈ general → frame_at m' p r = frame_at m p r) → load64 m' (proc + 8) = load64 m (proc + 8) →
       c_reg c' rip = c_reg c rip ∧ c_reg c' rsp = c_reg c rsp ∧ ∀ r, r ∈ general → r ∉ [rax; rcx; r11] → c_reg c' r = c_reg c r).
Proof.
  intros Hr Hok p c'. destruct (syscall_entry star lstar c proc top Hr Hok) as (Hsp & Hdi & Hm & Henv). set (c1 := exec_list syscall_before _) in *.
  destruct Hr as [[Hg Hk] _ (Hbp & Hbt & Hd)]. destruct Hok as [Hc _]. set (m1 := store64 (proc + 8) (c_reg c rsp) (c_mem c)) in *.
  set (m0 := pushed (syscall_words c) top m1) in *. set (m := store64 (p - 8) ret m0). exists m.
  assert (block_ok p SYSCALL_FRAME ∧ block_ok (p - 8) 8) as [Hp Hp8] by (unfold p, block_ok, SYSCALL_FRAME in *; lia).
  assert (∀ (k : nat) w, syscall_words c !! k = Some w → load64 m (top - 8 * (Z.of_nat k + 1)) = u64 w) as Hword.
  { intros k w Hkw. pose proof (lookup_lt_Some _ _ _ Hkw) as Hlt. change (List.length (syscall_words c)) with 20%nat in Hlt.
    rewrite <- (load64_pushed (syscall_words c) top m1 k w); [|rewrite syscall_words_size; exact Hp|done].
    apply load64_store64_ne; clear -Hlt Hbt; try unfold p in *; unfold block_ok, blocks_disjoint, SYSCALL_FRAME in *; lia. }
  assert (∀ r, r ∈ general → frame_at m p r = syscall_regs c r) as Hframe.
  { intros r Hr. destruct (syscall_word c r Hr) as [Hi Hle]. assert (0 ≤ reg_index r) by (by destruct r).
    unfold frame_at. replace (p + 8 * reg_index r) with (top - 8 * (Z.of_nat (Z.to_nat (19 - reg_index r)) + 1)) by (unfold p, SYSCALL_FRAME; lia).
    rewrite (Hword _ _ Hi). apply u64_small. unfold syscall_regs, set_reg. repeat case_decide; apply Hc. }
  assert (load64 m (proc + 8) = c_reg c rsp) as Husp.
  { rewrite <- (u64_small (c_reg c rsp)) by apply Hc. rewrite <- (load64_store64_eq (c_mem c) (proc + 8)) by (clear -Hbp; unfold block_ok in *; lia). fold m1.
    apply load_le_ext. intros x Hx. unfold m. etrans; [apply (load8_store_le_ne 8); [exact Hp8|..]|apply load8_pushed; [rewrite syscall_words_size; exact Hp|..]].
    all: rewrite ?syscall_words_size; clear -Hx Hbp Hbt Hd; try unfold p in *; unfold block_ok, blocks_disjoint, in_block, SYSCALL_FRAME in *; lia. }
  split; [exact Hframe|]. split; [|split].
  - assert (∀ (k : nat) r w, syscall_words c !! k = Some w → 0 ≤ w < 0x10000000000000000 → reg_index r = 19 - Z.of_nat k → frame_at m p r = w) as Hat.
    { intros k r w Hkw Hw Hi. unfold frame_at. rewrite Hi. rewrite <- (u64_small w) by done. rewrite <- (Hword k w Hkw). f_equal. unfold p, SYSCALL_FRAME. lia. }
    clearbody m. clear Hframe Husp Hword. split; [|split; [|split; [|split]]].
    + apply (Hat 4%nat); [reflexivity|apply Hc|reflexivity].
    + apply (Hat 3%nat); [reflexivity|lia|reflexivity].
    + apply (Hat 2%nat); [reflexivity|apply Hc|reflexivity].
    + apply (Hat 1%nat); [reflexivity|apply Hc|reflexivity].
    + apply (Hat 0%nat); [reflexivity|lia|reflexivity].
  - intros x Hx Hno Hno8. unfold m, m0, m1. rewrite (load8_store_le_ne 8), load8_pushed, (load8_store_le_ne 8); [done|..].
    all: rewrite ?syscall_words_size; clear -Hx Hno Hno8 Hbp Hbt; try unfold p in *; unfold block_ok, in_block, SYSCALL_FRAME in *; lia.
  - intros m' v Hf. destruct (call_spec f ret scratch c1 m' v) as (Hax & Hkeep & Hcm & Hce); [rewrite Hsp; exact Hp8|by rewrite Hsp, Hm, Hdi|].
    assert (c_reg (call f ret scratch c1) rsp = p) as Hcp by (rewrite Hkeep; [exact Hsp|decided]). rewrite Henv in Hce.
    destruct (syscall_exit star (call f ret scratch c1) proc p) as [Hleft He']; [by rewrite Hce|by rewrite Hce|exact Hcp|exact Hp|].
    rewrite Hax, Hcm in Hleft. split; [by rewrite <- Hce|]. split; [exact Hleft|]. intros Hsame Hus.
    assert (∀ r, r ∈ general → r ≠ rax → c_reg c' r = syscall_regs c r) as Hback by (intros r Hr Hne; etrans; [exact (sl_general _ _ _ _ _ _ Hleft r Hr Hne)|by rewrite Hsame, Hframe]).
    split; [|split].
    + etrans; [exact (sl_next _ _ _ _ _ _ Hleft)|]. rewrite Hsame, Hframe by decided. reflexivity.
    + etrans; [exact (sl_stack _ _ _ _ _ _ Hleft)|]. by rewrite Hus, Husp.
    + intros r Hr Hno. rewrite !elem_of_cons, elem_of_nil in Hno. rewrite Hback by tauto. unfold syscall_regs, set_reg. by rewrite !decide_False by tauto.
Qed.

(** ** The reload functions *)

Definition flush_segments : list instr := [MovAX 0x10; MovSeg ds; MovSeg es; MovSeg fs; MovSeg gs; MovSS; MovAX 0x28; Ret].
Lemma low16 a v : 0 ≤ v < 0x10000 → u16 (Z.lor (Z.shiftl (Z.shiftr a 16) 16) v) = v.
Proof.
  intros Hv. unfold u16. change 0x10000 with (2 ^ 16). rewrite <- Z.land_ones by lia. rewrite Z.land_lor_distr_l, !Z.land_ones by lia.
  rewrite Z.shiftl_mul_pow2, Z.mod_mul by lia. rewrite Z.lor_0_l. by apply Z.mod_small.
Qed.
Lemma flush_segments_spec d : let c' := exec_list flush_segments d in
  (∀ r, r ∈ general → r ≠ rax → c_reg c' r = c_reg d r) ∧
  c_reg c' rsp = u64 (c_reg d rsp + 8) ∧ c_reg c' rip = load64 (c_mem d) (c_reg d rsp) ∧ c_reg c' rflags = c_reg d rflags ∧
  c_reg c' cs = c_reg d cs ∧ c_reg c' ss = 0x10 ∧ (∀ s, selectors (c_env c') s = 0x10) ∧ e_gdtr (c_env c') = e_gdtr (c_env d).
Proof.
  assert (∀ r, c_reg (exec_list flush_segments d) r = match r with
    | rax => Z.lor (Z.shiftl (Z.shiftr (Z.lor (Z.shiftl (Z.shiftr (c_reg d rax) 16) 16) 0x10) 16) 16) 0x28
    | ss => u16 (Z.lor (Z.shiftl (Z.shiftr (c_reg d rax) 16) 16) 0x10)
    | rip => load64 (c_mem d) (c_reg d rsp) | rsp => u64 (c_reg d rsp + 8) | r => c_reg d r end) as Hr by (by intros []).
  intros c'. split; [|split; [|split; [|split; [|split; [|split; [|split]]]]]]; try exact (Hr _).
  - intros r Hg Hax. unfold c'. rewrite Hr. destruct (general_ne r Hg) as (N1 & N2 & N3 & N4 & N5 & _). clear -Hax N1 N2 N3 N4 N5. by destruct r.
  - unfold c'. rewrite Hr. apply low16. lia.
  - intros s. assert (selectors (c_env c') s = u16 (Z.lor (Z.shiftl (Z.shiftr (c_reg d rax) 16) 16) 0x10)) as -> by (by destruct s). apply low16. lia.
  - done.
Qed.
(** Up to the label the function only changes the code and the stack segment. *)
Lemma flush_frame trampoline c : block_ok (c_reg c rsp - 48) 56 → cpu_ok c →
  ∃ d, exec_list [Lgdt; Push rbp; Mov rbp rsp; PushI 0x10; Push rbp; Pushf; PushI 0x8; PushI trampoline; Iretq; Pop rbp] c = d ∧
    (∀ r, c_reg d r = if decide (r = rip) then u64 trampoline else if decide (r = cs) then 0x8 else if decide (r = ss) then 0x10 else c_reg c r) ∧
    load64 (c_mem d) (c_reg c rsp) = load64 (c_mem c) (c_reg c rsp) ∧ e_gdtr (c_env d) = c_reg c rdi.
Proof.
  intros Hb [Hc _]. eexists. split; [reflexivity|]. set (s := c_reg c rsp) in *.
  set (c1 := exec Lgdt c). set (c2 := exec (Mov rbp rsp) (pushv (c_reg c rbp) c1)). set (five := [0x10; s - 8; c_reg c rflags; 0x8; trampoline]).
  unfold block_ok in Hb. assert (u64 (s - 8) = s - 8) as Hu by (apply u64_small; lia).
  assert (c_reg c2 rsp = s - 8 ∧ c_reg c2 rbp = s - 8) as [H2 H2b] by (rewrite <- Hu; split; reflexivity).
  assert (exec_list [PushI 0x10; Push rbp; Pushf; PushI 0x8; PushI trampoline] c2 = pushvs five c2) as Hfive by (unfold five; rewrite <- H2b; reflexivity).
  set (m := pushed five (s - 8) (c_mem c2)).
  set (d := mk_cpu (set_reg rsp (s - 48) (c_reg c2)) m (c_env c2)).
  assert (pushvs five c2 ≡ d) as Hd.
  { rewrite pushvs_spec by (rewrite H2; change (words five) with 40; unfold block_ok; lia). rewrite H2. change (words five) with 40.
    replace (s - 8 - 40) with (s - 48) by lia. reflexivity. }
  assert (exec_list [Lgdt; Push rbp; Mov rbp rsp; PushI 0x10; Push rbp; Pushf; PushI 0x8; PushI trampoline; Iretq; Pop rbp] c ≡ exec (Pop rbp) (exec Iretq d)) as Hall.
  { change [Lgdt; Push rbp; Mov rbp rsp; PushI 0x10; Push rbp; Pushf; PushI 0x8; PushI trampoline; Iretq; Pop rbp] with
      ([Lgdt; Push rbp; Mov rbp rsp] ++ [PushI 0x10; Push rbp; Pushf; PushI 0x8; PushI trampoline] ++ [Iretq; Pop rbp]).
    rewrite !exec_list_app. change (exec_list [Lgdt; Push rbp; Mov rbp rsp] c) with c2. rewrite Hfive, Hd. reflexivity. }
  assert (block_ok (s - 8 - words five) (words five)) as Hbf by (change (words five) with 40; unfold block_ok; lia).
  assert (∀ (k : nat) w a, five !! k = Some w → a = s - 8 - 8 * (Z.of_nat k + 1) → load64 m a = u64 w) as Hword by (intros k w a Hk ->; by apply load64_pushed).
  assert (∀ a, s - 8 ≤ a → a + 8 ≤ s + 8 → load64 m a = load64 (c_mem c2) a) as Hout.
  { intros a Ha Ha'. apply load_le_ext. intros x Hx. apply load8_pushed; [exact Hbf|..]; change (words five) with 40; unfold in_block in *; lia. }
  assert (c_mem c2 = store64 (s - 8) (c_reg c rbp) (c_mem c)) as Hm2 by (rewrite <- Hu; reflexivity).
  assert (load64 m (s - 8) = c_reg c rbp) as Hbp.
  { rewrite Hout, Hm2, load64_store64_eq by (unfold block_ok; lia). by apply u64_small. }
  assert (load64 m s = load64 (c_mem c) s) as Hs by (rewrite Hout, Hm2 by lia; apply load64_store64_ne; unfold block_ok, blocks_disjoint; lia).
  destruct Hall as (Hreg & Hmem & Henv). rewrite Hmem, Henv. split; [|split; [exact Hs|reflexivity]].
  assert (∀ r, r ∉ [rsp; rbp] → c_reg d r = c_reg c r) as Hdr.
  { intros r Hr. rewrite !elem_of_cons, elem_of_nil in Hr. cbn [c_reg d c2 c1 exec put put_mem put_env pushv]. unfold set_reg. by rewrite !decide_False by tauto. }
  intros r. rewrite Hreg. clear Hreg Hmem Henv. 
  assert (c_reg (exec Iretq d) rsp = s - 8) as Hsp.
  { rewrite iretq_reg. change (c_mem d) with m. change (c_reg d rsp) with (s - 48). rewrite (Hword 1%nat (s - 8)); [exact Hu|reflexivity|clear; lia]. }
  change (c_reg (exec (Pop rbp) (exec Iretq d)) r) with (set_reg rbp (load64 m (c_reg (exec Iretq d) rsp)) (set_reg rsp (u64 (c_reg (exec Iretq d) rsp + 8)) (c_reg (exec Iretq d))) r).
  rewrite Hsp, Hbp. unfold set_reg. case_decide; [by subst|]. case_decide; [subst r; replace (s - 8 + 8) with s by (clear; lia); rewrite u64_small by (clear -Hb; lia); reflexivity|].
  rewrite iretq_reg. change (c_mem d) with m. change (c_reg d rsp) with (s - 48).
  destruct r; try match goal with Hno : ?x ≠ ?x |- _ => by destruct Hno end; try (refine (Hdr _ _); decided).
  - rewrite (Hword 4%nat trampoline); [reflexivity|reflexivity|clear; lia].
  - rewrite (Hword 3%nat 0x8); [reflexivity|reflexivity|clear; lia].
  - rewrite (Hword 2%nat (c_reg c rflags)); [exact (u64_small _ (Hc rflags))|reflexivity|clear; lia].
  - rewrite (Hword 0%nat 0x10); [reflexivity|reflexivity|clear; lia].
Qed.

(** [gdt_flush] returns to its caller with every register but the low half of eax as
    it was, in the kernel's code segment, with the kernel's data segment in all the
    others. *)
Theorem gdt_flush_returns trampoline c :
  block_ok (c_reg c rsp - 48) 56 → cpu_ok c →
  let c' := exec_list (gdt_flush trampoline) c in
  (∀ r, r ∈ general → r ≠ rax → c_reg c' r = c_reg c r) ∧
  c_reg c' rsp = u64 (c_reg c rsp + 8) ∧ c_reg c' rip = load64 (c_mem c) (c_reg c rsp) ∧ c_reg c' rflags = c_reg c rflags ∧
  c_reg c' cs = 0x8 ∧ c_reg c' ss = 0x10 ∧ (∀ s, selectors (c_env c') s = 0x10) ∧ e_gdtr (c_env c') = c_reg c rdi.
Proof.
  intros Hb Hc. destruct (flush_frame trampoline c Hb Hc) as (d & Hd & Hreg & Hm & He). intros c'.
  assert (c' = exec_list flush_segments d) as Hc' by (unfold c'; rewrite <- Hd; reflexivity).
  destruct (flush_segments_spec d) as (Hr & Hsp & Hip & Hfl & Hcs & Hss & Hsel & Hg). rewrite <- Hc' in *. clear Hc'. clearbody c'.
  assert (c_reg d rsp = c_reg c rsp) as Hs by (by rewrite Hreg).
  split; [|split; [|split; [|split; [|split; [|split; [|split]]]]]]; [|congruence|by rewrite Hip, Hs, Hm|by rewrite Hfl, Hreg|by rewrite Hcs, Hreg|done|done|by rewrite Hg, He].
  intros r Hg' Hax. rewrite Hr, Hreg by done. destruct (general_ne r Hg') as (? & ? & ? & ? & ? & _). by rewrite !decide_False.
Qed.

(** ** Examples *)

(** A page fault whose handler does nothing. *)
Definition sample_cpu : cpu :=
  mk_cpu (λ r, 0x1000 + reg_index r) (store64 0x5000 0x9000 (λ _, 0)) (mk_env 0x5000 0x5000 (λ _, 0x10) 0 0 0x28).
Lemma sample_cpu_ok : cpu_ok sample_cpu.
Proof. split; [|done]. intros r. change (0 ≤ 0x1000 + reg_index r < 0x10000000000000000). assert (0 ≤ reg_index r ≤ 21) by (by destruct r). lia. Qed.
Lemma interrupt_stub_resumes_witness :
  interrupt_stubs !! 14%nat = Some [PushI 14] ∧
  ∀ r, r ∉ [intno; err] → c_reg (interrupted [PushI 14] 0x4000 0x9000 14 2 (λ m p, (m, p)) 0x4100 zero_regs sample_cpu) r = c_reg sample_cpu r.
Proof.
  split; [reflexivity|].
  destruct (interrupt_stub_resumes 14 [PushI 14] 0x4000 0x9000 2 (λ m p, (m, p)) 0x4100 zero_regs sample_cpu) as (m & _ & _ & Hret);
    [reflexivity|lia|unfold block_ok; lia|exact sample_cpu_ok|lia|].
  destruct (Hret m (0x9000 - SIZEOF_FRAME) eq_refl) as (_ & _ & _ & Hsame); [unfold block_ok, SIZEOF_FRAME; lia|].
  apply Hsame. intros r. reflexivity.
Defined.
(** A system call that answers 7. *)
Lemma syscall_stub_returns_witness :
  syscall_ready sample_cpu 0x5000 0x9000 ∧
  let c' := syscall_handle 0 (λ m p, (m, 7)) 0x4100 zero_regs (cpu_syscall 0 0x4000 sample_cpu) in
  c_reg c' rax = 7 ∧ c_reg c' rip = c_reg sample_cpu rip ∧ c_reg c' rsp = c_reg sample_cpu rsp ∧
  ∀ r, r ∈ general → r ∉ [rax; rcx; r11] → c_reg c' r = c_reg sample_cpu r.
Proof.
  assert (syscall_ready sample_cpu 0x5000 0x9000) as Hr.
  { split; [by split|vm_compute; reflexivity|unfold block_ok, blocks_disjoint; lia]. }
  split; [exact Hr|].
  destruct (syscall_stub_returns 0 0x4000 (λ m p, (m, 7)) 0x4100 zero_regs 0x5000 0x9000 sample_cpu Hr sample_cpu_ok) as (m & _ & _ & _ & Hret).
  destruct (Hret m 7 eq_refl) as (_ & Hleft & Hsame). split; [exact (sl_result _ _ _ _ _ _ Hleft)|]. apply Hsame; [intros r _; reflexivity|reflexivity].
Defined.
