(* ===== verification/Map.v ===== *)
(** libs/navy/map.c and map.h: the hash map from C strings to values of a fixed
    size.

    The nodes chained from a bucket are the list of that bucket; a pointer to a
    node's link ([map_getref]) is the bucket and the position in its chain.
    Memory comes from [KernelServices]. *)
From S2P Require Import Prelude Machine CString Services.

(** [struct map_node_t] with the key and the value stored behind it. *)
Record map_node_t : Type := mk_node { n_addr : Z; n_hash : Z; n_key : list Z; n_value : list Z }.
Record map_base_t : Type := mk_map { buckets : Z; chains : list (list map_node_t); nbuckets : Z; nnodes : Z }.
(** [node] is the position in the chain of the bucket, [None] for NULL. *)
Record map_iter_t : Type := mk_iter { bucketidx : Z; it_node : option nat }.

Definition map_init : map_base_t := mk_map 0 [] 0 0.
Definition SIZEOF_NODE : Z := 24.
Definition SIZEOF_PTR : Z := 8.

(** [hash = ((hash << 5) + hash) ^ *str++] in [unsigned]; [char] is signed. *)
Definition hash_step (hash c : Z) : Z := Z.lxor (u32 (u32 (Z.shiftl hash 5) + hash)) (u32 (s8 c)).
Fixpoint map_hash_loop (str : list Z) (hash : Z) : res Z :=
  match str with
  | [] => Err BadAccess
  | c :: str => if c =? 0 then Ok hash else map_hash_loop str (hash_step hash c)
  end.
Definition map_hash (str : charp) : res Z :=
  match str with None => Err BadAccess | Some s => map_hash_loop s 5381 end.

Definition map_bucketidx (m : map_base_t) (hash : Z) : Z := s32 (Z.land hash (u32 (nbuckets m - 1))).

Definition map_addnode (m : map_base_t) (node : map_node_t) : res map_base_t :=
  let n := map_bucketidx m (n_hash node) in
  if n <? 0 then Err BadAccess
  else match chains m !! Z.to_nat n with
       | Some chain => Ok (mk_map (buckets m) (<[Z.to_nat n := node :: chain]> (chains m)) (nbuckets m) (nnodes m))
       | None => Err BadAccess
       end.
(** [while (node)]: every node of the list, in order. *)
Fixpoint readd (m : map_base_t) (nodes : list map_node_t) : res map_base_t :=
  match nodes with [] => Ok m | node :: nodes => m ← map_addnode m node; readd m nodes end.

(** Each node is moved to the front of [nodes], the last bucket first. *)
Definition chain_all (chains : list (list map_node_t)) : list map_node_t :=
  foldl (λ nodes chain, rev_append chain nodes) [] (reverse chains).

Fixpoint find_node (chain : list map_node_t) (hash : Z) (key : charp) (i : nat) : res (option nat) :=
  match chain with
  | [] => Ok None
  | node :: chain =>
      if n_hash node =? hash then
        c ← strcmp (Some (n_key node)) key;
        if c =? 0 then Ok (Some i) else find_node chain hash key (S i)
      else find_node chain hash key (S i)
  end.
Definition map_getref (m : map_base_t) (key : charp) : res (option (nat * nat)) :=
  hash ← map_hash key;
  if 0 <? nbuckets m then
    let n := map_bucketidx m hash in
    if n <? 0 then Err BadAccess
    else match chains m !! Z.to_nat n with
         | Some chain => i ← find_node chain hash key 0; Ok (pair (Z.to_nat n) <$> i)
         | None => Err BadAccess
         end
  else Ok None.

Definition node_at (m : map_base_t) (r : nat * nat) : option map_node_t := chains m !! r.1 ≫= λ chain, chain !! r.2.
Definition set_chain (n : nat) (chain : list map_node_t) (m : map_base_t) : map_base_t :=
  mk_map (buckets m) (<[n := chain]> (chains m)) (nbuckets m) (nnodes m).
(** [memcpy(value, new, vsize)] into a value of the size it was created with. *)
Definition write_value (old new : list Z) : res (list Z) :=
  if Nat.leb (length new) (length old) then Ok (new ++ drop (length new) old) else Err BadAccess.

(** [map_get_]: the value, NULL for a key that is absent. *)
Definition map_get_ (m : map_base_t) (key : charp) : res (option (list Z)) :=
  r ← map_getref m key;
  Ok (n_value <$> (r ≫= node_at m)).

Section map.
Context {K : Type} `{KernelServices K}.

Definition map_newnode (key : charp) (value : list Z) : M K (option map_node_t) :=
  lift (strlen key) ≫= λ n,
  let ksize := s32 (n + 1) in
  let voffset := s32 (ksize + u64 (SIZEOF_PTR - ksize) mod SIZEOF_PTR) in
  ks_malloc (u64 (SIZEOF_NODE + voffset + Z.of_nat (length value))) ≫= λ node,
  if node =? 0 then mret None
  else lift (map_hash key) ≫= λ hash,
       mret (Some (mk_node node hash (take (Z.to_nat ksize) (default [] key)) value)).

Definition map_resize (m : map_base_t) (n : Z) : M K (map_base_t * Z) :=
  let nodes := chain_all (chains m) in
  ks_realloc (buckets m) (u64 (SIZEOF_PTR * n)) ≫= λ b,
  let m' := if b =? 0 then m else mk_map b (chains m) (u32 n) (nnodes m) in
  (if buckets m' =? 0 then mret m'
   else lift (readd (mk_map (buckets m') (replicate (Z.to_nat (nbuckets m')) []) (nbuckets m') (nnodes m')) nodes)) ≫= λ m',
  mret (m', if b =? 0 then -1 else 0).

Definition fail_set (m : map_base_t) (node : option map_node_t) : M K (map_base_t * Z) :=
  match node with Some n => ks_free (n_addr n) | None => mret tt end ≫= λ _, mret (m, -1).

Definition map_set_ (m : map_base_t) (key : charp) (value : list Z) : M K (map_base_t * Z) :=
  lift (map_getref m key) ≫= λ next,
  match next with
  | Some r =>
      match chains m !! r.1, node_at m r with
      | Some chain, Some node =>
          lift (write_value (n_value node) value) ≫= λ v,
          mret (set_chain r.1 (<[r.2 := mk_node (n_addr node) (n_hash node) (n_key node) v]> chain) m, 0)
      | _, _ => fail BadAccess
      end
  | None =>
      map_newnode key value ≫= λ node,
      match node with
      | None => fail_set m None
      | Some nd =>
          (if nbuckets m <=? nnodes m then
             let n := if 0 <? nbuckets m then s32 (u32 (Z.shiftl (nbuckets m) 1)) else 1 in
             map_resize m n
           else mret (m, 0)) ≫= λ '(m, err),
          if truth err then fail_set m node
          else
            lift (map_addnode m nd) ≫= λ m,
            mret (mk_map (buckets m) (chains m) (nbuckets m) (u32 (nnodes m + 1)), 0)
      end
  end.

Definition map_remove_ (m : map_base_t) (key : charp) : M K map_base_t :=
  lift (map_getref m key) ≫= λ next,
  match next with
  | Some r =>
      match chains m !! r.1, node_at m r with
      | Some chain, Some node =>
          ks_free (n_addr node) ≫= λ _,
          let m := set_chain r.1 (delete r.2 chain) m in
          mret (mk_map (buckets m) (chains m) (nbuckets m) (u32 (nnodes m - 1)))
      | _, _ => fail BadAccess
      end
  | None => mret m
  end.

(** The frees of [map_deinit_]: the nodes, the last bucket first, then the array. *)
Fixpoint free_nodes (nodes : list map_node_t) : M K unit :=
  match nodes with [] => mret tt | node :: nodes => ks_free (n_addr node) ≫= λ _, free_nodes nodes end.
Definition map_deinit_ (m : map_base_t) : M K unit :=
  free_nodes (concat (reverse (chains m))) ≫= λ _, ks_free (buckets m).
End map.

Definition map_iter_ : map_iter_t := mk_iter 0xffffffff None.

(** The [do ... while] of [map_next_]. *)
Fixpoint next_bucket (fuel : nat) (m : map_base_t) (b : Z) : res (map_iter_t * option (list Z)) :=
  match fuel with
  | O => Err OutOfFuel
  | S fuel =>
      let b := u32 (b + 1) in
      if nbuckets m <=? b then Ok (mk_iter b None, None)
      else match chains m !! Z.to_nat b with
           | None => Err BadAccess
           | Some [] => next_bucket fuel m b
           | Some (node :: _) => Ok (mk_iter b (Some 0%nat), Some (n_key node))
           end
  end.
(** Each turn passes a bucket, so their number is enough. *)
Definition map_next_ (m : map_base_t) (iter : map_iter_t) : res (map_iter_t * option (list Z)) :=
  let fuel := S (Z.to_nat (nbuckets m)) in
  match it_node iter with
  | Some i =>
      match chains m !! Z.to_nat (bucketidx iter) with
      | None => Err BadAccess
      | Some chain =>
          match chain !! S i with
          | Some node => Ok (mk_iter (bucketidx iter) (Some (S i)), Some (n_key node))
          | None => next_bucket fuel m (bucketidx iter)
          end
      end
  | None => next_bucket fuel m (bucketidx iter)
  end.

(** ** A map as a finite map *)

(** Keys are compared as strings: the characters and their NUL. *)
Definition key_of (t : list Z) : list Z := t ++ [0].
Definition nodes (m : map_base_t) : list map_node_t := concat (chains m).
Definition pair_of (nd : map_node_t) : list Z * list Z := (n_key nd, n_value nd).
Definition to_map (m : map_base_t) : gmap (list Z) (list Z) := list_to_map (map pair_of (nodes m)).

Definition key_ok (t : list Z) : Prop := Forall is_char t ∧ Z.of_nat (length t) < 0x7fffffff.
Definition node_ok (nd : map_node_t) : Prop :=
  ∃ t, key_ok t ∧ n_key nd = key_of t ∧ map_hash (Some (n_key nd)) = Ok (n_hash nd).
(** The bucket of a hash among [n]. *)
Definition slot (n hash : Z) : Z := Z.land hash (n - 1).
Definition in_place (n : Z) (cs : list (list map_node_t)) : Prop :=
  ∀ (b : nat) chain, cs !! b = Some chain → Forall (λ nd, slot n (n_hash nd) = Z.of_nat b) chain.
Definition size_ok (n : Z) (cs : list (list map_node_t)) : Prop :=
  n = Z.of_nat (length cs) ∧ (n = 0 ∨ ∃ k, 0 ≤ k < 30 ∧ n = 2 ^ k).

Record map_ok (m : map_base_t) : Prop := {
  mk_size : size_ok (nbuckets m) (chains m);
  mk_ptr : 0 < nbuckets m → buckets m ≠ 0;
  mk_place : in_place (nbuckets m) (chains m);
  mk_nodes : Forall node_ok (nodes m);
  mk_unique : NoDup (map n_key (nodes m));
  mk_count : nnodes m = Z.of_nat (length (nodes m)) ∧ nnodes m ≤ nbuckets m
}.

Lemma map_init_ok : map_ok map_init.
Proof. split; cbn; try done; try lia; [split; [done|by left]|constructor]. Qed.

(** *** Hashes and buckets *)

Lemma hash_loop_cstr t rest h : Forall is_char t → map_hash_loop (t ++ 0 :: rest) h = Ok (foldl hash_step h t).
Proof.
  intros Ht. revert h. induction Ht as [|c t Hc Ht IH]; intros h; [done|]. cbn [app map_hash_loop].
  rewrite (proj2 (Z.eqb_neq c 0)) by (unfold is_char in Hc; lia). apply IH.
Qed.
Lemma map_hash_cstr t s : cstr t s → map_hash (Some s) = Ok (foldl hash_step 5381 t).
Proof. intros [Ht [rest ->]]. by apply hash_loop_cstr. Qed.
Lemma key_cstr t : key_ok t → cstr t (key_of t).
Proof. intros [Ht _]. by apply cstr_app. Qed.
Lemma key_of_inj t1 t2 : key_of t1 = key_of t2 → t1 = t2.
Proof. apply app_inj_tail. Qed.

Lemma hash_step_range h c : 0 ≤ hash_step h c < 0x100000000.
Proof.
  unfold hash_step. set (a := u32 _). set (b := u32 (s8 c)).
  pose proof (u32_range (u32 (Z.shiftl h 5) + h)). pose proof (u32_range (s8 c)). fold a in H. fold b in H0.
  split; [apply Z.lxor_nonneg; lia|]. change 0x100000000 with (2 ^ 32).
  destruct (decide (Z.lxor a b = 0)) as [->|Hne]; [done|].
  assert (0 ≤ Z.lxor a b) by (apply Z.lxor_nonneg; lia).
  apply Z.log2_lt_pow2; [lia|]. pose proof (Z.log2_lxor a b ltac:(lia) ltac:(lia)).
  assert (∀ x, 0 ≤ x < 0x100000000 → Z.log2 x < 32) as Hlog.
  { intros x Hx. destruct (decide (x = 0)) as [->|]; [done|]. apply Z.log2_lt_pow2; [lia|]. change (2 ^ 32) with 0x100000000. lia. }
  pose proof (Hlog a ltac:(lia)). pose proof (Hlog b ltac:(lia)). lia.
Qed.
Lemma hash_range t h : 0 ≤ h < 0x100000000 → 0 ≤ foldl hash_step h t < 0x100000000.
Proof. revert h. induction t as [|c t IH]; intros h Hh; [done|]. cbn. apply IH, hash_step_range. Qed.

Lemma slot_range n h : (∃ k, 0 ≤ k < 30 ∧ n = 2 ^ k) → 0 ≤ h → 0 ≤ slot n h < n ∧ slot n h = h mod n.
Proof.
  intros (k & Hk & ->) Hh. assert (slot (2 ^ k) h = h mod 2 ^ k) as Hs.
  { unfold slot. rewrite <- Z.land_ones by lia. f_equal. rewrite Z.ones_equiv. lia. }
  split; [|done]. rewrite Hs. apply Z.mod_pos_bound. apply Z.pow_pos_nonneg; lia.
Qed.
Lemma size_bound n cs : size_ok n cs → 0 ≤ n ≤ 0x20000000.
Proof.
  intros [_ [->|(k & Hk & ->)]]; [lia|]. split; [apply Z.pow_nonneg; lia|].
  change 0x20000000 with (2 ^ 29). apply Z.pow_le_mono_r; lia.
Qed.
Lemma bucketidx_slot m h : size_ok (nbuckets m) (chains m) → 0 < nbuckets m → 0 ≤ h →
  map_bucketidx m h = slot (nbuckets m) h ∧ 0 ≤ slot (nbuckets m) h < nbuckets m.
Proof.
  intros Hs Hn Hh. pose proof (size_bound _ _ Hs). destruct Hs as [_ [?|Hp]]; [lia|].
  destruct (slot_range _ h Hp Hh) as [Hr _]. unfold map_bucketidx. rewrite u32_small by lia. fold (slot (nbuckets m) h).
  rewrite s32_small by lia. done.
Qed.

(** *** Chains *)

Lemma concat_insert (cs : list (list map_node_t)) b chain chain' :
  cs !! b = Some chain → ∃ A B, concat cs = A ++ chain ++ B ∧ concat (<[b := chain']> cs) = A ++ chain' ++ B.
Proof.
  intros Hb. exists (concat (take b cs)), (concat (drop (S b) cs)). split.
  - rewrite <- (take_drop_middle cs b chain Hb) at 1. by rewrite concat_app.
  - rewrite insert_take_drop by (by eapply lookup_lt_Some). by rewrite concat_app.
Qed.
Lemma in_place_insert n cs b chain :
  in_place n cs → Forall (λ nd, slot n (n_hash nd) = Z.of_nat b) chain → in_place n (<[b := chain]> cs).
Proof.
  intros Hp Hc j c Hj. apply list_lookup_insert_Some in Hj as [(<- & <- & _)|[_ Hj]]; [done|]. by apply Hp.
Qed.

Lemma node_hash_nonneg nd : node_ok nd → 0 ≤ n_hash nd.
Proof.
  intros (t & Ht & Hk & Hh). rewrite Hk, (map_hash_cstr t) in Hh by by apply key_cstr.
  injection Hh as <-. apply hash_range. lia.
Qed.

(** A node goes to its bucket. *)
Lemma addnode_spec m nd :
  size_ok (nbuckets m) (chains m) → 0 < nbuckets m → in_place (nbuckets m) (chains m) → node_ok nd →
  ∃ m', map_addnode m nd = Ok m' ∧ buckets m' = buckets m ∧ nbuckets m' = nbuckets m ∧ nnodes m' = nnodes m ∧
    size_ok (nbuckets m') (chains m') ∧ in_place (nbuckets m') (chains m') ∧ nodes m' ≡ₚ nd :: nodes m.
Proof.
  intros Hs Hn Hp Hnd. pose proof (node_hash_nonneg nd Hnd) as Hh. unfold map_addnode.
  destruct (bucketidx_slot m (n_hash nd) Hs Hn Hh) as [-> Hr]. set (b := slot _ _) in *.
  rewrite (proj2 (Z.ltb_ge _ _)) by lia.
  destruct (lookup_lt_is_Some_2 (chains m) (Z.to_nat b)) as [chain Hc]; [destruct Hs; lia|]. rewrite Hc.
  eexists. split; [done|]. cbn [buckets nbuckets nnodes chains]. split_and!; try done.
  - unfold size_ok. rewrite length_insert. apply Hs.
  - apply in_place_insert; [done|]. constructor; [unfold b; lia|]. by apply Hp.
  - unfold nodes. cbn [chains]. destruct (concat_insert _ _ _ (nd :: chain) Hc) as (A & B & -> & ->). solve_Permutation.
Qed.

Lemma readd_spec l m :
  size_ok (nbuckets m) (chains m) → 0 < nbuckets m → in_place (nbuckets m) (chains m) → Forall node_ok l →
  ∃ m', readd m l = Ok m' ∧ buckets m' = buckets m ∧ nbuckets m' = nbuckets m ∧ nnodes m' = nnodes m ∧
    size_ok (nbuckets m') (chains m') ∧ in_place (nbuckets m') (chains m') ∧ nodes m' ≡ₚ l ++ nodes m.
Proof.
  intros Hs Hn Hp Hl. revert m Hs Hn Hp. induction Hl as [|nd l Hnd Hl IH]; intros m Hs Hn Hp; [by exists m|].
  destruct (addnode_spec m nd Hs Hn Hp Hnd) as (m1 & Hrun & Hb1 & Hn1 & Hc1 & Hs1 & Hp1 & Hnodes1).
  cbn [readd]. rewrite Hrun. cbn [mbind res_bind].
  destruct (IH m1) as (m2 & Hrun2 & Hb2 & Hn2 & Hc2 & Hs2 & Hp2 & Hnodes2); [done|lia|done|].
  exists m2. split_and!; try done; try congruence. rewrite Hnodes2, Hnodes1. solve_Permutation.
Qed.

Lemma chain_all_nodes cs : chain_all cs ≡ₚ concat cs.
Proof.
  unfold chain_all. assert (∀ l (acc : list map_node_t), foldl (λ nodes chain, rev_append chain nodes) acc l ≡ₚ concat l ++ acc) as Hgen.
  { induction l as [|c l IH]; intros acc; [done|]. cbn [foldl concat]. rewrite IH, rev_append_rev.
    rewrite <- (Permutation_rev c). solve_Permutation. }
  rewrite Hgen, app_nil_r. induction cs as [|c cs IH]; [done|].
  rewrite reverse_cons, concat_app. cbn [concat]. rewrite app_nil_r, IH. solve_Permutation.
Qed.

Lemma replicate_nil_ok n k : 0 ≤ k < 30 → n = 2 ^ k →
  size_ok n (replicate (Z.to_nat n) []) ∧ in_place n (replicate (Z.to_nat n) []) ∧ concat (replicate (Z.to_nat n) (@nil map_node_t)) = [].
Proof.
  intros Hk Hn. assert (0 < n) by (rewrite Hn; apply Z.pow_pos_nonneg; lia). split_and!.
  - split; [rewrite length_replicate; lia|]. right. by exists k.
  - intros b c Hb. apply lookup_replicate in Hb as [-> _]. constructor.
  - induction (Z.to_nat n) as [|j IH]; [done|]. exact IH.
Qed.

(** *** The finite map of a list of nodes *)

Definition nodes_map (l : list map_node_t) : gmap (list Z) (list Z) := list_to_map (map pair_of l).
Lemma fst_pairs l : (map pair_of l).*1 = map n_key l.
Proof. induction l as [|nd l IH]; [done|]. cbn. by f_equal. Qed.
Lemma nodes_map_perm l1 l2 : NoDup (map n_key l1) → l1 ≡ₚ l2 → nodes_map l1 = nodes_map l2.
Proof. intros Hnd Hl. apply list_to_map_proper; [by rewrite fst_pairs|]. by apply (Permutation_map pair_of). Qed.
Lemma nodes_map_cons nd l : nodes_map (nd :: l) = <[n_key nd := n_value nd]> (nodes_map l).
Proof. done. Qed.
Lemma nodes_map_fresh l k : k ∉ map n_key l → nodes_map l !! k = None.
Proof. intros Hk. apply not_elem_of_list_to_map_1. by rewrite fst_pairs. Qed.
Lemma nodes_map_in l nd : NoDup (map n_key l) → nd ∈ l → nodes_map l !! n_key nd = Some (n_value nd).
Proof.
  intros Hl Hin. apply elem_of_list_to_map_1; [by rewrite fst_pairs|].
  apply list_elem_of_In. change (n_key nd, n_value nd) with (pair_of nd). apply in_map. by apply list_elem_of_In.
Qed.

(** *** Finding a key *)

Lemma find_node_spec t s chain i :
  key_ok t → cstr t s → Forall node_ok chain →
  find_node chain (foldl hash_step 5381 t) (Some s) i =
    Ok (match list_find (λ nd, n_key nd = key_of t) chain with Some (j, _) => Some (i + j)%nat | None => None end).
Proof.
  intros Ht Hs Hc. revert i. induction Hc as [|nd chain (u & Hu & Hk & Hh) Hc IH]; intros i; [done|].
  cbn [find_node list_find]. pose proof (key_cstr u Hu) as Hus.
  rewrite Hk in Hh. rewrite (map_hash_cstr u _ Hus) in Hh. injection Hh as Hh.
  assert (n_hash nd =? foldl hash_step 5381 t = false → n_key nd ≠ key_of t) as Hne.
  { intros Hf%Z.eqb_neq Heq. apply Hf. rewrite <- Hh. f_equal. apply key_of_inj. congruence. }
  assert (∃ c, strcmp (Some (n_key nd)) (Some s) = Ok c ∧ (c = 0 ↔ n_key nd = key_of t)) as (c & Hcmp & Hc0).
  { rewrite Hk. destruct (strcmp_cstr u t _ _ Hus Hs) as (c & Hcmp & Hc0);
      [destruct Hu; lia|destruct Ht; lia|]. exists c. split; [done|]. rewrite Hc0. split; [by intros ->|apply key_of_inj]. }
  destruct (n_hash nd =? _).
  - rewrite Hcmp. cbn [mbind res_bind]. destruct (Z.eqb_spec c 0) as [->|Hcne].
    + rewrite decide_True by by apply Hc0. by rewrite Nat.add_0_r.
    + rewrite decide_False by (intros Heq; by apply Hcne, Hc0). rewrite IH.
      destruct (list_find _ chain) as [[j ?]|]; cbn; [|done]. by rewrite Nat.add_succ_r.
  - rewrite decide_False by by apply Hne. rewrite IH.
    destruct (list_find _ chain) as [[j ?]|]; cbn; [|done]. by rewrite Nat.add_succ_r.
Qed.

(** Nodes with the key of [t] are in the bucket of its hash. *)
Lemma key_in_slot m t nd :
  map_ok m → key_ok t → nd ∈ nodes m → n_key nd = key_of t →
  ∃ chain, 0 < nbuckets m ∧ chains m !! Z.to_nat (slot (nbuckets m) (foldl hash_step 5381 t)) = Some chain ∧ nd ∈ chain.
Proof.
  intros [Hs _ Hp Hn _ _] Ht Hin Hk.
  apply list_elem_of_In, in_concat in Hin as (chain & Hc & Hin).
  apply list_elem_of_In, list_elem_of_lookup in Hc as [b Hb]. apply list_elem_of_In in Hin.
  pose proof (Hp _ _ Hb) as Hslot. rewrite Forall_forall in Hslot. specialize (Hslot nd Hin).
  rewrite Forall_forall in Hn. assert (nd ∈ nodes m) as Hin'.
  { apply list_elem_of_In, in_concat. exists chain. split; apply list_elem_of_In; [by eapply list_elem_of_lookup_2|done]. }
  destruct (Hn nd Hin') as (u & Hu & Hku & Hh). rewrite Hku, (map_hash_cstr u) in Hh by by apply key_cstr.
  injection Hh as Hh. assert (u = t) as -> by (apply key_of_inj; congruence).
  exists chain. rewrite Hh, Hslot, Nat2Z.id. split_and!; try done.
  apply lookup_lt_Some in Hb. destruct Hs. lia.
Qed.

Lemma getref_spec m t s :
  map_ok m → key_ok t → cstr t s →
  (∃ b i chain nd, map_getref m (Some s) = Ok (Some (b, i)) ∧ chains m !! b = Some chain ∧ chain !! i = Some nd ∧
     n_key nd = key_of t) ∨
  map_getref m (Some s) = Ok None ∧ key_of t ∉ map n_key (nodes m).
Proof.
  intros Hok Ht Hs. unfold map_getref. rewrite (map_hash_cstr t s Hs). cbn [mbind res_bind].
  set (h := foldl hash_step 5381 t) in *. pose proof (hash_range t 5381 ltac:(lia)) as Hh. fold h in Hh.
  assert (∀ P : Prop, (∀ nd, nd ∈ nodes m → n_key nd ≠ key_of t) → key_of t ∉ map n_key (nodes m)) as Hno.
  { intros _ Hall Hin. apply list_elem_of_In, in_map_iff in Hin as (nd & Hk & Hin). apply (Hall nd); [by apply list_elem_of_In|done]. }
  destruct (Z.ltb_spec 0 (nbuckets m)) as [Hn|Hn].
  - destruct (bucketidx_slot m h (mk_size _ Hok) Hn ltac:(lia)) as [-> Hr].
    rewrite (proj2 (Z.ltb_ge _ _)) by lia.
    destruct (lookup_lt_is_Some_2 (chains m) (Z.to_nat (slot (nbuckets m) h))) as [chain Hc];
      [destruct (mk_size _ Hok); lia|]. rewrite Hc.
    assert (Forall node_ok chain) as Hch.
    { rewrite Forall_forall. intros nd Hin. pose proof (mk_nodes _ Hok) as Hall. rewrite Forall_forall in Hall. apply Hall.
      apply list_elem_of_In, in_concat. exists chain. split; apply list_elem_of_In; [by eapply list_elem_of_lookup_2|done]. }
    pose proof (find_node_spec t s chain 0 Ht Hs Hch) as Hfind. fold h in Hfind. rewrite Hfind. cbn [mbind res_bind].
    destruct (list_find (λ nd, n_key nd = key_of t) chain) as [[j nd]|] eqn:Hf; cbn.
    + left. apply list_find_Some in Hf as (Hj & Hk & _). by exists (Z.to_nat (slot (nbuckets m) h)), j, chain, nd.
    + right. split; [done|]. apply (Hno True). intros nd Hin Hk.
      destruct (key_in_slot m t nd Hok Ht Hin Hk) as (chain' & _ & Hc' & Hin'). fold h in Hc'.
      assert (chain' = chain) as -> by congruence. apply list_find_None in Hf. rewrite Forall_forall in Hf. by apply (Hf nd).
  - right. split; [done|]. apply (Hno True). intros nd Hin Hk.
    destruct (key_in_slot m t nd Hok Ht Hin Hk) as (chain & Hpos & _). lia.
Qed.

(** C20. On a well-formed map, [map_get_] is the look-up of the
    finite map: the value stored under the key, NULL exactly when the key is
    absent.  Keys are C strings, whatever follows their NUL. *)
Theorem map_get_refines m t s :
  map_ok m → key_ok t → cstr t s → map_get_ m (Some s) = Ok (to_map m !! key_of t).
Proof.
  intros Hok Ht Hs. unfold map_get_.
  destruct (getref_spec m t s Hok Ht Hs) as [(b & i & chain & nd & -> & Hb & Hi & Hk)|[-> Hno]]; cbn [mbind res_bind].
  - unfold node_at. cbn [mbind option_bind fst snd]. rewrite Hb. cbn. rewrite Hi. cbn. f_equal. symmetry.
    rewrite <- Hk. apply nodes_map_in; [apply Hok|]. apply list_elem_of_In, in_concat. exists chain.
    split; apply list_elem_of_In; by eapply list_elem_of_lookup_2.
  - f_equal. symmetry. by apply nodes_map_fresh.
Qed.

(** *** Changing one node *)

Lemma node_perm m b i chain nd :
  chains m !! b = Some chain → chain !! i = Some nd →
  ∃ rest, nodes m ≡ₚ nd :: rest ∧
    (∀ nd', nodes (set_chain b (<[i := nd']> chain) m) ≡ₚ nd' :: rest) ∧ nodes (set_chain b (delete i chain) m) ≡ₚ rest.
Proof.
  intros Hb Hi. exists (concat (take b (chains m)) ++ delete i chain ++ concat (drop (S b) (chains m))).
  assert (∀ c, concat (<[b := c]> (chains m)) = concat (take b (chains m)) ++ c ++ concat (drop (S b) (chains m))) as Hins.
  { intros c. rewrite insert_take_drop by (by eapply lookup_lt_Some). by rewrite concat_app. }
  unfold nodes, set_chain. cbn [chains].
  assert (chain ≡ₚ nd :: delete i chain) as Hp by by apply delete_Permutation.
  split_and!.
  - rewrite <- (list_insert_id (chains m) b chain Hb) at 1. rewrite Hins. rewrite Hp at 1. solve_Permutation.
  - intros nd'. rewrite Hins. rewrite (delete_Permutation (<[i := nd']> chain) i nd')
      by (apply list_lookup_insert_eq; by eapply lookup_lt_Some).
    assert (delete i (<[i := nd']> chain) = delete i chain) as ->.
    { rewrite !delete_take_drop, insert_take_drop by (by eapply lookup_lt_Some).
      pose proof (lookup_lt_Some _ _ _ Hi). rewrite take_app_length', drop_app_ge by (rewrite length_take; lia).
      rewrite length_take. replace (S i - i `min` length chain)%nat with 1%nat by lia. done. }
    solve_Permutation.
  - by rewrite Hins.
Qed.

Lemma map_ok_transfer m m' l :
  map_ok m → size_ok (nbuckets m') (chains m') → (0 < nbuckets m' → buckets m' ≠ 0) → in_place (nbuckets m') (chains m') →
  nodes m' ≡ₚ l → Forall node_ok l → NoDup (map n_key l) →
  nnodes m' = Z.of_nat (length l) → nnodes m' ≤ nbuckets m' → map_ok m'.
Proof.
  intros _ Hs Hptr Hp Hl Hok Hnd Hc Hle. split; try done.
  - by rewrite Hl.
  - by rewrite (Permutation_map n_key Hl).
  - by rewrite Hl.
Qed.

Section refinement.
Context {K : Type} `{KernelServices K}.
(** The heap answers: with NULL when it has no memory. *)
Hypothesis malloc_returns : ∀ n k, ∃ p k', ks_malloc n k = Ok (p, k').
Hypothesis realloc_returns : ∀ p n k, ∃ p' k', ks_realloc p n k = Ok (p', k').
Hypothesis free_returns : ∀ p k, ∃ k', ks_free p k = Ok (tt, k').

Lemma newnode_spec t s v k :
  key_ok t → cstr t s →
  ∃ r k', map_newnode (Some s) v k = Ok (r, k') ∧
    match r with Some nd => node_ok nd ∧ n_key nd = key_of t ∧ n_value nd = v ∧ n_addr nd ≠ 0 | None => True end.
Proof.
  intros Ht Hs. unfold map_newnode. rewrite (bind_eq _ _ _ (Z.of_nat (length t)) k)
    by (unfold lift; by rewrite (strlen_cstr t s Hs)).
  cbv zeta. destruct (malloc_returns (u64 (SIZEOF_NODE + s32 (s32 (Z.of_nat (length t) + 1) +
    u64 (SIZEOF_PTR - s32 (Z.of_nat (length t) + 1)) mod SIZEOF_PTR) + Z.of_nat (length v))) k) as (p & k' & Hm).
  rewrite (bind_eq _ _ _ _ _ Hm). destruct (Z.eqb_spec p 0) as [->|Hp]; [by exists None, k'|].
  rewrite (bind_eq _ _ _ (foldl hash_step 5381 t) k') by (unfold lift; by rewrite (map_hash_cstr t s Hs)).
  eexists _, k'. split; [done|]. cbn [n_key n_value n_addr n_hash].
  assert (take (Z.to_nat (s32 (Z.of_nat (length t) + 1))) s = key_of t) as Hk.
  { destruct Ht as [_ Hlen]. destruct Hs as [_ [rest ->]]. rewrite s32_small by lia.
    replace (Z.to_nat (Z.of_nat (length t) + 1)) with (length t + 1)%nat by lia.
    rewrite take_app, take_ge by lia. replace (length t + 1 - length t)%nat with 1%nat by lia. done. }
  change (default [] (Some s)) with s. rewrite Hk. split_and!; try done. exists t. split_and!; try done. cbn [n_key n_hash].
  apply map_hash_cstr. by apply key_cstr.
Qed.

Lemma resize_spec m n j k :
  map_ok m → 0 ≤ j < 30 → n = 2 ^ j → nbuckets m ≤ n →
  ∃ m' err k', map_resize m n k = Ok ((m', err), k') ∧ map_ok m' ∧ nodes m' ≡ₚ nodes m ∧
    (err = 0 ∧ nbuckets m' = n ∨ err = -1 ∧ nbuckets m' = nbuckets m).
Proof.
  intros Hok Hj Hn Hle. pose proof Hok as [Hs Hptr Hp Hnodes Hnd [Hc Hcle]]. unfold map_resize.
  assert (0 < n ≤ 0x20000000) as Hnr.
  { rewrite Hn. split; [apply Z.pow_pos_nonneg; lia|]. change 0x20000000 with (2 ^ 29). apply Z.pow_le_mono_r; lia. }
  destruct (realloc_returns (buckets m) (u64 (SIZEOF_PTR * n)) k) as (b & k' & Hr). rewrite (bind_eq _ _ _ _ _ Hr).
  cbv zeta. set (m1 := if b =? 0 then m else mk_map b (chains m) (u32 n) (nnodes m)).
  assert (nbuckets m1 = (if b =? 0 then nbuckets m else n) ∧ nnodes m1 = nnodes m ∧ chains m1 = chains m ∧
    buckets m1 = if b =? 0 then buckets m else b) as (Hn1 & Hc1 & Hch1 & Hb1).
  { unfold m1. destruct (b =? 0); [done|]. cbn. by rewrite u32_small by lia. }
  assert (Forall node_ok (chain_all (chains m))) as Hall by by rewrite chain_all_nodes.
  destruct (Z.eqb_spec (buckets m1) 0) as [Hz|Hz].
  - destruct (Z.eqb_spec b 0) as [->|Hb]; [|congruence]. eexists _, _, _. split; [done|].
    subst m1. change (0 =? 0) with true. cbv iota. split; [done|]. split; [done|]. by right.
  - set (m2 := mk_map (buckets m1) (replicate (Z.to_nat (nbuckets m1)) []) (nbuckets m1) (nnodes m1)).
    assert (∃ m3, readd m2 (chain_all (chains m)) = Ok m3 ∧ buckets m3 = buckets m1 ∧ nbuckets m3 = nbuckets m1 ∧
      nnodes m3 = nnodes m ∧ size_ok (nbuckets m3) (chains m3) ∧ in_place (nbuckets m3) (chains m3) ∧ nodes m3 ≡ₚ nodes m)
      as (m3 & Hrun & Hb3 & Hn3 & Hc3 & Hs3 & Hp3 & Hnodes3).
    { destruct (decide (nbuckets m1 = 0)) as [H0|H0].
      - assert (nbuckets m = 0) by (rewrite Hn1 in H0; destruct (b =? 0); lia).
        assert (nodes m = []) as Hnil by (apply nil_length_inv; lia).
        assert (chain_all (chains m) = []) as -> by (apply Permutation_nil_r; rewrite chain_all_nodes; fold (nodes m); by rewrite Hnil).
        exists m2. unfold m2, nodes. cbn [chains nbuckets nnodes buckets]. rewrite H0. cbn. fold (nodes m). rewrite Hnil.
        split_and!; try done. split; [done|by left].
      - assert (∃ i, 0 ≤ i < 30 ∧ nbuckets m1 = 2 ^ i) as (i & Hi & Hpow).
        { rewrite Hn1 in H0 |- *. destruct (b =? 0); [|by exists j]. by destruct Hs as [_ [?|?]]. }
        destruct (replicate_nil_ok _ i Hi Hpow) as (Hs2 & Hp2 & Hnil).
        destruct (readd_spec (chain_all (chains m)) m2) as (m3 & Hrun & ? & ? & ? & ? & ? & Hn3); try done.
        { cbn. rewrite Hpow. apply Z.pow_pos_nonneg; lia. }
        exists m3. split_and!; try done; try congruence.
        { etrans; [by subst|done]. }
        rewrite Hn3. unfold nodes at 1. unfold m2. cbn [chains]. rewrite Hnil, app_nil_r. apply chain_all_nodes. }
    rewrite (bind_eq _ _ _ m3 k') by (unfold lift; fold m2; by rewrite Hrun).
    eexists _, _, _. split; [done|].
    assert (nbuckets m ≤ nbuckets m1) by (rewrite Hn1; destruct (b =? 0); lia).
    split; [|split; [done|rewrite Hn3, Hn1; destruct (b =? 0); auto]].
    apply (map_ok_transfer m m3 (nodes m)); try done; [congruence|congruence|lia].
Qed.

(** The node that is added, on the map with room for it. *)
Lemma add_counted m nd t :
  map_ok m → node_ok nd → n_key nd = key_of t → key_of t ∉ map n_key (nodes m) → nnodes m < nbuckets m →
  ∃ m1, map_addnode m nd = Ok m1 ∧ let m' := mk_map (buckets m1) (chains m1) (nbuckets m1) (u32 (nnodes m1 + 1)) in
    map_ok m' ∧ to_map m' = <[key_of t := n_value nd]> (to_map m) ∧ nodes m' ≡ₚ nd :: nodes m.
Proof.
  intros Hok Hnd Hk Hno Hlt. pose proof Hok as [Hs Hptr Hp Hnodes Hunique [Hc Hcle]].
  destruct (addnode_spec m nd Hs ltac:(lia) Hp Hnd) as (m1 & Hrun & Hb1 & Hn1 & Hc1 & Hs1 & Hp1 & Hnodes1).
  exists m1. split; [done|]. cbv zeta. pose proof (size_bound _ _ Hs).
  assert (NoDup (map n_key (nd :: nodes m))) as Hnd' by (cbn; rewrite Hk; by constructor).
  assert (u32 (nnodes m1 + 1) = nnodes m + 1) as Hcount by (rewrite Hc1; apply u32_small; lia).
  assert (nodes (mk_map (buckets m1) (chains m1) (nbuckets m1) (u32 (nnodes m1 + 1))) ≡ₚ nd :: nodes m) as Hperm by exact Hnodes1.
  split; [|split; [|done]].
  - apply (map_ok_transfer m _ (nd :: nodes m)); try done; cbn [nbuckets chains buckets nnodes].
    + rewrite Hb1, Hn1. done.
    + by constructor.
    + rewrite Hcount. cbn [length]. lia.
    + rewrite Hcount, Hn1. lia.
  - unfold to_map. fold (nodes_map (nodes m)).
    transitivity (nodes_map (nd :: nodes m)); [|by rewrite nodes_map_cons, Hk].
    symmetry. by apply nodes_map_perm.
Qed.

(** Room is made before a node is added. *)
Definition make_room (m : map_base_t) : M K (map_base_t * Z) :=
  if nbuckets m <=? nnodes m then
    let n := if 0 <? nbuckets m then s32 (u32 (Z.shiftl (nbuckets m) 1)) else 1 in map_resize m n
  else mret (m, 0).
Lemma make_room_spec m k :
  map_ok m → nbuckets m < 0x20000000 →
  ∃ m' err k', make_room m k = Ok ((m', err), k') ∧ map_ok m' ∧ nodes m' ≡ₚ nodes m ∧
    (err = 0 ∧ nnodes m' < nbuckets m' ∨ err = -1).
Proof.
  intros Hok Hlt. pose proof Hok as [Hs _ _ _ _ [Hc Hcle]]. unfold make_room.
  destruct (Z.leb_spec (nbuckets m) (nnodes m)) as [Hfull|Hroom]; [|eexists _, _, _; split; [done|]; split_and!; try done; by left].
  assert (∃ j, 0 ≤ j < 30 ∧ (if 0 <? nbuckets m then s32 (u32 (Z.shiftl (nbuckets m) 1)) else 1) = 2 ^ j ∧ nbuckets m < 2 ^ j)
    as (j & Hj & Heq & Hgt).
  { destruct Hs as [_ [->|(i & Hi & Heq)]]; [by exists 0|]. assert (0 < 2 ^ i) by (apply Z.pow_pos_nonneg; lia).
    rewrite (proj2 (Z.ltb_lt _ _)) by lia. rewrite Z.shiftl_mul_pow2 by lia. change (2 ^ 1) with 2.
    rewrite u32_small, s32_small by lia. exists (i + 1). rewrite Z.pow_add_r by lia. change (2 ^ 1) with 2.
    split_and!; try lia. destruct (decide (i = 29)) as [->|]; [|lia]. change (2 ^ 29) with 0x20000000 in Heq. lia. }
  cbv zeta. rewrite Heq. destruct (resize_spec m (2 ^ j) j k Hok Hj eq_refl ltac:(lia)) as (m' & err & k' & Hrun & Hok' & Hperm & Herr).
  exists m', err, k'. split_and!; try done. pose proof Hok' as [_ _ _ _ _ [Hc' _]].
  destruct Herr as [[-> Hn]|[-> _]]; [left|by right]. split; [done|]. rewrite Hc', Hperm. lia.
Qed.

Definition values_sized (n : nat) (m : map_base_t) : Prop := Forall (λ nd, length (n_value nd) = n) (nodes m).

Lemma write_value_same old new : length old = length new → write_value old new = Ok new.
Proof.
  intros Hl. unfold write_value. rewrite (proj2 (Nat.leb_le _ _)) by lia. by rewrite drop_ge, app_nil_r by lia.
Qed.

(** The branch of [map_set_] that overwrites a value. *)
Lemma overwrite_spec m t b i chain nd v :
  map_ok m → chains m !! b = Some chain → chain !! i = Some nd → n_key nd = key_of t →
  let m' := set_chain b (<[i := mk_node (n_addr nd) (n_hash nd) (n_key nd) v]> chain) m in
  map_ok m' ∧ to_map m' = <[key_of t := v]> (to_map m) ∧
    (values_sized (length v) m → values_sized (length v) m').
Proof.
  intros Hok Hb Hi Hk. set (nd' := mk_node _ _ _ v). cbv zeta.
  destruct (node_perm m b i chain nd Hb Hi) as (rest & Hm & Hm' & _). specialize (Hm' nd').
  set (m' := set_chain b _ m) in *. pose proof Hok as [Hs Hptr Hp Hnodes Hunique [Hc Hcle]].
  assert (map n_key (nd' :: rest) = map n_key (nd :: rest)) as Hkeys by done.
  assert (NoDup (map n_key (nd :: rest))) as Hun by by rewrite <- (Permutation_map n_key Hm).
  assert (Forall node_ok (nd :: rest)) as Hall by by rewrite <- Hm.
  split_and!.
  - apply (map_ok_transfer m m' (nd' :: rest)); try done.
    + unfold size_ok, m', set_chain. cbn [chains nbuckets]. by rewrite length_insert.
    + apply in_place_insert; [done|]. apply Forall_insert; [by apply Hp|].
      assert (Forall (λ nd0, slot (nbuckets m) (n_hash nd0) = Z.of_nat b) chain) as Hch by by apply Hp.
      by apply (Forall_lookup_1 _ _ _ _ Hch Hi).
    + apply Forall_cons in Hall as [Hnd Hrest]. constructor; [|done]. exact Hnd.
    + cbn. rewrite Hc, Hm. done.
  - unfold to_map. fold (nodes_map (nodes m)) (nodes_map (nodes m')).
    rewrite (nodes_map_perm (nodes m') (nd' :: rest)), (nodes_map_perm (nodes m) (nd :: rest));
      [|done|done|by rewrite (Permutation_map n_key Hm')|done].
    rewrite !nodes_map_cons. cbn [n_key n_value nd']. rewrite Hk. by rewrite insert_insert_eq.
  - unfold values_sized. rewrite Hm, Hm', !Forall_cons. intros [_ ?]. done.
Qed.

(** C19. On a well-formed map whose heap may refuse memory,
    [map_set_] either returns 0 and the map is the finite map with the key bound
    to the value, or returns -1 with the key still absent and the bindings as
    they were, even when the bucket array could not be grown; the map stays
    well formed.  Every value of a map has the one size the macros of map.h pass. *)
Theorem map_set_refines m t s v k :
  map_ok m → key_ok t → cstr t s → values_sized (length v) m → nbuckets m < 0x20000000 →
  ∃ m' err k', map_set_ m (Some s) v k = Ok ((m', err), k') ∧ map_ok m' ∧ values_sized (length v) m' ∧
    (err = 0 ∧ to_map m' = <[key_of t := v]> (to_map m) ∨
     err = -1 ∧ to_map m !! key_of t = None ∧ to_map m' = to_map m).
Proof.
  intros Hok Ht Hs Hsz Hlt. unfold map_set_.
  destruct (getref_spec m t s Hok Ht Hs) as [(b & i & chain & nd & Hget & Hb & Hi & Hk)|[Hget Hno]];
    rewrite (bind_eq _ _ _ _ k (lift_Ok _ _ k Hget)).
  - unfold node_at. cbn [fst snd mbind option_bind]. rewrite Hb. cbn [mbind option_bind]. rewrite Hi.
    assert (length (n_value nd) = length v) as Hlen.
    { destruct (node_perm m b i chain nd Hb Hi) as (rest & Hm & _). unfold values_sized in Hsz. rewrite Hm in Hsz.
      by apply Forall_cons in Hsz as [? _]. }
    rewrite (bind_eq _ _ _ v k) by (unfold lift; by rewrite write_value_same).
    destruct (overwrite_spec m t b i chain nd v Hok Hb Hi Hk) as (Hok' & Hmap & Hv).
    eexists _, _, _. split; [done|]. split_and!; auto.
  - destruct (newnode_spec t s v k Ht Hs) as (r & k1 & Hnew & Hr). rewrite (bind_eq _ _ _ _ _ Hnew).
    assert (to_map m !! key_of t = None) as Hnone by by apply nodes_map_fresh.
    destruct r as [nd|]; [|eexists _, _, _; split; [done|]; split_and!; auto].
    destruct Hr as (Hnd & Hk & Hv & _). fold (make_room m).
    destruct (make_room_spec m k1 Hok Hlt) as (m1 & err & k2 & Hroom & Hok1 & Hperm & Herr).
    rewrite (bind_eq _ _ _ _ _ Hroom).
    assert (to_map m1 = to_map m) as Hsame by (symmetry; apply nodes_map_perm; [apply Hok|done]).
    assert (values_sized (length v) m1) as Hsz1 by (unfold values_sized; by rewrite Hperm).
    destruct Herr as [[-> Hspace]| ->].
    + cbn [truth]. destruct (add_counted m1 nd t Hok1 Hnd Hk) as (m2 & Hadd & Hok2 & Hmap & Hperm2); [by rewrite (Permutation_map n_key Hperm)|done|].
      change (truth 0) with false. cbv iota. rewrite (bind_eq _ _ _ m2 k2) by (unfold lift; by rewrite Hadd).
      eexists _, _, _. split; [done|]. split_and!; [done| |left; by rewrite Hmap, Hv, Hsame].
      unfold values_sized. rewrite Hperm2. by constructor; [by rewrite Hv|].
    + change (truth (-1)) with true. cbv iota. unfold fail_set.
      destruct (free_returns (n_addr nd) k2) as (k3 & Hfree). rewrite (bind_eq _ _ _ _ _ Hfree).
      eexists _, _, _. split; [done|]. split_and!; auto.
Qed.

(** C21. On a well-formed map, [map_remove_] is the deletion of
    the key from the finite map, whether it was bound or not, and leaves a
    well-formed map. *)
Theorem map_remove_refines m t s k :
  map_ok m → key_ok t → cstr t s →
  ∃ m' k', map_remove_ m (Some s) k = Ok (m', k') ∧ map_ok m' ∧ to_map m' = delete (key_of t) (to_map m).
Proof.
  intros Hok Ht Hs. unfold map_remove_.
  destruct (getref_spec m t s Hok Ht Hs) as [(b & i & chain & nd & Hget & Hb & Hi & Hk)|[Hget Hno]];
    rewrite (bind_eq _ _ _ _ k (lift_Ok _ _ k Hget)).
  - unfold node_at. cbn [fst snd mbind option_bind]. rewrite Hb. cbn [mbind option_bind]. rewrite Hi.
    destruct (free_returns (n_addr nd) k) as (k1 & Hfree). rewrite (bind_eq _ _ _ _ _ Hfree).
    eexists _, k1. split; [done|].
    destruct (node_perm m b i chain nd Hb Hi) as (rest & Hm & _ & Hm').
    pose proof Hok as [Hsz Hptr Hp Hnodes Hunique [Hc Hcle]]. pose proof (size_bound _ _ Hsz).
    assert (Forall node_ok (nd :: rest)) as Hall by by rewrite <- Hm.
    assert (NoDup (map n_key (nd :: rest))) as Hun by by rewrite <- (Permutation_map n_key Hm).
    assert (nnodes m = Z.of_nat (length rest) + 1) as Hcount by (rewrite Hc, Hm; cbn [length]; lia).
    assert (u32 (nnodes m - 1) = Z.of_nat (length rest)) as Hu by (rewrite u32_small; lia).
    split.
    + apply (map_ok_transfer m _ rest); try done; cbn [set_chain chains nbuckets buckets nnodes]; try lia.
      * unfold size_ok. by rewrite length_insert.
      * apply in_place_insert; [done|]. pose proof (Hp _ _ Hb) as Hch. by apply Forall_delete.
      * by apply Forall_cons in Hall as [_ ?].
      * by apply NoDup_cons in Hun as [_ ?].
    + unfold to_map. rewrite <- Hk. transitivity (nodes_map rest).
      * symmetry. apply nodes_map_perm; [by apply NoDup_cons in Hun as [_ ?]|]. symmetry. exact Hm'.
      * fold (nodes_map (nodes m)). rewrite (nodes_map_perm (nodes m) (nd :: rest)) by done.
        rewrite nodes_map_cons, delete_insert_id; [done|]. apply nodes_map_fresh. by apply NoDup_cons in Hun as [? _].
  - eexists m, k. split; [done|]. split; [done|]. symmetry. apply delete_id. by apply nodes_map_fresh.
Qed.
End refinement.

(** ** Iteration *)

(** The loop of a client: [while ((key = map_next_(m, &iter)))]. *)
Fixpoint walk (fuel : nat) (m : map_base_t) (iter : map_iter_t) : res (list (list Z)) :=
  match fuel with
  | O => Err OutOfFuel
  | S fuel =>
      r ← map_next_ m iter;
      match r.2 with
      | None => Ok []
      | Some key => keys ← walk fuel m r.1; Ok (key :: keys)
      end
  end.

(** The nodes the iterator has still to visit. *)
Definition remaining (m : map_base_t) (iter : map_iter_t) : list map_node_t :=
  match it_node iter with
  | Some i => drop (S i) (default [] (chains m !! Z.to_nat (bucketidx iter)))
  | None => []
  end ++ concat (drop (Z.to_nat (u32 (bucketidx iter + 1))) (chains m)).

(** What [map_iter_] and every successful [map_next_] leave. *)
Definition iter_ok (m : map_base_t) (iter : map_iter_t) : Prop :=
  iter = map_iter_ ∨ 0 ≤ bucketidx iter < nbuckets m ∧ is_Some (it_node iter).
Definition next_result (m : map_base_t) (r : res (map_iter_t * option (list Z))) (l : list map_node_t) : Prop :=
  match l with
  | [] => ∃ iter, r = Ok (iter, None)
  | nd :: rest => ∃ iter, r = Ok (iter, Some (n_key nd)) ∧ iter_ok m iter ∧ remaining m iter = rest
  end.

Lemma next_bucket_spec m fuel b :
  size_ok (nbuckets m) (chains m) → 0 ≤ b → u32 (b + 1) ≤ nbuckets m → nbuckets m - u32 (b + 1) < Z.of_nat fuel →
  next_result m (next_bucket fuel m b) (concat (drop (Z.to_nat (u32 (b + 1))) (chains m))).
Proof.
  intros Hs. pose proof (size_bound _ _ Hs) as Hn. destruct Hs as [Hlen _]. revert b.
  induction fuel as [|fuel IH]; intros b Hb Hle Hf; [lia|]. cbn [next_bucket]. cbv zeta.
  pose proof (u32_range (b + 1)) as Hr. set (b' := u32 (b + 1)) in *.
  destruct (Z.leb_spec (nbuckets m) b') as [Hend|Hin].
  - rewrite drop_ge by lia. cbn. eauto.
  - destruct (lookup_lt_is_Some_2 (chains m) (Z.to_nat b')) as [chain Hc]; [lia|]. rewrite Hc.
    rewrite (drop_S _ _ _ Hc). cbn [concat].
    replace (S (Z.to_nat b')) with (Z.to_nat (u32 (b' + 1))) by (rewrite u32_small by lia; lia).
    destruct chain as [|nd chain].
    + cbn [app]. apply IH; rewrite ?u32_small by lia; lia.
    + cbn [app]. eexists. split; [done|]. split; [right; cbn; split; [lia|done]|].
      unfold remaining. cbn [it_node bucketidx]. rewrite Hc. done.
Qed.

Lemma map_next_spec m iter :
  size_ok (nbuckets m) (chains m) → iter_ok m iter → next_result m (map_next_ m iter) (remaining m iter).
Proof.
  intros Hs Hi. pose proof (size_bound _ _ Hs) as Hn. unfold map_next_, remaining. cbv zeta. destruct Hi as [->|[Hr [i Hi]]].
  - cbn [map_iter_ it_node bucketidx app]. apply next_bucket_spec; change (u32 (0xffffffff + 1)) with 0; try done; lia.
  - rewrite Hi. destruct (lookup_lt_is_Some_2 (chains m) (Z.to_nat (bucketidx iter))) as [chain Hc]; [destruct Hs; lia|].
    rewrite Hc. change (default [] (Some chain)) with chain. destruct (chain !! S i) as [nd|] eqn:Hnd.
    + rewrite (drop_S _ _ _ Hnd). cbn [app next_result].
      eexists. split; [done|]. split; [right; cbn; split; [lia|done]|]. unfold remaining. cbn [it_node bucketidx].
      by rewrite Hc.
    + rewrite (drop_ge chain) by (by apply lookup_ge_None). cbn [app].
      apply next_bucket_spec; rewrite ?u32_small by lia; try done; lia.
Qed.


(** ** Witnesses: a map of two keys *)

Definition sample_key1 : list Z := [107; 49].
Definition sample_key2 : list Z := [107; 50].
Definition sample_map : map_base_t :=
  match (map_set_ map_init (Some (key_of sample_key1)) [1; 2] ≫= λ '(m, _), map_set_ m (Some (key_of sample_key2)) [3; 4]) sample_bump with
  | Ok ((m, _), _) => m
  | Err _ => map_init
  end.
Example sample_map_get : map_get_ sample_map (Some (key_of sample_key2)) = Ok (Some [3; 4]).
Proof. vm_compute. reflexivity. Qed.

Lemma sample_key_ok i : 49 ≤ i ≤ 50 → key_ok [107; i].
Proof. intros Hi. split; [repeat constructor; unfold is_char; lia|cbn; lia]. Qed.

Section bump.
Lemma bump_malloc (n : Z) (k : bump) : ∃ p k', ks_malloc n k = Ok (p, k').
Proof. eexists _, _. reflexivity. Qed.
Lemma bump_realloc (p n : Z) (k : bump) : ∃ p' k', ks_realloc p n k = Ok (p', k').
Proof. eexists _, _. reflexivity. Qed.
Lemma bump_free (p : Z) (k : bump) : ∃ k', ks_free p k = Ok (tt, k').
Proof. eexists _. reflexivity. Qed.
End bump.

Lemma node_ok_of t hash addr v : key_ok t → foldl hash_step 5381 t = hash → node_ok (mk_node addr hash (key_of t) v).
Proof.
  intros Ht <-. exists t. split_and!; try done. cbn [n_key n_hash]. apply map_hash_cstr. by apply key_cstr.
Qed.
Definition sample_node (i : Z) (addr : Z) (v : list Z) : map_node_t :=
  mk_node addr (foldl hash_step 5381 [107; i]) (key_of [107; i]) v.
Lemma sample_map_ok : map_ok sample_map.
Proof.
  assert (sample_map = mk_map 65612 [[sample_node 50 65578 [3; 4]]; [sample_node 49 65536 [1; 2]]] 2 2) as ->
    by (vm_compute; reflexivity).
  split; cbn [buckets chains nbuckets nnodes]; try lia.
  - split; [done|]. right. by exists 1.
  - intros [|[|b]] chain Hb; [| |done]; injection Hb as <-; constructor; try constructor; vm_compute; reflexivity.
  - repeat constructor; apply node_ok_of; by try apply sample_key_ok.
  - apply NoDup_cons. split; [|apply NoDup_singleton]. intros Hin. apply list_elem_of_singleton in Hin. discriminate Hin.
  - cbn. lia.
Qed.

Lemma map_get_refines_witness :
  map_ok sample_map ∧ map_get_ sample_map (Some (key_of [107; 50])) = Ok (to_map sample_map !! key_of [107; 50]).
Proof.
  split; [apply sample_map_ok|]. apply map_get_refines; [apply sample_map_ok|by apply sample_key_ok|].
  apply key_cstr. by apply sample_key_ok.
Defined.
Lemma map_set_refines_witness :
  ∃ m' err k', map_set_ sample_map (Some (key_of [107; 50])) [5; 6] sample_bump = Ok ((m', err), k') ∧ map_ok m' ∧
    values_sized 2 m' ∧ (err = 0 ∧ to_map m' = <[key_of [107; 50] := [5; 6]]> (to_map sample_map) ∨
     err = -1 ∧ to_map sample_map !! key_of [107; 50] = None ∧ to_map m' = to_map sample_map).
Proof.
  apply (map_set_refines bump_malloc bump_realloc bump_free sample_map [107; 50] (key_of [107; 50]) [5; 6] sample_bump).
  - apply sample_map_ok.
  - by apply sample_key_ok.
  - apply key_cstr. by apply sample_key_ok.
  - unfold values_sized. apply (bool_decide_unpack _). vm_compute. exact I.
  - vm_compute. reflexivity.
Defined.
Lemma map_remove_refines_witness :
  ∃ m' k', map_remove_ sample_map (Some (key_of [107; 49])) sample_bump = Ok (m', k') ∧ map_ok m' ∧
    to_map m' = delete (key_of [107; 49]) (to_map sample_map).
Proof.
  apply (map_remove_refines bump_free sample_map [107; 49] (key_of [107; 49]) sample_bump).
  - apply sample_map_ok.
  - by apply sample_key_ok.
  - apply key_cstr. by apply sample_key_ok.
Defined.
