(* ===== verification/Dll.v ===== *)
(** Doubly linked lists in a store of nodes: the representation predicate of a
    list of elements, and what relinking and in-place updates do to it. *)
From S2P Require Import Prelude.

Section dll.
Context {A V : Type}.
Variable addr : A → Z.
(** the stored node of an element, given the links to its neighbours *)
Variable node : Z → Z → A → V.

Definition dhd (l : list A) (d : Z) : Z := match l with [] => d | a :: _ => addr a end.
Definition dlast (l : list A) (d : Z) : Z := match last l with None => d | Some a => addr a end.

(** [dseg m prev l next]: from the store, the nodes of [l] in order, with [prev]
    and [next] at its two ends. *)
Fixpoint dseg (m : gmap Z V) (prev : Z) (l : list A) (next : Z) : Prop :=
  match l with
  | [] => True
  | a :: l => m !! addr a = Some (node prev (dhd l next) a) ∧ dseg m (addr a) l next
  end.

Definition fresh (a : Z) (l : list A) : Prop := ∀ b, b ∈ l → addr b ≠ a.

Lemma dlast_snoc l a d : dlast (l ++ [a]) d = addr a.
Proof. unfold dlast. by rewrite last_snoc. Qed.
Lemma dhd_app l1 l2 d : dhd (l1 ++ l2) d = dhd l1 (dhd l2 d).
Proof. by destruct l1. Qed.
Lemma dlast_cons a l d : dlast (a :: l) d = dlast l (addr a).
Proof. unfold dlast. destruct l as [|b l]; [done|]. rewrite last_cons_cons. by destruct (last (b :: l)) eqn:E; [|apply last_None in E]. Qed.

Lemma dseg_app m p l1 l2 n : dseg m p (l1 ++ l2) n ↔ dseg m p l1 (dhd l2 n) ∧ dseg m (dlast l1 p) l2 n.
Proof.
  revert p. induction l1 as [|a l1 IH]; intros p; [naive_solver|]. cbn [app dseg]. rewrite IH, dhd_app, dlast_cons. naive_solver.
Qed.
Lemma dseg_ext m m' p l n : (∀ a, a ∈ l → m' !! addr a = m !! addr a) → dseg m p l n → dseg m' p l n.
Proof.
  revert p. induction l as [|a l IH]; intros p Heq; [done|]. intros [Ha Hl]. split.
  - by rewrite Heq by set_solver.
  - apply IH; [|done]. intros b Hb. apply Heq. set_solver.
Qed.
Lemma dseg_lookup m p l n a : dseg m p l n → a ∈ l → ∃ p' n', m !! addr a = Some (node p' n' a).
Proof.
  revert p. induction l as [|b l IH]; intros p Hl Ha; [set_solver|]. destruct Hl as [Hb Hl].
  apply elem_of_cons in Ha as [->|Ha]; [eauto|]. by eapply IH.
Qed.

Lemma dseg_insert_fresh m p l n a v : fresh a l → dseg m p l n → dseg (<[a := v]> m) p l n.
Proof. intros Hf. apply dseg_ext. intros b Hb. apply lookup_insert_ne. by apply not_eq_sym, Hf. Qed.
Lemma dseg_alter_fresh m p l n a f : fresh a l → dseg m p l n → dseg (alter f a m) p l n.
Proof. intros Hf. apply dseg_ext. intros b Hb. apply lookup_alter_ne. by apply not_eq_sym, Hf. Qed.
Lemma fresh_of_nodup l1 a l2 : NoDup (addr <$> l1 ++ a :: l2) → fresh (addr a) (l1 ++ l2).
Proof.
  rewrite fmap_app, fmap_cons. intros Hnd b Hb Heq.
  rewrite NoDup_app in Hnd. destruct Hnd as (_ & Hd & Hnd). apply NoDup_cons in Hnd as [Hn _].
  apply elem_of_app in Hb as [Hb|Hb].
  - apply (Hd (addr a)); [rewrite <- Heq; by apply list_elem_of_fmap_2|by left].
  - apply Hn. rewrite <- Heq. by apply list_elem_of_fmap_2.
Qed.
Lemma nodup_parts l1 l2 : NoDup (addr <$> l1 ++ l2) →
  NoDup (addr <$> l1) ∧ NoDup (addr <$> l2) ∧ (∀ a, a ∈ l1 → fresh (addr a) l2) ∧ (∀ a, a ∈ l2 → fresh (addr a) l1).
Proof.
  rewrite fmap_app, NoDup_app. intros (H1 & Hd & H2). split_and!; [done|done| |].
  - intros a Ha b Hb Heq. apply (Hd (addr a)); [by apply list_elem_of_fmap_2|rewrite <- Heq; by apply list_elem_of_fmap_2].
  - intros a Ha b Hb Heq. apply (Hd (addr b)); [by apply list_elem_of_fmap_2|rewrite Heq; by apply list_elem_of_fmap_2].
Qed.

(** An element changed where it is. *)
Lemma dseg_update m p l1 l2 n a a' f :
  NoDup (addr <$> l1 ++ a :: l2) → addr a' = addr a → (∀ p n, f (node p n a) = node p n a') →
  dseg m p (l1 ++ a :: l2) n → dseg (alter f (addr a) m) p (l1 ++ a' :: l2) n.
Proof.
  intros Hnd Haddr Hf. pose proof (fresh_of_nodup _ _ _ Hnd) as Hfr.
  assert (fresh (addr a) l1 ∧ fresh (addr a) l2) as [Hfa1 Hfa2] by (split; intros b Hb; apply Hfr; set_solver).
  rewrite !dseg_app. cbn [dhd dseg]. rewrite Haddr. intros (H1 & Ha & H2). split_and!.
  - by apply dseg_alter_fresh.
  - rewrite lookup_alter_eq, Ha. cbn. by rewrite Hf.
  - by apply dseg_alter_fresh.
Qed.

(** The store has a node for every element. *)
Lemma dseg_size m p l n : NoDup (addr <$> l) → dseg m p l n → (length l ≤ size m)%nat.
Proof.
  intros Hnd Hl. rewrite <- (length_fmap addr l), <- size_dom.
  rewrite <- (size_list_to_set (C := gset Z) (addr <$> l)) by done. apply subseteq_size.
  intros x Hx. apply elem_of_list_to_set, list_elem_of_fmap in Hx as (a & -> & Ha).
  apply elem_of_dom. destruct (dseg_lookup _ _ _ _ _ Hl Ha) as (? & ? & ->). eauto.
Qed.

Section relink.
Variables set_prev set_next : Z → V → V.
Definition relink_prev (l : list A) (x : Z) (m : gmap Z V) : gmap Z V :=
  match l with [] => m | a :: _ => alter (set_prev x) (addr a) m end.
Definition relink_next (l : list A) (x : Z) (m : gmap Z V) : gmap Z V :=
  match last l with None => m | Some a => alter (set_next x) (addr a) m end.

Lemma dseg_relink_prev_fresh m p l n k x : (∀ a, a ∈ k → fresh (addr a) l) → dseg m p l n → dseg (relink_prev k x m) p l n.
Proof. intros Hf. destruct k as [|a k]; [done|]. apply dseg_alter_fresh, Hf. by left. Qed.
Lemma dseg_relink_next_fresh m p l n k x : (∀ a, a ∈ k → fresh (addr a) l) → dseg m p l n → dseg (relink_next k x m) p l n.
Proof.
  intros Hf. unfold relink_next. destruct (last k) as [a|] eqn:Hk; [|done].
  apply dseg_alter_fresh, Hf. apply last_Some in Hk as [k' ->]. apply elem_of_app. right. by left.
Qed.

Lemma relink_next_lookup l x m k : fresh k l → relink_next l x m !! k = m !! k.
Proof.
  intros Hf. unfold relink_next. destruct (last l) as [b|] eqn:Hb; [|done]. apply lookup_alter_ne.
  apply Hf. apply last_Some in Hb as [l' ->]. apply elem_of_app. right. by left.
Qed.

Hypothesis set_prev_node : ∀ x p n a, set_prev x (node p n a) = node x n a.
Hypothesis set_next_node : ∀ x p n a, set_next x (node p n a) = node p x a.

Lemma dseg_relink_prev m p l n x : NoDup (addr <$> l) → dseg m p l n → dseg (relink_prev l x m) x l n.
Proof.
  destruct l as [|a l]; [done|]. intros Hnd [Ha Hl]. cbn [relink_prev dseg]. split.
  - by rewrite lookup_alter_eq, Ha; cbn; rewrite set_prev_node.
  - apply dseg_alter_fresh; [|done]. exact (fresh_of_nodup [] a l Hnd).
Qed.
Lemma dseg_relink_next m p l n x : NoDup (addr <$> l) → dseg m p l n → dseg (relink_next l x m) p l x.
Proof.
  destruct l as [|b l _] using rev_ind; [done|]. unfold relink_next. rewrite last_snoc, !dseg_app. intros Hnd [Hl [Hb _]].
  cbn [dhd dseg]. split_and!; [|by rewrite lookup_alter_eq, Hb; cbn; rewrite set_next_node|done].
  apply dseg_alter_fresh; [|done]. pose proof (fresh_of_nodup l b [] Hnd) as Hf. by rewrite app_nil_r in Hf.
Qed.

(** An element put between two parts, its neighbours relinked to it. *)
Lemma dseg_insert m l1 l2 a :
  NoDup (addr <$> l1 ++ l2) → fresh (addr a) (l1 ++ l2) → dseg m 0 (l1 ++ l2) 0 →
  dseg (<[addr a := node (dlast l1 0) (dhd l2 0) a]> (relink_next l1 (addr a) (relink_prev l2 (addr a) m))) 0 (l1 ++ a :: l2) 0.
Proof.
  intros Hnd Hf. rewrite !dseg_app. intros [H1 H2]. destruct (nodup_parts _ _ Hnd) as (Hn1 & Hn2 & Hf1 & Hf2).
  assert (fresh (addr a) l1 ∧ fresh (addr a) l2) as [Hfa1 Hfa2] by (split; intros b Hb; apply Hf; set_solver).
  cbn [dhd dseg]. split_and!.
  - apply dseg_insert_fresh; [done|]. eapply dseg_relink_next; [done|]. by apply dseg_relink_prev_fresh.
  - by rewrite lookup_insert_eq.
  - apply dseg_insert_fresh; [done|]. apply dseg_relink_next_fresh; [done|]. by eapply dseg_relink_prev.
Qed.

(** An element taken out, its neighbours relinked to each other; its own node may
    be overwritten. *)
Lemma dseg_remove m m' l1 l2 a :
  NoDup (addr <$> l1 ++ a :: l2) → (∀ k, k ≠ addr a → m' !! k = m !! k) → dseg m 0 (l1 ++ a :: l2) 0 →
  dseg (relink_next l1 (dhd l2 0) (relink_prev l2 (dlast l1 0) m')) 0 (l1 ++ l2) 0 ∧
  dseg (relink_prev l2 (dlast l1 0) (relink_next l1 (dhd l2 0) m')) 0 (l1 ++ l2) 0.
Proof.
  intros Hnd Hm. pose proof (fresh_of_nodup _ _ _ Hnd) as Hf. rewrite !dseg_app. intros [H1 [Ha H2]].
  assert (NoDup (addr <$> l1 ++ l2)) as Hnd'.
  { revert Hnd. rewrite !fmap_app, fmap_cons. rewrite <- Permutation_middle. by intros [_ ?]%NoDup_cons. }
  destruct (nodup_parts _ _ Hnd') as (Hn1 & Hn2 & Hf1 & Hf2).
  assert (dseg m' 0 l1 (addr a) ∧ dseg m' (addr a) l2 0) as [H1' H2'].
  { split; (apply (dseg_ext m); [intros b Hb; apply Hm, Hf; set_solver|done]). }
  split_and!.
  - eapply dseg_relink_next; [done|]. by apply dseg_relink_prev_fresh.
  - apply dseg_relink_next_fresh; [done|]. by eapply dseg_relink_prev.
  - apply dseg_relink_prev_fresh; [done|]. by eapply dseg_relink_next.
  - eapply dseg_relink_prev; [done|]. by apply dseg_relink_next_fresh.
Qed.

(** A new last element: its node is written, then the links on both sides. *)
Lemma dseg_append m l a :
  NoDup (addr <$> l) → fresh (addr a) l → dseg m 0 l 0 →
  dseg (alter (set_prev (dlast l 0)) (addr a) (relink_next l (addr a) (<[addr a := node 0 0 a]> m))) 0 (l ++ [a]) 0.
Proof.
  intros Hnd Hf Hl. rewrite dseg_app. cbn [dhd dseg]. split_and!; [| |done].
  - apply dseg_alter_fresh; [done|]. eapply dseg_relink_next; [done|]. by apply dseg_insert_fresh.
  - rewrite lookup_alter_eq, relink_next_lookup by done. rewrite lookup_insert_eq. cbn. by rewrite set_prev_node.
Qed.
End relink.
End dll.
