(* ===== verification/Liballoc.v ===== *)
(** libs/liballoc/liballoc.c: the heap.

    The headers [liballoc_major] and [liballoc_minor] are kept in typed stores by
    their address, NULL being 0, so that every link is the pointer the code
    follows; the bytes between them, with the alignment byte below each block
    handed out, are the machine's memory.  A header that is freed stays in its
    store with its dead magic number.  Pages come from [PageProvider], which
    [Compat] implements as libs/liballoc/compat.c does. *)
From S2P Require Import Prelude Machine.

(** [liballoc_alloc], [liballoc_free_] and the memory they hand out. *)
Class PageProvider (P : Type) : Type := {
  pp_hw : P → hw;
  pp_set_hw : hw → P → P;
  pp_alloc : Z → M P Z;
  pp_free : Z → Z → M P unit
}.

Definition ALIGNMENT : Z := 16.
Definition ALIGN_INFO : Z := 16.
Definition LIBALLOC_MAGIC : Z := 0xc001c0de.
Definition LIBALLOC_DEAD : Z := 0xdeaddead.
Definition SIZEOF_MAJOR : Z := 40.
Definition SIZEOF_MINOR : Z := 40.
Definition l_pageSize : Z := 4096.
Definition l_pageCount : Z := 16.

Record liballoc_major : Type := mk_major {
  mj_prev : Z; mj_next : Z; mj_pages : Z; mj_size : Z; mj_usage : Z; mj_first : Z
}.
Record liballoc_minor : Type := mk_minor {
  mn_prev : Z; mn_next : Z; mn_block : Z; mn_magic : Z; mn_size : Z; mn_req_size : Z
}.
Definition mj_set_prev (p : Z) (m : liballoc_major) := mk_major p (mj_next m) (mj_pages m) (mj_size m) (mj_usage m) (mj_first m).
Definition mj_set_next (p : Z) (m : liballoc_major) := mk_major (mj_prev m) p (mj_pages m) (mj_size m) (mj_usage m) (mj_first m).
Definition mj_set_usage (u : Z) (m : liballoc_major) := mk_major (mj_prev m) (mj_next m) (mj_pages m) (mj_size m) u (mj_first m).
Definition mj_set_first (p : Z) (m : liballoc_major) := mk_major (mj_prev m) (mj_next m) (mj_pages m) (mj_size m) (mj_usage m) p.
Definition mn_set_prev (p : Z) (m : liballoc_minor) := mk_minor p (mn_next m) (mn_block m) (mn_magic m) (mn_size m) (mn_req_size m).
Definition mn_set_next (p : Z) (m : liballoc_minor) := mk_minor (mn_prev m) p (mn_block m) (mn_magic m) (mn_size m) (mn_req_size m).
Definition mn_set_magic (v : Z) (m : liballoc_minor) := mk_minor (mn_prev m) (mn_next m) (mn_block m) v (mn_size m) (mn_req_size m).
Definition mn_set_req (v : Z) (m : liballoc_minor) := mk_minor (mn_prev m) (mn_next m) (mn_block m) (mn_magic m) (mn_size m) v.

(** The file's static variables and the memory they describe. *)
Record heap : Type := mk_heap {
  majors : gmap Z liballoc_major;
  minors : gmap Z liballoc_minor;
  l_memRoot : Z;
  l_bestBet : Z;
  l_allocated : Z;
  l_inuse : Z;
  l_warningCount : Z;
  l_errorCount : Z;
  l_possibleOverruns : Z;
  la_lock : Z
}.
Definition heap_init : heap := mk_heap ∅ ∅ 0 0 0 0 0 0 0 0.

Record la_state (P : Type) : Type := mk_la { la_sys : P; la_heap : heap }.
Arguments mk_la {P}. Arguments la_sys {P}. Arguments la_heap {P}.

Definition h_majors (f : gmap Z liballoc_major → gmap Z liballoc_major) (h : heap) : heap :=
  mk_heap (f (majors h)) (minors h) (l_memRoot h) (l_bestBet h) (l_allocated h) (l_inuse h) (l_warningCount h) (l_errorCount h)
    (l_possibleOverruns h) (la_lock h).
Definition h_minors (f : gmap Z liballoc_minor → gmap Z liballoc_minor) (h : heap) : heap :=
  mk_heap (majors h) (f (minors h)) (l_memRoot h) (l_bestBet h) (l_allocated h) (l_inuse h) (l_warningCount h) (l_errorCount h)
    (l_possibleOverruns h) (la_lock h).
Definition h_root (p : Z) (h : heap) : heap :=
  mk_heap (majors h) (minors h) p (l_bestBet h) (l_allocated h) (l_inuse h) (l_warningCount h) (l_errorCount h)
    (l_possibleOverruns h) (la_lock h).
Definition h_bet (p : Z) (h : heap) : heap :=
  mk_heap (majors h) (minors h) (l_memRoot h) p (l_allocated h) (l_inuse h) (l_warningCount h) (l_errorCount h)
    (l_possibleOverruns h) (la_lock h).
Definition h_add_allocated (n : Z) (h : heap) : heap :=
  mk_heap (majors h) (minors h) (l_memRoot h) (l_bestBet h) (u64 (l_allocated h + n)) (l_inuse h) (l_warningCount h)
    (l_errorCount h) (l_possibleOverruns h) (la_lock h).
Definition h_add_inuse (n : Z) (h : heap) : heap :=
  mk_heap (majors h) (minors h) (l_memRoot h) (l_bestBet h) (l_allocated h) (u64 (l_inuse h + n)) (l_warningCount h)
    (l_errorCount h) (l_possibleOverruns h) (la_lock h).
(** The counters: warnings, errors, possible overruns. *)
Definition h_count (w e o : Z) (h : heap) : heap :=
  mk_heap (majors h) (minors h) (l_memRoot h) (l_bestBet h) (l_allocated h) (l_inuse h) (s64 (l_warningCount h + w))
    (s64 (l_errorCount h + e)) (s64 (l_possibleOverruns h + o)) (la_lock h).
Definition h_lock (l : Z) (h : heap) : heap :=
  mk_heap (majors h) (minors h) (l_memRoot h) (l_bestBet h) (l_allocated h) (l_inuse h) (l_warningCount h) (l_errorCount h)
    (l_possibleOverruns h) l.

Section liballoc.
Context {P : Type} `{PageProvider P}.
Notation L := (la_state P).

Definition on_sys {A} (m : M P A) : M L A := zoom la_sys (λ p s, mk_la p (la_heap s)) m.
Definition on_heap (f : heap → heap) : M L unit := modify (λ s, mk_la (la_sys s) (f (la_heap s))).
Definition la_hw (s : L) : hw := pp_hw (la_sys s).
Definition la_mem (s : L) : memory := hw_mem (la_hw s).
Definition la_set_hw (h : hw) (s : L) : L := mk_la (pp_set_hw h (la_sys s)) (la_heap s).
Definition on_bytes (f : memory → memory) : M L unit := modify (λ s, la_set_hw (hw_set_mem f (la_hw s)) s).

Definition maj_at (a : Z) : M L liballoc_major := λ s, lift (from_option Ok (Err BadAccess) (majors (la_heap s) !! a)) s.
Definition min_at (a : Z) : M L liballoc_minor := λ s, lift (from_option Ok (Err BadAccess) (minors (la_heap s) !! a)) s.
Definition upd_maj (a : Z) (f : liballoc_major → liballoc_major) : M L unit :=
  maj_at a ≫= λ _, on_heap (h_majors (alter f a)).
Definition upd_min (a : Z) (f : liballoc_minor → liballoc_minor) : M L unit :=
  min_at a ≫= λ _, on_heap (h_minors (alter f a)).

Definition liballoc_lock : M L unit := λ s,
  match arch_acquire (la_lock (la_heap s)) (la_hw s) with
  | Ok (l, h) => Ok (tt, mk_la (pp_set_hw h (la_sys s)) (h_lock l (la_heap s)))
  | Err e => Err e
  end.
Definition liballoc_unlock : M L unit := modify (λ s,
  let '(l, h) := arch_release (la_hw s) in mk_la (pp_set_hw h (la_sys s)) (h_lock l (la_heap s))).

(** [ALIGN] gives the pointer moved up past the alignment byte it stores,
    [UNALIGN] the pointer it came from. *)
Definition ALIGN (ptr : Z) : M L Z :=
  let ptr := u64 (ptr + ALIGN_INFO) in
  let diff := Z.land ptr (ALIGNMENT - 1) in
  let '(ptr, diff) := if truth diff then (u64 (ptr + (ALIGNMENT - diff)), ALIGNMENT - diff) else (ptr, diff) in
  on_bytes (store8 (ptr - ALIGN_INFO) (diff + ALIGN_INFO)) ≫= λ _,
  mret ptr.
Definition UNALIGN (ptr : Z) : M L Z :=
  gets (λ s, u64 (s8 (load8 (la_mem s) (ptr - ALIGN_INFO)))) ≫= λ diff,
  mret (if diff <? ALIGNMENT + ALIGN_INFO then u64 (ptr - diff) else ptr).

(** [for (i = 0; i < n; i++)] with a 32-bit [i] never ends for a larger [n]. *)
Definition liballoc_memset (p c n : Z) : M L unit :=
  if 0xffffffff <? n then fail Spinning
  else if (p =? 0) && (0 <? n) then fail BadAccess
  else on_bytes (memset p c n).

Fixpoint copy_words (k : nat) (dest src : Z) (m : memory) : memory :=
  match k with
  | O => m
  | S k => copy_words k (dest + 4) (src + 4) (store_le 4 dest (load_le 4 m src) m)
  end.
Definition liballoc_memcpy (dest src n : Z) : M L unit :=
  if ((dest =? 0) || (src =? 0)) && (0 <? n) then fail BadAccess
  else on_bytes (λ m, copy_loop (Z.to_nat (n mod 4)) (n / 4 * 4) dest src (copy_words (Z.to_nat (n / 4)) dest src m)).

Definition allocate_new_page (size : Z) : M L Z :=
  let st := u32 (u32 (u32 size + SIZEOF_MAJOR) + SIZEOF_MINOR) in
  let st := if st mod l_pageSize =? 0 then st / l_pageSize else u32 (st / l_pageSize + 1) in
  let st := if st <? l_pageCount then l_pageCount else st in
  on_sys (pp_alloc (s32 st)) ≫= λ maj,
  if maj =? 0 then on_heap (h_count 1 0 0) ≫= λ _, mret 0
  else
    on_heap (h_majors <[maj := mk_major 0 0 st (u32 (st * l_pageSize)) SIZEOF_MAJOR 0]>) ≫= λ _,
    on_heap (h_add_allocated (u32 (st * l_pageSize))) ≫= λ _,
    mret maj.

(** What every case does with the header at [min] once its place is found: fill
    it, account for it and align the pointer behind it. *)
Definition fill_minor (maj min prev next size req_size : Z) : M L Z :=
  on_heap (h_minors <[min := mk_minor prev next maj LIBALLOC_MAGIC (u32 size) (u32 req_size)]>) ≫= λ _,
  upd_maj maj (λ m, mj_set_usage (u32 (mj_usage m + (size + SIZEOF_MINOR))) m) ≫= λ _,
  on_heap (h_add_inuse size) ≫= λ _,
  ALIGN (u64 (min + SIZEOF_MINOR)).

(** The loop of CASE 4: [Some p] when it returns [p], [None] past the last minor. *)
Fixpoint scan_minors (fuel : nat) (maj min size req_size : Z) : M L (option Z) :=
  match fuel with
  | O => fail OutOfFuel
  | S fuel =>
      if min =? 0 then mret None
      else
        min_at min ≫= λ mn,
        if mn_next mn =? 0 then
          maj_at maj ≫= λ mj,
          let diff := u64 (maj + mj_size mj - min - SIZEOF_MINOR - mn_size mn) in
          if u64 (size + SIZEOF_MINOR) <=? diff then
            let new := u64 (min + SIZEOF_MINOR + mn_size mn) in
            upd_min min (mn_set_next new) ≫= λ _,
            p ← fill_minor maj new min 0 size req_size; mret (Some p)
          else scan_minors fuel maj 0 size req_size
        else
          let diff := u64 (mn_next mn - min - SIZEOF_MINOR - mn_size mn) in
          if u64 (size + SIZEOF_MINOR) <=? diff then
            let new_min := u64 (min + SIZEOF_MINOR + mn_size mn) in
            upd_min (mn_next mn) (mn_set_prev new_min) ≫= λ _,
            upd_min min (mn_set_next new_min) ≫= λ _,
            p ← fill_minor maj new_min min (mn_next mn) size req_size; mret (Some p)
          else scan_minors fuel maj (mn_next mn) size req_size
  end.

(** CASE 2 to CASE 5 for the block [maj]; [loop] is the next turn of the outer
    loop. *)
Definition malloc_cases (loop : Z → bool → Z → M L Z) (maj : Z) (startedBet : bool) (bestSize size req_size : Z) : M L Z :=
  maj_at maj ≫= λ mj,
  if mj_first mj =? 0 then
    let first := u64 (maj + SIZEOF_MAJOR) in
    upd_maj maj (mj_set_first first) ≫= λ _,
    fill_minor maj first 0 0 size req_size
  else
    let diff := u64 (mj_first mj - maj - SIZEOF_MAJOR) in
    if u64 (size + SIZEOF_MINOR) <=? diff then
      let new := u64 (maj + SIZEOF_MAJOR) in
      upd_min (mj_first mj) (mn_set_prev new) ≫= λ _,
      upd_maj maj (mj_set_first new) ≫= λ _,
      fill_minor maj new 0 (mj_first mj) size req_size
    else
      gets (λ s, S (stdpp.base.size (minors (la_heap s)))) ≫= λ fuel,
      scan_minors fuel maj (mj_first mj) size req_size ≫= λ p,
      match p with
      | Some p => mret p
      | None =>
          if mj_next mj =? 0 then
            if startedBet then gets (λ s, l_memRoot (la_heap s)) ≫= λ root, loop root false bestSize
            else
              allocate_new_page size ≫= λ n,
              upd_maj maj (mj_set_next n) ≫= λ _,
              if n =? 0 then mret 0
              else upd_maj n (mj_set_prev maj) ≫= λ _, loop n startedBet bestSize
          else loop (mj_next mj) startedBet bestSize
      end.

(** [while (maj != NULL)]. *)
Fixpoint malloc_loop (fuel : nat) (maj : Z) (startedBet : bool) (bestSize size req_size : Z) : M L Z :=
  match fuel with
  | O => fail OutOfFuel
  | S fuel =>
      if maj =? 0 then mret 0
      else
        maj_at maj ≫= λ mj,
        let diff := u32 (mj_size mj - mj_usage mj) in
        when (bestSize <? diff) (on_heap (h_bet maj)) ≫= λ _,
        let bestSize := if bestSize <? diff then diff else bestSize in
        let loop maj startedBet bestSize := malloc_loop fuel maj startedBet bestSize size req_size in
        if diff <? u64 (size + SIZEOF_MINOR) then
          if truth (mj_next mj) then loop (mj_next mj) startedBet bestSize
          else if startedBet then gets (λ s, l_memRoot (la_heap s)) ≫= λ root, loop root false bestSize
          else
            allocate_new_page size ≫= λ n,
            upd_maj maj (mj_set_next n) ≫= λ _,
            if n =? 0 then mret 0
            else upd_maj n (mj_set_prev maj) ≫= λ _, malloc_cases loop n startedBet bestSize size req_size
        else malloc_cases loop maj startedBet bestSize size req_size
  end.

(** From the best bet the blocks are passed at most twice, and one is added. *)
Definition MALLOC_FUEL (s : L) : nat := 2 * stdpp.base.size (majors (la_heap s)) + 3.

(** The body of [liballoc_malloc] below the test for a zero size. *)
Definition malloc_nonzero (size req_size : Z) : M L Z :=
  gets (λ s, l_memRoot (la_heap s)) ≫= λ root,
  (if root =? 0 then allocate_new_page size ≫= λ n, on_heap (h_root n) ≫= λ _, mret n else mret root) ≫= λ root,
  if root =? 0 then liballoc_unlock ≫= λ _, mret 0
  else
    gets (λ s, l_bestBet (la_heap s)) ≫= λ bet,
    (if bet =? 0 then mret (root, false, 0)
     else
       maj_at bet ≫= λ mj,
       let bestSize := u32 (mj_size mj - mj_usage mj) in
       mret (if u64 (size + SIZEOF_MINOR) <? bestSize then (bet, true, bestSize) else (root, false, bestSize)))
      ≫= λ '(maj, startedBet, bestSize),
    gets MALLOC_FUEL ≫= λ fuel,
    malloc_loop fuel maj startedBet bestSize size req_size ≫= λ p,
    liballoc_unlock ≫= λ _,
    mret p.

Definition liballoc_malloc (req_size : Z) : M L Z :=
  let size := u64 (req_size + (ALIGNMENT + ALIGN_INFO)) in
  liballoc_lock ≫= λ _,
  if size =? 0 then
    on_heap (h_count 1 0 0) ≫= λ _,
    liballoc_unlock ≫= λ _,
    (* [liballoc_malloc(1)], whose size is not zero *)
    liballoc_lock ≫= λ _, malloc_nonzero (1 + (ALIGNMENT + ALIGN_INFO)) 1
  else malloc_nonzero size req_size.

(** The counters of the branch for a header with the wrong magic number. *)
Definition bad_magic (magic : Z) : M L unit :=
  on_heap (h_count 0 1 0) ≫= λ _,
  when ((Z.land magic 0xFFFFFF =? Z.land LIBALLOC_MAGIC 0xFFFFFF) || (Z.land magic 0xFFFF =? Z.land LIBALLOC_MAGIC 0xFFFF)
        || (Z.land magic 0xFF =? Z.land LIBALLOC_MAGIC 0xFF)) (on_heap (h_count 0 0 1)).

(** The part of [liballoc_free] that takes the header out of its block. *)
Definition unlink_minor (min : Z) (mn : liballoc_minor) : M L unit :=
  on_heap (h_add_inuse (- mn_size mn)) ≫= λ _,
  upd_maj (mn_block mn) (λ m, mj_set_usage (u32 (mj_usage m - (mn_size mn + SIZEOF_MINOR))) m) ≫= λ _,
  upd_min min (mn_set_magic LIBALLOC_DEAD) ≫= λ _,
  when (truth (mn_next mn)) (upd_min (mn_next mn) (mn_set_prev (mn_prev mn))) ≫= λ _,
  when (truth (mn_prev mn)) (upd_min (mn_prev mn) (mn_set_next (mn_next mn))) ≫= λ _,
  when (mn_prev mn =? 0) (upd_maj (mn_block mn) (mj_set_first (mn_next mn))).

(** The clean-up of a block: given back when it is empty, else perhaps the new
    best bet. *)
Definition clean_major (maj : Z) : M L unit :=
  maj_at maj ≫= λ mj,
  if mj_first mj =? 0 then
    gets (λ s, l_memRoot (la_heap s)) ≫= λ root,
    when (root =? maj) (on_heap (h_root (mj_next mj))) ≫= λ _,
    gets (λ s, l_bestBet (la_heap s)) ≫= λ bet,
    when (bet =? maj) (on_heap (h_bet 0)) ≫= λ _,
    when (truth (mj_prev mj)) (upd_maj (mj_prev mj) (mj_set_next (mj_next mj))) ≫= λ _,
    when (truth (mj_next mj)) (upd_maj (mj_next mj) (mj_set_prev (mj_prev mj))) ≫= λ _,
    on_heap (h_add_allocated (- mj_size mj)) ≫= λ _,
    on_sys (pp_free maj (s32 (mj_pages mj)))
  else
    gets (λ s, l_bestBet (la_heap s)) ≫= λ bet,
    if bet =? 0 then mret tt
    else
      maj_at bet ≫= λ b,
      let bestSize := s32 (mj_size b - mj_usage b) in
      let majSize := s32 (mj_size mj - mj_usage mj) in
      when (bestSize <? majSize) (on_heap (h_bet maj)).

Definition liballoc_free (ptr : Z) : M L unit :=
  if ptr =? 0 then on_heap (h_count 1 0 0)
  else
    UNALIGN ptr ≫= λ ptr,
    liballoc_lock ≫= λ _,
    let min := u64 (ptr - SIZEOF_MINOR) in
    min_at min ≫= λ mn,
    if negb (mn_magic mn =? LIBALLOC_MAGIC) then bad_magic (mn_magic mn) ≫= λ _, liballoc_unlock
    else
      unlink_minor min mn ≫= λ _,
      clean_major (mn_block mn) ≫= λ _,
      liballoc_unlock.

Definition liballoc_calloc (nobj size : Z) : M L Z :=
  let real_size := s32 (nobj * size) in
  liballoc_malloc (u64 real_size) ≫= λ p,
  liballoc_memset p 0 (u64 real_size) ≫= λ _,
  mret p.

Definition liballoc_realloc (p size : Z) : M L Z :=
  if size =? 0 then liballoc_free p ≫= λ _, mret 0
  else if p =? 0 then liballoc_malloc size
  else
    UNALIGN p ≫= λ ptr,
    liballoc_lock ≫= λ _,
    let min := u64 (ptr - SIZEOF_MINOR) in
    min_at min ≫= λ mn,
    if negb (mn_magic mn =? LIBALLOC_MAGIC) then bad_magic (mn_magic mn) ≫= λ _, liballoc_unlock ≫= λ _, mret 0
    else
      let real_size := mn_req_size mn in
      if size <=? real_size then
        upd_min min (mn_set_req (u32 size)) ≫= λ _,
        liballoc_unlock ≫= λ _,
        mret p
      else
        liballoc_unlock ≫= λ _,
        liballoc_malloc size ≫= λ ptr,
        liballoc_memcpy ptr p real_size ≫= λ _,
        liballoc_free p ≫= λ _,
        mret ptr.
End liballoc.
