(* ===== verification/LiballocSpec.v ===== *)
(** The heap of libs/liballoc against its specification: a list of regions, each
    with the blocks live in it in the order of their addresses.  [heap_inv] says
    that the headers of [Liballoc] represent such a list; the operations keep it
    and change the set of live blocks as [malloc], [free] and [realloc] should. *)
From S2P Require Import Prelude Machine Dll Liballoc.

(** ** Blocks and regions *)

Record block : Type := mk_block { b_addr : Z; b_size : Z; b_req : Z }.
Record region : Type := mk_region { r_addr : Z; r_pages : Z; r_blocks : list block }.

Definition minor_node (maj prev next : Z) (b : block) : liballoc_minor :=
  mk_minor prev next maj LIBALLOC_MAGIC (b_size b) (b_req b).
Definition used (l : list block) : Z := foldr (λ b n, b_size b + SIZEOF_MINOR + n) 0 l.
Definition major_node (prev next : Z) (r : region) : liballoc_major :=
  mk_major prev next (r_pages r) (r_pages r * 4096) (SIZEOF_MAJOR + used (r_blocks r)) (dhd b_addr (r_blocks r) 0).

Definition b_end (b : block) : Z := b_addr b + SIZEOF_MINOR + b_size b.
Definition r_end (r : region) : Z := r_addr r + r_pages r * 4096.
(** What the caller gets: the first multiple of 16 with the alignment byte below. *)
Definition uptr (b : block) : Z := (b_addr b + SIZEOF_MINOR + ALIGN_INFO + 15) / 16 * 16.
Definition block_fits (b : block) : Prop := 0 ≤ b_req b ∧ b_req b + (ALIGNMENT + ALIGN_INFO) ≤ b_size b.

Fixpoint spaced (lo : Z) (l : list block) (hi : Z) : Prop :=
  match l with
  | [] => lo ≤ hi
  | b :: l => lo ≤ b_addr b ∧ block_fits b ∧ spaced (b_end b) l hi
  end.
Definition dend (l : list block) (lo : Z) : Z := match last l with None => lo | Some b => b_end b end.

Record region_ok (r : region) : Prop := {
  ro_addr : 0 < r_addr r;
  ro_pages : 0 < r_pages r < 0x80000;
  ro_end : r_end r ≤ 0x10000000000000000;
  ro_spaced : spaced (r_addr r + SIZEOF_MAJOR) (r_blocks r) (r_end r)
}.

Lemma uptr_bounds b : b_addr b + 56 ≤ uptr b < b_addr b + 72 ∧ uptr b mod 16 = 0.
Proof.
  unfold uptr, SIZEOF_MINOR, ALIGN_INFO. split; [Z.div_mod_to_equations; lia|]. by apply Z.mod_mul.
Qed.

Lemma dend_cons b l lo : dend (b :: l) lo = dend l (b_end b).
Proof. unfold dend. destruct l as [|c l]; [done|]. rewrite last_cons_cons. by destruct (last (c :: l)) eqn:E; [|apply last_None in E]. Qed.
Lemma spaced_le lo l hi : spaced lo l hi → lo ≤ hi.
Proof.
  revert lo. induction l as [|b l IH]; intros lo; [done|]. intros (H1 & [H2 H3] & H4). apply IH in H4.
  unfold b_end, SIZEOF_MINOR, ALIGNMENT, ALIGN_INFO in *. lia.
Qed.
Lemma spaced_app lo l1 l2 hi : spaced lo (l1 ++ l2) hi ↔ spaced lo l1 (dhd b_addr l2 hi) ∧ spaced (dend l1 lo) l2 hi.
Proof.
  revert lo. induction l1 as [|b l1 IH]; intros lo; cbn [app spaced].
  - change (dend [] lo) with lo. destruct l2 as [|c l2]; cbn; [naive_solver|]. naive_solver.
  - rewrite IH, dend_cons. naive_solver.
Qed.
Lemma spaced_in lo l hi b : spaced lo l hi → b ∈ l → lo ≤ b_addr b ∧ b_end b ≤ hi ∧ block_fits b.
Proof.
  intros Hs (l1 & l2 & ->)%list_elem_of_split. apply spaced_app in Hs as [H1 H2]. cbn [dhd] in H1.
  apply spaced_le in H1. destruct H2 as (H2 & H3 & H4). by apply spaced_le in H4.
Qed.
Lemma spaced_hi lo l hi hi' : spaced lo l hi → hi ≤ hi' → spaced lo l hi'.
Proof. revert lo. induction l as [|b l IH]; intros lo; cbn [spaced]; [lia|]. naive_solver. Qed.
Lemma spaced_lo lo lo' l hi : spaced lo l hi → lo' ≤ lo → spaced lo' l hi.
Proof. destruct l; cbn [spaced]; [lia|]. intros (? & ? & ?) ?. split; [lia|done]. Qed.
Lemma spaced_dend lo l hi : spaced lo l hi → lo ≤ dend l lo ≤ hi.
Proof.
  intros Hs. rewrite <- (app_nil_r l) in Hs. apply spaced_app in Hs as [H1 H2]. cbn [spaced] in H2. split; [|done].
  clear H2. cbn [dhd] in H1. revert lo H1. induction l as [|b l IH]; intros lo; [done|]. intros (H1 & [H2 H3] & H4).
  rewrite dend_cons. apply IH in H4. unfold b_end, SIZEOF_MINOR, ALIGNMENT, ALIGN_INFO in *. lia.
Qed.
Lemma block_len b : block_fits b → b_addr b + 72 ≤ b_end b.
Proof. unfold block_fits, b_end, SIZEOF_MINOR, ALIGNMENT, ALIGN_INFO. lia. Qed.

(** Two blocks of a region are the same or apart. *)
Lemma spaced_apart lo l hi b c : spaced lo l hi → b ∈ l → c ∈ l → b = c ∨ b_end b ≤ b_addr c ∨ b_end c ≤ b_addr b.
Proof.
  intros Hs Hb Hc. apply list_elem_of_split in Hb as (l1 & l2 & ->). apply spaced_app in Hs as [H1 (H2 & Hf & H3)]. cbn [dhd] in H1.
  apply elem_of_app in Hc as [Hc|[->|Hc]%elem_of_cons]; [|by left|].
  - destruct (spaced_in _ _ _ c H1 Hc) as (_ & ? & _). auto.
  - destruct (spaced_in _ _ _ c H3 Hc) as (? & _ & _). auto.
Qed.
Lemma spaced_nodup lo l hi : spaced lo l hi → NoDup (b_addr <$> l).
Proof.
  revert lo. induction l as [|b l IH]; intros lo; [constructor|]. intros (H1 & Hf & H2). rewrite fmap_cons. constructor; [|by eapply IH].
  intros Hin. apply list_elem_of_fmap in Hin as (c & Heq & Hc). destruct (spaced_in _ _ _ c H2 Hc) as (? & _ & _).
  pose proof (block_len b Hf). lia.
Qed.

Lemma used_app l1 l2 : used (l1 ++ l2) = used l1 + used l2.
Proof. induction l1 as [|b l1 IH]; [done|]. cbn [app used foldr]. fold (used (l1 ++ l2)) (used l1). lia. Qed.
Lemma used_cons b l : used (b :: l) = b_size b + SIZEOF_MINOR + used l.
Proof. done. Qed.
Lemma used_nonneg lo l hi : spaced lo l hi → 0 ≤ used l ≤ hi - lo.
Proof.
  revert lo. induction l as [|b l IH]; intros lo; cbn [spaced]; [cbn; lia|]. intros (H1 & [Hr Hs] & H2). apply IH in H2.
  rewrite used_cons. unfold b_end, SIZEOF_MINOR, ALIGNMENT, ALIGN_INFO in *. lia.
Qed.

Lemma spaced_grow lo l hi hi' : spaced lo l hi → dend l lo ≤ hi' → spaced lo l hi'.
Proof.
  revert lo. induction l as [|c l IH]; intros lo; [done|]. cbn [spaced]. rewrite dend_cons. intros (? & ? & ?) ?. auto.
Qed.
Lemma spaced_insert lo l1 l2 hi b :
  spaced lo (l1 ++ l2) hi → dend l1 lo ≤ b_addr b → block_fits b → b_end b ≤ dhd b_addr l2 hi → spaced lo (l1 ++ b :: l2) hi.
Proof.
  rewrite !spaced_app. intros [H1 H2] Hlo Hf Hhi. cbn [dhd spaced]. split_and!; try done.
  - by apply (spaced_grow _ _ (dhd b_addr l2 hi)).
  - destruct l2 as [|c l2]; cbn [dhd spaced] in *; [lia|]. destruct H2 as (? & ? & ?). done.
Qed.
Lemma spaced_remove lo l1 l2 hi b : spaced lo (l1 ++ b :: l2) hi → spaced lo (l1 ++ l2) hi.
Proof.
  rewrite !spaced_app. intros [H1 (H2 & Hf & H3)]. cbn [dhd] in H1. pose proof (block_len b Hf).
  pose proof (spaced_le _ _ _ H3). split.
  - eapply spaced_hi; [done|]. destruct l2; cbn [dhd]; [lia|]. destruct H3 as [H3 _]. lia.
  - eapply spaced_lo; [done|]. lia.
Qed.

(** ** The representation *)

Notation majors_rep := (dseg r_addr major_node).
Notation minors_rep r N := (dseg b_addr (minor_node (r_addr r)) N 0 (r_blocks r) 0).

Record heap_rep (R : list region) (M : gmap Z liballoc_major) (N : gmap Z liballoc_minor) (mem : memory) : Prop := {
  hr_majors : majors_rep M 0 R 0;
  hr_minors r : r ∈ R → minors_rep r N;
  hr_layout r : r ∈ R → region_ok r;
  hr_nodup : NoDup (r_addr <$> R);
  hr_apart r1 r2 : r1 ∈ R → r2 ∈ R → r1 = r2 ∨ r_end r1 ≤ r_addr r2 ∨ r_end r2 ≤ r_addr r1;
  hr_align r b : r ∈ R → b ∈ r_blocks r → load8 mem (uptr b - ALIGN_INFO) = uptr b - (b_addr b + SIZEOF_MINOR)
}.

(** The addresses of the live blocks, headers included, and of the regions. *)
Definition owned (R : list region) (x : Z) : Prop :=
  ∃ r b, r ∈ R ∧ b ∈ r_blocks r ∧ in_block (b_addr b) (SIZEOF_MINOR + b_size b) x.
Definition covered (R : list region) (x : Z) : Prop := ∃ r, r ∈ R ∧ in_block (r_addr r) (r_pages r * 4096) x.
(** The areas the callers hold. *)
Definition live (R : list region) : list (Z * Z) :=
  R ≫= λ r, map (λ b, (uptr b, b_req b)) (r_blocks r).

Lemma elem_of_live R a : a ∈ live R ↔ ∃ r b, r ∈ R ∧ b ∈ r_blocks r ∧ a = (uptr b, b_req b).
Proof.
  unfold live. rewrite list_elem_of_bind. split.
  - intros (r & Ha & Hr). apply list_elem_of_In, in_map_iff in Ha as (b & <- & Hb). exists r, b.
    split_and!; [done|by apply list_elem_of_In|done].
  - intros (r & b & Hr & Hb & ->). exists r. split; [|done]. apply list_elem_of_In, in_map_iff. exists b. split; [done|by apply list_elem_of_In].
Qed.
Lemma block_in_region R M N mem r b :
  heap_rep R M N mem → r ∈ R → b ∈ r_blocks r →
  r_addr r + SIZEOF_MAJOR ≤ b_addr b ∧ b_end b ≤ r_end r ∧ block_fits b ∧ 0 < r_addr r ∧ r_end r ≤ 0x10000000000000000.
Proof.
  intros Hrep Hr Hb. destruct (hr_layout _ _ _ _ Hrep r Hr) as [H1 H2 H3 Hs].
  destruct (spaced_in _ _ _ _ Hs Hb) as (? & ? & ?). split_and!; done || lia.
Qed.

(** Live blocks are the same or apart, whatever their regions. *)
Lemma blocks_apart R M N mem r1 r2 b1 b2 :
  heap_rep R M N mem → r1 ∈ R → r2 ∈ R → b1 ∈ r_blocks r1 → b2 ∈ r_blocks r2 →
  r1 = r2 ∧ b1 = b2 ∨ b_end b1 ≤ b_addr b2 ∨ b_end b2 ≤ b_addr b1.
Proof.
  intros Hrep Hr1 Hr2 Hb1 Hb2. destruct (hr_apart _ _ _ _ Hrep r1 r2 Hr1 Hr2) as [<-|Hd].
  - destruct (hr_layout _ _ _ _ Hrep r1 Hr1) as [_ _ _ Hs]. destruct (spaced_apart _ _ _ _ _ Hs Hb1 Hb2) as [->|?]; auto.
  - right. destruct (block_in_region _ _ _ _ _ _ Hrep Hr1 Hb1) as (? & ? & ? & ? & ?), (block_in_region _ _ _ _ _ _ Hrep Hr2 Hb2) as (? & ? & ? & ? & ?).
    unfold SIZEOF_MAJOR in *. lia.
Qed.

Lemma elem_of_middle {A} (x y : A) l1 l2 : x ∈ l1 ++ y :: l2 ↔ x = y ∨ x ∈ l1 ++ l2.
Proof. set_solver. Qed.

(** What [malloc] does to the stores when it puts a block in a region between
    the parts [l1] and [l2] of its list. *)
Definition relink_first (l1 : list block) (a r : Z) (M : gmap Z liballoc_major) : gmap Z liballoc_major :=
  match l1 with [] => alter (mj_set_first a) r M | _ => M end.
Definition add_usage (size : Z) (m : liballoc_major) : liballoc_major := mj_set_usage (u32 (mj_usage m + (size + SIZEOF_MINOR))) m.
Definition minors_insert (r : region) (l1 l2 : list block) (b : block) (N : gmap Z liballoc_minor) : gmap Z liballoc_minor :=
  <[b_addr b := minor_node (r_addr r) (dlast b_addr l1 0) (dhd b_addr l2 0) b]>
    (relink_next b_addr mn_set_next l1 (b_addr b) (relink_prev b_addr mn_set_prev l2 (b_addr b) N)).
Definition with_blocks (l : list block) (r : region) : region := mk_region (r_addr r) (r_pages r) l.

Definition gap (r : region) (l1 l2 : list block) (b : block) : Prop :=
  r_blocks r = l1 ++ l2 ∧ block_fits b ∧ dend l1 (r_addr r + SIZEOF_MAJOR) ≤ b_addr b ∧ b_end b ≤ dhd b_addr l2 (r_end r).

Lemma gap_region_ok r l1 l2 b : region_ok r → gap r l1 l2 b → region_ok (with_blocks (l1 ++ b :: l2) r).
Proof.
  intros [H1 H2 H3 H4] (Hl & Hf & Hlo & Hhi). split; try done. cbn [with_blocks r_addr r_pages r_blocks].
  rewrite Hl in H4. by apply spaced_insert.
Qed.
Lemma gap_apart R M N mem r l1 l2 b r' c :
  heap_rep R M N mem → r ∈ R → gap r l1 l2 b → r' ∈ R → c ∈ r_blocks r' → b_end b ≤ b_addr c ∨ b_end c ≤ b_addr b.
Proof.
  intros Hrep Hr Hg Hr' Hc. pose proof (hr_layout _ _ _ _ Hrep r Hr) as Hro.
  pose proof (gap_region_ok _ _ _ _ Hro Hg) as [_ _ _ Hs]. cbn [with_blocks r_addr r_pages r_blocks] in Hs.
  destruct Hg as (Hl & Hf & Hlo & Hhi).
  destruct (spaced_in _ _ _ b Hs) as (Hb1 & Hb2 & _); [set_solver|]. change (r_end (with_blocks _ r)) with (r_end r) in Hb2.
  destruct (hr_apart _ _ _ _ Hrep r r' Hr Hr') as [<-|Hd].
  - rewrite Hl in Hc. pose proof (spaced_nodup _ _ _ Hs) as Hnd.
    destruct (spaced_apart _ _ _ b c Hs) as [->|?]; [set_solver|set_solver| |done].
    exfalso. by apply (fresh_of_nodup b_addr _ _ _ Hnd c).
  - destruct (block_in_region _ _ _ _ _ _ Hrep Hr' Hc) as (? & ? & ? & ? & ?). unfold SIZEOF_MAJOR in *. lia.
Qed.

Lemma minors_insert_other r r' l1 l2 b N :
  (∀ c, c ∈ l1 ++ l2 → fresh b_addr (b_addr c) (r_blocks r')) → fresh b_addr (b_addr b) (r_blocks r') →
  minors_rep r' N → minors_rep r' (minors_insert r l1 l2 b N).
Proof.
  intros Hc Hb HN. unfold minors_insert. apply dseg_insert_fresh; [done|].
  apply dseg_relink_next_fresh; [set_solver|]. apply dseg_relink_prev_fresh; [set_solver|done].
Qed.

(** Headers of different regions are at different addresses. *)
Lemma regions_fresh R M N mem r r' c :
  heap_rep R M N mem → r ∈ R → r' ∈ R → r ≠ r' → c ∈ r_blocks r → fresh b_addr (b_addr c) (r_blocks r').
Proof.
  intros Hrep Hr Hr' Hne Hc d Hd Heq.
  destruct (block_in_region _ _ _ _ _ _ Hrep Hr Hc) as (_ & _ & Hf1 & _), (block_in_region _ _ _ _ _ _ Hrep Hr' Hd) as (_ & _ & Hf2 & _).
  pose proof (block_len _ Hf1). pose proof (block_len _ Hf2).
  destruct (blocks_apart _ _ _ _ _ _ _ _ Hrep Hr Hr' Hc Hd) as [[? _]|?]; [done|lia].
Qed.

Lemma used_bound r : region_ok r → 0 ≤ used (r_blocks r) ∧ SIZEOF_MAJOR + used (r_blocks r) ≤ r_pages r * 4096 ∧ r_pages r * 4096 < 0x80000000.
Proof.
  intros [H1 H2 H3 H4]. pose proof (used_nonneg _ _ _ H4). unfold r_end in *. lia.
Qed.

Lemma majors_insert M A r B l1 l2 b :
  NoDup (r_addr <$> A ++ r :: B) → majors_rep M 0 (A ++ r :: B) 0 → region_ok r → gap r l1 l2 b →
  majors_rep (alter (add_usage (b_size b)) (r_addr r) (relink_first l1 (b_addr b) (r_addr r) M)) 0
    (A ++ with_blocks (l1 ++ b :: l2) r :: B) 0.
Proof.
  intros Hnd HM Hro Hg. pose proof (used_bound _ (gap_region_ok _ _ _ _ Hro Hg)) as Hu. cbn [with_blocks r_blocks r_pages] in Hu.
  rewrite used_app, used_cons in Hu. destruct Hg as (Hl & Hf & _). pose proof (used_bound _ Hro) as Hu'.
  rewrite Hl, used_app in Hu'.
  assert (∀ p n, add_usage (b_size b) (mj_set_first (dhd b_addr (l1 ++ b :: l2) 0) (major_node p n r)) =
    major_node p n (with_blocks (l1 ++ b :: l2) r)) as Hnode.
  { intros p n. unfold add_usage, mj_set_usage, mj_set_first, major_node. cbn [mj_prev mj_next mj_pages mj_size mj_usage mj_first with_blocks r_blocks r_pages].
    f_equal. rewrite Hl, !used_app, used_cons, u32_small; unfold SIZEOF_MAJOR, SIZEOF_MINOR in *; lia. }
  destruct l1 as [|c l1]; cbn [relink_first app].
  - rewrite alter_alter_eq. apply dseg_update; [done|done|exact Hnode|done].
  - apply dseg_update; [done|done| |done]. intros p n. rewrite <- Hnode. f_equal.
    unfold mj_set_first, major_node. cbn [mj_prev mj_next mj_pages mj_size mj_usage mj_first]. by rewrite Hl.
Qed.

Lemma load8_align_byte mem b x :
  0 < b_addr b → b_addr b + 72 ≤ 0x10000000000000000 → 0 ≤ x < 0x10000000000000000 →
  load8 (store8 (uptr b - ALIGN_INFO) (uptr b - (b_addr b + SIZEOF_MINOR)) mem) x =
    if x =? uptr b - ALIGN_INFO then uptr b - (b_addr b + SIZEOF_MINOR) else load8 mem x.
Proof.
  intros H1 H2 Hx. pose proof (uptr_bounds b) as [Hu _]. unfold ALIGN_INFO, SIZEOF_MINOR in *.
  rewrite load8_store8 by lia. destruct (Z.eqb_spec x (uptr b - 16)); [|done]. rewrite u8_small; lia.
Qed.

Lemma rep_insert A r B M N mem l1 l2 b :
  heap_rep (A ++ r :: B) M N mem → gap r l1 l2 b →
  heap_rep (A ++ with_blocks (l1 ++ b :: l2) r :: B)
    (alter (add_usage (b_size b)) (r_addr r) (relink_first l1 (b_addr b) (r_addr r) M))
    (minors_insert r l1 l2 b N) (store8 (uptr b - ALIGN_INFO) (uptr b - (b_addr b + SIZEOF_MINOR)) mem).
Proof.
  intros Hrep Hg. set (r' := with_blocks _ r). pose proof Hrep as [HM HN HL Hnd Hd Ha].
  assert (r ∈ A ++ r :: B) as Hr by set_solver. pose proof (HL r Hr) as Hro.
  pose proof (gap_region_ok _ _ _ _ Hro Hg) as Hro'. fold r' in Hro'.
  pose proof Hro' as [Hp0 _ Hend Hs']. pose proof Hg as (Hl & Hf & Hlo & Hhi).
  destruct (spaced_in _ _ _ b Hs') as (Hb1 & Hb2 & _); [cbn; set_solver|]. pose proof (block_len b Hf) as Hlen.
  assert (∀ q, q ∈ A ++ r' :: B → q = r' ∨ q ∈ A ++ r :: B ∧ q ≠ r) as Hcase.
  { intros q Hq. apply elem_of_middle in Hq as [->|Hq]; [by left|]. right. split; [set_solver|]. intros ->.
    by apply (fresh_of_nodup r_addr _ _ _ Hnd r). }
  split.
  - by apply majors_insert.
  - intros q Hq. destruct (Hcase q Hq) as [->|[Hq' Hne]].
    + unfold minors_insert, r'. cbn [with_blocks r_blocks r_addr]. pose proof (HN r Hr) as HNr. rewrite Hl in HNr.
      pose proof (spaced_nodup _ _ _ Hs') as Hnb. unfold r' in Hnb. cbn [with_blocks r_blocks] in Hnb.
      pose proof (spaced_nodup _ _ _ (ro_spaced _ Hro)) as Hnr. rewrite Hl in Hnr.
      apply dseg_insert; [done|done|done|by apply fresh_of_nodup|done].
    + apply minors_insert_other; [| |by apply HN].
      * intros c Hc. apply (regions_fresh _ _ _ _ r q c Hrep); [done|done|congruence|by rewrite Hl].
      * intros c Hc Heq. destruct (gap_apart _ _ _ _ _ _ _ _ _ _ Hrep Hr Hg Hq' Hc); [lia|].
        destruct (block_in_region _ _ _ _ _ _ Hrep Hq' Hc) as (_ & _ & Hfc & _). pose proof (block_len c Hfc). lia.
  - intros q Hq. destruct (Hcase q Hq) as [->|[Hq' _]]; [done|by apply HL].
  - revert Hnd. rewrite !fmap_app, !fmap_cons. done.
  - intros q1 q2 Hq1 Hq2. destruct (Hcase q1 Hq1) as [->|[Hq1' Hn1]], (Hcase q2 Hq2) as [->|[Hq2' Hn2]].
    + by left.
    + right. destruct (Hd r q2 Hr Hq2') as [?|?]; [congruence|done].
    + right. destruct (Hd q1 r Hq1' Hr) as [?|?]; [congruence|done].
    + by apply Hd.
  - intros q c Hq Hc. change (r_end r') with (r_end r) in *.
    assert (c = b ∨ ∃ q', q' ∈ A ++ r :: B ∧ c ∈ r_blocks q') as [->|(q' & Hq' & Hc')].
    { destruct (Hcase q Hq) as [->|[Hq' _]]; [|eauto]. unfold r' in Hc. cbn [with_blocks r_blocks] in Hc.
      apply elem_of_middle in Hc as [->|Hc]; [by left|]. right. exists r. by rewrite Hl. }
    + rewrite load8_align_byte; [by rewrite Z.eqb_refl|..]; pose proof (uptr_bounds b); unfold ALIGN_INFO, SIZEOF_MAJOR in *; cbn [r' with_blocks r_addr] in *; lia.
    + destruct (block_in_region _ _ _ _ _ _ Hrep Hq' Hc') as (Hc1 & Hc2 & Hfc & Hc3 & Hc4). pose proof (block_len c Hfc).
      pose proof (uptr_bounds b). pose proof (uptr_bounds c).
      rewrite load8_align_byte; unfold ALIGN_INFO, SIZEOF_MAJOR in *; cbn [r' with_blocks r_addr] in *; [|lia..].
      destruct (Z.eqb_spec (uptr c - 16) (uptr b - 16)) as [Heq|_]; [|by apply (Ha q' c)].
      destruct (gap_apart _ _ _ _ _ _ _ _ _ _ Hrep Hr Hg Hq' Hc'); lia.
Qed.

Lemma owned_covered R M N mem x : heap_rep R M N mem → owned R x → covered R x ∧ 0 ≤ x < 0x10000000000000000.
Proof.
  intros Hrep (r & b & Hr & Hb & Hx). destruct (block_in_region _ _ _ _ _ _ Hrep Hr Hb) as (H1 & H2 & Hf & H3 & H4).
  unfold in_block, b_end, r_end, SIZEOF_MAJOR in *. split; [|lia]. exists r. unfold in_block. split; [done|lia].
Qed.
Lemma align_owned R M N mem r b : heap_rep R M N mem → r ∈ R → b ∈ r_blocks r → owned R (uptr b - ALIGN_INFO).
Proof.
  intros Hrep Hr Hb. destruct (block_in_region _ _ _ _ _ _ Hrep Hr Hb) as (_ & _ & [H1 H2] & _). exists r, b. split_and!; [done..|].
  pose proof (uptr_bounds b). unfold in_block, ALIGN_INFO, ALIGNMENT, SIZEOF_MINOR in *. lia.
Qed.
(** A representation survives writes outside its blocks. *)
Lemma rep_mem R M N mem mem' :
  heap_rep R M N mem → (∀ x, owned R x → load8 mem' x = load8 mem x) → heap_rep R M N mem'.
Proof.
  intros Hrep Heq. split; try apply Hrep. intros r b Hr Hb. rewrite Heq; [by apply (hr_align _ _ _ _ Hrep r)|by eapply align_owned].
Qed.

(** *** Taking a block out *)

Definition sub_usage (size : Z) (m : liballoc_major) : liballoc_major := mj_set_usage (u32 (mj_usage m - (size + SIZEOF_MINOR))) m.
Definition minors_remove (l1 l2 : list block) (b : block) (N : gmap Z liballoc_minor) : gmap Z liballoc_minor :=
  relink_next b_addr mn_set_next l1 (dhd b_addr l2 0)
    (relink_prev b_addr mn_set_prev l2 (dlast b_addr l1 0) (alter (mn_set_magic LIBALLOC_DEAD) (b_addr b) N)).

Lemma removed_region_ok r l1 l2 b : region_ok r → r_blocks r = l1 ++ b :: l2 → region_ok (with_blocks (l1 ++ l2) r).
Proof.
  intros [H1 H2 H3 H4] Hl. split; try done. cbn [with_blocks r_addr r_pages r_blocks]. rewrite Hl in H4. by eapply spaced_remove.
Qed.
Lemma majors_remove M A r B l1 l2 b :
  NoDup (r_addr <$> A ++ r :: B) → majors_rep M 0 (A ++ r :: B) 0 → region_ok r → r_blocks r = l1 ++ b :: l2 →
  majors_rep (relink_first l1 (dhd b_addr l2 0) (r_addr r) (alter (sub_usage (b_size b)) (r_addr r) M)) 0
    (A ++ with_blocks (l1 ++ l2) r :: B) 0.
Proof.
  intros Hnd HM Hro Hl. pose proof (used_bound _ Hro) as Hu. pose proof (used_bound _ (removed_region_ok _ _ _ _ Hro Hl)) as Hu'.
  cbn [with_blocks r_blocks r_pages] in Hu'. rewrite Hl, !used_app, ?used_cons in *.
  assert (∀ p n, sub_usage (b_size b) (mj_set_first (dhd b_addr (l1 ++ l2) 0) (major_node p n r)) =
    major_node p n (with_blocks (l1 ++ l2) r)) as Hnode.
  { intros p n. unfold sub_usage, mj_set_usage, mj_set_first, major_node. cbn [mj_prev mj_next mj_pages mj_size mj_usage mj_first with_blocks r_blocks r_pages].
    f_equal. rewrite Hl, !used_app, used_cons, u32_small; unfold SIZEOF_MAJOR, SIZEOF_MINOR in *; lia. }
  destruct l1 as [|c l1]; cbn [relink_first app].
  - rewrite alter_alter_eq. apply dseg_update; [done|done| |done]. exact Hnode.
  - apply dseg_update; [done|done| |done]. intros p n. rewrite <- Hnode. f_equal.
    unfold mj_set_first, major_node. cbn [mj_prev mj_next mj_pages mj_size mj_usage mj_first]. by rewrite Hl.
Qed.

Lemma minors_remove_other r' l1 l2 b N :
  (∀ c, c ∈ l1 ++ b :: l2 → fresh b_addr (b_addr c) (r_blocks r')) →
  minors_rep r' N → minors_rep r' (minors_remove l1 l2 b N).
Proof.
  intros Hc HN. unfold minors_remove. apply dseg_relink_next_fresh; [set_solver|].
  apply dseg_relink_prev_fresh; [set_solver|]. apply dseg_alter_fresh; [set_solver|done].
Qed.

Lemma rep_remove A r B M N mem l1 l2 b :
  heap_rep (A ++ r :: B) M N mem → r_blocks r = l1 ++ b :: l2 →
  heap_rep (A ++ with_blocks (l1 ++ l2) r :: B)
    (relink_first l1 (dhd b_addr l2 0) (r_addr r) (alter (sub_usage (b_size b)) (r_addr r) M)) (minors_remove l1 l2 b N) mem.
Proof.
  intros Hrep Hl. set (r' := with_blocks _ r). pose proof Hrep as [HM HN HL Hnd Hd Ha].
  assert (r ∈ A ++ r :: B) as Hr by set_solver. pose proof (HL r Hr) as Hro.
  assert (∀ q, q ∈ A ++ r' :: B → q = r' ∨ q ∈ A ++ r :: B ∧ q ≠ r) as Hcase.
  { intros q Hq. apply elem_of_middle in Hq as [->|Hq]; [by left|]. right. split; [set_solver|]. intros ->.
    by apply (fresh_of_nodup r_addr _ _ _ Hnd r). }
  split.
  - by apply majors_remove.
  - intros q Hq. destruct (Hcase q Hq) as [->|[Hq' Hne]].
    + unfold minors_remove, r'. cbn [with_blocks r_blocks r_addr]. pose proof (HN r Hr) as HNr. rewrite Hl in HNr.
      pose proof (spaced_nodup _ _ _ (ro_spaced _ Hro)) as Hnb. rewrite Hl in Hnb.
      apply (dseg_remove b_addr (minor_node (r_addr r)) mn_set_prev mn_set_next) with (m := N) (a := b); [done|done|done| |done].
      intros k Hk. by apply lookup_alter_ne.
    + apply minors_remove_other; [|by apply HN]. rewrite <- Hl. intros c Hc. by apply (regions_fresh _ _ _ _ r q c Hrep).
  - intros q Hq. destruct (Hcase q Hq) as [->|[Hq' _]]; [by eapply removed_region_ok|by apply HL].
  - revert Hnd. rewrite !fmap_app, !fmap_cons. done.
  - intros q1 q2 Hq1 Hq2. destruct (Hcase q1 Hq1) as [->|[Hq1' Hn1]], (Hcase q2 Hq2) as [->|[Hq2' Hn2]].
    + by left.
    + right. destruct (Hd r q2 Hr Hq2') as [?|?]; [congruence|done].
    + right. destruct (Hd q1 r Hq1' Hr) as [?|?]; [congruence|done].
    + by apply Hd.
  - intros q c Hq Hc. destruct (Hcase q Hq) as [->|[Hq' _]]; [|by apply (Ha q c)].
    apply (Ha r c Hr). rewrite Hl. unfold r' in Hc. cbn [with_blocks r_blocks] in Hc. set_solver.
Qed.

(** *** Dropping a region, adding one *)

Lemma rep_drop A r B M N mem :
  heap_rep (A ++ r :: B) M N mem →
  heap_rep (A ++ B) (relink_prev r_addr mj_set_prev B (dlast r_addr A 0) (relink_next r_addr mj_set_next A (dhd r_addr B 0) M)) N mem.
Proof.
  intros [HM HN HL Hnd Hd Ha]. assert (∀ q, q ∈ A ++ B → q ∈ A ++ r :: B) as Hsub by set_solver.
  split; try (intros; (apply HN || apply HL || apply Hd || eapply Ha); auto; fail).
  - apply (dseg_remove r_addr major_node mj_set_prev mj_set_next) with (m := M) (a := r); done.
  - revert Hnd. rewrite !fmap_app, fmap_cons. rewrite <- Permutation_middle. by intros [_ ?]%NoDup_cons.
  - intros q b Hq Hb. by apply (Ha q b); [apply Hsub|].
Qed.

Definition fresh_region (n st : Z) : region := mk_region n st [].
Definition fresh_page (R : list region) (n st : Z) : Prop :=
  0 < n ∧ 0 < st < 0x80000 ∧ n + st * 4096 ≤ 0x10000000000000000 ∧ ∀ x, covered R x → ¬ in_block n (st * 4096) x.

Lemma fresh_page_apart R M N mem n st r : heap_rep R M N mem → fresh_page R n st → r ∈ R → n + st * 4096 ≤ r_addr r ∨ r_end r ≤ n.
Proof.
  intros Hrep (H1 & H2 & H3 & Hno) Hr. destruct (hr_layout _ _ _ _ Hrep r Hr) as [H4 H5 _ _].
  destruct (decide (n + st * 4096 ≤ r_addr r)); [by left|]. destruct (decide (r_end r ≤ n)); [by right|]. exfalso.
  unfold r_end in *. apply (Hno (Z.max n (r_addr r))); [exists r; split; [done|]|]; unfold in_block; lia.
Qed.
Lemma rep_append R M N mem n st :
  heap_rep R M N mem → fresh_page R n st →
  heap_rep (R ++ [fresh_region n st])
    (alter (mj_set_prev (dlast r_addr R 0)) n (relink_next r_addr mj_set_next R n (<[n := mk_major 0 0 st (st * 4096) SIZEOF_MAJOR 0]> M))) N mem.
Proof.
  intros Hrep Hf. pose proof Hrep as [HM HN HL Hnd Hd Ha]. pose proof Hf as (H1 & H2 & H3 & _).
  assert (∀ r, r ∈ R → n + st * 4096 ≤ r_addr r ∨ r_end r ≤ n) as Hapart by (intros r Hr; by eapply fresh_page_apart).
  assert (fresh r_addr n R) as Hfr.
  { intros r Hr Heq. destruct (HL r Hr) as [_ ? _ _]. destruct (Hapart r Hr); unfold r_end in *; lia. }
  split.
  - apply (dseg_append r_addr major_node mj_set_prev mj_set_next) with (a := fresh_region n st); done.
  - intros r [Hr| ->%list_elem_of_singleton]%elem_of_app; [by apply HN|done].
  - intros r [Hr| ->%list_elem_of_singleton]%elem_of_app; [by apply HL|]. split; cbn; try done; unfold r_end, SIZEOF_MAJOR; cbn; lia.
  - rewrite fmap_app, NoDup_app. split_and!; [done| |apply NoDup_singleton].
    intros x Hx ->%list_elem_of_singleton. apply list_elem_of_fmap in Hx as (r & Heq & Hr). by apply (Hfr r).
  - intros r1 r2 [Hr1| ->%list_elem_of_singleton]%elem_of_app [Hr2| ->%list_elem_of_singleton]%elem_of_app; [by apply Hd|right..|by left].
    + destruct (Hapart r1 Hr1); auto.
    + destruct (Hapart r2 Hr2); auto.
  - intros r b [Hr| ->%list_elem_of_singleton]%elem_of_app Hb; [by apply (Ha r)|by apply elem_of_nil in Hb].
Qed.

(** *** [liballoc_memcpy] on areas that do not overlap *)

Lemma load8_store_le n a v m x :
  block_ok a (Z.of_nat n) → 0 ≤ x < 0x10000000000000000 →
  load8 (store_le n a v m) x = if decide (in_block a (Z.of_nat n) x) then v / 0x100 ^ (x - a) mod 0x100 else load8 m x.
Proof.
  revert a v m. induction n as [|n IH]; intros a v m Ha Hx.
  - rewrite decide_False by (unfold in_block; lia). done.
  - cbn [store_le]. unfold block_ok in Ha. rewrite IH by (unfold block_ok; lia). unfold in_block.
    destruct (decide (x = a)) as [->|Hne].
    + rewrite decide_False, decide_True by lia. rewrite load8_store8_eq. rewrite Z.sub_diag, Z.pow_0_r, Z.div_1_r. done.
    + destruct (decide (a ≤ x < a + Z.of_nat (S n))) as [Hin|Hout].
      * rewrite decide_True by lia. rewrite Z.div_div by (try apply Z.pow_nonneg; try apply Z.pow_pos_nonneg; lia).
        f_equal. f_equal. replace (x - a) with (Z.succ (x - (a + 1))) by lia. rewrite Z.pow_succ_r by lia. done.
      * rewrite decide_False by lia. rewrite load8_store8 by lia. destruct (Z.eqb_spec x a); [lia|done].
Qed.
Lemma load_le_byte n m a i : 0 ≤ i < Z.of_nat n → load_le n m a / 0x100 ^ i mod 0x100 = load8 m (a + i).
Proof.
  revert a i. induction n as [|n IH]; intros a i Hi; [lia|]. cbn [load_le]. pose proof (load8_range m a).
  destruct (decide (i = 0)) as [->|Hne].
  - rewrite Z.pow_0_r, Z.div_1_r, Z.add_0_r, Z.mul_comm, Z.mod_add by lia. by apply Z.mod_small.
  - replace i with (Z.succ (i - 1)) at 1 by lia. rewrite Z.pow_succ_r by lia.
    rewrite <- Z.div_div by (try apply Z.pow_pos_nonneg; lia). rewrite (Z.mul_comm 0x100 (load_le n m (a + 1))), Z.div_add by lia.
    rewrite (Z.div_small (load8 m a)) by lia. rewrite Z.add_0_l, IH by lia. f_equal. lia.
Qed.
Lemma load8_copy_words k dest src m x :
  block_ok dest (4 * Z.of_nat k) → block_ok src (4 * Z.of_nat k) → blocks_disjoint dest (4 * Z.of_nat k) src (4 * Z.of_nat k) →
  0 ≤ x < 0x10000000000000000 →
  load8 (copy_words k dest src m) x = if decide (in_block dest (4 * Z.of_nat k) x) then load8 m (src + (x - dest)) else load8 m x.
Proof.
  unfold block_ok, blocks_disjoint, in_block. revert dest src m.
  induction k as [|k IH]; intros dest src m Hd Hs Hdis Hx; cbn [copy_words]; [by rewrite decide_False by lia|].
  assert (∀ y, 0 ≤ y < 0x10000000000000000 → load8 (store_le 4 dest (load_le 4 m src) m) y =
    if decide (dest ≤ y < dest + 4) then load8 m (src + (y - dest)) else load8 m y) as Hw.
  { intros y Hy. rewrite load8_store_le by (unfold block_ok; lia). change (Z.of_nat 4) with 4. unfold in_block.
    destruct (decide (dest ≤ y < dest + 4)); [|done]. rewrite load_le_byte by lia. done. }
  rewrite IH by lia. destruct (decide (dest + 4 ≤ x < dest + 4 + 4 * Z.of_nat k)) as [Hin|Hout].
  - rewrite decide_True by lia. rewrite Hw by lia. rewrite decide_False by lia. f_equal. lia.
  - rewrite Hw by lia. destruct (decide (dest ≤ x < dest + 4)); [rewrite decide_True by lia; done|by rewrite decide_False by lia].
Qed.
(** The words and the bytes left over. *)
Lemma load8_liballoc_copy n dest src m x :
  0 ≤ n → block_ok dest n → block_ok src n → blocks_disjoint dest n src n → 0 ≤ x < 0x10000000000000000 →
  load8 (copy_loop (Z.to_nat (n mod 4)) (n / 4 * 4) dest src (copy_words (Z.to_nat (n / 4)) dest src m)) x =
    if decide (in_block dest n x) then load8 m (src + (x - dest)) else load8 m x.
Proof.
  unfold block_ok, blocks_disjoint, in_block. intros Hn Hd Hs Hdis Hx.
  assert (n = 4 * (n / 4) + n mod 4 ∧ 0 ≤ n mod 4 < 4 ∧ 0 ≤ n / 4) as (Heq & Hr & Hq) by (Z.div_mod_to_equations; lia).
  set (q := n / 4) in *. set (r := n mod 4) in *. rewrite Heq in *. clear Heq.
  assert (∀ y, 0 ≤ y < 0x10000000000000000 → load8 (copy_words (Z.to_nat q) dest src m) y =
    if decide (dest ≤ y < dest + 4 * q) then load8 m (src + (y - dest)) else load8 m y) as Hw.
  { intros y Hy. rewrite load8_copy_words by (unfold block_ok, blocks_disjoint; lia). unfold in_block. by rewrite Z2Nat.id by lia. }
  assert (dest + q * 4 + r ≤ src + q * 4 ∨ src + q * 4 + r ≤ dest + q * 4) as Hdis' by lia.
  assert (∀ k i m, (dest + i + Z.of_nat k ≤ src + i ∨ src + i + Z.of_nat k ≤ dest + i) → 0 ≤ dest + i → 0 ≤ src + i →
    dest + i + Z.of_nat k ≤ 0x10000000000000000 → src + i + Z.of_nat k ≤ 0x10000000000000000 →
    load8 (copy_loop k i dest src m) x = if decide (dest + i ≤ x < dest + i + Z.of_nat k) then load8 m (src + (x - dest)) else load8 m x) as Hb.
  { intros k i m0 H1 H2 H3 H4 H5. rewrite load8_copy_loop; unfold block_ok, in_block; try lia; done. }
  rewrite Hb by lia. rewrite !Z2Nat.id by lia. destruct (decide (dest + q * 4 ≤ x < dest + q * 4 + r)).
  - rewrite decide_True by lia. rewrite Hw by lia. by rewrite decide_False by lia.
  - rewrite Hw by lia. destruct (decide (dest ≤ x < dest + 4 * q)); [by rewrite decide_True by lia|by rewrite decide_False by lia].
Qed.

(** ** What the page provider promises *)

Class PageProviderLaws (P : Type) `{PageProvider P} : Type := {
  pp_ok : P → Prop;
  (** the addresses handed out so far *)
  pp_taken : P → Z → Prop;
  (** how a request for that many pages may fail to return, and whether it may
      give NULL *)
  pp_stops : Z → P → fault → Prop;
  pp_null : Z → P → Prop;
  pp_get_set h p : pp_hw (pp_set_hw h p) = h;
  (** a client that writes in what it was given, in the same address space,
      disturbs nothing *)
  pp_frame h p :
    pp_ok p → hw_cr3 h = hw_cr3 (pp_hw p) →
    (∀ x, 0 ≤ x < 0x10000000000000000 → ¬ pp_taken p x → load8 (hw_mem h) x = load8 (hw_mem (pp_hw p)) x) →
    pp_ok (pp_set_hw h p) ∧ (∀ x, pp_taken (pp_set_hw h p) x ↔ pp_taken p x) ∧
    ∀ n, (∀ e, pp_stops n (pp_set_hw h p) e → pp_stops n p e) ∧ (pp_null n (pp_set_hw h p) → pp_null n p);
  (** a request stops, gives NULL, or gives pages not handed out
      before; what was handed out keeps its contents *)
  pp_alloc_spec p n :
    pp_ok p → 0 < n < 0x80000 →
    match pp_alloc n p with
    | Err e => pp_stops n p e
    | Ok (a, p') =>
        pp_ok p' ∧ (∀ x, pp_taken p x → load8 (hw_mem (pp_hw p')) x = load8 (hw_mem (pp_hw p)) x) ∧
        (∀ x, pp_taken p x → pp_taken p' x) ∧
        (a = 0 ∧ pp_null n p ∨ 0 < a ∧ a + n * 4096 ≤ 0x10000000000000000 ∧ ∀ x, in_block a (n * 4096) x → ¬ pp_taken p x ∧ pp_taken p' x)
    end;
  (** pages given back may or may not be handed out again *)
  pp_free_spec p a n :
    pp_ok p → 0 < n < 0x80000 → (∀ x, in_block a (n * 4096) x → pp_taken p x) →
    ∃ p', pp_free a n p = Ok (tt, p') ∧ pp_ok p' ∧
      (∀ x, pp_taken p x → load8 (hw_mem (pp_hw p')) x = load8 (hw_mem (pp_hw p)) x) ∧
      (∀ x, pp_taken p x → ¬ in_block a (n * 4096) x → pp_taken p' x)
}.

Section heap.
Context {P : Type} `{PageProviderLaws P}.
Notation state := (la_state P).

Record heap_inv (R : list region) (s : state) : Prop := {
  hi_rep : heap_rep R (majors (la_heap s)) (minors (la_heap s)) (la_mem s);
  hi_root : l_memRoot (la_heap s) = dhd r_addr R 0;
  hi_bet : l_bestBet (la_heap s) = 0 ∨ l_bestBet (la_heap s) ∈ (r_addr <$> R);
  hi_taken x : covered R x → pp_taken (la_sys s) x;
  hi_ok : pp_ok (la_sys s)
}.

(** The bytes of the live blocks and the lock are as they were. *)
Definition kept (R : list region) (s s' : state) : Prop :=
  la_lock (la_heap s') = la_lock (la_heap s) ∧ ∀ x, owned R x → load8 (la_mem s') x = load8 (la_mem s) x.
(** [Nl]: the answer may be NULL. *)
Definition malloc_post (Nl : Prop) (R : list region) (s : state) (req p : Z) (s' : state) : Prop :=
  ∃ R', heap_inv R' s' ∧ kept R s s' ∧
    (p = 0 ∧ Nl ∧ live R' = live R ∨
     0 < p ∧ p mod 16 = 0 ∧ live R' ≡ₚ (p, req) :: live R ∧ ∀ a, a ∈ live R → blocks_disjoint p req a.1 a.2).

Lemma kept_refl R s : kept R s s.
Proof. done. Qed.
Lemma kept_trans R R' s s' s'' : (∀ x, owned R x → owned R' x) → kept R s s' → kept R' s' s'' → kept R s s''.
Proof. intros Hsub [H1 H2] [H3 H4]. split; [congruence|]. intros x Hx. rewrite H4, H2; auto. Qed.
Lemma malloc_post_trans Nl R R' s s' req p s'' :
  (∀ x, owned R x → owned R' x) → live R' = live R → kept R s s' → malloc_post Nl R' s' req p s'' → malloc_post Nl R s req p s''.
Proof.
  intros Hsub Hlive Hk (R2 & Hi & Hk2 & Hp). exists R2. split; [done|]. split; [by eapply kept_trans|]. by rewrite <- Hlive.
Qed.

(** *** Single statements *)

Lemma upd_maj_run a f (s : state) : is_Some (majors (la_heap s) !! a) →
  upd_maj a f s = Ok (tt, mk_la (la_sys s) (h_majors (alter f a) (la_heap s))).
Proof. intros [m Hm]. unfold upd_maj, maj_at, mbind, M_bind. by rewrite Hm. Qed.
Lemma upd_min_run a f (s : state) : is_Some (minors (la_heap s) !! a) →
  upd_min a f s = Ok (tt, mk_la (la_sys s) (h_minors (alter f a) (la_heap s))).
Proof. intros [m Hm]. unfold upd_min, min_at, mbind, M_bind. by rewrite Hm. Qed.
Lemma maj_at_run a m (s : state) : majors (la_heap s) !! a = Some m → maj_at a s = Ok (m, s).
Proof. intros Hm. unfold maj_at. by rewrite Hm. Qed.
Lemma min_at_run a m (s : state) : minors (la_heap s) !! a = Some m → min_at a s = Ok (m, s).
Proof. intros Hm. unfold min_at. by rewrite Hm. Qed.

Lemma land15 a : Z.land a (ALIGNMENT - 1) = a mod 16.
Proof. change (ALIGNMENT - 1) with (Z.ones 4). by rewrite Z.land_ones. Qed.
Lemma ALIGN_run b (s : state) :
  0 < b_addr b → b_addr b + 72 ≤ 0x10000000000000000 →
  ALIGN (u64 (b_addr b + SIZEOF_MINOR)) s =
    Ok (uptr b, la_set_hw (hw_set_mem (store8 (uptr b - ALIGN_INFO) (uptr b - (b_addr b + SIZEOF_MINOR))) (la_hw s)) s).
Proof.
  intros H1 H2. unfold ALIGN. cbv zeta. rewrite land15. unfold SIZEOF_MINOR. rewrite (u64_small (b_addr b + 40)) by lia.
  change ALIGN_INFO with 16. rewrite (u64_small (b_addr b + 40 + 16)) by lia.
  assert (uptr b = if truth ((b_addr b + 40 + 16) mod 16) then b_addr b + 40 + 16 + (16 - (b_addr b + 40 + 16) mod 16) else b_addr b + 40 + 16) as Hu.
  { unfold uptr, truth, SIZEOF_MINOR, ALIGN_INFO. destruct (Z.eqb_spec ((b_addr b + 40 + 16) mod 16) 0); cbn [negb]; Z.div_mod_to_equations; lia. }
  pose proof (Z.mod_pos_bound (b_addr b + 40 + 16) 16 eq_refl) as Hm. unfold truth in *.
  destruct (Z.eqb_spec ((b_addr b + 40 + 16) mod 16) 0) as [Hz|Hz]; cbn [negb] in *.
  - rewrite Hz, Hu. unfold mbind, M_bind, on_bytes, modify, mret, M_ret. do 2 f_equal. f_equal. f_equal. f_equal; lia.
  - unfold ALIGNMENT. rewrite u64_small by lia. rewrite Hu. unfold mbind, M_bind, on_bytes, modify, mret, M_ret. do 2 f_equal. f_equal. f_equal. f_equal; lia.
Qed.

(** *** A block put in its place *)

Definition placed (r : region) (l1 l2 : list block) (b : block) (s : state) : state :=
  la_set_hw (hw_set_mem (store8 (uptr b - ALIGN_INFO) (uptr b - (b_addr b + SIZEOF_MINOR))) (la_hw s))
    (mk_la (la_sys s)
       (h_add_inuse (b_size b)
          (h_majors (λ M, alter (add_usage (b_size b)) (r_addr r) (relink_first l1 (b_addr b) (r_addr r) M))
             (h_minors (minors_insert r l1 l2 b) (la_heap s))))).

Lemma gap_bounds R s r l1 l2 b : heap_inv R s → r ∈ R → gap r l1 l2 b →
  0 < r_addr r ∧ r_addr r + SIZEOF_MAJOR ≤ b_addr b ∧ b_addr b + 72 ≤ b_end b ∧ b_end b ≤ r_end r ∧ r_end r ≤ 0x10000000000000000.
Proof.
  intros [Hrep _ _ _ _] Hr Hg. pose proof (hr_layout _ _ _ _ Hrep r Hr) as Hro.
  destruct (gap_region_ok _ _ _ _ Hro Hg) as [H1 H2 H3 Hs]. cbn [with_blocks r_addr r_pages r_blocks] in *.
  destruct (spaced_in _ _ _ b Hs) as (Hb1 & Hb2 & Hf); [set_solver|]. pose proof (block_len b Hf).
  change (r_end (with_blocks _ r)) with (r_end r) in *. split_and!; done || lia.
Qed.

Lemma fill_minor_run r b l1 l2 (s s0 : state) :
  0 < b_addr b → b_addr b + 72 ≤ 0x10000000000000000 → 0 ≤ b_size b < 0x100000000 → 0 ≤ b_req b < 0x100000000 →
  is_Some (majors (la_heap s0) !! r_addr r) → la_sys s0 = la_sys s →
  la_heap s0 = h_majors (relink_first l1 (b_addr b) (r_addr r))
    (h_minors (λ N, relink_next b_addr mn_set_next l1 (b_addr b) (relink_prev b_addr mn_set_prev l2 (b_addr b) N)) (la_heap s)) →
  fill_minor (r_addr r) (b_addr b) (dlast b_addr l1 0) (dhd b_addr l2 0) (b_size b) (b_req b) s0 =
    Ok (uptr b, placed r l1 l2 b s).
Proof.
  intros H1 H2 H3 H4 Hm Hsys Hheap. unfold fill_minor. rewrite !u32_small by done.
  set (s1 := mk_la (la_sys s0) (h_minors <[b_addr b := minor_node (r_addr r) (dlast b_addr l1 0) (dhd b_addr l2 0) b]> (la_heap s0))).
  rewrite (bind_eq _ _ _ tt s1) by done.
  rewrite (bind_eq _ _ _ _ _ (upd_maj_run (r_addr r) (add_usage (b_size b)) s1 Hm)).
  rewrite (bind_eq _ _ _ tt (mk_la (la_sys s0) (h_add_inuse (b_size b) (h_majors (alter (add_usage (b_size b)) (r_addr r)) (la_heap s1))))) by done.
  rewrite ALIGN_run by lia. unfold placed, la_hw, s1. cbn [la_sys la_heap]. rewrite Hheap, Hsys. done.
Qed.

Lemma hw_set_get (p : P) f : pp_hw (pp_set_hw (hw_set_mem f (pp_hw p)) p) = hw_set_mem f (pp_hw p).
Proof. apply pp_get_set. Qed.

Lemma covered_with A r B l x : covered (A ++ with_blocks l r :: B) x ↔ covered (A ++ r :: B) x.
Proof.
  split; intros (q & Hq & Hx); apply elem_of_middle in Hq as [->|Hq].
  - exists r. split; [set_solver|done].
  - exists q. split; [set_solver|done].
  - exists (with_blocks l r). split; [set_solver|done].
  - exists q. split; [set_solver|done].
Qed.
Lemma live_middle A r B l : live (A ++ with_blocks l r :: B) ≡ₚ map (λ b, (uptr b, b_req b)) l ++ live (A ++ B).
Proof. unfold live. rewrite !bind_app, bind_cons. cbn [with_blocks r_blocks]. solve_Permutation. Qed.
Lemma live_split A r B : live (A ++ r :: B) ≡ₚ map (λ b, (uptr b, b_req b)) (r_blocks r) ++ live (A ++ B).
Proof. unfold live. rewrite !bind_app, bind_cons. solve_Permutation. Qed.
Lemma addrs_with A r B l : r_addr <$> A ++ with_blocks l r :: B = r_addr <$> A ++ r :: B.
Proof. by rewrite !fmap_app, !fmap_cons. Qed.
Lemma dhd_with A r B l d : dhd r_addr (A ++ with_blocks l r :: B) d = dhd r_addr (A ++ r :: B) d.
Proof. by destruct A. Qed.

Lemma placed_inv Nl A r B l1 l2 b s :
  heap_inv (A ++ r :: B) s → gap r l1 l2 b → malloc_post Nl (A ++ r :: B) s (b_req b) (uptr b) (placed r l1 l2 b s).
Proof.
  intros Hinv Hg. assert (r ∈ A ++ r :: B) as Hr by set_solver. pose proof Hinv as [Hrep Hroot Hbet Htaken Hpok].
  destruct (gap_bounds _ _ _ _ _ _ Hinv Hr Hg) as (Hr0 & Hb1 & Hb2 & Hb3 & Hr1). pose proof (uptr_bounds b) as [Hu Hu16].
  unfold SIZEOF_MAJOR in Hb1. exists (A ++ with_blocks (l1 ++ b :: l2) r :: B).
  assert (∀ x, 0 ≤ x < 0x10000000000000000 → x ≠ uptr b - 16 → load8 (la_mem (placed r l1 l2 b s)) x = load8 (la_mem s) x) as Hmem.
  { intros x Hx Hne. unfold placed, la_set_hw, la_mem, la_hw. cbn [la_sys]. rewrite hw_set_get. cbn [hw_mem hw_set_mem].
    rewrite load8_align_byte by lia. destruct (Z.eqb_spec x (uptr b - ALIGN_INFO)) as [->|]; [done|done]. }
  assert (covered (A ++ r :: B) (uptr b - 16)) as Hcov by (exists r; unfold in_block, r_end, SIZEOF_MAJOR in *; split; [done|lia]).
  split; [|split; [split; [done|]|right; split; [lia|split; [done|]]]].
  - pose proof (pp_frame (hw_set_mem (store8 (uptr b - ALIGN_INFO) (uptr b - (b_addr b + SIZEOF_MINOR))) (la_hw s)) (la_sys s) Hpok eq_refl) as (Hok' & Htk' & _).
    { intros x Hx Hno. cbn [hw_set_mem hw_mem]. rewrite load8_align_byte by lia.
      destruct (Z.eqb_spec x (uptr b - ALIGN_INFO)) as [->|]; [|done]. destruct Hno. by apply Htaken. }
    split.
    + unfold placed, la_set_hw, la_mem, la_hw. cbn [la_sys la_heap h_add_inuse h_majors h_minors majors minors]. rewrite hw_set_get.
      by apply rep_insert.
    + cbn. by rewrite dhd_with.
    + cbn. by rewrite addrs_with.
    + intros x Hx. apply Htk', Htaken. by apply covered_with in Hx.
    + exact Hok'.
  - intros x Hx. destruct (owned_covered _ _ _ _ _ Hrep Hx) as [_ Hx']. apply Hmem; [done|]. intros ->.
    destruct Hx as (q & c & Hq & Hc & Hin). unfold in_block in Hin.
    destruct (gap_apart _ _ _ _ _ _ _ _ _ _ Hrep Hr Hg Hq Hc); unfold b_end, SIZEOF_MINOR in *; lia.
  - split.
    + destruct Hg as (Hl & _). rewrite live_middle, live_split, Hl, !map_app. cbn [map]. solve_Permutation.
    + intros a Ha. apply elem_of_live in Ha as (q & c & Hq & Hc & ->). pose proof (uptr_bounds c) as [Huc _].
      destruct (block_in_region _ _ _ _ _ _ Hrep Hq Hc) as (_ & _ & [? ?] & _). pose proof Hg as (_ & [? ?] & _).
      destruct (gap_apart _ _ _ _ _ _ _ _ _ _ Hrep Hr Hg Hq Hc); unfold b_end, blocks_disjoint, SIZEOF_MINOR, ALIGNMENT, ALIGN_INFO in *; cbn [fst snd]; lia.
Qed.

(** *** The cases of [malloc] *)

(** The pages [allocate_new_page] asks for. *)
Definition wanted (req : Z) : Z :=
  let n := req + (ALIGNMENT + ALIGN_INFO) + (SIZEOF_MAJOR + SIZEOF_MINOR) in
  Z.max l_pageCount (if n mod 4096 =? 0 then n / 4096 else n / 4096 + 1).

Section malloc.
Variables (req : Z).
Hypothesis req_bound : 0 ≤ req ≤ 0x40000000.
Let size := req + (ALIGNMENT + ALIGN_INFO).
(** How the request may fail, and whether it may give NULL. *)
Variables (E : fault → Prop) (Nl : Prop).
(** The pages asked for when no block has room. *)
Definition allowed s : Prop := (∀ e, pp_stops (wanted req) (la_sys s) e → E e) ∧ (pp_null (wanted req) (la_sys s) → Nl).
Definition new_block (a : Z) : block := mk_block a size req.

Lemma new_block_fits a : block_fits (new_block a) ∧ b_end (new_block a) = a + SIZEOF_MINOR + size ∧ 0 ≤ size < 0x100000000.
Proof. unfold block_fits, b_end, new_block, size, ALIGNMENT, ALIGN_INFO. cbn. lia. Qed.
Lemma size_room : u64 (size + SIZEOF_MINOR) = size + SIZEOF_MINOR ∧ 0 < size + SIZEOF_MINOR.
Proof. unfold size, ALIGNMENT, ALIGN_INFO, SIZEOF_MINOR. rewrite u64_small; lia. Qed.

(** The last step of every case. *)
Lemma place_run A r B l1 l2 a prev next s s0 :
  heap_inv (A ++ r :: B) s → gap r l1 l2 (new_block a) → prev = dlast b_addr l1 0 → next = dhd b_addr l2 0 → la_sys s0 = la_sys s →
  la_heap s0 = h_majors (relink_first l1 a (r_addr r))
    (h_minors (λ N, relink_next b_addr mn_set_next l1 a (relink_prev b_addr mn_set_prev l2 a N)) (la_heap s)) →
  runs E (fill_minor (r_addr r) a prev next size req) (malloc_post Nl (A ++ r :: B) s req) s0.
Proof.
  intros Hinv Hg -> -> Hsys Hheap. assert (r ∈ A ++ r :: B) as Hr by set_solver.
  destruct (gap_bounds _ _ _ _ _ _ Hinv Hr Hg) as (Hr0 & Hb1 & Hb2 & Hb3 & Hr1). unfold SIZEOF_MAJOR in Hb1.
  destruct (new_block_fits a) as (_ & _ & Hsz). destruct (dseg_lookup _ _ _ _ _ _ _ (hr_majors _ _ _ _ (hi_rep _ _ Hinv)) Hr) as (p & n & Hm).
  unfold runs. pose proof (fill_minor_run r (new_block a) l1 l2 s s0) as Hrun. cbn [new_block b_addr b_size b_req] in *.
  rewrite Hrun; try done; try lia.
  - exact (placed_inv Nl A r B l1 l2 (new_block a) s Hinv Hg).
  - rewrite Hheap. cbn [h_majors h_minors majors]. destruct l1; cbn [relink_first]; [|eauto].
    rewrite lookup_alter_eq, Hm. eauto.
Qed.

Lemma scan_minors_spec fuel A r B l1 l2 s :
  heap_inv (A ++ r :: B) s → r_blocks r = l1 ++ l2 → (length l2 < fuel)%nat →
  runs E (scan_minors fuel (r_addr r) (dhd b_addr l2 0) size req)
    (λ o s', match o with Some p => malloc_post Nl (A ++ r :: B) s req p s' | None => s' = s end) s.
Proof.
  intros Hinv. assert (r ∈ A ++ r :: B) as Hr by set_solver. pose proof Hinv as [Hrep _ _ _ _].
  pose proof (hr_layout _ _ _ _ Hrep r Hr) as [Hr0 Hrp Hr1 Hs]. destruct size_room as [Hroom Hpos].
  revert l1 l2. induction fuel as [|fuel IH]; intros l1 l2 Hl Hf; [lia|]. cbn [scan_minors].
  destruct l2 as [|c l2]; [done|]. cbn [dhd length] in *.
  assert (c ∈ r_blocks r) as Hc by (rewrite Hl; set_solver).
  destruct (block_in_region _ _ _ _ _ _ Hrep Hr Hc) as (Hc1 & Hc2 & Hcf & _). pose proof (block_len c Hcf). unfold SIZEOF_MAJOR in Hc1.
  rewrite (proj2 (Z.eqb_neq _ _)) by lia.
  pose proof (hr_minors _ _ _ _ Hrep r Hr) as HN. rewrite Hl in HN. apply dseg_app in HN as [HN1 [HNc HN2]].
  eapply runs_eq; [by apply min_at_run|]. cbn [minor_node mn_next mn_size].
  rewrite Hl in Hs. apply spaced_app in Hs as [_ (_ & _ & Hs)]. rewrite Hroom.
  assert (∀ a, gap r (l1 ++ [c]) l2 (new_block a) ↔ b_end c ≤ a ∧ a + SIZEOF_MINOR + size ≤ dhd b_addr l2 (r_end r)) as Hgap.
  { intros a. destruct (new_block_fits a) as (? & Hend & _). unfold gap. rewrite Hend. unfold dend. rewrite last_snoc, <- app_assoc. naive_solver. }
  assert (relink_next b_addr mn_set_next (l1 ++ [c]) (b_end c) = alter (mn_set_next (b_end c)) (b_addr c)) as Hrl.
  { unfold relink_next. by rewrite last_snoc. }
  assert (b_addr c + SIZEOF_MINOR + b_size c = b_end c) as Hend by done.
  specialize (IH (l1 ++ [c]) l2). rewrite <- app_assoc in IH. specialize (IH Hl ltac:(lia)).
  destruct l2 as [|d l2]; cbn [dhd] in *.
  - change (0 =? 0) with true. cbv iota.
    destruct (dseg_lookup _ _ _ _ _ _ _ (hr_majors _ _ _ _ Hrep) Hr) as (p & n & Hm).
    eapply runs_eq; [by apply maj_at_run|]. cbn [major_node mj_size]. cbn [spaced] in Hs.
    replace (r_addr r + r_pages r * 4096 - b_addr c - SIZEOF_MINOR - b_size c) with (r_end r - b_end c) by (unfold r_end; lia).
    rewrite u64_small by (unfold SIZEOF_MINOR in *; lia). rewrite Hend.
    destruct (Z.leb_spec (size + SIZEOF_MINOR) (r_end r - b_end c)) as [Hfit|_]; [|exact IH].
    rewrite u64_small by lia. eapply runs_eq; [apply upd_min_run; eauto|]. apply runs_bind.
    eapply runs_post; [|apply (place_run A r B (l1 ++ [c]) [] (b_end c) _ _ s); try done].
    + intros q s' Hq. exact Hq.
    + apply Hgap. lia.
    + by rewrite dlast_snoc.
    + rewrite Hrl. by destruct l1.
  - destruct Hs as (Hd & Hdf & Hs). pose proof (block_len d Hdf). pose proof (spaced_le _ _ _ Hs). unfold SIZEOF_MINOR in *.
    rewrite (proj2 (Z.eqb_neq _ _)) by lia.
    replace (b_addr d - b_addr c - 40 - b_size c) with (b_addr d - b_end c) by lia.
    rewrite u64_small by lia. rewrite Hend.
    destruct (Z.leb_spec (size + 40) (b_addr d - b_end c)) as [Hfit|_]; [|exact IH].
    rewrite u64_small by lia. destruct HN2 as [HNd _].
    eapply runs_eq; [apply upd_min_run; eauto|]. eapply runs_eq; [apply upd_min_run|].
    { cbn. rewrite lookup_alter_ne by lia. eauto. }
    apply runs_bind.
    eapply runs_post; [|apply (place_run A r B (l1 ++ [c]) (d :: l2) (b_end c) _ _ s); try done].
    + intros q s' Hq. exact Hq.
    + apply Hgap. lia.
    + by rewrite dlast_snoc.
    + rewrite Hrl. by destruct l1.
Qed.

(** Room for the block in the region, and a region that has nothing else. *)
Definition roomy (r : region) : Prop := SIZEOF_MAJOR + used (r_blocks r) + (size + SIZEOF_MINOR) ≤ r_pages r * 4096.

(** *** A page added behind the last region *)

Lemma allocate_new_page_run R s :
  heap_inv R s → allowed s →
  runs E (allocate_new_page size) (λ n s',
    pp_ok (la_sys s') ∧ (∀ x, pp_taken (la_sys s) x → pp_taken (la_sys s') x) ∧
    (∀ x, covered R x → load8 (la_mem s') x = load8 (la_mem s) x) ∧
    (n = 0 ∧ Nl ∧ la_heap s' = h_count 1 0 0 (la_heap s) ∨
     ∃ st, fresh_page R n st ∧ roomy (fresh_region n st) ∧ (∀ x, in_block n (st * 4096) x → pp_taken (la_sys s') x) ∧
       la_heap s' = h_add_allocated (st * 4096) (h_majors <[n := mk_major 0 0 st (st * 4096) SIZEOF_MAJOR 0]> (la_heap s)))) s.
Proof.
  intros [Hrep Hroot Hbet Htaken Hpok] [HE HN]. unfold allocate_new_page. cbv zeta.
  destruct (new_block_fits 0) as (_ & _ & Hsz). assert (size ≤ 0x40000020) as Hsz' by (unfold size, ALIGNMENT, ALIGN_INFO; lia).
  unfold SIZEOF_MAJOR, SIZEOF_MINOR, l_pageSize. rewrite (u32_small size), (u32_small (size + 40)), (u32_small (size + 40 + 40)) by lia.
  set (st0 := if (size + 40 + 40) mod 4096 =? 0 then (size + 40 + 40) / 4096 else u32 ((size + 40 + 40) / 4096 + 1)).
  set (st := if st0 <? l_pageCount then l_pageCount else st0).
  assert (size + 80 ≤ st * 4096 ∧ 0 < st < 0x80000) as [Hst Hst'].
  { assert (size + 80 ≤ st0 * 4096 ∧ 0 < st0 < 0x80000) as [? ?].
    { unfold st0. destruct (Z.eqb_spec ((size + 40 + 40) mod 4096) 0); [Z.div_mod_to_equations; lia|].
      rewrite u32_small by (Z.div_mod_to_equations; lia). Z.div_mod_to_equations; lia. }
    unfold st, l_pageCount. destruct (Z.ltb_spec st0 16); lia. }
  assert (st = wanted req) as Hwant.
  { assert (st0 = if (size + 80) mod 4096 =? 0 then (size + 80) / 4096 else (size + 80) / 4096 + 1) as Hst0.
    { unfold st0. replace (size + 40 + 40) with (size + 80) by lia. case_match; [done|]. apply u32_small. Z.div_mod_to_equations; lia. }
    unfold wanted. fold size. change (SIZEOF_MAJOR + SIZEOF_MINOR) with 80. rewrite <- Hst0. unfold st. destruct (Z.ltb_spec st0 l_pageCount); lia. }
  rewrite s32_small by lia. apply runs_bind. unfold runs, on_sys, zoom. pose proof (pp_alloc_spec (la_sys s) st Hpok Hst') as Hal.
  destruct (pp_alloc st (la_sys s)) as [[n p']|e]; [|apply HE; by rewrite <- Hwant]. destruct Hal as (Hok' & Hmem & Hsub & Hn).
  destruct Hn as [[-> Hnull]|(Hn & Hend & Hnew)].
  - change (0 =? 0) with true. cbv iota. split_and!; [done|done| |left; split_and!; [done|apply HN; by rewrite <- Hwant|done]]. intros x Hx. by apply Hmem, Htaken.
  - rewrite (proj2 (Z.eqb_neq _ _)) by lia. rewrite u32_small by lia.
    split_and!; [done|done| |right; exists st; split_and!; [split_and!; try done; try lia| | |done]].
    + intros x Hx. by apply Hmem, Htaken.
    + intros x Hx Hin. apply (Hnew x); [done|by apply Htaken].
    + unfold roomy. cbn [fresh_region r_blocks r_pages used foldr]. unfold SIZEOF_MAJOR, SIZEOF_MINOR. lia.
    + intros x Hx. by apply Hnew.
Qed.

Lemma live_snoc R n st : live (R ++ [fresh_region n st]) = live R.
Proof. unfold live. rewrite bind_app. cbn. by rewrite app_nil_r. Qed.
Lemma owned_app R R' x : owned R x → owned (R ++ R') x.
Proof. intros (r & b & Hr & Hb). exists r, b. set_solver. Qed.
Lemma covered_snoc R n st x : covered (R ++ [fresh_region n st]) x → covered R x ∨ in_block n (st * 4096) x.
Proof. intros (r & [Hr| ->%list_elem_of_singleton]%elem_of_app & Hx); [left; by exists r|by right]. Qed.

Lemma majors_of R s r : heap_inv R s → r ∈ R → ∃ p n, majors (la_heap s) !! r_addr r = Some (major_node p n r).
Proof. intros [Hrep _ _ _ _] Hr. exact (dseg_lookup _ _ _ _ _ _ _ (hr_majors _ _ _ _ Hrep) Hr). Qed.

(** [maj->next = allocate_new_page(size)] for the last block, and what follows. *)
Lemma add_page_run A r (k : Z → M state Z) s :
  heap_inv (A ++ [r]) s → allowed s →
  (∀ n st s', heap_inv (A ++ [r] ++ [fresh_region n st]) s' → roomy (fresh_region n st) →
     runs E (k n) (malloc_post Nl (A ++ [r] ++ [fresh_region n st]) s' req) s') →
  runs E (allocate_new_page size ≫= λ n, upd_maj (r_addr r) (mj_set_next n) ≫= λ _,
    if n =? 0 then mret 0 else upd_maj n (mj_set_prev (r_addr r)) ≫= λ _, k n) (malloc_post Nl (A ++ [r]) s req) s.
Proof.
  intros Hinv Hall Hk. pose proof Hinv as [Hrep Hroot Hbet Htaken Hpok]. set (R := A ++ [r]) in *.
  assert (r ∈ R) as Hr by set_solver. destruct (majors_of _ _ _ Hinv Hr) as (p0 & n0 & Hm).
  assert (∀ x, relink_next r_addr mj_set_next R x = alter (mj_set_next x) (r_addr r)) as Hrl.
  { intros x. unfold R, relink_next. by rewrite last_snoc. }
  apply runs_bind. eapply runs_post; [|by apply allocate_new_page_run]. intros n s' (Hok' & Hsub & Hmem & Hn).
  assert (∀ x, owned R x → load8 (la_mem s') x = load8 (la_mem s) x) as Hown.
  { intros x Hx. apply Hmem. by eapply owned_covered. }
  destruct Hn as [(-> & Hnull & Hheap)|(st & Hfresh & Hroom & Hnew & Hheap)].
  - eapply runs_eq; [apply upd_maj_run; rewrite Hheap; cbn; eauto|]. change (0 =? 0) with true. cbv iota. apply runs_ret.
    exists R. split; [|split; [split; [by rewrite Hheap|done]|by left]]. rewrite Hheap. split; cbn; auto.
    eapply rep_mem; [|done]. destruct Hrep as [HM HN HL Hnd Hd Ha]. split; try done. rewrite <- Hrl.
    apply (dseg_relink_next r_addr major_node mj_set_next) with (n := 0); done.
  - pose proof Hfresh as (Hn0 & Hst & Hend & _). pose proof (rep_append _ _ _ _ _ _ Hrep Hfresh) as Hrep'.
    assert (r_addr r ≠ n) as Hne.
    { pose proof (hr_nodup _ _ _ _ Hrep') as Hnd. rewrite fmap_app, NoDup_app in Hnd. destruct Hnd as (_ & Hnd & _).
      intros Heq. apply (Hnd (r_addr r)); [by apply list_elem_of_fmap_2|rewrite Heq; cbn; by left]. }
    eapply runs_eq; [apply upd_maj_run; rewrite Hheap; cbn; rewrite lookup_insert_ne by done; eauto|].
    rewrite (proj2 (Z.eqb_neq _ _)) by lia.
    eapply runs_eq; [apply upd_maj_run; rewrite Hheap; cbn; rewrite lookup_alter_ne, lookup_insert_eq by done; eauto|].
    set (s2 := mk_la _ _). assert (heap_inv (R ++ [fresh_region n st]) s2) as Hinv2.
    { subst s2. rewrite Hheap. split; cbn.
      - eapply rep_mem; [|intros x (q & b & Hq & Hb & Hx); apply Hown; apply elem_of_app in Hq as [Hq| ->%list_elem_of_singleton]; [by exists q, b|by apply elem_of_nil in Hb]].
        rewrite Hrl in Hrep'. unfold R in Hrep' at 2. by rewrite dlast_snoc in Hrep'.
      - rewrite dhd_app. unfold R in *. by destruct A.
      - rewrite fmap_app. destruct Hbet as [?|?]; [by left|right; set_solver].
      - intros x [Hx|Hx]%covered_snoc; [auto|by apply Hnew].
      - done. }
    specialize (Hk n st s2). unfold R in Hinv2. rewrite <- app_assoc in Hinv2. specialize (Hk Hinv2 Hroom). eapply runs_post; [|exact Hk].
    intros q s3. apply malloc_post_trans.
    + intros x. rewrite app_assoc. apply owned_app.
    + rewrite app_assoc. apply live_snoc.
    + split; [unfold s2; cbn; by rewrite Hheap|exact Hown].
Qed.

(** *** CASE 2 to CASE 5, and the loop *)

Lemma first_block_run A r B s :
  heap_inv (A ++ r :: B) s → roomy r → r_blocks r = [] →
  runs E (upd_maj (r_addr r) (mj_set_first (r_addr r + SIZEOF_MAJOR)) ≫= λ _,
    fill_minor (r_addr r) (r_addr r + SIZEOF_MAJOR) 0 0 size req) (malloc_post Nl (A ++ r :: B) s req) s.
Proof.
  intros Hinv Hroom Hnil. assert (r ∈ A ++ r :: B) as Hr by set_solver.
  destruct (majors_of _ _ _ Hinv Hr) as (p & n & Hm).
  eapply runs_eq; [apply upd_maj_run; eauto|]. apply (place_run A r B [] [] _ _ _ s); try done.
  destruct (new_block_fits (r_addr r + SIZEOF_MAJOR)) as (Hf & Hend & _). unfold gap. rewrite Hend.
  unfold roomy in Hroom. rewrite Hnil in Hroom. cbn [used foldr] in Hroom. split_and!; try done. cbn [dhd]. unfold r_end. lia.
Qed.
Lemma front_block_run A r B c l s :
  heap_inv (A ++ r :: B) s → r_blocks r = c :: l → r_addr r + SIZEOF_MAJOR + SIZEOF_MINOR + size ≤ b_addr c →
  runs E (upd_min (b_addr c) (mn_set_prev (r_addr r + SIZEOF_MAJOR)) ≫= λ _,
    upd_maj (r_addr r) (mj_set_first (r_addr r + SIZEOF_MAJOR)) ≫= λ _,
    fill_minor (r_addr r) (r_addr r + SIZEOF_MAJOR) 0 (b_addr c) size req) (malloc_post Nl (A ++ r :: B) s req) s.
Proof.
  intros Hinv Hl Hfit. assert (r ∈ A ++ r :: B) as Hr by set_solver.
  destruct (majors_of _ _ _ Hinv Hr) as (p & n & Hm).
  pose proof (hr_minors _ _ _ _ (hi_rep _ _ Hinv) r Hr) as HN. rewrite Hl in HN. destruct HN as [HNc _].
  eapply runs_eq; [apply upd_min_run; eauto|]. eapply runs_eq; [apply upd_maj_run; cbn; eauto|].
  apply (place_run A r B [] (c :: l) _ _ _ s); try done.
  destruct (new_block_fits (r_addr r + SIZEOF_MAJOR)) as (Hf & Hend & _). unfold gap. rewrite Hend. cbn [dhd].
  split_and!; done || lia.
Qed.

(** What the turns after this one have to do. *)
Record turns (loop : Z → bool → Z → M state Z) (A : list region) (r : region) (B : list region) (started : bool) (s : state) : Prop := {
  tn_next r' B' best : B = r' :: B' → runs E (loop (r_addr r') started best) (malloc_post Nl (A ++ r :: B) s req) s;
  tn_restart best : B = [] → started = true → runs E (loop (dhd r_addr (A ++ r :: B) 0) false best) (malloc_post Nl (A ++ r :: B) s req) s;
  tn_new n st s' best :
    B = [] → started = false → heap_inv (A ++ [r] ++ [fresh_region n st]) s' → roomy (fresh_region n st) →
    runs E (loop n false best) (malloc_post Nl (A ++ [r] ++ [fresh_region n st]) s' req) s'
}.

Lemma malloc_cases_spec loop A r B started best s :
  heap_inv (A ++ r :: B) s → roomy r → (r_blocks r = [] ∨ allowed s ∧ turns loop A r B started s) →
  runs E (malloc_cases loop (r_addr r) started best size req) (malloc_post Nl (A ++ r :: B) s req) s.
Proof.
  intros Hinv Hroom Hturns. assert (r ∈ A ++ r :: B) as Hr by set_solver. pose proof (hi_rep _ _ Hinv) as Hrep.
  pose proof (hr_layout _ _ _ _ Hrep r Hr) as [Hr0 Hrp Hr1 Hs]. unfold r_end in Hr1. destruct size_room as [Hsr Hpos].
  pose proof (hr_majors _ _ _ _ Hrep) as HM. apply dseg_app in HM as [_ [HM _]].
  unfold malloc_cases. eapply runs_eq; [by apply maj_at_run|]. cbn [major_node mj_first mj_next].
  assert (u64 (r_addr r + SIZEOF_MAJOR) = r_addr r + SIZEOF_MAJOR) as Hfirst.
  { apply u64_small. unfold SIZEOF_MAJOR. lia. }
  rewrite Hfirst, Hsr. destruct (r_blocks r) as [|c l] eqn:Hl.
  { cbn [dhd]. change (0 =? 0) with true. cbv iota. by apply first_block_run. }
  cbn [dhd]. destruct Hs as (Hc & Hcf & Hs). pose proof (block_len c Hcf). pose proof (spaced_le _ _ _ Hs). unfold r_end in *.
  rewrite (proj2 (Z.eqb_neq (b_addr c) 0)) by (unfold SIZEOF_MAJOR in *; lia).
  rewrite (u64_small (b_addr c - r_addr r - SIZEOF_MAJOR)) by (unfold SIZEOF_MAJOR in *; lia).
  destruct (Z.leb_spec (size + SIZEOF_MINOR) (b_addr c - r_addr r - SIZEOF_MAJOR)) as [Hfit|_].
  { apply (front_block_run A r B c l); [done|done|lia]. }
  destruct Hturns as [?|[Hall [Hnext Hrestart Hnew]]]; [done|].
  eapply runs_eq; [done|]. apply runs_bind.
  eapply runs_post; [|apply (scan_minors_spec _ A r B [] (c :: l) s Hinv Hl)].
  2: { pose proof (hr_minors _ _ _ _ Hrep r Hr) as HN. rewrite Hl in HN.
       pose proof (spaced_nodup _ _ _ (ro_spaced _ (hr_layout _ _ _ _ Hrep r Hr))) as Hnb. rewrite Hl in Hnb.
       pose proof (dseg_size _ _ _ _ _ _ Hnb HN). lia. }
  intros [q|] s'; [done|]. intros ->. destruct B as [|r' B]; cbn [dhd].
  - change (0 =? 0) with true. cbv iota. destruct started.
    + eapply runs_eq; [done|]. rewrite (hi_root _ _ Hinv). by apply Hrestart.
    + apply (add_page_run A r (λ n, loop n false best) s Hinv Hall). intros n st s' Hinv' Hroom'. by apply (Hnew n st s').
  - pose proof (hr_layout _ _ _ _ Hrep r' ltac:(set_solver)) as [Hr0' _ _ _].
    rewrite (proj2 (Z.eqb_neq _ _)) by lia. by apply (Hnext r' B).
Qed.

Definition turns_left (R : list region) (B : list region) (started : bool) : nat :=
  if started then length R + length B + 3 else length B + 2.

Lemma bet_inv R s a : heap_inv R s → a ∈ (r_addr <$> R) → heap_inv R (mk_la (la_sys s) (h_bet a (la_heap s))).
Proof. intros [H1 H2 H3 H4 H5] Ha. split; try done. by right. Qed.
Lemma malloc_post_bet R s a p s' :
  malloc_post Nl R (mk_la (la_sys s) (h_bet a (la_heap s))) req p s' → malloc_post Nl R s req p s'.
Proof. by apply malloc_post_trans. Qed.

Lemma malloc_loop_spec fuel A r B started best s :
  heap_inv (A ++ r :: B) s → ((turns_left (A ++ r :: B) B started ≤ fuel)%nat ∧ allowed s ∨ (1 ≤ fuel)%nat ∧ roomy r ∧ r_blocks r = []) →
  runs E (malloc_loop fuel (r_addr r) started best size req) (malloc_post Nl (A ++ r :: B) s req) s.
Proof.
  revert A r B started best s. induction fuel as [|fuel IH]; intros A r B started best s Hinv Hfuel.
  { unfold turns_left in Hfuel. destruct Hfuel as [[Hfuel _]|[? _]]; [destruct started|]; lia. }
  assert (r ∈ A ++ r :: B) as Hr by set_solver. pose proof (hi_rep _ _ Hinv) as Hrep.
  pose proof (hr_layout _ _ _ _ Hrep r Hr) as Hro. pose proof (ro_addr _ Hro). pose proof (used_bound _ Hro) as (Hu1 & Hu2 & Hu3).
  destruct size_room as [Hsr Hpos]. cbn [malloc_loop]. rewrite (proj2 (Z.eqb_neq _ _)) by lia.
  pose proof (hr_majors _ _ _ _ Hrep) as HM. apply dseg_app in HM as [_ [HM _]].
  eapply runs_eq; [by apply maj_at_run|]. cbv zeta. cbn [major_node mj_size mj_usage mj_next].
  rewrite (u32_small (r_pages r * 4096 - (SIZEOF_MAJOR + used (r_blocks r)))) by (unfold SIZEOF_MAJOR in *; lia). set (diff := r_pages r * 4096 - _).
  set (best' := if best <? diff then diff else best).
  assert (∃ s1, when (best <? diff) (on_heap (h_bet (r_addr r))) s = Ok (tt, s1) ∧ la_sys s1 = la_sys s ∧ heap_inv (A ++ r :: B) s1 ∧
    (∀ p s', malloc_post Nl (A ++ r :: B) s1 req p s' → malloc_post Nl (A ++ r :: B) s req p s')) as (s1 & Hbet & Hsys & Hinv1 & Hpost).
  { destruct (best <? diff); [|by exists s]. eexists. split; [done|]. split; [done|]. split; [|intros; by eapply malloc_post_bet].
    apply bet_inv; [done|]. by apply list_elem_of_fmap_2. }
  eapply runs_eq; [exact Hbet|]. eapply runs_post; [exact Hpost|]. clear Hpost Hbet Hinv Hrep HM. rewrite Hsr.
  assert (roomy r ∧ r_blocks r = [] ∨ allowed s1 ∧ turns (λ maj st be, malloc_loop fuel maj st be size req) A r B started s1) as Hturns.
  { destruct Hfuel as [[Hfuel Hall]|(_ & ? & ?)]; [right|by left]. assert (allowed s1) as Hall1 by (unfold allowed; by rewrite Hsys). split; [done|]. split.
    - intros r' B' be ->. replace (A ++ r :: r' :: B') with ((A ++ [r]) ++ r' :: B') in * by (by rewrite <- app_assoc).
      apply IH; [done|]. left. split; [|done]. revert Hfuel. unfold turns_left. destruct started; cbn [length]; lia.
    - intros be -> ->. destruct A as [|r0 A]; cbn [app dhd] in *; [apply (IH [] r [] false be s1)|apply (IH [] r0 (A ++ [r]) false be s1)]; try done;
        left; (split; [|done]); revert Hfuel; unfold turns_left; cbn [app]; rewrite ?length_app, ?length_cons, ?length_app; cbn [length]; lia.
    - intros n st s' be -> -> Hinv' Hroom'. replace (A ++ [r] ++ [fresh_region n st]) with ((A ++ [r]) ++ [fresh_region n st]) in * by (by rewrite <- app_assoc).
      apply (IH (A ++ [r]) (fresh_region n st) [] false be s'); [done|]. right. split; [revert Hfuel; unfold turns_left; cbn [length]; lia|done]. }
  destruct (Z.ltb_spec diff (size + SIZEOF_MINOR)) as [Hsmall|Hfit].
  - destruct Hturns as [[Hroom _]|[Hall [Hnext Hrestart Hnew]]]; [unfold roomy in Hroom; unfold diff in Hsmall; lia|].
    destruct B as [|r' B]; cbn [dhd].
    + change (truth 0) with false. cbv iota. destruct started.
      * eapply runs_eq; [done|]. rewrite (hi_root _ _ Hinv1). by apply Hrestart.
      * apply (add_page_run A r _ s1 Hinv1 Hall). intros n st s' Hinv' Hroom'.
        replace (A ++ [r] ++ [fresh_region n st]) with ((A ++ [r]) ++ [fresh_region n st]) in * by (by rewrite <- app_assoc).
        apply (malloc_cases_spec _ (A ++ [r]) (fresh_region n st) []); [done|done|by left].
    + pose proof (hr_layout _ _ _ _ (hi_rep _ _ Hinv1) r' ltac:(set_solver)) as [Hr0' _ _ _].
      unfold truth. rewrite (proj2 (Z.eqb_neq _ _)) by lia. cbn [negb]. by apply (Hnext r' B).
  - apply malloc_cases_spec; [done|unfold roomy; unfold diff in Hfit; lia|]. destruct Hturns as [[_ ?]|?]; auto.
Qed.
End malloc.

(** ** The operations *)

Definition heap_ready (R : list region) (s : state) : Prop := heap_inv R s ∧ la_lock (la_heap s) = 0.
(** The bytes of the areas the callers hold are as they were. *)
Definition areas_kept (R : list region) (s s' : state) : Prop :=
  ∀ a x, a ∈ live R → in_block a.1 a.2 x → load8 (la_mem s') x = load8 (la_mem s) x.

Lemma live_owned R M N mem a x : heap_rep R M N mem → a ∈ live R → in_block a.1 a.2 x → owned R x.
Proof.
  intros Hrep (r & b & Hr & Hb & ->)%elem_of_live Hx. exists r, b. split_and!; [done..|]. pose proof (uptr_bounds b) as [Hu _].
  destruct (block_in_region _ _ _ _ _ _ Hrep Hr Hb) as (_ & _ & [? ?] & _). cbn [fst snd] in Hx.
  unfold in_block, ALIGNMENT, ALIGN_INFO, SIZEOF_MINOR in *. lia.
Qed.

(** Taking and releasing the lock touches nothing else. *)
Definition no_worse (p p' : P) : Prop := ∀ n, (∀ e, pp_stops n p' e → pp_stops n p e) ∧ (pp_null n p' → pp_null n p).
Lemma allowed_no_worse req E Nl s s' : no_worse (la_sys s) (la_sys s') → allowed req E Nl s → allowed req E Nl s'.
Proof. intros Hw [HE HN]. destruct (Hw (wanted req)) as [Hs Hn]. split; auto. Qed.
Lemma allowed_refl req s : allowed req (pp_stops (wanted req) (la_sys s)) (pp_null (wanted req) (la_sys s)) s.
Proof. by split. Qed.
Lemma set_if_inv R s f l :
  heap_inv R s → let s' := mk_la (pp_set_hw (hw_set_if f (la_hw s)) (la_sys s)) (h_lock l (la_heap s)) in
  heap_inv R s' ∧ la_mem s' = la_mem s ∧ no_worse (la_sys s) (la_sys s').
Proof.
  intros [H1 H2 H3 H4 H5]. destruct (pp_frame (hw_set_if f (la_hw s)) (la_sys s) H5 eq_refl) as (H6 & H7 & H8); [done|].
  assert (la_mem (mk_la (pp_set_hw (hw_set_if f (la_hw s)) (la_sys s)) (h_lock l (la_heap s))) = la_mem s) as Hm
    by (unfold la_mem, la_hw; cbn [la_sys]; by rewrite pp_get_set).
  split; [|split; [done|exact H8]]. split; cbn [la_sys la_heap h_lock majors minors l_memRoot l_bestBet]; try done.
  - by rewrite Hm.
  - intros x Hx. by apply H7, H4.
Qed.
Lemma lock_run R s : heap_ready R s → ∃ s', liballoc_lock s = Ok (tt, s') ∧ heap_inv R s' ∧ la_mem s' = la_mem s ∧
  la_heap s' = h_lock 1 (la_heap s) ∧ no_worse (la_sys s) (la_sys s').
Proof.
  intros [Hinv Hl]. unfold liballoc_lock. rewrite Hl. eexists. split; [done|].
  destruct (set_if_inv R s false (Z.lor 0 1) Hinv) as (? & ? & ?). done.
Qed.
Lemma unlock_run R s : heap_inv R s → ∃ s', liballoc_unlock s = Ok (tt, s') ∧ heap_ready R s' ∧ la_mem s' = la_mem s ∧
  la_heap s' = h_lock 0 (la_heap s) ∧ no_worse (la_sys s) (la_sys s').
Proof.
  intros Hinv. eexists. split; [done|]. destruct (set_if_inv R s true 0 Hinv) as (? & ? & ?). done.
Qed.

Lemma roots_nil R s : heap_inv R s → l_memRoot (la_heap s) = 0 → R = [].
Proof.
  intros [Hrep -> _ _ _] Hz. destruct R as [|r R]; [done|]. cbn [dhd] in Hz.
  pose proof (ro_addr _ (hr_layout _ _ _ _ Hrep r ltac:(set_solver))). lia.
Qed.

Lemma first_page_inv s n st s' :
  heap_inv [] s → l_bestBet (la_heap s) = 0 → pp_ok (la_sys s') → fresh_page [] n st → (∀ x, in_block n (st * 4096) x → pp_taken (la_sys s') x) →
  la_heap s' = h_add_allocated (st * 4096) (h_majors <[n := mk_major 0 0 st (st * 4096) SIZEOF_MAJOR 0]> (la_heap s)) →
  heap_inv [fresh_region n st] (mk_la (la_sys s') (h_root n (la_heap s'))).
Proof.
  intros Hinv Hbet Hpok Hf Hnew ->. split; cbn; try done; try (by left).
  - pose proof (rep_append [] _ _ (la_mem s') n st (rep_mem _ _ _ _ (la_mem s') (hi_rep _ _ Hinv) (ltac:(by intros x (r & _ & ?%elem_of_nil & _)))) Hf) as [HM HN HL Hnd Hd Ha].
    split; try done. split; [by rewrite lookup_insert_eq|done].
  - intros x [Hx|Hx]%(covered_snoc []); [by destruct Hx as (? & ?%elem_of_nil & _)|by apply Hnew].
Qed.

(** The block the search starts from. *)
Lemma start_run R s size root :
  heap_inv R s → root = dhd r_addr R 0 → R ≠ [] →
  ∃ A r B started best, R = A ++ r :: B ∧ (started = true → l_bestBet (la_heap s) ≠ 0) ∧
    (gets (λ s, l_bestBet (la_heap s)) ≫= λ bet,
      if bet =? 0 then mret (root, false, 0)
      else maj_at bet ≫= λ mj,
        let bestSize := u32 (mj_size mj - mj_usage mj) in
        mret (if u64 (size + SIZEOF_MINOR) <? bestSize then (bet, true, bestSize) else (root, false, bestSize))) s
      = Ok (r_addr r, started, best, s) ∧ (started = false → A = []).
Proof.
  intros Hinv -> Hne. unfold gets. unfold mbind, M_bind.
  destruct R as [|r0 R0]; [done|]. destruct (Z.eqb_spec (l_bestBet (la_heap s)) 0) as [Hz|Hz].
  - by exists [], r0, R0, false, 0.
  - destruct (hi_bet _ _ Hinv) as [?|Hb]; [done|]. apply list_elem_of_fmap in Hb as (r & Hb & Hr).
    destruct (majors_of _ _ _ Hinv Hr) as (p & n & Hm). rewrite <- Hb in Hm. rewrite (maj_at_run _ _ _ Hm). cbv zeta.
    destruct (u64 (size + SIZEOF_MINOR) <? _).
    + apply list_elem_of_split in Hr as (A & B & HR). exists A, r, B, true, (u32 (mj_size (major_node p n r) - mj_usage (major_node p n r))).
      rewrite <- Hb. split_and!; try done.
    + by exists [], r0, R0, false, (u32 (mj_size (major_node p n r) - mj_usage (major_node p n r))).
Qed.

(** What [malloc] leaves once the lock is released. *)
Definition malloc_done (Nl : Prop) (R : list region) (s : state) (req p : Z) (s' : state) : Prop :=
  ∃ R', heap_ready R' s' ∧ areas_kept R s s' ∧
    (p = 0 ∧ Nl ∧ live R' = live R ∨
     0 < p ∧ p mod 16 = 0 ∧ live R' ≡ₚ (p, req) :: live R ∧ ∀ a, a ∈ live R → blocks_disjoint p req a.1 a.2).

Lemma unlock_done E Nl R s s1 req p :
  heap_rep R (majors (la_heap s)) (minors (la_heap s)) (la_mem s) → malloc_post Nl R s req p s1 →
  runs E (liballoc_unlock ≫= λ _, mret p) (malloc_done Nl R s req) s1.
Proof.
  intros Hrep (R' & Hinv & [_ Hk] & Hp). destruct (unlock_run R' s1 Hinv) as (s2 & Hrun & Hready & Hmem & _).
  eapply runs_eq; [exact Hrun|]. exists R'. split_and!; try done. intros a x Ha Hx. rewrite Hmem. apply Hk. by eapply live_owned.
Qed.

(** Once there is a first block. *)
Lemma malloc_search req E Nl R s root :
  0 ≤ req ≤ 0x40000000 → heap_inv R s → root = dhd r_addr R 0 → R ≠ [] →
  (allowed req E Nl s ∨ ∃ r, R = [r] ∧ roomy req r ∧ r_blocks r = []) →
  let size := req + (ALIGNMENT + ALIGN_INFO) in
  runs E (gets (λ s, l_bestBet (la_heap s)) ≫= λ bet,
    (if bet =? 0 then mret (root, false, 0)
     else maj_at bet ≫= λ mj,
       let bestSize := u32 (mj_size mj - mj_usage mj) in
       mret (if u64 (size + SIZEOF_MINOR) <? bestSize then (bet, true, bestSize) else (root, false, bestSize)))
      ≫= λ '(maj, startedBet, bestSize),
    gets MALLOC_FUEL ≫= λ fuel,
    malloc_loop fuel maj startedBet bestSize size req ≫= λ p,
    liballoc_unlock ≫= λ _, mret p) (malloc_done Nl R s req) s.
Proof.
  intros Hreq Hinv Hroot Hne Hall size.
  destruct (start_run R s size root Hinv Hroot Hne) as (A & r & B & started & best & HR & _ & Hstart & Hfalse).
  apply runs_bind. unfold runs at 1. unfold gets at 1. cbv beta iota.
  eapply runs_eq; [exact Hstart|]. cbv iota beta. eapply runs_eq; [done|]. apply runs_bind.
  eapply runs_post; [intros q s'; apply unlock_done; apply Hinv|]. subst R.
  apply malloc_loop_spec; [done|done|]. destruct Hall as [Hall|(r' & HA & Hroom & Hnil)].
  2: { right. destruct A as [|? A]; [|by destruct A]. injection HA as -> ->. split; [unfold MALLOC_FUEL; lia|done]. }
  left. split; [|done]. unfold MALLOC_FUEL.
  pose proof (dseg_size _ _ _ _ _ _ (hr_nodup _ _ _ _ (hi_rep _ _ Hinv)) (hr_majors _ _ _ _ (hi_rep _ _ Hinv))) as Hlen.
  unfold turns_left. rewrite length_app in *. cbn [length] in *. destruct started; lia.
Qed.

Lemma malloc_nonzero_spec req E Nl R s :
  0 ≤ req ≤ 0x40000000 → heap_inv R s → allowed req E Nl s → runs E (malloc_nonzero (req + (ALIGNMENT + ALIGN_INFO)) req) (malloc_done Nl R s req) s.
Proof.
  intros Hreq Hinv Hall. unfold malloc_nonzero. eapply runs_eq; [done|].
  destruct (Z.eqb_spec (l_memRoot (la_heap s)) 0) as [Hz|Hz].
  - pose proof (roots_nil _ _ Hinv Hz) as ->. apply runs_bind, runs_bind. eapply runs_post; [|by apply allocate_new_page_run].
    intros n s' (Hok' & Hsub & Hmem & Hn). eapply runs_eq; [done|]. apply runs_ret.
    destruct Hn as [(-> & Hnull & Hheap)|(st & Hf & Hroom & Hnew & Hheap)].
    + change (0 =? 0) with true. cbv iota. set (s2 := mk_la _ _).
      assert (heap_inv [] s2) as Hinv2.
      { subst s2. rewrite Hheap. destruct Hinv as [Hrep Hroot Hbet Htaken Hpok]. split; cbn; try done.
        - eapply rep_mem; [exact Hrep|]. by intros x (? & ? & ?%elem_of_nil & _).
        - by intros x (? & ?%elem_of_nil & _). }
      apply (unlock_done E Nl [] s); [apply Hinv|]. exists []. split_and!; try done; [|by left].
      split; [subst s2; cbn; by rewrite Hheap|]. by intros x (? & ? & ?%elem_of_nil & _).
    + pose proof Hf as (Hn0 & _). rewrite (proj2 (Z.eqb_neq _ _)) by lia.
      assert (l_bestBet (la_heap s) = 0) as Hb0 by (destruct (hi_bet _ _ Hinv) as [?|?%elem_of_nil]; done).
      pose proof (first_page_inv s n st s' Hinv Hb0 Hok' Hf Hnew Hheap) as Hinv2.
      eapply runs_post; [|apply (malloc_search req E Nl [fresh_region n st] _ n); try done; right; by exists (fresh_region n st)].
      intros p s3 (R' & Hready & _ & Hp). exists R'. split_and!; try done. by intros a x ?%elem_of_nil.
  - eapply runs_eq; [done|]. rewrite (proj2 (Z.eqb_neq _ _)) by done. rewrite (hi_root _ _ Hinv). apply malloc_search; try done; [|by left].
    intros ->. by rewrite (hi_root _ _ Hinv) in Hz.
Qed.

Lemma malloc_run req R s : 0 ≤ req ≤ 0x40000000 → heap_ready R s → 
  runs (pp_stops (wanted req) (la_sys s)) (liballoc_malloc req) (malloc_done (pp_null (wanted req) (la_sys s)) R s req) s.
Proof.
  intros Hreq Hready. unfold liballoc_malloc. cbv zeta.
  rewrite (u64_small (req + (ALIGNMENT + ALIGN_INFO))) by (unfold ALIGNMENT, ALIGN_INFO; lia).
  destruct (lock_run R s Hready) as (s1 & Hrun & Hinv & Hmem & Hheap & Hw). eapply runs_eq; [exact Hrun|].
  rewrite (proj2 (Z.eqb_neq _ _)) by (unfold ALIGNMENT, ALIGN_INFO; lia).
  eapply runs_post; [|apply malloc_nonzero_spec; [done|done|]; by eapply allowed_no_worse, allowed_refl]. intros p s2 (R' & H1 & H2 & H3). exists R'. split_and!; try done.
  intros a x Ha Hx. rewrite (H2 a x Ha Hx). by rewrite Hmem.
Qed.

(** C10. On a well-formed heap whose lock is free,
    [liballoc_malloc] of up to 1 GiB runs to completion unless its page provider
    stops.  It returns NULL with the same blocks live, or a
    16-byte aligned pointer to an area of the requested size that overlaps no
    live area; the contents of every live area are kept and the heap stays well
    formed.  The loop over the blocks therefore terminates. *)
Theorem liballoc_malloc_fresh req R s :
  0 ≤ req ≤ 0x40000000 → heap_ready R s →
  match liballoc_malloc req s with
  | Err e => pp_stops (wanted req) (la_sys s) e
  | Ok (p, s') =>
      ∃ R', heap_ready R' s' ∧ areas_kept R s s' ∧
        (p = 0 ∧ pp_null (wanted req) (la_sys s) ∧ live R' = live R ∨
         0 < p ∧ p mod 16 = 0 ∧ live R' ≡ₚ (p, req) :: live R ∧ ∀ a, a ∈ live R → blocks_disjoint p req a.1 a.2)
  end.
Proof.
  intros Hreq Hready. exact (malloc_run req R s Hreq Hready).
Qed.

(** *** [free] *)

(** The header behind a pointer that was handed out. *)
Lemma UNALIGN_run R s r b :
  heap_inv R s → r ∈ R → b ∈ r_blocks r →
  UNALIGN (uptr b) s = Ok (b_addr b + SIZEOF_MINOR, s) ∧ u64 (b_addr b + SIZEOF_MINOR - SIZEOF_MINOR) = b_addr b.
Proof.
  intros [Hrep _ _ _ _] Hr Hb. pose proof (hr_align _ _ _ _ Hrep r b Hr Hb) as Hbyte. pose proof (uptr_bounds b) as [Hu _].
  destruct (block_in_region _ _ _ _ _ _ Hrep Hr Hb) as (Hb1 & Hb2 & Hf & Hr0 & Hr1). pose proof (block_len b Hf).
  unfold SIZEOF_MAJOR, SIZEOF_MINOR in *. split; [|rewrite u64_small; lia].
  unfold UNALIGN, mbind, M_bind, gets. rewrite Hbyte.
  assert (s8 (uptr b - (b_addr b + 40)) = uptr b - (b_addr b + 40)) as -> by word_lia.
  rewrite u64_small by lia. unfold ALIGNMENT, ALIGN_INFO. rewrite (proj2 (Z.ltb_lt _ _)) by lia.
  rewrite u64_small by lia. unfold mret, M_ret. do 2 f_equal. lia.
Qed.

Lemma truth_nonzero a : a ≠ 0 → truth a = true.
Proof. intros Ha. unfold truth. by rewrite (proj2 (Z.eqb_neq _ _)). Qed.

Lemma when_upd_min a f (s : state) :
  (a ≠ 0 → is_Some (minors (la_heap s) !! a)) →
  when (truth a) (upd_min a f) s =
    Ok (tt, mk_la (la_sys s) (h_minors (λ N, if a =? 0 then N else alter f a N) (la_heap s))).
Proof.
  intros Ha. unfold truth. destruct (Z.eqb_spec a 0); cbn [negb when]; [by destruct s as [? []]|]. by apply upd_min_run, Ha.
Qed.
Lemma when_upd_maj a f (s : state) :
  (a ≠ 0 → is_Some (majors (la_heap s) !! a)) →
  when (truth a) (upd_maj a f) s =
    Ok (tt, mk_la (la_sys s) (h_majors (λ N, if a =? 0 then N else alter f a N) (la_heap s))).
Proof.
  intros Ha. unfold truth. destruct (Z.eqb_spec a 0); cbn [negb when]; [by destruct s as [? []]|]. by apply upd_maj_run, Ha.
Qed.

(** The conditional updates of the links are the relinkings of [Dll]. *)
Lemma relink_prev_cond {A V} (addr : A → Z) (f : Z → V → V) l x m :
  (∀ a, a ∈ l → addr a ≠ 0) → (if dhd addr l 0 =? 0 then m else alter (f x) (dhd addr l 0) m) = relink_prev addr f l x m.
Proof. intros Hl. destruct l as [|a l]; [done|]. cbn [dhd relink_prev]. rewrite (proj2 (Z.eqb_neq _ _)); [done|]. apply Hl. by left. Qed.
Lemma relink_next_cond {A V} (addr : A → Z) (f : Z → V → V) l x m :
  (∀ a, a ∈ l → addr a ≠ 0) → (if dlast addr l 0 =? 0 then m else alter (f x) (dlast addr l 0) m) = relink_next addr f l x m.
Proof.
  intros Hl. unfold dlast, relink_next. destruct (last l) as [a|] eqn:Ha; [|done].
  rewrite (proj2 (Z.eqb_neq _ _)); [done|]. apply Hl. apply last_Some in Ha as [l' ->]. apply elem_of_app. right. by left.
Qed.
Lemma dhd_in {A} (addr : A → Z) (l : list A) : dhd addr l 0 ≠ 0 → ∃ a, a ∈ l ∧ addr a = dhd addr l 0.
Proof. destruct l as [|a l]; [done|]. intros _. exists a. split; [by left|done]. Qed.
Lemma dlast_in {A} (addr : A → Z) (l : list A) : dlast addr l 0 ≠ 0 → ∃ a, a ∈ l ∧ addr a = dlast addr l 0.
Proof.
  unfold dlast. destruct (last l) as [a|] eqn:Ha; [|done]. intros _. exists a. split; [|done].
  apply last_Some in Ha as [l' ->]. apply elem_of_app. right. by left.
Qed.
Lemma is_Some_alter {V} (m : gmap Z V) f i j : is_Some (alter f i m !! j) ↔ is_Some (m !! j).
Proof. destruct (decide (i = j)) as [->|]; [rewrite lookup_alter_eq; by rewrite fmap_is_Some|by rewrite lookup_alter_ne]. Qed.

Definition unlinked (r : region) (l1 l2 : list block) (b : block) (s : state) : state :=
  mk_la (la_sys s) (h_majors (λ M, relink_first l1 (dhd b_addr l2 0) (r_addr r) (alter (sub_usage (b_size b)) (r_addr r) M))
    (h_minors (minors_remove l1 l2 b) (h_add_inuse (- b_size b) (la_heap s)))).

Lemma unlink_minor_run A r B l1 l2 b s :
  heap_inv (A ++ r :: B) s → r_blocks r = l1 ++ b :: l2 →
  unlink_minor (b_addr b) (minor_node (r_addr r) (dlast b_addr l1 0) (dhd b_addr l2 0) b) s = Ok (tt, unlinked r l1 l2 b s).
Proof.
  intros Hinv Hl. assert (r ∈ A ++ r :: B) as Hr by set_solver. pose proof (hi_rep _ _ Hinv) as Hrep.
  destruct (majors_of _ _ _ Hinv Hr) as (p & n & Hm).
  assert (∀ c, c ∈ l1 ++ b :: l2 → b_addr c ≠ 0 ∧ is_Some (minors (la_heap s) !! b_addr c)) as Hin.
  { rewrite <- Hl. intros c Hc. destruct (block_in_region _ _ _ _ _ _ Hrep Hr Hc) as (Hc1 & _ & _ & Hr0 & _).
    destruct (dseg_lookup _ _ _ _ _ _ _ (hr_minors _ _ _ _ Hrep r Hr) Hc) as (? & ? & ->). unfold SIZEOF_MAJOR in Hc1. split; [lia|eauto]. }
  unfold unlink_minor. cbn [minor_node mn_size mn_block mn_next mn_prev].
  set (s1 := mk_la (la_sys s) (h_add_inuse (- b_size b) (la_heap s))). rewrite (bind_eq _ _ _ tt s1) by done.
  rewrite (bind_eq _ _ _ _ _ (upd_maj_run (r_addr r) (sub_usage (b_size b)) s1 (ltac:(cbn; eauto)))).
  set (s2 := mk_la _ _). rewrite (bind_eq _ _ _ _ _ (upd_min_run (b_addr b) (mn_set_magic LIBALLOC_DEAD) s2 (ltac:(apply Hin; set_solver)))).
  set (s3 := mk_la _ _). rewrite (bind_eq _ _ _ _ _ (when_upd_min (dhd b_addr l2 0) (mn_set_prev (dlast b_addr l1 0)) s3
    (ltac:(intros Hne; destruct (dhd_in _ _ Hne) as (c & Hc & <-); cbn; apply is_Some_alter; apply Hin; set_solver)))).
  set (s4 := mk_la _ _). rewrite (bind_eq _ _ _ _ _ (when_upd_min (dlast b_addr l1 0) (mn_set_next (dhd b_addr l2 0)) s4
    (ltac:(intros Hne; destruct (dlast_in _ _ Hne) as (c & Hc & <-); cbn; destruct (dhd b_addr l2 0 =? 0); rewrite ?is_Some_alter; apply Hin; set_solver)))).
  set (s5 := mk_la _ _).
  assert (minors (la_heap s5) = minors_remove l1 l2 b (minors (la_heap s))) as Hmin.
  { unfold s5, s4, s3, s2, s1, minors_remove. cbn [la_heap h_minors h_majors h_add_inuse minors la_sys].
    rewrite relink_prev_cond, relink_next_cond; [done|intros c Hc; apply Hin; set_solver..]. }
  assert (s5 = mk_la (la_sys s) (h_majors (alter (sub_usage (b_size b)) (r_addr r)) (h_minors (minors_remove l1 l2 b) (h_add_inuse (- b_size b) (la_heap s))))) as ->.
  { unfold s5, s4, s3, s2, s1 in Hmin |- *. cbn [la_sys la_heap] in *. f_equal. unfold h_majors, h_minors, h_add_inuse in *.
    cbn [majors minors l_memRoot l_bestBet l_allocated l_inuse l_warningCount l_errorCount l_possibleOverruns la_lock] in *. f_equal. exact Hmin. }
  unfold unlinked. destruct l1 as [|c l1].
  - change (dlast b_addr [] 0) with 0. change (0 =? 0) with true. cbn [when relink_first]. rewrite upd_maj_run by (cbn; apply is_Some_alter; eauto). done.
  - rewrite (proj2 (Z.eqb_neq _ _)); [done|]. intros Hz. pose proof (last_is_Some (c :: l1)) as [_ Hs]. destruct (Hs ltac:(done)) as [d Hd].
    unfold dlast in Hz. rewrite Hd in Hz. apply last_Some in Hd as [l' Hd]. revert Hz. apply Hin. rewrite Hd. set_solver.
Qed.

Lemma unlinked_inv A r B l1 l2 b s :
  heap_inv (A ++ r :: B) s → r_blocks r = l1 ++ b :: l2 → heap_inv (A ++ with_blocks (l1 ++ l2) r :: B) (unlinked r l1 l2 b s).
Proof.
  intros [Hrep Hroot Hbet Htaken Hpok] Hl. split; cbn.
  - by apply rep_remove.
  - by rewrite dhd_with.
  - by rewrite addrs_with.
  - intros x Hx. apply Htaken. by apply covered_with in Hx.
  - done.
Qed.

Lemma not_fresh_addr A r B : NoDup (r_addr <$> A ++ r :: B) → ∀ q, q ∈ A ++ B → r_addr q ≠ r_addr r.
Proof. intros Hnd q Hq. by apply (fresh_of_nodup r_addr _ _ _ Hnd). Qed.

(** The state before the pages of an empty block are given back. *)
Definition dropped A (r : region) B (s : state) : state :=
  mk_la (la_sys s) (h_add_allocated (- (r_pages r * 4096))
    (h_majors (λ M, relink_prev r_addr mj_set_prev B (dlast r_addr A 0) (relink_next r_addr mj_set_next A (dhd r_addr B 0) M))
      (h_bet (if l_bestBet (la_heap s) =? r_addr r then 0 else l_bestBet (la_heap s))
         (h_root (if l_memRoot (la_heap s) =? r_addr r then dhd r_addr B 0 else l_memRoot (la_heap s)) (la_heap s))))).

Lemma dropped_inv A r B s : heap_inv (A ++ r :: B) s → heap_inv (A ++ B) (dropped A r B s).
Proof.
  intros [Hrep Hroot Hbet Htaken Hpok]. pose proof (not_fresh_addr _ _ _ (hr_nodup _ _ _ _ Hrep)) as Hne. split; cbn; try done.
  - by eapply rep_drop.
  - rewrite Hroot. destruct A as [|r0 A]; cbn [app dhd]; [by rewrite Z.eqb_refl|].
    rewrite (proj2 (Z.eqb_neq _ _)); [done|]. apply Hne. set_solver.
  - destruct (Z.eqb_spec (l_bestBet (la_heap s)) (r_addr r)) as [|Hb]; [by left|]. destruct Hbet as [?|Hin]; [by left|right].
    apply list_elem_of_fmap in Hin as (q & Hq & Hin). rewrite Hq. apply list_elem_of_fmap_2.
    apply elem_of_middle in Hin as [->|?]; [done|done].
  - intros x (q & Hq & Hx). apply Htaken. exists q. split; [set_solver|done].
Qed.

Lemma drop_run A r B s :
  heap_inv (A ++ r :: B) s → r_blocks r = [] →
  clean_major (r_addr r) s = on_sys (pp_free (r_addr r) (s32 (r_pages r))) (dropped A r B s).
Proof.
  intros Hinv Hnil. pose proof (hi_rep _ _ Hinv) as Hrep. assert (r ∈ A ++ r :: B) as Hr by set_solver.
  pose proof (hr_majors _ _ _ _ Hrep) as HM. apply dseg_app in HM as [_ [HM _]].
  assert (∀ q, q ∈ A ++ B → r_addr q ≠ 0 ∧ is_Some (majors (la_heap s) !! r_addr q)) as Hin.
  { intros q Hq. assert (q ∈ A ++ r :: B) as Hq' by set_solver. destruct (majors_of _ _ _ Hinv Hq') as (p & n & ->).
    pose proof (ro_addr _ (hr_layout _ _ _ _ Hrep q Hq')). split; [lia|eauto]. }
  unfold clean_major. rewrite (bind_eq _ _ _ _ _ (maj_at_run _ _ _ HM)). cbn [major_node mj_first mj_next mj_prev mj_size mj_pages].
  rewrite Hnil. change (dhd b_addr [] 0 =? 0) with true. cbv iota.
  rewrite (bind_eq _ _ _ (l_memRoot (la_heap s)) s) by done.
  set (s1 := mk_la (la_sys s) (h_root (if l_memRoot (la_heap s) =? r_addr r then dhd r_addr B 0 else l_memRoot (la_heap s)) (la_heap s))).
  rewrite (bind_eq _ _ _ tt s1) by (unfold s1; destruct (_ =? _); [done|by destruct s as [? []]]).
  rewrite (bind_eq _ _ _ (l_bestBet (la_heap s)) s1) by done.
  set (s2 := mk_la (la_sys s) (h_bet (if l_bestBet (la_heap s) =? r_addr r then 0 else l_bestBet (la_heap s)) (la_heap s1))).
  rewrite (bind_eq _ _ _ tt s2) by (unfold s2, s1; destruct (l_bestBet (la_heap s) =? r_addr r); [done|by destruct s as [? []]]).
  rewrite (bind_eq _ _ _ _ _ (when_upd_maj (dlast r_addr A 0) (mj_set_next (dhd r_addr B 0)) s2
    (ltac:(intros Hne; destruct (dlast_in _ _ Hne) as (c & Hc & <-); cbn; apply Hin; set_solver)))).
  set (s3 := mk_la _ _). rewrite (bind_eq _ _ _ _ _ (when_upd_maj (dhd r_addr B 0) (mj_set_prev (dlast r_addr A 0)) s3
    (ltac:(intros Hne; destruct (dhd_in _ _ Hne) as (c & Hc & <-); cbn; destruct (dlast r_addr A 0 =? 0); rewrite ?is_Some_alter; apply Hin; set_solver)))).
  rewrite (bind_eq _ _ _ tt (dropped A r B s)); [done|].
  unfold dropped, on_heap, modify. do 2 f_equal. unfold s3, s2, s1. cbn [la_sys la_heap]. f_equal. unfold h_majors, h_add_allocated, h_bet, h_root.
  cbn [majors minors l_memRoot l_bestBet l_allocated l_inuse l_warningCount l_errorCount l_possibleOverruns la_lock]. f_equal.
  rewrite relink_next_cond, relink_prev_cond; [done|intros c Hc; apply Hin; set_solver..].
Qed.

Lemma clean_major_spec A r B s :
  heap_inv (A ++ r :: B) s →
  ∃ s', clean_major (r_addr r) s = Ok (tt, s') ∧ heap_inv (if decide (r_blocks r = []) then A ++ B else A ++ r :: B) s' ∧
    minors (la_heap s') = minors (la_heap s) ∧ ∀ x, covered (A ++ r :: B) x → load8 (la_mem s') x = load8 (la_mem s) x.
Proof.
  intros Hinv. pose proof (hi_rep _ _ Hinv) as Hrep. assert (r ∈ A ++ r :: B) as Hr by set_solver.
  pose proof (hr_layout _ _ _ _ Hrep r Hr) as Hro. destruct (decide (r_blocks r = [])) as [Hnil|Hne].
  - rewrite (drop_run A r B s Hinv Hnil). unfold on_sys, zoom. destruct (dropped_inv A r B s Hinv) as [H1 H2 H3 H4 H5].
    destruct (pp_free_spec (la_sys s) (r_addr r) (r_pages r) (hi_ok _ _ Hinv) (ro_pages _ Hro)) as (p' & Hrun & Hok' & Hmem & Htk).
    { intros x Hx. apply (hi_taken _ _ Hinv). by exists r. }
    pose proof (ro_pages _ Hro). change (la_sys (dropped A r B s)) with (la_sys s). rewrite s32_small, Hrun by lia.
    assert (∀ x, covered (A ++ r :: B) x → load8 (hw_mem (pp_hw p')) x = load8 (la_mem s) x) as Hcov.
    { intros x Hx. by apply Hmem, (hi_taken _ _ Hinv). }
    eexists. split; [done|]. split; [|split; [done|exact Hcov]]. split; try done.
    + eapply rep_mem; [exact H1|]. intros x (q & b & Hq & Hb & Hx). apply Hcov. eapply owned_covered; [exact Hrep|].
      exists q, b. split; [set_solver|done].
    + intros x (q & Hq & Hx). apply Htk; [apply (hi_taken _ _ Hinv); exists q; split; [set_solver|done]|].
      pose proof (not_fresh_addr _ _ _ (hr_nodup _ _ _ _ Hrep) q Hq) as Hne.
      destruct (hr_apart _ _ _ _ Hrep q r ltac:(set_solver) Hr) as [->|Hd]; [done|]. unfold in_block, r_end in *. lia.
  - destruct (majors_of _ _ _ Hinv Hr) as (p & n & Hm). unfold clean_major. rewrite (bind_eq _ _ _ _ _ (maj_at_run _ _ _ Hm)).
    cbn [major_node mj_first mj_size mj_usage]. destruct (r_blocks r) as [|c l] eqn:Hl; [done|]. cbn [dhd].
    destruct (block_in_region _ _ _ _ _ c Hrep Hr ltac:(rewrite Hl; by left)) as (Hc & _ & _ & Hr0 & _). unfold SIZEOF_MAJOR in Hc.
    rewrite (proj2 (Z.eqb_neq _ _)) by lia. rewrite (bind_eq _ _ _ (l_bestBet (la_heap s)) s) by done.
    destruct (Z.eqb_spec (l_bestBet (la_heap s)) 0) as [|Hz]; [by exists s|].
    destruct (hi_bet _ _ Hinv) as [?|Hb]; [done|]. apply list_elem_of_fmap in Hb as (q & Hq & Hqin).
    destruct (majors_of _ _ _ Hinv Hqin) as (p1 & n1 & Hm1). rewrite <- Hq in Hm1. rewrite (bind_eq _ _ _ _ _ (maj_at_run _ _ _ Hm1)). cbv zeta.
    destruct (_ <? _); cbn [when]; eexists; (split; [done|]); [|by split].
    split; [|done]. apply bet_inv; [done|]. by apply list_elem_of_fmap_2.
Qed.

Lemma free_run A r B l1 l2 b s :
  heap_ready (A ++ r :: B) s → r_blocks r = l1 ++ b :: l2 →
  ∃ s', liballoc_free (uptr b) s = Ok (tt, s') ∧
    heap_ready (if decide (l1 ++ l2 = []) then A ++ B else A ++ with_blocks (l1 ++ l2) r :: B) s' ∧
    minors (la_heap s') = minors_remove l1 l2 b (minors (la_heap s)) ∧
    ∀ x, covered (A ++ r :: B) x → load8 (la_mem s') x = load8 (la_mem s) x.
Proof.
  intros Hready Hl. pose proof (proj1 Hready) as Hinv. pose proof (hi_rep _ _ Hinv) as Hrep.
  assert (r ∈ A ++ r :: B) as Hr by set_solver. assert (b ∈ r_blocks r) as Hb by (rewrite Hl; set_solver).
  destruct (block_in_region _ _ _ _ _ _ Hrep Hr Hb) as (Hb1 & _ & _ & Hr0 & _). pose proof (uptr_bounds b) as [Hu _].
  unfold SIZEOF_MAJOR in Hb1. unfold liballoc_free. rewrite (proj2 (Z.eqb_neq _ _)) by lia.
  destruct (UNALIGN_run _ _ _ _ Hinv Hr Hb) as [Hun Hmin]. rewrite (bind_eq _ _ _ _ _ Hun).
  destruct (lock_run _ s Hready) as (s1 & Hlock & Hinv1 & Hmem1 & Hheap1 & Hw1). rewrite (bind_eq _ _ _ _ _ Hlock). rewrite Hmin.
  pose proof (hr_minors _ _ _ _ (hi_rep _ _ Hinv1) r Hr) as HN. rewrite Hl in HN. apply dseg_app in HN as [_ [HN _]].
  rewrite (bind_eq _ _ _ _ _ (min_at_run _ _ _ HN)). cbn [minor_node mn_magic]. change (negb (LIBALLOC_MAGIC =? LIBALLOC_MAGIC)) with false. cbv iota.
  fold (minor_node (r_addr r) (dlast b_addr l1 0) (dhd b_addr l2 0) b). rewrite (bind_eq _ _ _ _ _ (unlink_minor_run A r B l1 l2 b s1 Hinv1 Hl)).
  destruct (clean_major_spec A (with_blocks (l1 ++ l2) r) B _ (unlinked_inv A r B l1 l2 b s1 Hinv1 Hl)) as (s2 & Hclean & Hinv2 & Hmin2 & Hcov2).
  cbn [minor_node mn_block]. rewrite (bind_eq _ _ _ _ _ Hclean). destruct (unlock_run _ s2 Hinv2) as (s3 & -> & Hready3 & Hmem3 & Hheap3 & _).
  exists s3. split; [done|]. split; [exact Hready3|]. split.
  - rewrite Hheap3. cbn. rewrite Hmin2. cbn. by rewrite Hheap1.
  - intros x Hx. rewrite Hmem3, <- Hmem1. change (la_mem s1) with (la_mem (unlinked r l1 l2 b s1)). apply Hcov2. by apply covered_with.
Qed.

Lemma free_live R s p n :
  heap_ready R s → (p, n) ∈ live R →
  ∃ s' R', liballoc_free p s = Ok (tt, s') ∧ heap_ready R' s' ∧ live R ≡ₚ (p, n) :: live R' ∧ areas_kept R s s'.
Proof.
  intros Hready (r & b & Hr & Hb & [= -> ->])%elem_of_live. pose proof (hi_rep _ _ (proj1 Hready)) as Hrep.
  apply list_elem_of_split in Hr as (A & B & ->). apply list_elem_of_split in Hb as (l1 & l2 & Hl).
  destruct (free_run A r B l1 l2 b s Hready Hl) as (s' & Hrun & Hready' & _ & Hcov).
  eexists s', _. split; [exact Hrun|]. split; [exact Hready'|]. split.
  - rewrite live_split, Hl, map_app. cbn [map].
    assert (live (A ++ with_blocks (l1 ++ l2) r :: B) ≡ₚ map (λ b, (uptr b, b_req b)) (l1 ++ l2) ++ live (A ++ B)) as Hlv by apply live_middle.
    destruct (decide (l1 ++ l2 = [])) as [[-> ->]%app_nil|_]; [done|]. rewrite Hlv, map_app. solve_Permutation.
  - intros a x Ha Hx. apply Hcov. eapply owned_covered; [exact Hrep|]. by eapply live_owned.
Qed.


Lemma bad_magic_dead (s : state) : bad_magic LIBALLOC_DEAD s = Ok (tt, mk_la (la_sys s) (h_count 0 1 0 (la_heap s))).
Proof. done. Qed.

(** C34. Freeing the same area twice in a row does nothing the
    second time but count an error: the header is still there with its dead magic
    number, even when its block went back to the page provider. *)
Theorem liballoc_double_free R s p n :
  heap_ready R s → (p, n) ∈ live R →
  ∃ s' s'', liballoc_free p s = Ok (tt, s') ∧ liballoc_free p s' = Ok (tt, s'') ∧
    la_heap s'' = h_count 0 1 0 (la_heap s') ∧ la_mem s'' = la_mem s'.
Proof.
  intros Hready (r & b & Hr & Hb & [= -> ->])%elem_of_live. pose proof (proj1 Hready) as Hinv. pose proof (hi_rep _ _ Hinv) as Hrep.
  destruct (block_in_region _ _ _ _ _ _ Hrep Hr Hb) as (Hb1 & _ & _ & Hr0 & _). pose proof (uptr_bounds b) as [Hu _].
  destruct (UNALIGN_run _ _ _ _ Hinv Hr Hb) as [Hun Hmin].
  assert (covered R (uptr b - ALIGN_INFO)) as Hcb by (eapply owned_covered; [exact Hrep|by eapply align_owned]).
  apply list_elem_of_split in Hr as (A & B & ->). apply list_elem_of_split in Hb as (l1 & l2 & Hl).
  destruct (free_run A r B l1 l2 b s Hready Hl) as (s' & Hrun & Hready' & Hmin' & Hcov). exists s'.
  pose proof (hr_minors _ _ _ _ Hrep r ltac:(set_solver)) as HN. rewrite Hl in HN.
  pose proof (spaced_nodup _ _ _ (ro_spaced _ (hr_layout _ _ _ _ Hrep r ltac:(set_solver)))) as Hnd. rewrite Hl in Hnd.
  pose proof (fresh_of_nodup _ _ _ _ Hnd) as Hf. apply dseg_app in HN as [_ [HN _]].
  assert (minors (la_heap s') !! b_addr b = Some (mn_set_magic LIBALLOC_DEAD (minor_node (r_addr r) (dlast b_addr l1 0) (dhd b_addr l2 0) b))) as Hdead.
  { rewrite Hmin'. unfold minors_remove. rewrite relink_next_lookup by (intros c Hc; apply Hf; set_solver).
    unfold relink_prev. destruct l2 as [|d l2]; [by rewrite lookup_alter_eq, HN|].
    rewrite lookup_alter_ne by (apply Hf; set_solver). by rewrite lookup_alter_eq, HN. }
  unfold SIZEOF_MAJOR in Hb1. unfold liballoc_free at 2. rewrite (proj2 (Z.eqb_neq _ _)) by lia.
  assert (UNALIGN (uptr b) s' = Ok (b_addr b + SIZEOF_MINOR, s')) as Hun'.
  { revert Hun. unfold UNALIGN, mbind, M_bind, gets, mret, M_ret. rewrite (Hcov _ Hcb). by intros [= ->]. }
  destruct (lock_run _ s' Hready') as (s1 & Hlock & Hinv1 & Hmem1 & Hheap1 & Hw1).
  rewrite (bind_eq _ _ _ _ _ Hun'), (bind_eq _ _ _ _ _ Hlock), Hmin.
  rewrite (bind_eq _ _ _ (mn_set_magic LIBALLOC_DEAD (minor_node (r_addr r) (dlast b_addr l1 0) (dhd b_addr l2 0) b)) s1)
    by (apply min_at_run; by rewrite Hheap1).
  change (mn_magic _) with LIBALLOC_DEAD. change (negb (LIBALLOC_DEAD =? LIBALLOC_MAGIC)) with true. cbv iota.
  rewrite (bind_eq _ _ _ _ _ (bad_magic_dead s1)). eexists. split; [exact Hrun|]. split; [done|]. split.
  - cbn [la_heap la_sys]. rewrite Hheap1. destruct Hready' as [_ Hl0]. destruct s' as [? []]. cbn in *. by subst.
  - rewrite <- Hmem1. unfold la_mem, la_hw, arch_release. cbn. by rewrite pp_get_set.
Qed.

(** *** [realloc] *)

(** Only the alignment bytes matter to the representation. *)
Lemma rep_write R M N mem mem' a x0 n0 :
  heap_rep R M N mem → a ∈ live R → a.1 ≤ x0 → x0 + n0 ≤ a.1 + a.2 →
  (∀ x, 0 ≤ x < 0x10000000000000000 → ¬ in_block x0 n0 x → load8 mem' x = load8 mem x) → heap_rep R M N mem'.
Proof.
  intros Hrep (r & b & Hr & Hb & ->)%elem_of_live Hlo Hhi Heq. cbn [fst snd] in *.
  destruct (block_in_region _ _ _ _ _ _ Hrep Hr Hb) as (Hb1 & Hb2 & Hf & Hr0 & Hr1). pose proof (uptr_bounds b) as [Hu _]. destruct Hf as [Hf1 Hf2].
  split; try apply Hrep. intros q c Hq Hc. pose proof (uptr_bounds c) as [Huc _].
  destruct (block_in_region _ _ _ _ _ _ Hrep Hq Hc) as (Hc1 & Hc2 & Hfc & Hq0 & Hq1). pose proof (block_len c Hfc).
  unfold SIZEOF_MAJOR, b_end, SIZEOF_MINOR, ALIGNMENT, ALIGN_INFO in *. rewrite Heq; [by apply (hr_align _ _ _ _ Hrep q)|lia|]. unfold in_block.
  destruct (blocks_apart _ _ _ _ _ _ _ _ Hrep Hr Hq Hb Hc) as [[_ <-]|Hd]; [lia|]. unfold b_end, SIZEOF_MINOR in Hd. lia.
Qed.

Definition shrunk (b : block) (n : Z) : block := mk_block (b_addr b) (b_size b) n.
Lemma rep_shrink A r B M N mem l1 l2 b n :
  heap_rep (A ++ r :: B) M N mem → r_blocks r = l1 ++ b :: l2 → 0 ≤ n ≤ b_req b →
  heap_rep (A ++ with_blocks (l1 ++ shrunk b n :: l2) r :: B) M (alter (mn_set_req n) (b_addr b) N) mem.
Proof.
  intros Hrep Hl Hn. set (b' := shrunk b n). set (r' := with_blocks _ r). pose proof Hrep as [HM HN HL Hnd Hd Ha].
  assert (r ∈ A ++ r :: B) as Hr by set_solver. assert (b ∈ r_blocks r) as Hb by (rewrite Hl; set_solver).
  assert (∀ q, q ∈ A ++ r' :: B → q = r' ∨ q ∈ A ++ r :: B ∧ q ≠ r) as Hcase.
  { intros q Hq. apply elem_of_middle in Hq as [->|Hq]; [by left|]. right. split; [set_solver|]. intros ->.
    by apply (fresh_of_nodup r_addr _ _ _ Hnd r). }
  split.
  - rewrite <- (alter_id (λ m : liballoc_major, m) M (r_addr r)) by done. apply dseg_update; [done|done| |done].
    intros p0 n0. unfold major_node, r'. cbn [with_blocks r_pages r_blocks]. rewrite Hl, !used_app, !used_cons, !dhd_app. done.
  - intros q Hq. destruct (Hcase q Hq) as [->|[Hq' Hne]].
    + unfold r'. cbn [with_blocks r_addr r_blocks]. pose proof (HN r Hr) as HNr. rewrite Hl in HNr.
      pose proof (spaced_nodup _ _ _ (ro_spaced _ (HL r Hr))) as Hnb. rewrite Hl in Hnb. by apply dseg_update.
    + apply dseg_alter_fresh; [|by apply HN]. by apply (regions_fresh _ _ _ _ r q b Hrep).
  - intros q Hq. destruct (Hcase q Hq) as [->|[Hq' _]]; [|by apply HL]. destruct (HL r Hr) as [H1 H2 H3 Hs]. split; try done.
    unfold r'. cbn [with_blocks r_addr r_blocks]. change (r_end (with_blocks _ r)) with (r_end r). rewrite Hl in Hs.
    apply spaced_app in Hs as [Hs1 (Hs2 & [Hf1 Hf2] & Hs3)]. apply spaced_app. split; [done|]. split_and!; [done| |done].
    unfold block_fits, b', shrunk. cbn. lia.
  - revert Hnd. rewrite !fmap_app, !fmap_cons. done.
  - intros q1 q2 Hq1 Hq2. destruct (Hcase q1 Hq1) as [->|[Hq1' Hn1]], (Hcase q2 Hq2) as [->|[Hq2' Hn2]].
    + by left.
    + right. destruct (Hd r q2 Hr Hq2') as [?|?]; [congruence|done].
    + right. destruct (Hd q1 r Hq1' Hr) as [?|?]; [congruence|done].
    + by apply Hd.
  - intros q c Hq Hc. destruct (Hcase q Hq) as [->|[Hq' _]]; [|by apply (Ha q c)]. unfold r' in Hc. cbn [with_blocks r_blocks] in Hc.
    apply elem_of_middle in Hc as [->|Hc]; [by apply (Ha r b Hr)|]. apply (Ha r c Hr). rewrite Hl. set_solver.
Qed.

Lemma shrink_ready A r B l1 l2 b n s s1 :
  heap_ready (A ++ r :: B) s → r_blocks r = l1 ++ b :: l2 → 0 ≤ n ≤ b_req b →
  la_sys s1 = la_sys s → la_heap s1 = h_minors (alter (mn_set_req n) (b_addr b)) (la_heap s) →
  heap_ready (A ++ with_blocks (l1 ++ shrunk b n :: l2) r :: B) s1.
Proof.
  intros [[Hrep Hroot Hbet Htaken Hpok] Hlk] Hl Hn Hsys Hheap. unfold heap_ready. rewrite Hheap. split; [|done].
  split; rewrite ?Hheap, ?Hsys; cbn; try done.
  - unfold la_mem, la_hw. rewrite Hsys. by apply rep_shrink.
  - by rewrite dhd_with.
  - by rewrite addrs_with.
  - intros x Hx. apply Htaken. by apply covered_with in Hx.
Qed.

(** The copy from the old area into the new one. *)
Lemma memcpy_run R s q m p n :
  heap_ready R s → (q, m) ∈ live R → (p, n) ∈ live R → 0 < n ≤ m → blocks_disjoint q m p n →
  ∃ s', liballoc_memcpy q p n s = Ok (tt, s') ∧ heap_ready R s' ∧
    (∀ x, in_block q n x → load8 (la_mem s') x = load8 (la_mem s) (p + (x - q))) ∧
    (∀ x, 0 ≤ x < 0x10000000000000000 → ¬ in_block q n x → load8 (la_mem s') x = load8 (la_mem s) x).
Proof.
  intros [Hinv Hl] Hq Hp Hn Hd. pose proof Hinv as [Hrep Hroot Hbet Htaken Hpok].
  assert (∀ a, a ∈ live R → 0 < a.2 → 0 < a.1 ∧ a.1 + a.2 ≤ 0x10000000000000000 ∧ ∀ x, in_block a.1 a.2 x → covered R x) as Hbound.
  { intros a Ha Hpos. pose proof Ha as (r & b & Hr & Hb & Heq)%elem_of_live.
    destruct (block_in_region _ _ _ _ _ _ Hrep Hr Hb) as (Hb1 & Hb2 & [Hf1 Hf2] & Hr0 & Hr1). pose proof (uptr_bounds b) as [Hu _]. subst a. cbn [fst snd] in *.
    unfold SIZEOF_MAJOR, b_end, SIZEOF_MINOR, ALIGNMENT, ALIGN_INFO in *. split_and!; try lia.
    intros x Hx. eapply owned_covered; [exact Hrep|]. by eapply live_owned. }
  destruct (Hbound _ Hq ltac:(cbn; lia)) as (Hq0 & Hq1 & Hqc), (Hbound _ Hp ltac:(cbn; lia)) as (Hp0 & Hp1 & _). cbn [fst snd] in *.
  unfold liballoc_memcpy. rewrite (proj2 (Z.eqb_neq q 0)), (proj2 (Z.eqb_neq p 0)) by lia. cbn [orb andb].
  set (copy := λ m0, copy_loop _ _ q p (copy_words _ q p m0)).
  assert (∀ m0 x, 0 ≤ x < 0x10000000000000000 → load8 (copy m0) x = if decide (in_block q n x) then load8 m0 (p + (x - q)) else load8 m0 x) as Hcopy.
  { intros m0 x Hx. apply load8_liballoc_copy; unfold block_ok, blocks_disjoint in *; lia. }
  eexists. split; [done|]. set (s' := la_set_hw _ s).
  assert (la_mem s' = copy (la_mem s)) as Hmem by (unfold la_mem, la_hw, s', la_set_hw; cbn [la_sys]; by rewrite pp_get_set).
  destruct (pp_frame (hw_set_mem copy (la_hw s)) (la_sys s) Hpok eq_refl) as (Hok' & Htk' & _).
  { intros x Hx Hno. cbn [hw_set_mem hw_mem]. rewrite Hcopy by done. rewrite decide_False; [done|]. intros Hin. apply Hno, Htaken, Hqc.
    unfold in_block in *. lia. }
  split; [split; [split|done]; try done|].
  - rewrite Hmem. eapply (rep_write _ _ _ _ _ (q, m) q n); try done; cbn [fst snd]; try lia.
    intros x Hx Hno. rewrite Hcopy by done. by rewrite decide_False.
  - intros x Hx. by apply Htk', Htaken.
  - rewrite Hmem. split; intros x Hx.
    + rewrite Hcopy by (unfold in_block in Hx; lia). by rewrite decide_True.
    + intros Hno. rewrite Hcopy by done. by rewrite decide_False.
Qed.

Definition realloc_done (R : list region) (s : state) (p n size q : Z) (s' : state) : Prop :=
  ∃ R' rest, heap_ready R' s' ∧ live R ≡ₚ (p, n) :: rest ∧ live R' ≡ₚ (q, size) :: rest ∧ (size ≤ n → q = p) ∧
    (∀ i, 0 ≤ i < Z.min n size → load8 (la_mem s') (q + i) = load8 (la_mem s) (p + i)) ∧
    (∀ a x, a ∈ rest → in_block a.1 a.2 x → load8 (la_mem s') x = load8 (la_mem s) x).

(** The rest of [realloc] once the header was found too small. *)
Lemma grow_run R s p n size :
  heap_ready R s → (p, n) ∈ live R → 0 < n < size → size ≤ 0x40000000 →
  match (liballoc_malloc size ≫= λ ptr, liballoc_memcpy ptr p n ≫= λ _, liballoc_free p ≫= λ _, mret ptr) s with
  | Err e => pp_stops (wanted size) (la_sys s) e ∨ e = BadAccess ∧ pp_null (wanted size) (la_sys s) ∧ n < size
  | Ok (q, s') => realloc_done R s p n size q s'
  end.
Proof.
  intros Hready Hp Hn Hsize. pose proof (malloc_run size R s ltac:(lia) Hready) as Hmal. unfold runs in Hmal.
  unfold mbind at 1, M_bind at 1. destruct (liballoc_malloc size s) as [[q s1]|e]; [|by left].
  destruct Hmal as (R1 & Hready1 & Hkept1 & Hq). destruct Hq as [(-> & Hnull & Hlive)|(Hq0 & _ & Hlive & Hdis)].
  { assert (liballoc_memcpy 0 p n s1 = Err BadAccess) as Hbad.
    { unfold liballoc_memcpy. change (0 =? 0) with true. cbn [orb]. by rewrite (proj2 (Z.ltb_lt 0 n)) by lia. }
    rewrite (bind_Err _ _ _ _ Hbad). right. split_and!; [done|done|lia]. }
  assert ((p, n) ∈ live R1) as Hp1 by (rewrite Hlive; set_solver).
  specialize (Hdis _ Hp) as Hdp. cbn [fst snd] in Hdp.
  destruct (memcpy_run R1 s1 q size p n Hready1 ltac:(rewrite Hlive; set_solver) Hp1 ltac:(lia) Hdp) as (s2 & Hcpy & Hready2 & Hin2 & Hout2).
  rewrite (bind_eq _ _ _ _ _ Hcpy). destruct (free_live R1 s2 p n Hready2 Hp1) as (s3 & R3 & Hfree & Hready3 & Hlive3 & Hkept3).
  rewrite (bind_eq _ _ _ _ _ Hfree). pose proof Hp as Hrest. apply elem_of_Permutation in Hrest as [rest Hrest].
  pose proof (hi_rep _ _ (proj1 Hready1)) as Hrep1.
  assert (∀ a x, a ∈ live R → in_block a.1 a.2 x → load8 (la_mem s3) x = load8 (la_mem s) x) as Hkeep.
  { intros a x Ha Hx. assert (a ∈ live R1) as Ha1 by (rewrite Hlive; set_solver).
    rewrite (Hkept3 a x Ha1 Hx), Hout2, (Hkept1 a x Ha Hx); [done| |].
    - pose proof (live_owned _ _ _ _ _ _ Hrep1 Ha1 Hx) as Ho. by eapply owned_covered in Ho as [_ Ho].
    - specialize (Hdis a Ha). unfold in_block, blocks_disjoint in *. lia. }
  exists R3, rest. split_and!; try done.
  - assert ((p, n) :: live R3 ≡ₚ (p, n) :: (q, size) :: rest) as Hperm.
    { rewrite <- Hlive3, Hlive, Hrest. apply perm_swap. }
    by apply Permutation_cons_inv in Hperm.
  - lia.
  - intros i Hi. rewrite (Hkept3 (q, size) (q + i)); [|rewrite Hlive; set_solver|unfold in_block; cbn; lia].
    rewrite Hin2 by (unfold in_block; lia). replace (p + (q + i - q)) with (p + i) by lia. apply (Hkept1 (p, n)); [done|unfold in_block; cbn; lia].
  - intros a x Ha. apply Hkeep. rewrite Hrest. set_solver.
Qed.

Lemma realloc_run R s p n size :
  heap_ready R s → (p, n) ∈ live R → 0 < n → 0 < size ≤ 0x40000000 →
  match liballoc_realloc p size s with
  | Err e => pp_stops (wanted size) (la_sys s) e ∨ e = BadAccess ∧ pp_null (wanted size) (la_sys s) ∧ n < size
  | Ok (q, s') => realloc_done R s p n size q s'
  end.
Proof.
  intros Hready Hp Hn Hsize. pose proof (proj1 Hready) as Hinv. pose proof (hi_rep _ _ Hinv) as Hrep.
  pose proof Hp as (r & b & Hr & Hb & Heq)%elem_of_live. injection Heq as Hpb Hnb. pose proof (uptr_bounds b) as [Hu _].
  destruct (block_in_region _ _ _ _ _ _ Hrep Hr Hb) as (Hb1 & _ & _ & Hr0 & _). unfold SIZEOF_MAJOR in Hb1.
  unfold liballoc_realloc. rewrite (proj2 (Z.eqb_neq size 0)), (proj2 (Z.eqb_neq p 0)) by lia.
  destruct (UNALIGN_run _ _ _ _ Hinv Hr Hb) as [Hun Hmin]. rewrite <- Hpb in Hun. rewrite (bind_eq _ _ _ _ _ Hun).
  destruct (lock_run _ s Hready) as (s1 & Hlock & Hinv1 & Hmem1 & Hheap1 & Hw1). rewrite (bind_eq _ _ _ _ _ Hlock), Hmin.
  destruct (dseg_lookup _ _ _ _ _ _ _ (hr_minors _ _ _ _ (hi_rep _ _ Hinv1) r Hr) Hb) as (pv & nx & HN).
  rewrite (bind_eq _ _ _ _ _ (min_at_run _ _ _ HN)). cbn [minor_node mn_magic mn_req_size]. change (negb (LIBALLOC_MAGIC =? LIBALLOC_MAGIC)) with false. cbv iota zeta.
  rewrite <- Hnb. destruct (Z.leb_spec size n) as [Hfit|Hgrow].
  - rewrite u32_small by lia. rewrite (bind_eq _ _ _ _ _ (upd_min_run (b_addr b) (mn_set_req size) s1 (ltac:(eauto)))). set (s2 := mk_la _ _).
    apply list_elem_of_split in Hr as (A & B & ->). apply list_elem_of_split in Hb as (l1 & l2 & Hl).
    destruct (unlock_run (A ++ r :: B) s1 Hinv1) as (s1' & Hunl1 & Hready1 & Hmem1' & Hheap1' & Hw2).
    unfold liballoc_unlock, modify in Hunl1 |- *. rewrite (bind_eq _ _ _ tt (mk_la (la_sys s1') (la_heap (la_set_hw (la_hw s1') (mk_la (la_sys s1') (h_minors (alter (mn_set_req size) (b_addr b)) (la_heap s1')))))))
      by (injection Hunl1 as <-; done).
    set (s3 := mk_la _ _). exists (A ++ with_blocks (l1 ++ shrunk b size :: l2) r :: B).
    exists (map (λ b, (uptr b, b_req b)) (l1 ++ l2) ++ live (A ++ B)). split_and!.
    + eapply (shrink_ready A r B l1 l2 b size s1'); try done. lia.
    + rewrite live_split, Hl, !map_app. cbn [map]. rewrite <- Hpb, <- Hnb. solve_Permutation.
    + rewrite live_middle, !map_app. cbn [map]. change (uptr (shrunk b size)) with (uptr b). rewrite <- Hpb. cbn [shrunk b_req]. solve_Permutation.
    + done.
    + intros i Hi. change (la_mem s3) with (la_mem s1'). by rewrite Hmem1', Hmem1.
    + intros a x _ _. change (la_mem s3) with (la_mem s1'). by rewrite Hmem1', Hmem1.
  - destruct (unlock_run _ s1 Hinv1) as (s1' & Hunl1 & Hready1 & Hmem1' & Hheap1' & Hw2). rewrite (bind_eq _ _ _ _ _ Hunl1).
    pose proof (grow_run R s1' p n size Hready1 Hp ltac:(lia) ltac:(lia)) as Hrun.
    match goal with |- match ?m with _ => _ end => destruct m as [[q s2]|e] end.
    2: { destruct (Hw1 (wanted size)) as [Hs1 Hn1], (Hw2 (wanted size)) as [Hs2 Hn2]. destruct Hrun as [He|(He & Hnu & Hlt)]; [left; by apply Hs1, Hs2|right; split_and!; [done|by apply Hn1, Hn2|done]]. }
    unfold realloc_done in *. by rewrite Hmem1', Hmem1 in Hrun.
Qed.

End heap.
(** ** A page provider that hands out pages one after the other *)

Record page_bump : Type := mk_pages { pg_hw : hw; pg_next : Z }.
#[export] Instance page_bump_provider : PageProvider page_bump := {
  pp_hw := pg_hw;
  pp_set_hw := λ h p, mk_pages h (pg_next p);
  pp_alloc := λ n p, if (0 <? n) && (pg_next p + n * 4096 <=? 0x7fffffff0000) then Ok (pg_next p, mk_pages (pg_hw p) (pg_next p + n * 4096)) else Ok (0, p);
  pp_free := λ _ _, mret tt
}.
Definition sample_la : la_state page_bump := mk_la (mk_pages (mk_hw (λ _, 0) true 0 []) 0x100000) heap_init.

#[export] Instance page_bump_laws : PageProviderLaws page_bump.
Proof.
  refine {| pp_ok := λ p, 0 < pg_next p ≤ 0x7fffffff0000; pp_stops := λ _ _ _, False; pp_null := λ n p, 0x7fffffff0000 < pg_next p + n * 4096; pp_taken := λ p x, 0 ≤ x < pg_next p |}.
  - done.
  - intros h p Hp _. done.
  - intros p n Hp Hn. unfold pp_alloc, page_bump_provider. destruct ((0 <? n) && _) eqn:Hc.
    + apply andb_prop in Hc as [_ Hc]. apply Z.leb_le in Hc. cbn [pp_hw pg_hw pg_next]. unfold in_block.
      split_and!; try done; try lia. right. split_and!; lia || (intros x Hx; lia).
    + apply andb_false_iff in Hc as [Hc%Z.ltb_ge|Hc%Z.leb_gt]; [lia|]. cbn. split; [exact Hp|]. split; [done|]. split; [done|]. left. by split.
  - intros p a n Hp Hn Ha. exists p. done.
Defined.

(** ** Witnesses: a heap with one live area of a hundred bytes *)

Lemma sample_la_ready : heap_ready [] sample_la.
Proof.
  assert (∀ r, r ∈ @nil region → False) as Hno by (intros r; apply not_elem_of_nil).
  split; [|done]. split; [| | |intros x (r & Hr & _); by destruct (Hno r)|cbn; lia]; [|done|by left].
  split; [done|..]; try (intros; exfalso; eauto; fail). apply NoDup_nil_2.
Qed.
Lemma liballoc_malloc_fresh_witness :
  match liballoc_malloc 100 sample_la with
  | Err e => False
  | Ok (p, s') =>
      ∃ R', heap_ready R' s' ∧ areas_kept [] sample_la s' ∧
        (p = 0 ∧ pp_null (wanted 100) (la_sys sample_la) ∧ live R' = live [] ∨
         0 < p ∧ p mod 16 = 0 ∧ live R' ≡ₚ (p, 100) :: live [] ∧ ∀ a, a ∈ live [] → blocks_disjoint p 100 a.1 a.2)
  end.
Proof. exact (liballoc_malloc_fresh 100 [] sample_la (ltac:(lia)) sample_la_ready). Defined.

Definition sample_ptr : Z := match liballoc_malloc 100 sample_la with Ok (p, _) => p | Err _ => 0 end.
Definition sample_heap : la_state page_bump := match liballoc_malloc 100 sample_la with Ok (_, s) => s | Err _ => sample_la end.
Example sample_ptr_value : sample_ptr = 0x100060.
Proof. vm_compute. reflexivity. Qed.
Lemma sample_live : ∃ R, heap_ready R sample_heap ∧ (sample_ptr, 100) ∈ live R.
Proof.
  pose proof (malloc_run 100 [] sample_la ltac:(lia) sample_la_ready) as Hrun. pose proof sample_ptr_value as Hptr. unfold runs in Hrun.
  unfold sample_heap, sample_ptr in *. destruct (liballoc_malloc 100 sample_la) as [[p s]|e]; [|discriminate].
  destruct Hrun as (R & Hready & _ & [(-> & _)|(_ & _ & Hlive & _)]); [discriminate|]. exists R. split; [done|]. rewrite Hlive. by left.
Qed.

Lemma liballoc_double_free_witness :
  ∃ s' s'', liballoc_free sample_ptr sample_heap = Ok (tt, s') ∧ liballoc_free sample_ptr s' = Ok (tt, s'') ∧
    la_heap s'' = h_count 0 1 0 (la_heap s') ∧ la_mem s'' = la_mem s'.
Proof.
  destruct sample_live as (R & Hready & Hin). exact (liballoc_double_free R sample_heap sample_ptr 100 Hready Hin).
Defined.
