(* ===== verification/Compat.v ===== *)
(** libs/liballoc/compat.c, kernel/kmalloc.c and the memory operations of
    arch/x86_64/arch.c: the heap over the memory manager, and with it the
    implementation of [KernelServices] the kernel links. *)
From S2P Require Import Prelude Machine Range FrameAllocator Pmm Vmm Services Liballoc.

(** The memory manager with the page table [liballoc_alloc] maps into:
    [cs_space] is the [pml] of [sched_current_process] once [is_sched_init]
    answers true, which belongs to the scheduler's state. *)
Record compat : Type := mk_compat { cs_vmm : vmm_state pmm_state; cs_space : option Z }.

Definition on_vmm {A} (m : M (vmm_state pmm_state) A) : M compat A := zoom cs_vmm (λ v s, mk_compat v (cs_space s)) m.

Definition heap_space (s : compat) : Z :=
  match cs_space s with Some pml => pml | None => get_kernel_space (cs_vmm s) end.
(** [size] is an [int], the amount a [size_t]. *)
Definition liballoc_alloc (size : Z) : M compat Z :=
  gets heap_space ≫= λ space,
  on_vmm (on_pmm (fa_alloc (u64 (s32 (size * PAGE_SIZE))))) ≫= λ phys_range,
  assert_ (0 <? length phys_range) ≫= λ _,
  on_vmm (vmm_map_range space (mk_range (mmap_phys_to_io (base phys_range)) (length phys_range)) phys_range true) ≫= λ _,
  mret (mmap_phys_to_io (base phys_range)).

Definition liballoc_free_ (ptr pages : Z) : M compat unit :=
  on_vmm (on_pmm (fa_free (mk_range ptr (u64 pages)))).

#[export] Instance compat_pages : PageProvider compat := {
  pp_hw := λ s, vm_hw (cs_vmm s);
  pp_set_hw := λ h s, mk_compat (vm_set_hw h (cs_vmm s)) (cs_space s);
  pp_alloc := liballoc_alloc;
  pp_free := liballoc_free_
}.

(** ** The services of the kernel *)

Definition kernel_memory : Type := la_state compat.

Definition kmalloc (count : Z) : M kernel_memory Z := liballoc_malloc count.
Definition krealloc (ptr count : Z) : M kernel_memory Z := liballoc_realloc ptr count.
Definition kfree (ptr : Z) : M kernel_memory unit := liballoc_free ptr.

Definition arch_pmm_alloc (amount : Z) : M kernel_memory range_t := on_sys (on_vmm (on_pmm (fa_alloc amount))).
Definition arch_vmm_map (pml : Z) (virt phys : range_t) (is_user : bool) : M kernel_memory unit :=
  on_sys (on_vmm (vmm_map_range pml virt phys is_user)).
Definition arch_vmm_unmap (pml : Z) (virt : range_t) : M kernel_memory unit := on_sys (on_vmm (vmm_unmap pml virt)).
Definition arch_create_space : M kernel_memory Z := on_sys (on_vmm vmm_space_create).
Definition arch_kernel_space : M kernel_memory Z := gets (λ s, vmm_kernel_space (cs_vmm (la_sys s))).
Definition arch_space_destroy (pml : Z) : M kernel_memory unit := on_sys (on_vmm (vmm_space_destroy pml)).
Definition get_page_size : Z := PAGE_SIZE.

#[export] Instance kernel_services : KernelServices kernel_memory := {
  ks_hw := la_hw;
  ks_set_hw := la_set_hw;
  ks_malloc := kmalloc;
  ks_realloc := krealloc;
  ks_free := kfree;
  ks_pmm_alloc := arch_pmm_alloc;
  ks_pmm_free := λ r, on_sys (on_vmm (on_pmm (fa_free r)));
  ks_vmm_map := arch_vmm_map;
  ks_space_create := arch_create_space;
  ks_space_destroy := arch_space_destroy
}.
#[export] Instance kernel_services_laws : KernelServicesLaws kernel_memory.
Proof.
  split.
  - done.
  - intros [[[[] ? ?] ?] ?]. done.
  - done.
Qed.

(** libs/ansi/stdlib.c in the kernel's build; [calloc] does not look for
    overflow, and like [kcalloc] not at the pointer either. *)
Section stdlib.
Context {K : Type} `{KernelServices K}.
Definition malloc (size : Z) : M K Z := ks_malloc size.
Definition free (ptr : Z) : M K unit := ks_free ptr.
Definition realloc (ptr size : Z) : M K Z := ks_realloc ptr size.
Definition calloc (nmemb size : Z) : M K Z := kcalloc (u64 (nmemb * size)).
Definition exit (status : Z) : M K unit := mret tt.

(** A product that wraps around gets a block of its low 64 bits. *)
Lemma calloc_wraps nmemb size k p k' :
  nmemb * size = 0x10000000000000000 + 16 → ks_malloc 16 k = Ok (p, k') → p ≠ 0 →
  calloc nmemb size k = Ok (p, ks_set_mem (memset p 0 16) k').
Proof.
  intros Hp Hm Hne. unfold calloc, kcalloc. rewrite Hp. change (u64 _) with 16. rewrite (bind_eq _ _ _ _ _ Hm).
  by rewrite (proj2 (Z.eqb_neq _ _) Hne).
Qed.
End stdlib.

(** ** Giving pages back *)

Definition frames_of (s : compat) : pmm_state := vm_pmm (cs_vmm s).

(** [liballoc_free_] gives back fewer than 4096 pages as
    a range of that many bytes: it returns with the bitmap, its bytes, the count
    of usable pages and the search position as they were, so that the frames of
    an empty block of the heap are never allocated again. *)
Theorem liballoc_free_leaks s ptr pages :
  pm_lock (frames_of s) = 0 → 0 ≤ pages < 4096 →
  ∃ s', liballoc_free_ ptr pages s = Ok (tt, s') ∧ pm_mem (frames_of s') = pm_mem (frames_of s) ∧
    bitmap (frames_of s') = bitmap (frames_of s) ∧ pm_usable_pages (frames_of s') = pm_usable_pages (frames_of s) ∧
    last_page (frames_of s') = last_page (frames_of s) ∧ ∀ p, page_free (frames_of s') p ↔ page_free (frames_of s) p.
Proof.
  intros Hl Hp. unfold liballoc_free_. rewrite u64_small by lia.
  unfold on_vmm, on_pmm, zoom. change (fa_free ?r) with (pmm_free r). unfold pmm_free. fold (frames_of s).
  rewrite (bind_eq _ _ _ _ _ (pm_acquire_free _ Hl)). unfold pmm_range_unused. cbn [base length].
  rewrite (Z.div_small pages) by (unfold PAGE_SIZE; lia). cbn [Z.to_nat forZ]. eexists. split; [reflexivity|]. done.
Qed.

Definition sample_compat : compat := mk_compat (mk_vmm sample_pmm 0 0) None.
Lemma liballoc_free_leaks_witness :
  ∃ s', liballoc_free_ 0xffff800000003000 16 sample_compat = Ok (tt, s') ∧ pm_mem (frames_of s') = pm_mem (frames_of sample_compat) ∧
    bitmap (frames_of s') = bitmap (frames_of sample_compat) ∧
    pm_usable_pages (frames_of s') = pm_usable_pages (frames_of sample_compat) ∧
    last_page (frames_of s') = last_page (frames_of sample_compat) ∧
    ∀ p, page_free (frames_of s') p ↔ page_free (frames_of sample_compat) p.
Proof. apply (liballoc_free_leaks sample_compat 0xffff800000003000 16); [reflexivity|lia]. Defined.
