(* ===== verification/KernelHeap.v ===== *)
(** The heap of libs/liballoc on the memory manager it is linked with: [Compat]
    keeps the promises [LiballocSpec] asks of a page provider, so the theorems on
    the heap hold of the bitmap allocator and the page tables, and the memory the
    kernel hands out stays apart from both. *)
From Stdlib Require Import Sorted.
From S2P Require Import Prelude Machine Range FrameAllocator Pmm Vmm Spaces Memory Services Dll Liballoc LiballocSpec Compat.

(** ** The provider's invariant *)

Section provider.
(** The roots of the address spaces there are. *)
Variable Rs : list Z.

(** The spaces are well formed, the current one and the kernel's are among them,
    the lock is free, and the bitmap is where the kernel sees physical memory. *)
Record compat_ok (s : compat) : Prop := {
  co_spaces : spaces_ok (cs_vmm s) Rs;
  co_current : heap_space s ∈ Rs;
  co_kernel : get_kernel_space (cs_vmm s) ∈ Rs;
  co_lock : vm_lock (cs_vmm s) = 0;
  co_bitmap x : pmm_private (frames_of s) x → MMAP_IO_BASE ≤ x
}.
Lemma co_space s : compat_ok s → space_ok (cs_vmm s) (heap_space s).
Proof. intros Hok. apply (ss_space _ _ (co_spaces _ Hok)), Hok. Qed.
(** What the manager may still write: its bitmap, the free frames and the tables
    of the spaces. *)
Definition manager_byte (s : compat) (x : Z) : Prop := footprints (cs_vmm s) Rs x.
(** The bytes of physical memory somebody else was given. *)
Definition handed_out (s : compat) (x : Z) : Prop :=
  (∃ f, tracked (frames_of s) f ∧ in_block (frame_io f) 4096 x) ∧ ¬ manager_byte s x.

Lemma compat_pmm s : compat_ok s → pmm_fa_ok (frames_of s).
Proof. intros Hok. exact (sp_fa _ _ (co_space _ Hok)). Qed.
Lemma tracked_io p f x : pmm_fa_ok p → tracked p f → in_block (frame_io f) 4096 x → MMAP_IO_BASE ≤ x < 0x10000000000000000.
Proof. intros [_ [Hsz _]] Hf Hx. unfold tracked, in_block, frame_io, MMAP_IO_BASE in *. lia. Qed.
Lemma manager_io s x : compat_ok s → manager_byte s x → MMAP_IO_BASE ≤ x.
Proof.
  intros Hok. apply footprints_io; [apply Hok| |].
  - apply (co_bitmap _ Hok).
  - intros f [Hf _]. lia.
Qed.

(** How the user's half of the spaces is translated. *)
Definition same_view (s s' : compat) : Prop :=
  ∀ r v, r ∈ Rs → user_address v → leaf (vm_mem (cs_vmm s')) r v = leaf (vm_mem (cs_vmm s)) r v.
Lemma same_view_trans s1 s2 s3 : same_view s1 s2 → same_view s2 s3 → same_view s1 s3.
Proof. intros H1 H2 r v Hr Hv. by rewrite H2, H1. Qed.

(** ** Changes that leave the manager's bytes alone *)

Lemma same_manager s s' :
  compat_ok s → pmm_fa_ok (frames_of s') → heap_space s' = heap_space s → kernel_pml4 (cs_vmm s') = kernel_pml4 (cs_vmm s) → vm_lock (cs_vmm s') = 0 →
  bitmap (frames_of s') = bitmap (frames_of s) → bitmap_size (frames_of s') = bitmap_size (frames_of s) →
  agree_on (manager_byte s) (vm_hw (cs_vmm s)) (vm_hw (cs_vmm s')) →
  compat_ok s' ∧ (∀ x, handed_out s' x ↔ handed_out s x) ∧ same_view s s'.
Proof.
  intros Hok Hfa Hsp Hk Hl Hb Hsz Hag. pose proof (compat_pmm _ Hok) as Hfa0. unfold frames_of in *.
  assert (∀ x, pmm_private (vm_pmm (cs_vmm s')) x ↔ pmm_private (vm_pmm (cs_vmm s)) x) as Hpr by (intros x; unfold pmm_private; by rewrite Hb, Hsz).
  assert (∀ f, tracked (vm_pmm (cs_vmm s')) f ↔ tracked (vm_pmm (cs_vmm s)) f) as Htr by (intros x; unfold tracked; by rewrite Hsz).
  assert (∀ f, pmm_avail (vm_pmm (cs_vmm s')) f ↔ pmm_avail (vm_pmm (cs_vmm s)) f) as Hav.
  { intros f. unfold pmm_avail, page_free. rewrite Hsz. destruct (decide (0 ≤ f < bitmap_size (vm_pmm (cs_vmm s)))) as [Hf|]; [|tauto].
    rewrite (is_set_ext (vm_pmm (cs_vmm s))); [done|apply Hfa0|unfold tracked; lia|done|]. intros x Hx Hp. apply Hag; [done|by left]. }
  destruct (spaces_kept (cs_vmm s) (cs_vmm s') Rs) as (Hs' & Htab & Hleaf); [apply Hok|done|done|done| | |].
  { intros f r p Hf. apply spaces_not_avail; [apply Hok|by apply Hav]. }
  { intros x Hx Ht. apply Hag; [done|by right; right]. }
  assert (∀ x, manager_byte s' x ↔ manager_byte s x) as Hm.
  { intros x. unfold manager_byte. split.
    - apply footprints_mono; [exact Htab|intros y; apply Hpr|intros f; apply Hav].
    - apply footprints_mono; [intros r q Hr Hq; by rewrite Htab|intros y; apply Hpr|intros f; apply Hav]. }
  split; [split; [done|rewrite Hsp; apply Hok|unfold get_kernel_space; rewrite Hk; apply Hok|done|intros x Hx; apply (co_bitmap _ Hok), Hpr, Hx]|].
  split; [|intros r v Hr _; by apply Hleaf]. intros x. unfold handed_out, frames_of. rewrite Hm. by setoid_rewrite Htr.
Qed.

Definition compat_set_hw (h : hw) (s : compat) : compat := mk_compat (vm_set_hw h (cs_vmm s)) (cs_space s).
Lemma compat_frame h s :
  compat_ok s →
  (∀ x, 0 ≤ x < 0x10000000000000000 → ¬ handed_out s x → load8 (hw_mem h) x = load8 (vm_mem (cs_vmm s)) x) →
  compat_ok (compat_set_hw h s) ∧ (∀ x, handed_out (compat_set_hw h s) x ↔ handed_out s x) ∧ same_view s (compat_set_hw h s).
Proof.
  intros Hok Hmem. assert (agree_on (manager_byte s) (vm_hw (cs_vmm s)) h) as Hag.
  { intros x Hx Hm. apply Hmem; [done|]. by intros [_ ?]. }
  apply same_manager; try done; [|apply Hok].
  destruct (pmm_fa_frame h (frames_of s)) as (? & _); [|by apply compat_pmm|done]. intros x Hx Hp. apply Hag; [done|by left].
Qed.

(** ** Taking frames *)

Definition compat_set_pmm (p : pmm_state) (s : compat) : compat := mk_compat (vm_set_pmm p (cs_vmm s)) (cs_space s).

(** The manager's bytes only become fewer, and only they change. *)
Record gives (s s' : compat) : Prop := {
  gv_ok : compat_ok s';
  gv_mono x : handed_out s x → handed_out s' x;
  gv_memory x : handed_out s x → load8 (vm_mem (cs_vmm s')) x = load8 (vm_mem (cs_vmm s)) x;
  gv_tracked f : tracked (frames_of s') f ↔ tracked (frames_of s) f;
  gv_space : heap_space s' = heap_space s;
  gv_cr3 : hw_cr3 (vm_hw (cs_vmm s')) = hw_cr3 (vm_hw (cs_vmm s))
}.
Lemma gives_trans s1 s2 s3 : gives s1 s2 → gives s2 s3 → gives s1 s3.
Proof.
  intros [_ Hm Hv Ht ? ?] [Hok Hm' Hv' Ht' ? ?]. split; [done|auto| | |congruence|congruence].
  - intros x Hx. rewrite Hv', Hv; auto.
  - intros f. by rewrite Ht', Ht.
Qed.
Lemma gives_intro s s' :
  compat_ok s → compat_ok s' → (∀ f, tracked (frames_of s') f ↔ tracked (frames_of s) f) → heap_space s' = heap_space s →
  hw_cr3 (vm_hw (cs_vmm s')) = hw_cr3 (vm_hw (cs_vmm s)) → (∀ x, manager_byte s' x → manager_byte s x) →
  agree_off (manager_byte s) (vm_hw (cs_vmm s)) (vm_hw (cs_vmm s')) → gives s s'.
Proof.
  intros Hok Hok' Htr Hsp Hcr Hm Hag. split; try done.
  - intros x [(f & Hf & Hin) Hno]. split; [|auto]. exists f. by rewrite Htr.
  - intros x [(f & Hf & Hin) Hno]. apply Hag; [|done]. pose proof (tracked_io _ f x (compat_pmm _ Hok) Hf Hin). unfold MMAP_IO_BASE in *. lia.
Qed.

Lemma take_frames s amount r p' :
  compat_ok s → 0 < amount < 0x8000000000000000 → pmm_alloc amount (frames_of s) = Ok (r, p') → length r ≠ 0 →
  let s' := compat_set_pmm p' s in
  gives s s' ∧ same_view s s' ∧ length r = pages_for amount * 4096 ∧ base r mod 4096 = 0 ∧ 0 ≤ base r ∧
  base r + length r ≤ 8 * bitmap_size (frames_of s) * 4096 ∧
  ∀ x, in_block (base r + MMAP_IO_BASE) (length r) x → manager_byte s x ∧ handed_out s' x.
Proof.
  intros Hok Ham Hrun Hlen s'. pose proof (compat_pmm _ Hok) as [Hready [Hsz Hres]].
  assert (r ≠ mk_range 0 0) as Hr by (by intros ->).
  destruct (pmm_alloc_allocated _ _ _ _ Hready Ham Hr Hrun) as [[Hb Hb0] Hl Hhi Hfree Hbits _ Hready' [_ [Hcr Htl]] [Hbm Hsz'] Hmem].
  assert (∀ f, pmm_avail p' f ↔ pmm_avail (frames_of s) f ∧ ¬ page_in r f) as Hav.
  { intros f. unfold pmm_avail. rewrite Hsz'. destruct (decide (0 ≤ f < bitmap_size (frames_of s))); [|tauto].
    rewrite Hbits by (unfold tracked; lia). tauto. }
  assert (∀ x, pmm_private p' x ↔ pmm_private (frames_of s) x) as Hpr by (intros x; unfold pmm_private; by rewrite Hbm, Hsz').
  assert (∀ f, tracked p' f ↔ tracked (frames_of s) f) as Htr by (intros f; unfold tracked; by rewrite Hsz').
  assert (pmm_fa_ok p') as Hfa'.
  { split; [done|]. split; [lia|]. intros f x Hf. apply Hav in Hf as [Hf _]. rewrite Hpr. by apply Hres. }
  destruct (spaces_kept (cs_vmm s) (cs_vmm s') Rs) as (Hs' & Htab & Hleaf); [apply Hok|done|exact Htr|done| | |].
  { intros f q p Hf. apply spaces_not_avail; [apply Hok|by apply Hav in Hf as [? _]]. }
  { intros x Hx Ht. apply Hmem; [done|]. intros Hp. by destruct (spaces_byte_apart _ _ x (co_spaces _ Hok) Ht) as [Hnp _]. }
  assert (compat_ok s') as Hok' by (split; [done|apply Hok|apply Hok|apply Hok|intros x Hx; apply (co_bitmap _ Hok), Hpr, Hx]).
  pose proof (wf_block _ (proj1 Hready)) as (_ & Hsz0 & _). split_and!; try done; try lia.
  - apply gives_intro; [done|done|exact Htr|done|exact Hcr| |].
    + intros x. apply footprints_mono; [done|intros y; apply Hpr|]. intros f Hf. by apply Hav in Hf as [? _].
    + intros x Hx Hout. apply Hmem; [done|]. intros Hp. apply Hout. by left.
  - intros q v Hq _. by apply Hleaf.
  - intros x Hx. set (f := (x - MMAP_IO_BASE) / 4096).
    assert (in_block (frame_io f) 4096 x) as Hin by (subst f; unfold in_block, frame_io in *; Z.div_mod_to_equations; lia).
    assert (page_in r f) as Hpg.
    { subst f. unfold page_in, range_pages, PAGE_SIZE, in_block in *. Z.div_mod_to_equations; lia. }
    assert (pmm_avail (frames_of s) f) as Hfa.
    { split; [|by apply Hfree]. unfold page_in, range_pages, PAGE_SIZE in Hpg. Z.div_mod_to_equations; lia. }
    split; [right; left; by exists f|]. split.
    + exists f. split; [|done]. apply Htr. unfold tracked. destruct Hfa. lia.
    + intros [Hp|[(g & Hg & Hgx)|Ht]].
      * apply Hpr in Hp. by apply (Hres f x).
      * apply Hav in Hg as [_ Hg]. assert (g = f) as -> by (unfold in_block, frame_io in *; lia). done.
      * apply (spaces_byte_same (cs_vmm s) (cs_vmm s') Rs x Htab) in Ht.
        destruct (spaces_byte_apart (cs_vmm s) Rs x (co_spaces _ Hok) Ht) as (_ & Hno & _). by apply (Hno f).
Qed.

(** ** Mapping in one of the spaces *)

Lemma map_gives s root virt phys u :
  compat_ok s → root ∈ Rs → length phys = length virt → 0 ≤ length virt / 4096 ≤ 0x1000000000 →
  runs (starved (3 * Z.to_nat (length virt / 4096)) (frames_of s)) (on_vmm (vmm_map_range root virt phys u)) (λ _ s',
    gives s s' ∧ range_mapped (cs_vmm s) root virt phys u (cs_vmm s')) s.
Proof.
  intros Hok Hroot Hlen Hn.
  pose proof (map_range_run (cs_vmm s) root virt phys u (ss_space _ _ (co_spaces _ Hok) _ Hroot) (co_lock _ Hok) Hlen Hn) as Hrun.
  unfold runs, on_vmm, zoom in *. destruct (vmm_map_range _ _ _ _ _) as [[[] v]|e]; [|done].
  destruct (map_spaces _ _ _ _ _ _ _ (co_spaces _ Hok) Hroot Hrun) as (Hs' & Hfp & Hmem).
  pose proof Hrun as [Hsp Hl [_ [Hcr _]] _ _ _ _ _ Hk Hman Hpr _ _]. set (s' := mk_compat v (cs_space s)).
  assert (heap_space s' = heap_space s) as Hsp' by (unfold heap_space, get_kernel_space; cbn; by rewrite Hk).
  split; [|exact Hrun]. apply gives_intro; [done| |exact Hman|done|exact Hcr|exact Hfp|exact Hmem].
  split; [done|rewrite Hsp'; apply Hok|unfold get_kernel_space; cbn; rewrite Hk; apply Hok|done|]. intros x Hx. by apply (co_bitmap _ Hok), Hpr.
Qed.
(** The user's half of all spaces but one is as before; so is that of this one
    outside the range. *)
Lemma map_view s s' root virt phys u :
  compat_ok s → root ∈ Rs → range_mapped (cs_vmm s) root virt phys u (cs_vmm s') →
  ∀ r v, r ∈ Rs → user_address v → r ≠ root ∨ (∀ j, 0 ≤ j < length virt / 4096 → vpage v ≠ vpage (range_page virt j)) →
  leaf (vm_mem (cs_vmm s')) r v = leaf (vm_mem (cs_vmm s)) r v.
Proof.
  intros Hok Hroot Hm r v Hr Hv Hcase. destruct (decide (r = root)) as [->|Hne]; [destruct Hcase as [|Hj]; [done|by apply (rm_others _ _ _ _ _ _ Hm)]|].
  apply (mapped_user_leaf _ _ Rs root virt phys u (co_spaces _ Hok) Hroot Hm r v Hr Hne Hv).
Qed.
(** What is mapped where the kernel sees physical memory is not seen there. *)
Lemma io_not_user virt v j : MMAP_IO_BASE ≤ base virt → base virt + length virt ≤ 0x10000000000000000 → 0 ≤ j < length virt / 4096 →
  user_address v → vpage v ≠ vpage (range_page virt j).
Proof.
  intros Hb He Hj Hv Heq. apply same_slot in Heq as [Heq _]. unfold walk_of in Heq. injection Heq as Heq _ _. unfold user_address, KERNEL_HALF in Hv.
  rewrite Heq in Hv. unfold range_page in Hv. rewrite ALIGN_DOWN_page in Hv. unfold PAGE_SIZE, MMAP_IO_BASE in *.
  rewrite u64_small in Hv by (Z.div_mod_to_equations; lia). unfold PML4_GET_INDEX in Hv. rewrite PMLX_GET_INDEX_eq in Hv by lia.
  change (2 ^ (12 + 3 * 9)) with 0x8000000000 in Hv. Z.div_mod_to_equations; lia.
Qed.
Lemma map_io_view s s' root virt phys u :
  compat_ok s → root ∈ Rs → range_mapped (cs_vmm s) root virt phys u (cs_vmm s') →
  MMAP_IO_BASE ≤ base virt → base virt + length virt ≤ 0x10000000000000000 → same_view s s'.
Proof.
  intros Hok Hroot Hm Hb He r v Hr Hv. apply (map_view s s' root virt phys u Hok Hroot Hm r v Hr Hv). right. intros j Hj. by apply io_not_user.
Qed.

(** ** Giving pages back

    [liballoc_free_] passes the address at which the kernel sees the pages and
    their number where [pmm_free] wants a physical range in bytes: from 4096
    pages on it clears bits of bytes far from the bitmap. *)

(** Nothing changes above the base of the mapping of physical memory. *)
Record stray s s' : Prop := {
  st_bitmap : bitmap s' = bitmap s ∧ bitmap_size s' = bitmap_size s;
  st_last : last_page s' = last_page s ∧ pm_lock s' = pm_lock s ∧ hw_cr3 (pm_hw s') = hw_cr3 (pm_hw s);
  st_usable : 0 ≤ pm_usable_pages s' < 0x10000000000000000;
  st_memory x : MMAP_IO_BASE ≤ x < 0x10000000000000000 → load8 (pm_mem s') x = load8 (pm_mem s) x
}.
Lemma stray_unused s s' p i :
  stray s s' → MMAP_IO_BASE ≤ bitmap s < 0x10000000000000000 → MMAP_IO_BASE ≤ p < 0x10000000000000000 → 0 ≤ i < 128 →
  wp (bitmap_unused (u64 (p / 4096 + i))) (λ _, stray s) s'.
Proof.
  intros [Hb Hl Hu Hm] Hbm Hp Hi. set (q := p / 4096 + i).
  assert (0xffff800000000 ≤ q < 0x10000000000080) as Hq by (subst q; unfold MMAP_IO_BASE in *; Z.div_mod_to_equations; lia).
  rewrite u64_small by lia. cbv [wp bitmap_unused modify]. destruct Hb as [Hb Hsz]. split; [done|done|apply u64_range|].
  intros x Hx. cbn. rewrite Hb. unfold load8, store8. change (hw_mem (pm_hw s')) with (pm_mem s').
  destruct (Z.eqb_spec (u64 x) (u64 (bitmap s + q / 8))) as [Heq|]; [|by apply Hm].
  exfalso. rewrite (u64_small x) in Heq by (unfold MMAP_IO_BASE in *; lia).
  assert (u64 (bitmap s + q / 8) = bitmap s + q / 8 - 0x10000000000000000) as Hw.
  { unfold u64, MMAP_IO_BASE in *. Z.div_mod_to_equations; lia. }
  rewrite Hw in Heq. unfold MMAP_IO_BASE in *. Z.div_mod_to_equations; lia.
Qed.

Lemma fa_ok_same s s' :
  pmm_fa_ok s → pmm_ready s' → bitmap s' = bitmap s → bitmap_size s' = bitmap_size s →
  agree_on (pmm_private s) (pm_hw s) (pm_hw s') → pmm_fa_ok s'.
Proof.
  intros [[Hwf _] [Hsz Hres]] Hready Hb Hs Hag. split; [done|]. split; [lia|].
  intros f x [Hf Hfree] Hx. rewrite Hs in Hf. unfold pmm_private. rewrite Hb, Hs. apply Hres with f; [|done]. split; [done|].
  unfold page_free in *. rewrite <- Hfree. symmetry. apply is_set_ext; try done. unfold tracked. lia.
Qed.
Lemma stray_free s r :
  pmm_ready s → MMAP_IO_BASE ≤ bitmap s < 0x10000000000000000 → MMAP_IO_BASE ≤ base r < 0x10000000000000000 →
  0 ≤ length r < 0x80000 →
  ∃ s', pmm_free r s = Ok (tt, s') ∧ stray s s' ∧ pmm_ready s'.
Proof.
  intros [Hwf Hl] Hb Hr Hn. unfold pmm_free. rewrite (bind_eq _ _ _ _ _ (pm_acquire_free s Hl)).
  assert (0 ≤ length r / PAGE_SIZE < 128) as Hk by (unfold PAGE_SIZE; Z.div_mod_to_equations; lia).
  assert (wp (pmm_range_unused r) (λ _, stray (pm_locked s)) (pm_locked s)) as Hw.
  { unfold pmm_range_unused. eapply wp_mono; [|apply (wp_forZ (λ _, stray (pm_locked s)))]; [done| |].
    - split; try done. apply Hwf.
    - intros i s1 Hi Hs1. rewrite Z2Nat.id in Hi by lia. by apply (stray_unused (pm_locked s)); [| | |lia]. }
  apply wp_elim in Hw as ([] & s1 & Hrun & [[Hb1 Hs1] (Hla & Hlk & Hcr) Hu Hm]). rewrite (bind_eq _ _ _ _ _ Hrun), pm_release_eq.
  exists (pm_unlocked s1). split; [done|]. split; [by split|]. split; [|done]. destruct Hwf as [Hw1 Hw2 _ Hw4].
  split; cbn in *; rewrite ?Hb1, ?Hs1, ?Hla; done.
Qed.
Lemma free_gives s a n :
  compat_ok s → 0 < n < 0x80000 → handed_out s a →
  ∃ s', liballoc_free_ a n s = Ok (tt, s') ∧ compat_ok s' ∧ (∀ x, handed_out s' x ↔ handed_out s x) ∧ same_view s s' ∧
    hw_cr3 (vm_hw (cs_vmm s')) = hw_cr3 (vm_hw (cs_vmm s)) ∧
    ∀ x, handed_out s x → load8 (vm_mem (cs_vmm s')) x = load8 (vm_mem (cs_vmm s)) x.
Proof.
  intros Hok Hn [(f & Hf & Ha) _]. pose proof (compat_pmm _ Hok) as Hfa. pose proof Hfa as [[Hwf Hlk] _].
  pose proof (tracked_io _ _ _ Hfa Hf Ha) as Hio. pose proof (wf_block _ Hwf) as (Hb0 & Hs0 & Hb1).
  assert (0 < bitmap_size (frames_of s)) as Hpos by (unfold tracked in Hf; lia).
  assert (MMAP_IO_BASE ≤ bitmap (frames_of s)) as Hb by (apply (co_bitmap _ Hok); unfold pmm_private, in_block; lia).
  destruct (stray_free (frames_of s) (mk_range a (u64 n))) as (p' & Hrun & [[Hb' Hs'] (_ & _ & Hcr) _ Hm] & Hready'); [done|lia|done| |].
  { cbn. rewrite u64_small; lia. }
  assert (∀ x, 0 ≤ x < 0x10000000000000000 → MMAP_IO_BASE ≤ x → load8 (pm_mem p') x = load8 (pm_mem (frames_of s)) x) as Hm' by (intros; apply Hm; lia).
  assert (compat_ok (compat_set_pmm p' s) ∧ (∀ x, handed_out (compat_set_pmm p' s) x ↔ handed_out s x) ∧ same_view s (compat_set_pmm p' s)) as (Hok' & Ht & Hview).
  { eapply same_manager; [done| |done|done|apply Hok|done|done|]; [|intros x Hx Hmb; apply Hm'; [done|by eapply manager_io]].
    apply (fa_ok_same (frames_of s)); try done. intros x Hx Hp. apply Hm'; [done|by apply (co_bitmap _ Hok)]. }
  exists (compat_set_pmm p' s). split; [|split; [done|split; [done|split; [done|split; [exact Hcr|]]]]].
  - unfold liballoc_free_, on_vmm, on_pmm, zoom. change (fa_free ?r) with (pmm_free r). fold (frames_of s). by rewrite Hrun.
  - intros x [(g & Hg & Hx) _]. pose proof (tracked_io _ _ _ Hfa Hg Hx). apply Hm'; [unfold MMAP_IO_BASE in *|]; lia.
Qed.

(** ** When a request is granted *)

(** From the position of the search on there is a run of free pages for the
    request and for the tables that mapping it may take. *)
Definition plenty (n : Z) (s : pmm_state) : Prop :=
  4 * n ≤ pm_usable_pages s ∧ ∃ b, last_page s ≤ b ∧ b + 4 * n ≤ bitmap_size s ∧ run_free s b (4 * n).

Lemma run_supply s b k :
  Z.of_nat k ≤ pm_usable_pages s → last_page s ≤ b → b + Z.of_nat k ≤ bitmap_size s → run_free s b (Z.of_nat k) → pmm_supply k s.
Proof.
  intros Hu Hl Hb Hr. split; [done|]. exists ((λ i : nat, b + Z.of_nat i) <$> seq 0 k). split_and!.
  - clear. generalize 0%nat as i. induction k as [|k IH]; intros i; [constructor|]. cbn [seq]. rewrite fmap_cons. constructor; [apply IH|].
    apply Forall_fmap, Forall_forall. intros j Hj%elem_of_seq. cbn. lia.
  - by rewrite length_fmap, length_seq.
  - apply Forall_fmap, Forall_forall. intros j Hj%elem_of_seq. cbn. split; [lia|apply Hr; lia].
Qed.
Lemma plenty_alloc s n :
  pmm_ready s → 0 < n < 0x80000 → plenty n s →
  ∃ r s', pmm_alloc (n * 4096) s = Ok (r, s') ∧ length r ≠ 0 ∧ pmm_supply (3 * Z.to_nat n) s'.
Proof.
  intros [Hwf Hl] Hn (Hu & b & Hlb & Hb & Hrun). pose proof (wf_last _ Hwf). pose proof (wf_usable _ Hwf).
  assert (pages_for (n * 4096) = n) as Hpg by (unfold pages_for; Z.div_mod_to_equations; lia).
  rewrite pmm_alloc_run by (done || lia).
  destruct (find_pages_cases (pm_locked s) (n * 4096) (pm_locked_wf _ Hwf) (ltac:(lia)))
    as [(b' & s1 & -> & Hlb' & _ & Hfirst & [_ _ _ Hhi _ Hbits Hus Hla [_ Hsz _ _ _ _ _] Hwf1])|[Hnone _]]; rewrite Hpg in *.
  2: { destruct (Hnone b Hlb); [cbn; lia|]. intros p Hp. apply Hrun. lia. }
  assert (b' ≤ b) as Hle.
  { destruct (decide (b' ≤ b)); [done|]. destruct (Hfirst b); [cbn; lia|]. intros p Hp. apply Hrun. lia. }
  eexists _, (pm_unlocked s1). split; [done|]. cbn [Range.length base] in *. split; [lia|].
  cbn [pm_locked pm_set_lock pm_set_hw pm_usable_pages last_page bitmap_size] in *.
  apply (run_supply _ (b + n)); cbn [pm_unlocked pm_set_lock pm_set_hw pm_usable_pages last_page bitmap_size]; rewrite ?Nat2Z.inj_mul, ?Z2Nat.id by lia.
  - rewrite Hus, u64_small by lia. lia.
  - rewrite Hla. Z.div_mod_to_equations; lia.
  - lia.
  - intros p Hp. unfold page_free. change (is_set_pmm (pm_unlocked s1) p) with (is_set_pmm s1 p).
    assert (tracked (pm_locked s) p) as Htr by (unfold tracked; cbn; lia). specialize (Hbits p Htr). rewrite Hbits, decide_False.
    + apply (Hrun p). lia.
    + unfold page_in, range_pages, PAGE_SIZE. cbn [Range.length base]. Z.div_mod_to_equations; lia.
Qed.
Lemma plenty_same n s s' :
  pmm_wf s → pm_usable_pages s' = pm_usable_pages s → last_page s' = last_page s → bitmap s' = bitmap s → bitmap_size s' = bitmap_size s →
  agree_on (pmm_private s) (pm_hw s) (pm_hw s') → 0 < n → plenty n s → plenty n s'.
Proof.
  intros Hwf Hu Hl Hb Hs Hag Hn (Hus & b & Hlb & Hend & Hrun). unfold plenty. rewrite Hu, Hl, Hs. split; [done|]. exists b.
  split_and!; try done. intros p Hp. pose proof (wf_last _ Hwf). unfold page_free. rewrite (is_set_ext s); [by apply Hrun|done| |done|done]. unfold tracked. lia.
Qed.

(** ** The provider keeps its promises *)

Definition refuses (n : Z) (s : compat) (e : fault) : Prop := pmm_stops e ∧ ¬ (0 < n ∧ plenty n (frames_of s)).

Lemma compat_alloc s n :
  compat_ok s → 0 < n < 0x80000 →
  runs (refuses n s) (liballoc_alloc n) (λ a s', gives s s' ∧ same_view s s' ∧ 0 < a ∧ a + n * 4096 ≤ 0x10000000000000000 ∧
    ∀ x, in_block a (n * 4096) x → manager_byte s x ∧ handed_out s' x) s.
Proof.
  intros Hok Hn. unfold liballoc_alloc. eapply runs_eq; [done|]. apply runs_bind.
  assert (u64 (s32 (n * PAGE_SIZE)) = n * 4096) as -> by (unfold PAGE_SIZE; rewrite s32_small, u64_small by lia; done).
  unfold runs at 1, on_vmm, on_pmm, zoom. change (fa_alloc ?r) with (pmm_alloc r). fold (frames_of s).
  pose proof (compat_pmm _ Hok) as Hfa. destruct (pmm_alloc (n * 4096) (frames_of s)) as [[r p']|e] eqn:Hrun.
  2: { split; [eapply pmm_alloc_stops; [apply Hfa| |exact Hrun]; lia|]. intros [_ Hpl].
       destruct (plenty_alloc _ n (proj1 Hfa) Hn Hpl) as (r' & s' & Hrun' & _). congruence. }
  assert (0 < n ∧ plenty n (frames_of s) → length r ≠ 0 ∧ pmm_supply (3 * Z.to_nat n) p') as Hplenty.
  { intros [_ Hpl]. destruct (plenty_alloc _ n (proj1 Hfa) Hn Hpl) as (r' & s' & Hrun' & Hl & Hsup). rewrite Hrun in Hrun'. by injection Hrun' as -> ->. }
  destruct (Z.ltb_spec 0 (length r)) as [Hlen|Hz].
  2: { split; [by left|]. intros [Hr _]%Hplenty. destruct (decide (r = mk_range 0 0)) as [->|Hne]; [done|].
       destruct (pmm_alloc_allocated _ (n * 4096) _ _ (proj1 Hfa) ltac:(lia) Hne Hrun) as [_ Hl _ _ _ _ _ _ _ _]. unfold pages_for in Hl. Z.div_mod_to_equations; lia. }
  destruct (take_frames s (n * 4096) r p') as (Hg & Hvw & Hl & _ & Hb & Hend & Hin); [done|lia|done|lia|].
  eapply runs_eq; [done|]. set (s1 := mk_compat _ _). change (compat_set_pmm p' s) with s1 in Hg, Hvw, Hin.
  assert (pages_for (n * 4096) = n) as Hpg by (unfold pages_for; Z.div_mod_to_equations; lia). rewrite Hpg in Hl.
  assert (mmap_phys_to_io (base r) = base r + MMAP_IO_BASE ∧ base r + length r ≤ 0x800000000000) as [Hio Hhi].
  { destruct Hfa as [_ [Hsz _]]. unfold mmap_phys_to_io, MMAP_IO_BASE. rewrite u64_small by lia. lia. }
  apply runs_bind. eapply runs_mono; [| |apply (map_gives s1); [apply Hg|apply (co_current _ Hok)|done|cbn; rewrite Hl; Z.div_mod_to_equations; lia]].
  { cbn [Range.length]. rewrite Hl, Z.div_mul by done. intros e [He Hno]. split; [done|]. by intros [_ Hsup]%Hplenty. }
  intros [] s2 [Hg2 Hm2]. cbv [runs mret M_ret]. split; [by eapply gives_trans|]. split.
  { eapply same_view_trans; [exact Hvw|]. eapply map_io_view; [apply Hg|apply (co_current _ Hok)|exact Hm2|..]; rewrite Hio; cbn [base Range.length]; unfold MMAP_IO_BASE; lia. }
  rewrite Hio. unfold MMAP_IO_BASE in *. split; [lia|]. split; [lia|]. intros x Hx. rewrite <- Hl in Hx. destruct (Hin x Hx). split; [done|]. by apply Hg2.
Qed.

(** What the heap leaves alone besides: the root register and how the user's half
    of each space is translated. *)
Record sight : Type := mk_sight { si_cr3 : Z; si_leaf : Z → Z → Z }.
Definition sight_of (s : compat) : sight := mk_sight (hw_cr3 (vm_hw (cs_vmm s))) (leaf (vm_mem (cs_vmm s))).
(** [X] are bytes the kernel holds besides the heap, [v] what they contain: the
    heap never gets them and never writes them. *)
Record beside (X : Z → Prop) (v : Z → Z) (c : sight) (s : compat) : Prop := {
  be_ok : compat_ok s;
  be_held x : X x → handed_out s x ∧ load8 (vm_mem (cs_vmm s)) x = v x;
  be_cr3 : hw_cr3 (vm_hw (cs_vmm s)) = si_cr3 c;
  be_view r w : r ∈ Rs → user_address w → leaf (vm_mem (cs_vmm s)) r w = si_leaf c r w
}.
Lemma beside_view c s s' : (∀ r w, r ∈ Rs → user_address w → leaf (vm_mem (cs_vmm s)) r w = si_leaf c r w) → same_view s s' →
  ∀ r w, r ∈ Rs → user_address w → leaf (vm_mem (cs_vmm s')) r w = si_leaf c r w.
Proof. intros Hc Hs r w Hr Hw. by rewrite Hs, Hc. Qed.
Definition beside_laws (X : Z → Prop) (v : Z → Z) (c : sight) : PageProviderLaws compat.
Proof.
  refine {| pp_ok := beside X v c; pp_taken := λ s x, handed_out s x ∧ ¬ X x; pp_stops := refuses; pp_null := λ _ _, False |}.
  - done.
  - intros h s [Hok HX Hcr Hvw] Hc3 Hmem. destruct (compat_frame h s Hok) as (Hok' & Ht & Hsv).
    { intros x Hx Hno. apply Hmem; [done|]. by intros [? _]. }
    change (pp_set_hw h s) with (compat_set_hw h s). split; [|split; [intros x; by rewrite Ht|]].
    2: { intros n. split; [|done]. intros e [He Hno]. split; [done|]. intros [Hn Hpl]. apply Hno. split; [done|].
      eapply plenty_same; [apply (compat_pmm _ Hok)|done|done|done|done| |done|exact Hpl].
      intros x Hx Hp. apply Hmem; [done|]. intros [[_ Hm] _]. apply Hm. by left. }
    split; [done| |etrans; [|exact Hcr]; exact Hc3|by eapply beside_view].
    intros x Hx. rewrite Ht. destruct (HX x Hx) as [Hh <-]. split; [done|].
    apply Hmem; [|by intros [_ ?]]. destruct Hh as [(f & Hf & Hin) _]. pose proof (tracked_io _ _ _ (compat_pmm _ Hok) Hf Hin).
    unfold MMAP_IO_BASE in *. lia.
  - intros s n [Hok HX Hcr Hvw] Hn. pose proof (compat_alloc s n Hok Hn) as Hrun. unfold runs in Hrun.
    change (pp_alloc n s) with (liballoc_alloc n s). destruct (liballoc_alloc n s) as [[a s']|e]; [|done].
    destruct Hrun as ([Hok' Hmono Hmem _ _ Hcr'] & Hsv & Ha & Hend & Hin). split_and!.
    + split; [done| |etrans; [exact Hcr'|exact Hcr]|by eapply beside_view]. intros x Hx. destruct (HX x Hx) as [Hh <-]. split; [by apply Hmono|by apply Hmem].
    + intros x [Hx _]. by apply Hmem.
    + intros x [Hx ?]. split; [by apply Hmono|done].
    + right. split_and!; try done. intros x Hx. destruct (Hin x Hx) as [Hm Ht]. split; [by intros [[_ ?] _]|].
      split; [done|]. intros HXx. by apply (HX x) in HXx as [[_ ?] _].
  - intros s a n [Hok HX Hcr Hvw] Hn Ha. destruct (free_gives s a n Hok Hn) as (s' & Hrun & Hok' & Ht & Hsv & Hcr' & Hmem); [apply Ha; unfold in_block; lia|].
    exists s'. split_and!; [done| | |].
    + split; [done| |etrans; [exact Hcr'|exact Hcr]|by eapply beside_view]. intros x Hx. destruct (HX x Hx) as [Hh <-]. split; [by apply Ht|by apply Hmem].
    + intros x [Hx _]. by apply Hmem.
    + intros x [Hx ?] _. split; [by apply Ht|done].
Defined.

(** ** The frames the kernel holds *)

Definition io_block (r : range_t) (x : Z) : Prop := in_block (base r + MMAP_IO_BASE) (length r) x.
Definition frames_at (p : pmm_state) (r : range_t) : Prop :=
  base r mod 4096 = 0 ∧ length r mod 4096 = 0 ∧ 0 ≤ base r ∧ 0 ≤ length r ∧ base r + length r ≤ 8 * bitmap_size p * 4096.
Lemma io_page p r x : frames_at p r → io_block r x →
  ∃ f, tracked p f ∧ page_in r f ∧ in_block (frame_io f) 4096 x.
Proof.
  intros (Hb & Hl & Hb0 & _ & Hend) Hx. exists ((x - MMAP_IO_BASE) / 4096).
  unfold tracked, page_in, range_pages, PAGE_SIZE, io_block, in_block, frame_io in *. Z.div_mod_to_equations; lia.
Qed.
Lemma page_io r f x : base r mod 4096 = 0 → page_in r f → in_block (frame_io f) 4096 x → io_block r x.
Proof. intros Hb Hf Hx. unfold page_in, range_pages, PAGE_SIZE, io_block, in_block, frame_io in *. Z.div_mod_to_equations; lia. Qed.

Lemma give_back s r :
  compat_ok s → frames_at (frames_of s) r → (∀ x, io_block r x → handed_out s x) →
  ∃ p', pmm_free r (frames_of s) = Ok (tt, p') ∧
    let s' := compat_set_pmm p' s in
    compat_ok s' ∧ (∀ f, tracked p' f ↔ tracked (frames_of s) f) ∧
    (∀ x, handed_out s x → ¬ io_block r x → handed_out s' x) ∧
    (∀ x, handed_out s x → load8 (vm_mem (cs_vmm s')) x = load8 (vm_mem (cs_vmm s)) x).
Proof.
  intros Hok Hr Hh. pose proof (compat_pmm _ Hok) as Hfa. pose proof Hfa as [Hready [Hsz Hres]].
  assert (range_tracked (frames_of s) r) as Htr.
  { unfold range_tracked, frames_at in *. unfold range_pages, PAGE_SIZE. Z.div_mod_to_equations; lia. }
  destruct (pmm_free_spec _ _ Hready Htr) as (p' & Hrun & Hready' & _ & Hb & Hs' & _ & _ & _ & _ & Hbits & Hmem).
  exists p'. split; [done|]. intros s'. pose proof (wf_block _ (proj1 Hready)) as (_ & Hs0 & _).
  assert (∀ f, tracked p' f ↔ tracked (frames_of s) f) as Htk by (intros f; unfold tracked; by rewrite Hs').
  assert (∀ x, pmm_private p' x ↔ pmm_private (frames_of s) x) as Hpr by (intros x; unfold pmm_private; by rewrite Hb, Hs').
  assert (∀ f, pmm_avail p' f → pmm_avail (frames_of s) f ∨ page_in r f) as Hav.
  { intros f [Hf Hfree]. rewrite Hs' in Hf. apply Hbits in Hfree; [|unfold tracked; lia]. unfold pmm_avail. tauto. }
  assert (∀ f x, page_in r f → in_block (frame_io f) 4096 x → ¬ manager_byte s x) as Hnm.
  { intros f x Hf Hx. apply (Hh x). eapply page_io; [apply Hr|done|done]. }
  assert (pmm_fa_ok p') as Hfa'.
  { split; [done|]. split; [lia|]. intros f x Hf Hx. rewrite Hpr. apply Hav in Hf as [Hf|Hf]; [by apply (Hres f)|].
    intros Hp. eapply Hnm; [exact Hf|exact Hx|by left]. }
  assert (∀ x, handed_out s x → load8 (pm_mem p') x = load8 (pm_mem (frames_of s)) x) as Hkeep.
  { intros x [(f & Hf & Hx) Hno]. apply Hmem; [pose proof (tracked_io _ _ _ Hfa Hf Hx); unfold MMAP_IO_BASE in *; lia|]. intros Hp. apply Hno. by left. }
  destruct (spaces_kept (cs_vmm s) (cs_vmm s') Rs) as (Hsp & Htab & _); [apply Hok|done|exact Htk|exact Hpr| | |].
  { intros f q p Hf Hq Hp Ht. destruct (Hav f Hf) as [Hf'|Hf']; [exact (spaces_not_avail _ _ q f p (co_spaces _ Hok) Hf' Hq Hp Ht)|].
    apply (Hnm f (frame_io f) Hf' (frame_io_in f)). right; right. exists q. split; [done|]. exists p, (frame_io f).
    split; [done|]. split; [done|apply frame_io_in]. }
  { intros x Hx Ht. apply Hmem; [done|]. intros Hp. by destruct (spaces_byte_apart _ _ x (co_spaces _ Hok) Ht) as [Hnp _]. }
  split; [split; [exact Hsp|apply Hok|apply Hok|apply Hok|intros x Hx; apply (co_bitmap _ Hok), Hpr, Hx]|]. split; [done|]. split; [|exact Hkeep].
  intros x [(f & Hf & Hx) Hno] Hnr. split; [by exists f; split; [apply Htk|]|]. intros [Hp|[(g & Hg & Hgx)|Ht]].
  - apply Hno. left. by apply Hpr.
  - apply Hav in Hg as [Hg|Hg]; [|by apply Hnr; eapply page_io; [apply Hr| |]]. apply Hno. right; left. by exists g.
  - apply Hno. right; right. by apply (spaces_byte_same (cs_vmm s) (cs_vmm s') Rs x Htab).
Qed.
End provider.

(** ** Creating and destroying spaces *)

Lemma create_gives Rs s : compat_ok Rs s →
  runs (starved 1 (frames_of s)) (on_vmm vmm_space_create) (λ t s',
    compat_ok (t :: Rs) s' ∧ (∀ x, handed_out Rs s x → handed_out (t :: Rs) s' x) ∧
    (∀ x, handed_out Rs s x → load8 (vm_mem (cs_vmm s')) x = load8 (vm_mem (cs_vmm s)) x) ∧
    hw_cr3 (vm_hw (cs_vmm s')) = hw_cr3 (vm_hw (cs_vmm s)) ∧ (∃ f, t = frame_io f ∧ 0 ≤ f < 0x800000000) ∧ t ∉ Rs ∧
    same_view Rs s s' ∧ ∀ v, user_address v → leaf (vm_mem (cs_vmm s')) t v = 0) s.
Proof.
  intros Hok. pose proof (create_run (cs_vmm s) (ss_space _ _ (co_spaces _ _ Hok) _ (co_kernel _ _ Hok)) (co_lock _ _ Hok)) as Hrun.
  unfold runs, on_vmm, zoom in *. destruct (vmm_space_create (cs_vmm s)) as [[t v]|e]; [|done]. destruct Hrun as (f & -> & Hcr).
  destruct (create_spaces _ _ _ _ (co_spaces _ _ Hok) (co_kernel _ _ Hok) Hcr) as (Hs' & Hfp & Hmem).
  destruct (create_leaves _ _ _ _ (co_spaces _ _ Hok) (co_kernel _ _ Hok) Hcr) as [Hleaf Hzero].
  destruct Hcr as [(Hf & _ & Hav) Hl Hk [Hc _] _ Hpr Hman _ _ _].
  split; [|split; [|split; [|split; [done|split; [by exists f|split; [|split; [intros r w Hr _; by apply Hleaf|exact Hzero]]]]]]].
  - split; [exact Hs'| | |done|intros x Hx; by apply (co_bitmap _ _ Hok), Hpr]; apply elem_of_cons; right.
    + assert (heap_space (mk_compat v (cs_space s)) = heap_space s) as -> by (unfold heap_space, get_kernel_space; cbn; by rewrite Hk). apply Hok.
    + unfold get_kernel_space. cbn. rewrite Hk. apply Hok.
  - intros x [(g & Hg & Hx) Hno]. split; [exists g; split; [by apply Hman|done]|]. intros Hm. by apply Hno, Hfp.
  - intros x [(g & Hg & Hx) Hno]. apply Hmem; [|done]. pose proof (tracked_io _ _ _ (compat_pmm _ _ Hok) Hg Hx). unfold MMAP_IO_BASE in *. lia.
  - intros Hin. destruct (sp_table _ _ (ss_space _ _ (co_spaces _ _ Hok) _ Hin) [] _ valid_nil eq_refl) as (g & Hg & _ & Hno & _).
    assert (g = f) as -> by (unfold frame_io in Hg; lia). done.
Qed.
Lemma destroy_gives Rs s r : compat_ok Rs s → r ∈ Rs → r ≠ heap_space s → r ≠ get_kernel_space (cs_vmm s) →
  let Rs' := filter (λ q, q ≠ r) Rs in
  ∃ s', on_vmm (vmm_space_destroy r) s = Ok (tt, s') ∧
    compat_ok Rs' s' ∧ (∀ x, handed_out Rs s x → handed_out Rs' s' x) ∧
    (∀ x, handed_out Rs s x → load8 (vm_mem (cs_vmm s')) x = load8 (vm_mem (cs_vmm s)) x) ∧
    hw_cr3 (vm_hw (cs_vmm s')) = hw_cr3 (vm_hw (cs_vmm s)).
Proof.
  intros Hok Hr Hcur Hker Rs'. destruct (destroy_run (cs_vmm s) r (ss_space _ _ (co_spaces _ _ Hok) _ Hr)) as (f & v & -> & Hrun & Hd).
  destruct (destroy_spaces _ _ _ _ (co_spaces _ _ Hok) Hr Hd) as (Hs' & Hfp & Hmem). destruct Hd as [(Hk & Hl & Hc & _) _ Hpr Hman _ _].
  exists (mk_compat v (cs_space s)). split; [unfold on_vmm, zoom; by rewrite Hrun|]. split; [|split; [|split; [|done]]].
  - split; [exact Hs'| | |cbn; rewrite Hl; apply Hok|intros x Hx; by apply (co_bitmap _ _ Hok), Hpr]; apply list_elem_of_filter.
    + assert (heap_space (mk_compat v (cs_space s)) = heap_space s) as -> by (unfold heap_space, get_kernel_space; cbn; by rewrite Hk).
      split; [done|apply Hok].
    + unfold get_kernel_space in *. cbn. rewrite Hk. split; [done|apply Hok].
  - intros x [(g & Hg & Hx) Hno]. split; [exists g; split; [by apply Hman|done]|]. intros Hm. by apply Hno, Hfp.
  - intros x [(g & Hg & Hx) Hno]. apply Hmem; [|done]. pose proof (tracked_io _ _ _ (compat_pmm _ _ Hok) Hg Hx). unfold MMAP_IO_BASE in *. lia.
Qed.
