(* ===== verification/KernelMemory.v ===== *)
(** What the kernel holds: areas of the heap, frames and address spaces.
    Whatever the order in which they are asked for, given back, written, mapped and
    switched to, they stay apart from each other and from what the allocators keep
    for themselves. *)
From S2P Require Import Prelude Machine Range FrameAllocator Pmm Vmm Spaces Memory Services Dll Liballoc LiballocSpec Compat KernelHeap.

(** ** A kernel that asks for memory *)

Record holder : Type := mk_holder {
  hd_state : kernel_memory;
  hd_areas : list (Z * Z);      (** of the heap *)
  hd_frames : list range_t;
  hd_spaces : list Z            (** roots *)
}.
Definition frame_byte (F : list range_t) (x : Z) : Prop := ∃ r, r ∈ F ∧ io_block r x.
Definition area_byte (A : list (Z * Z)) (x : Z) : Prop := ∃ a, a ∈ A ∧ in_block a.1 a.2 x.

Definition switched_to (r : Z) (s : kernel_memory) : kernel_memory := mk_la (mk_compat (cs_vmm (la_sys s)) (Some r)) (la_heap s).
Inductive memory_step : holder → holder → Prop :=
| step_malloc s A F Rs n p s' :
    0 ≤ n ≤ 0x40000000 → kmalloc n s = Ok (p, s') →
    memory_step (mk_holder s A F Rs) (mk_holder s' ((p, n) :: A) F Rs)
| step_realloc s A1 p n A2 F Rs size q s' :
    0 < n → 0 < size ≤ 0x40000000 → krealloc p size s = Ok (q, s') →
    memory_step (mk_holder s (A1 ++ (p, n) :: A2) F Rs) (mk_holder s' ((q, size) :: A1 ++ A2) F Rs)
| step_free s A1 p n A2 F Rs s' :
    kfree p s = Ok (tt, s') → memory_step (mk_holder s (A1 ++ (p, n) :: A2) F Rs) (mk_holder s' (A1 ++ A2) F Rs)
| step_frames s A F Rs amount r s' :
    0 < amount < 0x8000000000000000 → arch_pmm_alloc amount s = Ok (r, s') →
    memory_step (mk_holder s A F Rs) (mk_holder s' A (if length r =? 0 then F else r :: F) Rs)
| step_give_back s A F1 r F2 Rs s' :
    ks_pmm_free r s = Ok (tt, s') → memory_step (mk_holder s A (F1 ++ r :: F2) Rs) (mk_holder s' A (F1 ++ F2) Rs)
| step_map s A F Rs root virt phys u s' :
    root ∈ Rs → length phys = length virt → 0 ≤ length virt / 4096 ≤ 0x1000000000 →
    arch_vmm_map root virt phys u s = Ok (tt, s') →
    memory_step (mk_holder s A F Rs) (mk_holder s' A F Rs)
| step_create s A F Rs t s' :
    arch_create_space s = Ok (t, s') → memory_step (mk_holder s A F Rs) (mk_holder s' A F (t :: Rs))
| step_destroy s A F Rs r s' :
    r ∈ Rs → r ≠ heap_space (la_sys s) → r ≠ get_kernel_space (cs_vmm (la_sys s)) → arch_space_destroy r s = Ok (tt, s') →
    memory_step (mk_holder s A F Rs) (mk_holder s' A F (filter (λ q, q ≠ r) Rs))
| step_switch s A F Rs r : r ∈ Rs → memory_step (mk_holder s A F Rs) (mk_holder (switched_to r s) A F Rs)
| step_write s A F Rs h :
    (∀ x, 0 ≤ x < 0x10000000000000000 → ¬ area_byte A x → ¬ frame_byte F x → load8 (hw_mem h) x = load8 (la_mem s) x) →
    memory_step (mk_holder s A F Rs) (mk_holder (la_set_hw h s) A F Rs).

(** ** The invariant *)

Notation heap_beside Rs X v c := (@heap_ready compat _ (beside_laws Rs X v c)).
Definition page_range (r : range_t) : Prop := base r mod 4096 = 0 ∧ length r mod 4096 = 0 ∧ 0 ≤ base r ∧ 0 < length r.

Record isolated (c : holder) : Prop := {
  is_heap : ∃ R v cr3, heap_beside (hd_spaces c) (frame_byte (hd_frames c)) v cr3 R (hd_state c) ∧ live R ≡ₚ hd_areas c;
  is_frames r : r ∈ hd_frames c → page_range r;
  is_distinct : NoDup (hd_frames c);
  is_disjoint r q x : r ∈ hd_frames c → q ∈ hd_frames c → io_block r x → io_block q x → r = q
}.

Section fixed.
Variable Rs : list Z.

Lemma heap_sys X v c R s : heap_beside Rs X v c R s → beside Rs X v c (la_sys s).
Proof. intros [Hinv _]. exact (@hi_ok compat _ (beside_laws Rs X v c) _ _ Hinv). Qed.
Lemma heap_covered X v c R s x : heap_beside Rs X v c R s → covered R x → handed_out Rs (la_sys s) x ∧ ¬ X x.
Proof. intros [Hinv _]. exact (@hi_taken compat _ (beside_laws Rs X v c) _ _ Hinv x). Qed.

(** The heap seen beside other bytes, on another state of the provider. *)
Lemma heap_transfer X v c Rs' X' v' c' R s s' :
  heap_beside Rs X v c R s → la_heap s' = la_heap s → beside Rs' X' v' c' (la_sys s') →
  (∀ x, covered R x → handed_out Rs' (la_sys s') x ∧ ¬ X' x) →
  (∀ r b, r ∈ R → b ∈ r_blocks r → load8 (la_mem s') (uptr b - ALIGN_INFO) = load8 (la_mem s) (uptr b - ALIGN_INFO)) →
  heap_beside Rs' X' v' c' R s'.
Proof.
  intros [[Hrep Hroot Hbet _ _] Hl] Hh Hb Hc Hal. split; [split|]; rewrite ?Hh; try done.
  destruct Hrep as [Hr1 Hr2 Hr3 Hr4 Hr5 Hr6]. split; try done. intros r b Hr Hb'. rewrite (Hal r b) by done. by apply (Hr6 r b).
Qed.
Lemma frame_extent s r :
  pmm_fa_ok (frames_of s) → page_range r → (∀ x, io_block r x → handed_out Rs s x) → frames_at (frames_of s) r.
Proof.
  intros Hfa (Hb & Hl & Hb0 & Hl0) Hh. destruct (Hh (base r + MMAP_IO_BASE + length r - 1)) as [(f & Hf & Hx) _].
  { unfold io_block, in_block. lia. }
  unfold frames_at, tracked, in_block, frame_io in *. split_and!; try done; try lia; Z.div_mod_to_equations; lia.
Qed.
Lemma area_covered X v c R s a x : heap_beside Rs X v c R s → a ∈ live R → in_block a.1 a.2 x → covered R x.
Proof.
  intros [Hinv _] Ha Hx. pose proof (@hi_rep compat _ (beside_laws Rs X v c) _ _ Hinv) as Hrep. eapply owned_covered; [exact Hrep|]. by eapply live_owned.
Qed.
Lemma align_covered X v c R s r b :
  heap_beside Rs X v c R s → r ∈ R → b ∈ r_blocks r → covered R (uptr b - ALIGN_INFO) ∧ 0 ≤ uptr b - ALIGN_INFO < 0x10000000000000000.
Proof.
  intros [Hinv _] Hr Hb. pose proof (@hi_rep compat _ (beside_laws Rs X v c) _ _ Hinv) as Hrep. eapply owned_covered; [exact Hrep|]. by eapply align_owned.
Qed.
Lemma align_not_area X v c R s r b : heap_beside Rs X v c R s → r ∈ R → b ∈ r_blocks r → ¬ area_byte (live R) (uptr b - ALIGN_INFO).
Proof.
  intros [Hinv _] Hr Hb (a & (q & e & Hq & He & ->)%elem_of_live & Hx). pose proof (@hi_rep compat _ (beside_laws Rs X v c) _ _ Hinv) as Hrep.
  pose proof (uptr_bounds b) as [Hub _]. pose proof (uptr_bounds e) as [Huc _].
  destruct (block_in_region _ _ _ _ _ _ Hrep Hq He) as (_ & _ & Hfc & _), (block_in_region _ _ _ _ _ _ Hrep Hr Hb) as (_ & _ & Hfb & _).
  pose proof (block_len b Hfb). destruct Hfc as [Hc1 Hc2]. unfold in_block, b_end, SIZEOF_MINOR, ALIGNMENT, ALIGN_INFO in *. cbn [fst snd] in Hx.
  destruct (blocks_apart _ _ _ _ _ _ _ _ Hrep Hr Hq Hb He) as [[_ <-]|Hd]; unfold b_end, SIZEOF_MINOR in *; lia.
Qed.

(** *** Each operation *)

Lemma isolated_heap s A F s' A' R' v c :
  isolated (mk_holder s A F Rs) → heap_beside Rs (frame_byte F) v c R' s' → live R' ≡ₚ A' → isolated (mk_holder s' A' F Rs).
Proof. intros [_ Hf Hn Hd] Hr Hl. split; try done. by exists R', v, c. Qed.
(** The root register is as it was. *)
Lemma same_root s s' X v c R R' : heap_beside Rs X v c R s → heap_beside Rs X v c R' s' → hw_cr3 (la_hw s') = hw_cr3 (la_hw s).
Proof. intros Hr Hr'. apply heap_sys, be_cr3 in Hr, Hr'. change (hw_cr3 (la_hw s)) with (hw_cr3 (vm_hw (cs_vmm (la_sys s)))). by rewrite Hr. Qed.
Lemma same_user s s' X v c R R' : heap_beside Rs X v c R s → heap_beside Rs X v c R' s' → same_view Rs (la_sys s) (la_sys s').
Proof. intros Hr Hr' r w Hw Hu. by rewrite (be_view _ _ _ _ _ (heap_sys _ _ _ _ _ Hr) r w Hw Hu), (be_view _ _ _ _ _ (heap_sys _ _ _ _ _ Hr') r w Hw Hu). Qed.
Lemma beside_value s s' X v c R R' x :
  heap_beside Rs X v c R s → heap_beside Rs X v c R' s' → X x → load8 (la_mem s') x = load8 (la_mem s) x.
Proof.
  intros Hr Hr' Hx. destruct (be_held _ _ _ _ _ (heap_sys _ _ _ _ _ Hr) x Hx) as [_ Hv], (be_held _ _ _ _ _ (heap_sys _ _ _ _ _ Hr') x Hx) as [_ Hv'].
  exact (eq_trans Hv' (eq_sym Hv)).
Qed.

(** What [kmalloc] gives on the kernel's own allocators: never NULL. *)
Record malloc_given s (A : list (Z * Z)) (F : list range_t) (n p : Z) s' : Prop := {
  mg_pointer : 0 < p ∧ p mod 16 = 0;
  mg_isolated : isolated (mk_holder s' ((p, n) :: A) F Rs);
  mg_kept x : area_byte A x ∨ frame_byte F x → load8 (la_mem s') x = load8 (la_mem s) x;
  mg_fresh x : in_block p n x → ¬ area_byte A x ∧ ¬ frame_byte F x ∧ ¬ manager_byte Rs (la_sys s') x;
  mg_root : hw_cr3 (la_hw s') = hw_cr3 (la_hw s);
  mg_view : same_view Rs (la_sys s) (la_sys s')
}.
Lemma malloc_isolated s A F n :
  isolated (mk_holder s A F Rs) → 0 ≤ n ≤ 0x40000000 → runs (refuses (wanted n) (la_sys s)) (kmalloc n) (malloc_given s A F n) s.
Proof.
  intros His Hn. pose proof (is_heap _ His) as (R & v & c & Hr & Hl). cbn [hd_frames hd_state hd_areas hd_spaces] in *.
  eapply runs_post; [|exact (@malloc_run compat _ (beside_laws Rs (frame_byte F) v c) n R s Hn Hr)].
  intros p s' (R' & Hr' & Hk & [(_ & Hnull & _)|(Hp & Hal & Hl' & Hd)]); [destruct Hnull|].
  split; [done| | | |by eapply same_root|by eapply same_user].
  - eapply isolated_heap; [exact His|exact Hr'|]. by rewrite Hl', Hl.
  - intros x [(a & Ha & Hx)|Hx]; [by apply (Hk a x); [rewrite Hl|]|by eapply beside_value].
  - intros x Hx. assert ((p, n) ∈ live R') as Hin by (rewrite Hl'; by left).
    destruct (heap_covered _ _ _ _ _ x Hr' (area_covered _ _ _ _ _ _ x Hr' Hin Hx)) as [[_ Hno] HnX]. split_and!; [|done|done].
    intros (a & Ha & Hax). rewrite <- Hl in Ha. specialize (Hd a Ha). unfold blocks_disjoint, in_block in *. lia.
Qed.
Lemma isolated_malloc s A F n p s' :
  isolated (mk_holder s A F Rs) → 0 ≤ n ≤ 0x40000000 → kmalloc n s = Ok (p, s') → isolated (mk_holder s' ((p, n) :: A) F Rs).
Proof. intros His Hn Hrun. pose proof (malloc_isolated s A F n His Hn) as Hm. unfold runs in Hm. rewrite Hrun in Hm. apply Hm. Qed.
Lemma realloc_isolated s A1 p n A2 F size :
  isolated (mk_holder s (A1 ++ (p, n) :: A2) F Rs) → 0 < n → 0 < size ≤ 0x40000000 →
  runs (refuses (wanted size) (la_sys s)) (krealloc p size) (λ q s',
    q ≠ 0 ∧ isolated (mk_holder s' ((q, size) :: A1 ++ A2) F Rs) ∧ hw_cr3 (la_hw s') = hw_cr3 (la_hw s) ∧ same_view Rs (la_sys s) (la_sys s') ∧
    ∀ x, area_byte (A1 ++ A2) x ∨ frame_byte F x → load8 (la_mem s') x = load8 (la_mem s) x) s.
Proof.
  intros His Hn Hsz. pose proof (is_heap _ His) as (R & v & c & Hr & Hl). cbn [hd_frames hd_state hd_areas hd_spaces] in *.
  assert ((p, n) ∈ live R) as Hp by (rewrite Hl; set_solver).
  pose proof (@realloc_run compat _ (beside_laws Rs (frame_byte F) v c) R s p n size Hr Hp Hn Hsz) as Hm.
  change (liballoc_realloc p size s) with (krealloc p size s) in Hm. unfold runs. destruct (krealloc p size s) as [[q s']|e].
  2: { destruct Hm as [He|(_ & [] & _)]. exact He. }
  destruct Hm as (R' & rest & Hr' & Hl1 & Hl2 & _ & _ & Hrest).
  assert (rest ≡ₚ A1 ++ A2) as Hr12 by (apply (Permutation_cons_inv (a := (p, n))); rewrite <- Hl1, Hl; by rewrite Permutation_middle).
  split; [|split; [|split; [by eapply same_root|split; [by eapply same_user|]]]].
  - assert ((q, size) ∈ live R') as (r & b & Hrr & Hb & [= -> _])%elem_of_live by (rewrite Hl2; by left).
    destruct (align_covered _ _ _ _ _ _ _ Hr' Hrr Hb) as [_ Hrange]. unfold ALIGN_INFO in Hrange. lia.
  - eapply isolated_heap; [exact His|exact Hr'|]. by rewrite Hl2, Hr12.
  - intros x [(a & Ha & Hx)|Hx]; [by apply (Hrest a x); [rewrite Hr12|]|by eapply beside_value].
Qed.
Lemma isolated_realloc s A1 p n A2 F size q s' :
  isolated (mk_holder s (A1 ++ (p, n) :: A2) F Rs) → 0 < n → 0 < size ≤ 0x40000000 → krealloc p size s = Ok (q, s') →
  isolated (mk_holder s' ((q, size) :: A1 ++ A2) F Rs).
Proof.
  intros His Hn Hsz Hrun. pose proof (realloc_isolated s A1 p n A2 F size His Hn Hsz) as Hm. unfold runs in Hm. rewrite Hrun in Hm. apply Hm.
Qed.
Lemma isolated_free s A1 p n A2 F s' :
  isolated (mk_holder s (A1 ++ (p, n) :: A2) F Rs) → kfree p s = Ok (tt, s') → isolated (mk_holder s' (A1 ++ A2) F Rs).
Proof.
  intros His Hrun. pose proof (is_heap _ His) as (R & v & c & Hr & Hl). cbn [hd_frames hd_state hd_areas hd_spaces] in *.
  assert ((p, n) ∈ live R) as Hp by (rewrite Hl; set_solver).
  destruct (@free_live compat _ (beside_laws Rs (frame_byte F) v c) R s p n Hr Hp) as (s1 & R' & Hrun1 & Hr' & Hl1 & _).
  change (liballoc_free p s) with (kfree p s) in Hrun1. rewrite Hrun in Hrun1. injection Hrun1 as <-.
  eapply isolated_heap; [exact His|exact Hr'|]. apply (Permutation_cons_inv (a := (p, n))). rewrite <- Hl1, Hl. by rewrite Permutation_middle.
Qed.

(** What is held was handed out. *)
Lemma held_handed s A F x : isolated (mk_holder s A F Rs) → area_byte A x ∨ frame_byte F x → handed_out Rs (la_sys s) x.
Proof.
  intros [(R & v & c & Hh & Hl) _ _ _] [(a & Ha & Hx)|Hx]; cbn [hd_frames hd_state hd_areas hd_spaces] in *.
  - eapply heap_covered; [exact Hh|]. eapply area_covered; [exact Hh|by rewrite Hl|exact Hx].
  - by apply (be_held _ _ _ _ _ (heap_sys _ _ _ _ _ Hh)).
Qed.
Lemma isolated_compat s A F : isolated (mk_holder s A F Rs) → compat_ok Rs (la_sys s).
Proof. intros [(R & v & c & Hh & _) _ _ _]. exact (be_ok _ _ _ _ _ (heap_sys _ _ _ _ _ Hh)). Qed.
Lemma held_range s A F x : isolated (mk_holder s A F Rs) → area_byte A x ∨ frame_byte F x → MMAP_IO_BASE ≤ x < 0x10000000000000000.
Proof.
  intros His Hx. destruct (held_handed _ _ _ _ His Hx) as [(f & Hf & Hin) _].
  eapply tracked_io; [|exact Hf|exact Hin]. by eapply compat_pmm, isolated_compat.
Qed.

(** An operation below the heap that takes nothing away. *)
Lemma isolated_below s A F Rs' sys :
  isolated (mk_holder s A F Rs) → compat_ok Rs' sys → (∀ x, handed_out Rs (la_sys s) x → handed_out Rs' sys x) →
  (∀ x, handed_out Rs (la_sys s) x → load8 (vm_mem (cs_vmm sys)) x = load8 (la_mem s) x) →
  isolated (mk_holder (mk_la sys (la_heap s)) A F Rs').
Proof.
  intros [(R & v & c & Hr & Hl) Hf Hn Hd] Hok Hmono Hmem. cbn [hd_frames hd_state hd_areas hd_spaces] in *.
  pose proof (be_held _ _ _ _ _ (heap_sys _ _ _ _ _ Hr)) as HX. split; cbn [hd_frames hd_state hd_areas hd_spaces]; try done.
  exists R, v, (sight_of sys). split; [|done]. eapply heap_transfer; [exact Hr|done|..].
  - split; [done| |done|done]. intros x Hx. destruct (HX x Hx) as [Hh <-]. split; [by apply Hmono|by apply Hmem].
  - intros x Hx. destruct (heap_covered _ _ _ _ _ x Hr Hx) as [Hh ?]. split; [by apply Hmono|done].
  - intros r b Hrr Hb. apply Hmem. eapply heap_covered; [exact Hr|]. by eapply align_covered.
Qed.
(** A range more of bytes that were the manager's. *)
Lemma isolated_take s A F sys r :
  isolated (mk_holder s A F Rs) → gives Rs (la_sys s) sys → page_range r →
  (∀ x, io_block r x → manager_byte Rs (la_sys s) x ∧ handed_out Rs sys x) → isolated (mk_holder (mk_la sys (la_heap s)) A (r :: F) Rs).
Proof.
  intros His [Hok Hmono Hmem _ _ _] Hr Hin. pose proof His as [(R & v & c & Hh & Hl) Hf Hn Hd]. cbn [hd_frames hd_state hd_areas hd_spaces] in *.
  pose proof (be_held _ _ _ _ _ (heap_sys _ _ _ _ _ Hh)) as HX.
  assert (∀ q x, q ∈ F → io_block q x → ¬ io_block r x) as Hnew.
  { intros q x Hq Hx Hx'. destruct (HX x) as [[_ Hno] _]; [by exists q|]. by apply Hno, Hin. }
  split; cbn [hd_frames hd_state hd_areas hd_spaces].
  - exists R, (load8 (vm_mem (cs_vmm sys))), (sight_of sys). split; [|done]. eapply heap_transfer; [exact Hh|done|..].
    + split; [done| |done|done]. intros x (q & [-> |Hq]%elem_of_cons & Hx); (split; [|done]); [by apply Hin|]. apply Hmono, HX. by exists q.
    + intros x Hx. destruct (heap_covered _ _ _ _ _ x Hh Hx) as [Ht HnX]. split; [by apply Hmono|].
      intros (q & [-> |Hq]%elem_of_cons & Hqx); [|by apply HnX; exists q]. destruct Ht as [_ Hno]. by apply Hno, Hin.
    + intros q b Hq Hb. apply Hmem. eapply heap_covered; [exact Hh|]. by eapply align_covered.
  - intros q [-> |Hq]%elem_of_cons; auto.
  - constructor; [|done]. intros Hrin. destruct Hr as (_ & _ & _ & Hlen).
    assert (io_block r (base r + MMAP_IO_BASE)) as Hx by (unfold io_block, in_block; lia). by apply (Hnew r _ Hrin Hx).
  - intros q1 q2 x [-> |H1]%elem_of_cons [-> |H2]%elem_of_cons Hx1 Hx2; [done|..|by eapply Hd].
    + by destruct (Hnew q2 x).
    + by destruct (Hnew q1 x).
Qed.

Lemma isolated_frames s A F amount r s' :
  isolated (mk_holder s A F Rs) → 0 < amount < 0x8000000000000000 → arch_pmm_alloc amount s = Ok (r, s') →
  isolated (mk_holder s' A (if length r =? 0 then F else r :: F) Rs).
Proof.
  intros His Ham Hrun. pose proof (is_heap _ His) as (R & v & c & Hh & _). cbn [hd_frames hd_state hd_areas hd_spaces] in *.
  pose proof (be_ok _ _ _ _ _ (heap_sys _ _ _ _ _ Hh)) as Hok. pose proof (compat_pmm _ _ Hok) as Hfa.
  unfold arch_pmm_alloc, on_sys, on_vmm, on_pmm, zoom in Hrun. change (fa_alloc ?r) with (pmm_alloc r) in Hrun.
  fold (frames_of (la_sys s)) in Hrun. destruct (pmm_alloc amount (frames_of (la_sys s))) as [[r1 p']|e] eqn:Hal; [|done].
  injection Hrun as -> <-. change (isolated (mk_holder (mk_la (compat_set_pmm p' (la_sys s)) (la_heap s)) A (if length r =? 0 then F else r :: F) Rs)).
  destruct (Z.eqb_spec (length r) 0) as [Hz|Hnz].
  - assert (r = mk_range 0 0) as ->.
    { destruct (decide (r = mk_range 0 0)) as [|Hne]; [done|]. destruct (pmm_alloc_allocated _ _ _ _ (proj1 Hfa) Ham Hne Hal) as [_ Hl _ _ _ _ _ _ _ _].
      unfold pages_for in Hl. Z.div_mod_to_equations; lia. }
    pose proof (pmm_alloc_empty _ _ _ (proj1 Hfa) Ham Hal) as ->. set (p' := pm_unlocked _).
    assert (pmm_ready p') as Hready by (split; [apply pm_unlocked_wf, pm_locked_wf, Hfa|done]).
    destruct (same_manager Rs (la_sys s) (compat_set_pmm p' (la_sys s))) as (Hok' & Ht & _); try done; [|apply Hok|].
    { by apply (fa_ok_same (frames_of (la_sys s))). }
    apply isolated_below; [done|done|intros x; apply Ht|done].
  - destruct (take_frames Rs (la_sys s) amount r p' Hok Ham Hal Hnz) as (Hg & _ & Hl & Hb & Hb0 & _ & Hin).
    apply isolated_take; [done|done| |exact Hin]. split_and!; try done.
    + rewrite Hl. by apply Z.mod_mul.
    + rewrite Hl in *. unfold pages_for in *. Z.div_mod_to_equations; lia.
Qed.

Lemma isolated_give_back s A F1 r F2 s' :
  isolated (mk_holder s A (F1 ++ r :: F2) Rs) → ks_pmm_free r s = Ok (tt, s') → isolated (mk_holder s' A (F1 ++ F2) Rs).
Proof.
  intros His Hrun. pose proof His as [(R & v & c & Hh & Hl) Hf Hn Hd]. cbn [hd_frames hd_state hd_areas hd_spaces] in *.
  pose proof (heap_sys _ _ _ _ _ Hh) as [Hok HX _]. pose proof (compat_pmm _ _ Hok) as Hfa.
  assert (r ∈ F1 ++ r :: F2) as Hr by set_solver. assert (∀ q, q ∈ F1 ++ F2 → q ∈ F1 ++ r :: F2) as Hsub by set_solver.
  assert (NoDup (r :: F1 ++ F2)) as [Hnr Hn']%NoDup_cons by (by rewrite Permutation_middle).
  assert (∀ x, io_block r x → handed_out Rs (la_sys s) x) as Hrh by (intros x Hx; apply HX; by exists r).
  destruct (give_back Rs (la_sys s) r Hok) as (p' & Hal & Hok' & Htk & Hmono & Hmem); [by apply frame_extent; [|apply Hf|]|done|].
  unfold ks_pmm_free, kernel_services, on_sys, on_vmm, on_pmm, zoom in Hrun. change (fa_free ?r) with (pmm_free r) in Hrun.
  fold (frames_of (la_sys s)) in Hrun. rewrite Hal in Hrun. injection Hrun as <-. set (sys := compat_set_pmm p' (la_sys s)) in *.
  change (isolated (mk_holder (mk_la sys (la_heap s)) A (F1 ++ F2) Rs)).
  assert (∀ x, frame_byte (F1 ++ F2) x → frame_byte (F1 ++ r :: F2) x ∧ ¬ io_block r x) as HX'.
  { intros x (q & Hq & Hx). split; [exists q; auto|]. intros Hrx. apply Hnr. by rewrite (Hd r q x) by auto. }
  split; cbn [hd_frames hd_state hd_areas hd_spaces]; [|by intros q Hq; apply Hf, Hsub|done|by intros q1 q2 x H1 H2; apply Hd; apply Hsub].
  exists R, (load8 (vm_mem (cs_vmm sys))), (sight_of sys). split; [|done]. eapply heap_transfer; [exact Hh|done|..].
  - split; [done| |done|done]. intros x [Hx Hnx]%HX'. split; [|done]. apply Hmono; [by apply HX|done].
  - intros x Hx. destruct (heap_covered _ _ _ _ _ x Hh Hx) as [Ht HnX]. split; [|by intros [? _]%HX'].
    apply Hmono; [done|]. intros Hrx. apply HnX. by exists r.
  - intros q b Hq Hb. apply Hmem. eapply heap_covered; [exact Hh|]. by eapply align_covered.
Qed.

Lemma isolated_map s A F root virt phys u s' :
  isolated (mk_holder s A F Rs) → root ∈ Rs → length phys = length virt → 0 ≤ length virt / 4096 ≤ 0x1000000000 →
  arch_vmm_map root virt phys u s = Ok (tt, s') → isolated (mk_holder s' A F Rs).
Proof.
  intros His Hroot Hlen Hn Hrun. pose proof (is_heap _ His) as (R & v & c & Hh & _). cbn [hd_frames hd_state hd_areas hd_spaces] in *.
  pose proof (be_ok _ _ _ _ _ (heap_sys _ _ _ _ _ Hh)) as Hok. pose proof (map_gives Rs (la_sys s) root virt phys u Hok Hroot Hlen Hn) as Hm.
  unfold arch_vmm_map, on_sys, zoom in Hrun. unfold runs in Hm.
  destruct (on_vmm _ (la_sys s)) as [[[] sys]|e]; [|done]. injection Hrun as <-. destruct Hm as [[Hok' Hmono Hmem _ _ _] _].
  by apply isolated_below.
Qed.
Lemma isolated_create s A F t s' :
  isolated (mk_holder s A F Rs) → arch_create_space s = Ok (t, s') → isolated (mk_holder s' A F (t :: Rs)).
Proof.
  intros His Hrun. pose proof (is_heap _ His) as (R & v & c & Hh & _). cbn [hd_frames hd_state hd_areas hd_spaces] in *.
  pose proof (create_gives Rs (la_sys s) (be_ok _ _ _ _ _ (heap_sys _ _ _ _ _ Hh))) as Hm.
  unfold arch_create_space, on_sys, zoom in Hrun. unfold runs in Hm.
  destruct (on_vmm _ (la_sys s)) as [[t' sys]|e]; [|done]. injection Hrun as <- <-. destruct Hm as (Hok' & Hmono & Hmem & _).
  by apply isolated_below.
Qed.
Lemma isolated_destroy s A F r s' :
  isolated (mk_holder s A F Rs) → r ∈ Rs → r ≠ heap_space (la_sys s) → r ≠ get_kernel_space (cs_vmm (la_sys s)) →
  arch_space_destroy r s = Ok (tt, s') → isolated (mk_holder s' A F (filter (λ q, q ≠ r) Rs)).
Proof.
  intros His Hr Hcur Hker Hrun. pose proof (is_heap _ His) as (R & v & c & Hh & _). cbn [hd_frames hd_state hd_areas hd_spaces] in *.
  destruct (destroy_gives Rs (la_sys s) r (be_ok _ _ _ _ _ (heap_sys _ _ _ _ _ Hh)) Hr Hcur Hker) as (sys & Hd & Hok' & Hmono & Hmem & _).
  unfold arch_space_destroy, on_sys, zoom in Hrun. rewrite Hd in Hrun. injection Hrun as <-. by apply isolated_below.
Qed.
Lemma isolated_switch s A F r : isolated (mk_holder s A F Rs) → r ∈ Rs → isolated (mk_holder (switched_to r s) A F Rs).
Proof.
  intros His Hr. pose proof (is_heap _ His) as (R & v & c & Hh & _). cbn [hd_frames hd_state hd_areas hd_spaces] in *.
  destruct (be_ok _ _ _ _ _ (heap_sys _ _ _ _ _ Hh)) as [Hs _ Hk Hl Hb]. by apply isolated_below.
Qed.

Lemma isolated_write s A F h :
  isolated (mk_holder s A F Rs) →
  (∀ x, 0 ≤ x < 0x10000000000000000 → ¬ area_byte A x → ¬ frame_byte F x → load8 (hw_mem h) x = load8 (la_mem s) x) →
  isolated (mk_holder (la_set_hw h s) A F Rs).
Proof.
  intros His Hw. pose proof His as [(R & v & c & Hh & Hl) Hf Hn Hd]. cbn [hd_frames hd_state hd_areas hd_spaces] in *.
  pose proof (heap_sys _ _ _ _ _ Hh) as [Hok HX _].
  assert (∀ x, area_byte A x → covered R x) as HA.
  { intros x (a & Ha & Hx). eapply area_covered; [exact Hh| |exact Hx]. by rewrite Hl. }
  destruct (compat_frame Rs h (la_sys s) Hok) as (Hok' & Ht & _).
  { intros x Hx Hno. apply Hw; [done|..]; intros Hin; apply Hno; [by eapply heap_covered; [|apply HA]|by apply HX]. }
  eapply (isolated_heap s A F _ _ R (load8 (hw_mem h)) (sight_of (compat_set_hw h (la_sys s)))); [exact His| |exact Hl]. eapply heap_transfer; [exact Hh|done|..].
  - split; [exact Hok'| |done|done]. intros x Hx. split; [by apply Ht, HX|done].
  - intros x Hx. destruct (heap_covered _ _ _ _ _ x Hh Hx) as [Hhx ?]. split; [by apply Ht|done].
  - intros r b Hr Hb. pose proof (align_not_area _ _ _ _ _ _ _ Hh Hr Hb) as Hna.
    destruct (align_covered _ _ _ _ _ _ _ Hh Hr Hb) as [Hc Hrange]. apply Hw; [done|..].
    + intros (a & Ha & Hx). apply Hna. exists a. by rewrite Hl.
    + by destruct (heap_covered _ _ _ _ _ _ Hh Hc).
Qed.

End fixed.
#[local] Hint Resolve isolated_malloc isolated_realloc isolated_free isolated_frames isolated_give_back isolated_map isolated_create isolated_destroy isolated_switch isolated_write : core.
Lemma isolated_step c c' : memory_step c c' → isolated c → isolated c'.
Proof. intros []; eauto. Qed.

(** ** What holds of every reachable state *)

Lemma live_distinct Rs X v c R s : heap_beside Rs X v c R s → NoDup (live R) ∧ ∀ a b, a ∈ live R → b ∈ live R → a = b ∨ blocks_disjoint a.1 a.2 b.1 b.2.
Proof.
  intros [Hinv _]. pose proof (@hi_rep compat _ (beside_laws Rs X v c) _ _ Hinv) as Hrep.
  assert (∀ r1 r2 b1 b2, r1 ∈ R → r2 ∈ R → b1 ∈ r_blocks r1 → b2 ∈ r_blocks r2 →
    r1 = r2 ∧ b1 = b2 ∨ uptr b1 + b_req b1 ≤ b_addr b2 ∨ uptr b2 + b_req b2 ≤ b_addr b1) as Hap.
  { intros r1 r2 b1 b2 Hr1 Hr2 Hb1 Hb2. destruct (blocks_apart _ _ _ _ _ _ _ _ Hrep Hr1 Hr2 Hb1 Hb2) as [?|Hd]; [by left|right].
    pose proof (uptr_bounds b1) as [? _]. pose proof (uptr_bounds b2) as [? _].
    destruct (block_in_region _ _ _ _ _ _ Hrep Hr1 Hb1) as (_ & _ & [? ?] & _), (block_in_region _ _ _ _ _ _ Hrep Hr2 Hb2) as (_ & _ & [? ?] & _).
    unfold b_end, SIZEOF_MINOR, ALIGNMENT, ALIGN_INFO in *. lia. }
  assert (∀ r1 r2 b1 b2, r1 ∈ R → r2 ∈ R → b1 ∈ r_blocks r1 → b2 ∈ r_blocks r2 → uptr b1 = uptr b2 → r1 = r2 ∧ b1 = b2) as Hinj.
  { intros r1 r2 b1 b2 Hr1 Hr2 Hb1 Hb2 Heq. destruct (Hap _ _ _ _ Hr1 Hr2 Hb1 Hb2) as [?|Hd]; [done|].
    pose proof (uptr_bounds b1) as [? _]. pose proof (uptr_bounds b2) as [? _].
    destruct (block_in_region _ _ _ _ _ _ Hrep Hr1 Hb1) as (_ & _ & [? ?] & _), (block_in_region _ _ _ _ _ _ Hrep Hr2 Hb2) as (_ & _ & [? ?] & _). lia. }
  split.
  - unfold live. apply NoDup_bind.
    + intros r1 r2 a Hr1 Hr2 (b1 & <- & Hb1%list_elem_of_In)%list_elem_of_In%in_map_iff (b2 & [= Heq _] & Hb2%list_elem_of_In)%list_elem_of_In%in_map_iff.
      symmetry in Heq. by apply (Hinj r1 r2 b1 b2).
    + intros r Hr. apply (NoDup_fmap_2_strong (λ b, (uptr b, b_req b))); [by intros b1 b2 Hb1 Hb2 [= Heq _]; apply (Hinj r r b1 b2)|].
      destruct (hr_layout _ _ _ _ Hrep r Hr) as [_ _ _ Hs]. by eapply NoDup_fmap_1, spaced_nodup.
    + eapply NoDup_fmap_1. apply (hr_nodup _ _ _ _ Hrep).
  - intros a b (r1 & b1 & Hr1 & Hb1 & ->)%elem_of_live (r2 & b2 & Hr2 & Hb2 & ->)%elem_of_live. cbn [fst snd].
    destruct (Hap _ _ _ _ Hr1 Hr2 Hb1 Hb2) as [[-> ->]|Hd]; [by left|right]. unfold blocks_disjoint.
    pose proof (uptr_bounds b1) as [? _]. pose proof (uptr_bounds b2) as [? _]. lia.
Qed.

(** Nothing is held twice, and nothing that is held is the allocators'. *)
Record apart (c : holder) : Prop := {
  ap_areas : NoDup (hd_areas c) ∧ ∀ a b, a ∈ hd_areas c → b ∈ hd_areas c → a = b ∨ blocks_disjoint a.1 a.2 b.1 b.2;
  ap_frames : NoDup (hd_frames c) ∧ ∀ r q x, r ∈ hd_frames c → q ∈ hd_frames c → io_block r x → io_block q x → r = q;
  ap_between x : area_byte (hd_areas c) x → ¬ frame_byte (hd_frames c) x;
  ap_manager x : area_byte (hd_areas c) x ∨ frame_byte (hd_frames c) x → ¬ manager_byte (hd_spaces c) (la_sys (hd_state c)) x
}.
Lemma isolated_apart c : isolated c → apart c.
Proof.
  intros [(R & v & cr3 & Hh & Hl) _ Hn Hd]. destruct (live_distinct _ _ _ _ _ _ Hh) as [Hnd Hdis]. pose proof (heap_sys _ _ _ _ _ _ Hh) as [_ HX _].
  assert (∀ x, area_byte (hd_areas c) x → covered R x) as HA.
  { intros x (a & Ha & Hx). eapply area_covered; [exact Hh| |exact Hx]. by rewrite Hl. }
  split; [split| |..].
  - by rewrite <- Hl.
  - intros a b. rewrite <- Hl. apply Hdis.
  - done.
  - intros x Hx. by apply (heap_covered _ _ _ _ _ _ x Hh), HA.
  - intros x [Hx|Hx]; [by apply (heap_covered _ _ _ _ _ _ x Hh), HA|by apply HX].
Qed.

(** C7. Whatever the kernel does with its memory, from a state
    in which what it holds is isolated: it asks for heap areas, resizes and frees
    them, takes frames and gives them back, creates address spaces, switches to
    one, maps ranges in any of them, destroys those that are neither current nor
    the kernel's, and writes into what it holds, in any order.  In every state
    reached no byte is held twice, by the heap's clients or as a frame, and none
    that is held belongs to the bitmap, to a free frame or to a table of any
    space; the heap, the spaces and the bitmap are well formed. *)
Theorem kernel_memory_isolated c c' : isolated c → star memory_step c c' → isolated c' ∧ apart c'.
Proof.
  intros His Hstar. assert (isolated c') as His' by (revert His; by apply (star_inv memory_step isolated isolated_step)).
  split; [done|by apply isolated_apart].
Qed.


(** ** The kernel's memory when nothing is held *)

Lemma isolated_init_frames sys F Rs :
  compat_ok Rs sys → Forall page_range F → NoDup F → (∀ r q x, r ∈ F → q ∈ F → io_block r x → io_block q x → r = q) →
  (∀ x, frame_byte F x → handed_out Rs sys x) → isolated (mk_holder (mk_la sys heap_init) [] F Rs).
Proof.
  intros Hok HF Hn Hd HX. rewrite Forall_forall in HF. split; cbn [hd_frames hd_state hd_areas hd_spaces]; [|done..].
  exists [], (load8 (vm_mem (cs_vmm sys))), (sight_of sys). assert (∀ r : region, r ∉ []) as Hno by (intros r; apply not_elem_of_nil).
  split; [|done]. split; [|done]. split; try done; [|by left|by intros x (r & Hr%Hno & _)|].
  - split; try done; try (intros; exfalso; by eapply Hno). constructor.
  - split; [done| |done|done]. intros x Hx. split; [by apply HX|done].
Qed.
Lemma isolated_init sys Rs : compat_ok Rs sys → isolated (mk_holder (mk_la sys heap_init) [] [] Rs).
Proof.
  intros Hok. apply isolated_init_frames; try done; [constructor|by intros r q x ?%elem_of_nil|by intros x (r & Hr%elem_of_nil & _)].
Qed.
Definition sample_roots : list Z := [frame_io 2].
Lemma sample_compat_ok : compat_ok sample_roots (mk_compat sample_vmm None).
Proof.
  split; [|by left|by left|done|].
  { split; [by intros r ->%list_elem_of_singleton; apply sample_space| |by intros r1 r2 i p t ->%list_elem_of_singleton ->%list_elem_of_singleton].
    intros r1 r2 p q t ->%list_elem_of_singleton ->%list_elem_of_singleton. apply (sp_inj _ _ (sample_space)). }
  intros x Hx. change (in_block (frame_io 1) 128 x) in Hx. unfold in_block, frame_io in Hx. lia.
Qed.
Definition sample_memory : kernel_memory := mk_la (mk_compat sample_vmm None) heap_init.
Lemma sample_plenty : plenty (wanted 100) (frames_of (la_sys sample_memory)).
Proof.
  assert (wanted 100 = 16) as -> by reflexivity. split; [cbn; lia|]. exists 3. split; [cbn; lia|]. split; [cbn; lia|].
  intros p Hp. unfold page_free, is_set_pmm. cbn [pm_mem frames_of la_sys sample_memory cs_vmm vm_pmm sample_vmm hw_mem pm_hw bitmap].
  rewrite load8_store8 by (unfold frame_io, MMAP_IO_BASE; Z.div_mod_to_equations; lia).
  destruct (Z.eqb_spec (frame_io 1 + p / 8) (frame_io 1)) as [He|]; [|done].
  assert (p = 3 ∨ p = 4 ∨ p = 5 ∨ p = 6 ∨ p = 7) as Hc by (Z.div_mod_to_equations; lia). destruct Hc as [->|[->|[->|[->| ->]]]]; done.
Qed.

(** The heap is asked for an area, which is given back. *)
Lemma malloc_then_free s n Rs :
  isolated (mk_holder s [] [] Rs) → 0 ≤ n ≤ 0x40000000 → 0 < wanted n → plenty (wanted n) (frames_of (la_sys s)) →
  ∃ p s1 s2, star memory_step (mk_holder s [] [] Rs) (mk_holder s1 [(p, n)] [] Rs) ∧ star memory_step (mk_holder s1 [(p, n)] [] Rs) (mk_holder s2 [] [] Rs).
Proof.
  intros His Hn Hw Hpl. pose proof (malloc_isolated Rs s [] [] n His Hn) as Hm. unfold runs in Hm.
  destruct (kmalloc n s) as [[p s1]|e] eqn:Hrun; [|by destruct Hm as [_ []]].
  pose proof (is_heap _ (mg_isolated _ _ _ _ _ _ _ Hm)) as (R & v & c & Hr & Hl). cbn [hd_frames hd_state hd_areas hd_spaces] in *.
  destruct (@free_live compat _ (beside_laws Rs (frame_byte []) v c) R s1 p n Hr) as (s2 & _ & Hfree & _); [rewrite Hl; by left|].
  exists p, s1, s2. split; (eapply star_step; [|apply star_refl]).
  - by eapply step_malloc.
  - by apply (step_free s1 [] p n [] [] Rs s2).
Qed.
Lemma kernel_memory_isolated_witness :
  ∃ p s1 s2, star memory_step (mk_holder sample_memory [] [] sample_roots) (mk_holder s1 [(p, 100)] [] sample_roots) ∧ apart (mk_holder s1 [(p, 100)] [] sample_roots) ∧
             star memory_step (mk_holder s1 [(p, 100)] [] sample_roots) (mk_holder s2 [] [] sample_roots) ∧ apart (mk_holder s2 [] [] sample_roots).
Proof.
  pose proof (isolated_init _ _ sample_compat_ok) as His.
  destruct (malloc_then_free sample_memory 100 _ His) as (p & s1 & s2 & H1 & H2); [lia|reflexivity|exact sample_plenty|].
  destruct (kernel_memory_isolated _ _ His H1) as [His1 Ha1]. destruct (kernel_memory_isolated _ _ His1 H2) as [_ Ha2].
  exists p, s1, s2. split_and!; assumption.
Defined.
