(* ===== verification/Ipc.v ===== *)
(** What the system calls promise to processes: a machine of processes that each
    have a state, a mailbox and a memory.  The handlers of kernel/syscall.c are a
    refinement of it for every number and argument, and the timer is invisible
    in it. *)
From S2P Require Import Prelude Machine CString Range FrameAllocator Fmt Services Vec Sched Process Kernel Syscall Devices Interrupt.
From Stdlib Require Import Strings.String.

Lemma filter_id {A} (P : A → Prop) `{∀ x, Decision (P x)} (l : list A) : (∀ x, x ∈ l → P x) → filter P l = l.
Proof.
  induction l as [|x l IH]; intros Hl; [done|]. rewrite filter_cons_True by (apply Hl; by left). f_equal. apply IH. intros y Hy. apply Hl. by right.
Qed.

(** ** The machine of processes *)

Record pview : Type := mk_pview { pv_state : TASK_STATE; pv_mail : list ipc_t; pv_mem : memory }.
Definition pv_set_state (t : TASK_STATE) (v : pview) : pview := mk_pview t (pv_mail v) (pv_mem v).
Definition pv_set_mail (l : list ipc_t) (v : pview) : pview := mk_pview (pv_state v) l (pv_mem v).
Definition pv_set_mem (m : memory) (v : pview) : pview := mk_pview (pv_state v) (pv_mail v) m.

(** The processes by pid. *)
Definition views : Type := Z → option pview.
Definition view_at (i : Z) (f : pview → pview) (V : views) : views := λ j, if decide (j = i) then f <$> V j else V j.

Section spec.
Variables (limit : nat) (c arg : Z) (v : pview) (V : views).

(** The message at [arg] with the caller's pid in it. *)
Definition stamp : memory := store64 arg c (pv_mem v).
Definition spec_send : res (outcome * views) :=
  let msg := load_ipc stamp arg in
  match V (receiver msg) with
  | Some y =>
      if decide (pv_state y = TASK_RUNNING)
      then Ok (Return 0, view_at (receiver msg) (pv_set_mail (pv_mail y ++ [msg])) (view_at c (pv_set_mem stamp) V))
      else Err AssertFailed
  | None => Err AssertFailed
  end.
Definition spec_receive (empty : outcome) : res (outcome * views) :=
  match last (pv_mail v) with
  | Some msg =>
      Ok (Return 0, view_at c (λ v, pv_set_mem (store_ipc arg msg (pv_mem v)) (pv_set_mail (removelast (pv_mail v)) v)) V)
  | None => Ok (empty, V)
  end.
Definition spec_log : res (outcome * views) := _ ← mem_bytes limit (pv_mem v) arg; Ok (Return 0, V).
Definition spec_exit : res (outcome * views) := Ok (Stop, view_at c (pv_set_state TASK_WAITINGFORDEATH) V).
End spec.

(** System call [id] with argument [arg] of process [c]. *)
Definition spec_call (limit : nat) (c id arg : Z) (V : views) : res (outcome * views) :=
  match V c with
  | None => Err BadAccess
  | Some v =>
      if decide (id = SYS_IPC_SEND) then spec_send c arg v V
      else if decide (id = SYS_IPC_RCV_SYNC) then spec_receive c arg v V Wait
      else if decide (id = SYS_IPC_RCV_ONESHOT) then spec_receive c arg v V (Return 0)
      else if decide (id = SYS_LOG) then spec_log limit arg v V
      else if decide (id = SYS_EXIT) then spec_exit c V
      else if decide (id = SYS_GETPID) then Ok (Return c, V)
      else Err BadAccess
  end.

(** ** What the mailboxes ask of the heap

    [mh_held k roots areas]: the areas (address and length) belong to mailboxes,
    and [roots] (values of the root register) are address spaces the heap may be
    asked in; [mh_stops e]: a request may stop with [e]; a null result stops its
    caller. *)
Class MailHeap (K : Type) `{KernelServicesLaws K} : Type := {
  mh_held : K → (Z → Prop) → list (Z * Z) → Prop;
  mh_stops : fault → Prop;
  mh_mono k (roots roots' : Z → Prop) areas areas' :
    (∀ c, roots' c → roots c) → areas ≡ₚ areas' → mh_held k roots areas → mh_held k roots' areas';
  mh_cpu h k roots areas : hw_mem h = ks_mem k → mh_held k roots areas → mh_held (ks_set_hw h k) roots areas;
  mh_realloc p n m roots areas k :
    mh_held k roots ((if n =? 0 then [] else [(p, n)]) ++ areas) → roots (hw_cr3 (ks_hw k)) →
    0 ≤ n → (n = 0 → p = 0) → 0 < m ≤ 0x40000000 →
    runs mh_stops (ks_realloc p m) (λ q k', if decide (q = 0) then mh_stops AssertFailed
      else mh_held k' roots ((q, m) :: areas) ∧ hw_cr3 (ks_hw k') = hw_cr3 (ks_hw k)) k
}.

(** What handing out blocks one after the other can promise. *)
#[export] Instance bump_mail : MailHeap bump.
Proof.
  refine {| mh_held := λ k _ _, 0 < bp_next k; mh_stops := λ _, False |}; [done|done|]. intros p n m roots areas k Hk Hc Hn Hp Hm.
  cbv [runs ks_realloc bump_services bump_take]. rewrite decide_False by lia. split; [cbn; lia|done].
Defined.

Section refinement.
Context {K : Type} `{MailHeap K}.
Implicit Types s : sched_state K.

(** The array of a mailbox. *)
Definition mail_block (v : vec ipc_t) : list (Z * Z) := if v_capacity v =? 0 then [] else [(v_ptr v, v_capacity v * SIZEOF_IPC)].
Record mail_ok (v : vec ipc_t) : Prop := {
  mo_vec : vec_ok v;
  mo_empty : v_capacity v = 0 → v_ptr v = 0
}.

Lemma push_runs v x roots L (k : K) :
  mail_ok v → v_length v < 0x1000000 → mh_held k roots (mail_block v ++ L) → roots (hw_cr3 (ks_hw k)) →
  runs mh_stops (vec_push ks_realloc SIZEOF_IPC v x) (λ v' k',
    mail_ok v' ∧ vec_list v' = vec_list v ++ [x] ∧ mh_held k' roots (mail_block v' ++ L) ∧ hw_cr3 (ks_hw k') = hw_cr3 (ks_hw k)) k.
Proof.
  intros [Hv He] Hlen Hheld Hroot. pose proof (vec_capacity_bound v Hv) as Hcap. change (v_length v < 2 ^ 24) in Hlen.
  assert (v_length v < 2 ^ 60) as Hlen' by (change (2 ^ 24) with 0x1000000 in Hlen; change (2 ^ 60) with 0x1000000000000000; lia).
  set (m := u64 (doubled (v_capacity v) * SIZEOF_IPC)).
  assert (mh_held k roots ((if v_capacity v * SIZEOF_IPC =? 0 then [] else [(v_ptr v, v_capacity v * SIZEOF_IPC)]) ++ L)) as Hheld'.
  { unfold mail_block in Hheld. destruct (Z.eqb_spec (v_capacity v) 0) as [->|]; [done|].
    rewrite (proj2 (Z.eqb_neq _ _)); [done|unfold SIZEOF_IPC; lia]. }
  assert (v_length v = v_capacity v → m = doubled (v_capacity v) * SIZEOF_IPC ∧ 0 < m ≤ 0x40000000) as Hm.
  { intros Heq. change (2 ^ 24) with 0x1000000 in Hlen. unfold m, doubled, SIZEOF_IPC.
    destruct (Z.eqb_spec (v_capacity v) 0); rewrite u64_small; lia. }
  destruct (vec_push ks_realloc SIZEOF_IPC v x k) as [[v' k']|e] eqn:Hrun.
  - unfold runs. rewrite Hrun. pose proof (push_array ks_realloc SIZEOF_IPC v x k v' k' Hv Hlen' Hrun) as Ha.
    case_decide as Hd.
    + destruct Ha as (Hre & Hptr & Hc). destruct (Hm Hd) as [Hm1 Hm2].
      destruct (push_spec ks_realloc SIZEOF_IPC v x k (v_ptr v') k' Hv Hlen') as (w & Hw & Hok & Hl & _); [done|].
      rewrite Hrun in Hw. injection Hw as <- _. fold m in Hre.
      pose proof (mh_realloc (v_ptr v) (v_capacity v * SIZEOF_IPC) m roots L k Hheld' Hroot) as Hr. unfold runs in Hr. rewrite Hre in Hr.
      rewrite decide_False in Hr by done.
      destruct Hr as [Hk' Hcr]; [unfold SIZEOF_IPC; lia|unfold SIZEOF_IPC; intros; apply He; lia|done|].
      split_and!; try done.
      * split; [done|]. rewrite Hc. unfold doubled. destruct (Z.eqb_spec (v_capacity v) 0); lia.
      * unfold mail_block. rewrite Hc, <- Hm1. rewrite (proj2 (Z.eqb_neq _ _)); [done|]. unfold doubled. destruct (Z.eqb_spec (v_capacity v) 0); lia.
    + destruct Ha as (-> & Hp & Hc).
      destruct (push_spec ks_realloc SIZEOF_IPC v x k 0 k Hv Hlen') as (w & Hw & Hok & Hl & _); [done|].
      rewrite Hrun in Hw. injection Hw as <- _. split_and!; try done; [|by unfold mail_block; rewrite Hp, Hc].
      split; [done|]. by rewrite Hp, Hc.
  - unfold runs. rewrite Hrun. destruct (decide (v_length v = v_capacity v)) as [Hd|Hd].
    + destruct (Hm Hd) as [Hm1 Hm2].
      pose proof (mh_realloc (v_ptr v) (v_capacity v * SIZEOF_IPC) m roots L k Hheld' Hroot ltac:(unfold SIZEOF_IPC; lia)
        ltac:(unfold SIZEOF_IPC; intros; apply He; lia) Hm2) as Hr. unfold runs in Hr.
      destruct (ks_realloc (v_ptr v) m k) as [[ptr k']|e'] eqn:Hre.
      * destruct (decide (ptr = 0)) as [->|Hne].
        -- pose proof (vec_push_appends ks_realloc SIZEOF_IPC v x k 0 k' Hv Hlen') as Hp. cbv zeta in Hp.
           rewrite bool_decide_true in Hp by done. cbn in Hp. rewrite Hrun in Hp. specialize (Hp (λ _, Hre)). by injection Hp as ->.
        -- destruct (push_spec ks_realloc SIZEOF_IPC v x k ptr k' Hv Hlen') as (w & Hw & _); [done|congruence].
      * rewrite (push_fails ks_realloc SIZEOF_IPC v x k e' Hv Hlen' Hd Hre) in Hrun. by injection Hrun as <-.
    + destruct (push_spec ks_realloc SIZEOF_IPC v x k 0 k Hv Hlen') as (w & Hw & _); [done|congruence].
Qed.

(** ** The invariant of the kernel between system calls *)

(** The address spaces of the processes, as the root register names them. *)
Definition space_roots s (c : Z) : Prop := ∃ i x, entry s i = Some x ∧ c = mmap_io_to_phys (pml x).
(** The areas of the mailboxes of all entries but [i]. *)
Definition mail_of s (j : nat) : list (Z * Z) := match entry s (Z.of_nat j) with Some x => mail_block (mailbox x) | None => [] end.
Definition other_mail s (i : Z) : list (Z * Z) :=
  filter (λ j, Z.of_nat j ≠ i) (seq 0 (Z.to_nat (table_length s))) ≫= mail_of s.
Definition all_mail s : list (Z * Z) := seq 0 (Z.to_nat (table_length s)) ≫= mail_of s.

Record kernel_ok (k : kernel K) : Prop := {
  ko_sched : sched_ok (kn_sched k);
  ko_serial : serial_lock k = 0;
  ko_mail i x : entry (kn_sched k) i = Some x → mail_ok (mailbox x);
  ko_held : mh_held (sc_k (kn_sched k)) (space_roots (kn_sched k)) (all_mail (kn_sched k));
  ko_space x : entry (kn_sched k) (current_pid (kn_sched k)) = Some x → hw_cr3 (kn_hw k) = mmap_io_to_phys (pml x);
  ko_spaces i j x y : entry (kn_sched k) i = Some x → entry (kn_sched k) j = Some y →
    mmap_io_to_phys (pml x) = mmap_io_to_phys (pml y) → i = j
}.

(** How a process looks from outside. *)
Definition view (k : kernel K) : views := λ i,
  (λ x, mk_pview (state x) (vec_list (mailbox x)) (kn_user k (mmap_io_to_phys (pml x)))) <$> entry (kn_sched k) i.

(** *** Rewriting one process *)

Lemma all_mail_split s i x : table_ok s → entry s i = Some x → all_mail s ≡ₚ mail_block (mailbox x) ++ other_mail s i.
Proof.
  intros Hok Hx. pose proof (entry_bound _ _ _ Hok Hx) as Hi. unfold all_mail, other_mail.
  set (n := Z.to_nat (table_length s)). assert (mail_of s (Z.to_nat i) = mail_block (mailbox x)) as <-.
  { unfold mail_of. by rewrite Z2Nat.id, Hx by lia. }
  assert (seq 0 n = seq 0 (Z.to_nat i) ++ Z.to_nat i :: seq (Datatypes.S (Z.to_nat i)) (n - Datatypes.S (Z.to_nat i))) as ->.
  { replace n with (Z.to_nat i + Datatypes.S (n - Datatypes.S (Z.to_nat i)))%nat at 1 by lia. by rewrite seq_app. }
  rewrite filter_app, filter_cons_False by lia. rewrite !filter_id, !bind_app, bind_cons.
  - by rewrite (Permutation_app_comm (_ ≫= _)), <- app_assoc, (Permutation_app_comm (_ ≫= _) (seq 0 _ ≫= _)).
  - intros j Hj%elem_of_seq. lia.
  - intros j Hj%elem_of_seq. lia.
Qed.
Lemma other_mail_ext s s' i :
  table_length s' = table_length s → (∀ j, j ≠ i → entry s' j = entry s j) → other_mail s' i = other_mail s i.
Proof.
  intros Hn He. unfold other_mail. rewrite Hn. apply Forall_bind_ext.
  apply Forall_forall. intros j [Hj _]%list_elem_of_filter. unfold mail_of. by rewrite He.
Qed.

(** The caller of a system call. *)
Record caller (k : kernel K) (p : Z) (x : process) : Prop := {
  ca_run : current_process k = Ok ((p, x), k);
  ca_at : vec_list (processes (kn_sched k)) !! Z.to_nat (current_pid (kn_sched k)) = Some p;
  ca_object : procs (kn_sched k) !! p = Some x;
  ca_entry : entry (kn_sched k) (current_pid (kn_sched k)) = Some x;
  ca_pid : pid x = current_pid (kn_sched k);
  ca_memory : user_mem k = kn_user k (mmap_io_to_phys (pml x))
}.
Lemma the_caller (k : kernel K) : kernel_ok k → ∃ p x, caller k p x.
Proof.
  intros Hok. destruct (current_process_eq k (so_table _ (ko_sched _ Hok))) as (p & x & Hrun & Hat & Hx & He & Hpid).
  exists p, x. split; try done. unfold user_mem. by rewrite (ko_space _ Hok x).
Qed.

(** The mailbox of one process beside the others. *)
Lemma held_split (k : kernel K) i x : kernel_ok k → entry (kn_sched k) i = Some x →
  mh_held (sc_k (kn_sched k)) (space_roots (kn_sched k)) (mail_block (mailbox x) ++ other_mail (kn_sched k) i).
Proof.
  intros Hok Hx. eapply mh_mono; [done| |apply (ko_held _ Hok)]. apply all_mail_split; [apply (so_table _ (ko_sched _ Hok))|done].
Qed.
Lemma running_space (k : kernel K) : kernel_ok k → space_roots (kn_sched k) (hw_cr3 (kn_hw k)).
Proof. intros Hok. destruct (the_caller k Hok) as (p & x & Hc). exists (current_pid (kn_sched k)), x. split; [apply Hc|]. by rewrite (ko_space _ Hok x) by apply Hc. Qed.

Lemma kernel_alter (k k' : kernel K) i p x y kk :
  kernel_ok k → vec_list (processes (kn_sched k)) !! Z.to_nat i = Some p → procs (kn_sched k) !! p = Some x → entry (kn_sched k) i = Some x →
  kn_sched k' = set_procs (<[p := y]> (procs (kn_sched k))) (set_k kk (kn_sched k)) → serial_lock k' = 0 →
  pid y = pid x → pml y = pml x → mail_ok (mailbox y) →
  mh_held kk (space_roots (kn_sched k)) (mail_block (mailbox y) ++ other_mail (kn_sched k) i) → hw_cr3 (ks_hw kk) = hw_cr3 (kn_hw k) →
  kernel_ok k' ∧ table_length (kn_sched k') = table_length (kn_sched k) ∧ ∀ j, entry (kn_sched k') j = if decide (j = i) then Some y else entry (kn_sched k) j.
Proof.
  intros [Hs Hser Hmail Hheld Hsp Hsps] Hp Hx He Hk Hser' Hpid Hpml Hmb Hh Hcr. set (s := kn_sched k) in *.
  pose proof Hs as [Htab Htick Hlocks]. pose proof (entry_bound _ _ _ Htab He) as Hi.
  assert (table_ok (kn_sched k')) as Htab'.
  { rewrite Hk. apply (table_ok_ext (set_procs (<[p := y]> (procs s)) s)); try done. by apply (table_ok_alter s p x (λ _, y)). }
  assert (table_length (kn_sched k') = table_length s) as Hn by by rewrite Hk.
  assert (∀ j, entry (kn_sched k') j = if decide (j = i) then Some y else entry s j) as Hent.
  { intros j. destruct (decide (0 ≤ j < table_length s)) as [Hj|Hj].
    - rewrite Hk. change (entry (set_procs (<[p := y]> (procs s)) (set_k kk s)) j) with (entry (set_procs (<[p := y]> (procs s)) s) j).
      by apply (entry_alter s i j p x).
    - rewrite decide_False by (intros ->; lia). destruct (entry (kn_sched k') j) eqn:E1; [|destruct (entry s j) eqn:E2; [|done]].
      + destruct Hj. rewrite <- Hn. by eapply entry_bound.
      + destruct Hj. by eapply entry_bound. }
  split; [split|by split].
  - split; [done|by rewrite Hk|by rewrite Hk].
  - done.
  - intros j z. rewrite Hent. case_decide; [by intros [= <-]|apply Hmail].
  - rewrite Hk. apply (mh_mono _ (space_roots s) _ (mail_block (mailbox y) ++ other_mail s i)); [|symmetry|done].
    { intros c (j & z & Hz & ->). rewrite <- Hk, Hent in Hz. case_decide; [|by exists j, z]. injection Hz as <-. exists i, x. by rewrite Hpml. }
    rewrite (all_mail_split _ i y); [|by rewrite <- Hk|rewrite <- Hk, Hent; by rewrite decide_True].
    f_equiv. rewrite (other_mail_ext s (set_procs _ (set_k kk s))); [done|done|]. intros j Hj. rewrite <- Hk, Hent. by rewrite decide_False.
  - assert (hw_cr3 (kn_hw k') = hw_cr3 (kn_hw k)) as -> by (unfold kn_hw, sc_hw; by rewrite Hk).
    intros z. rewrite Hent. assert (current_pid (kn_sched k') = current_pid s) as -> by by rewrite Hk.
    case_decide as Hd; [|by apply Hsp]. intros [= <-]. rewrite Hpml. apply Hsp. by rewrite Hd.
  - intros j1 j2 z1 z2. rewrite !Hent. repeat case_decide; subst; intros Hz1 Hz2; simplify_eq; rewrite ?Hpml; eauto.
Qed.

(** Only the tick count differs: nothing is seen of it. *)
Lemma kernel_tick (k : kernel K) t : kernel_ok k → 0 ≤ t ≤ SWITCH_TICK → kernel_ok (set_sched (set_tick t (kn_sched k)) k).
Proof.
  intros [Hs Hser Hmail Hheld Hsp Hsps] Ht. pose proof Hs as [Htab Htick Hlocks]. split; try done. split; try done. by apply (table_ok_ext (kn_sched k)).
Qed.

(** ** Each system call *)

(** What no system call changes; the ticks a process has had may only grow. *)
Record same_run (k k' : kernel K) : Prop := {
  sr_current : current_pid (kn_sched k') = current_pid (kn_sched k);
  sr_length : table_length (kn_sched k') = table_length (kn_sched k);
  sr_flags : is_scheduler (kn_sched k') = is_scheduler (kn_sched k) ∧ has_fault k' = has_fault k;
  sr_tick : tick (kn_sched k) ≤ tick (kn_sched k')   (** waiting gives up what is left of the turn *)
}.
(** [m] does in [k] what [r] says, printing something in [out]; the faults of [E]
    are possible besides. *)
Definition refines (E : fault → Prop) (out : list Z → Prop) (k : kernel K) (m : M (kernel K) outcome) (r : res (outcome * views)) : Prop :=
  match r with
  | Err e => m k = Err e
  | Ok (o, V) => runs E m (λ o' k', o' = o ∧ kernel_ok k' ∧ same_run k k' ∧ (∀ i, view k' i = V i) ∧
      ∃ l, kn_console k' = kn_console k ++ l ∧ out l) k
  end.

Lemma view_caller (k : kernel K) p x : caller k p x →
  view k (current_pid (kn_sched k)) = Some (mk_pview (state x) (vec_list (mailbox x)) (user_mem k)).
Proof. intros [_ _ _ He _ Hm]. unfold view. by rewrite He, Hm. Qed.

(** After a write of the caller's memory. *)
Lemma user_after (k : kernel K) m i x : kernel_ok k → entry (kn_sched k) i = Some x → ∀ p y, caller k p y →
  kn_user (set_user_mem m k) (mmap_io_to_phys (pml x)) = if decide (i = current_pid (kn_sched k)) then m else kn_user k (mmap_io_to_phys (pml x)).
Proof.
  intros Hok Hx p y Hc. cbn. rewrite (ko_space _ Hok y) by apply Hc. case_decide as Hd.
  - assert (x = y) as -> by (pose proof (ca_entry _ _ _ Hc); congruence). by rewrite Z.eqb_refl.
  - rewrite (proj2 (Z.eqb_neq _ _)); [done|]. intros Heq. apply Hd. by eapply (ko_spaces _ Hok i _ x y); [|apply Hc|].
Qed.

Lemma ipcsend_refines (k : kernel K) regs p x :
  kernel_ok k → caller k p x →
  let c := current_pid (kn_sched k) in
  let v := mk_pview (state x) (vec_list (mailbox x)) (user_mem k) in
  (∀ y, entry (kn_sched k) (receiver (load_ipc (stamp c (regs rbx) v) (regs rbx))) = Some y → v_length (mailbox y) < 0x1000000) →
  refines mh_stops (λ l, l = []) k (syscall_ipcsend regs) (spec_send c (regs rbx) v (view k)).
Proof.
  intros Hok Hc c v Hlen. pose proof (so_table _ (ko_sched _ Hok)) as Htab. set (msg := load_ipc (stamp c (regs rbx) v) (regs rbx)) in *.
  set (k1 := set_user_mem (stamp c (regs rbx) v) k).
  assert (user_mem k1 = stamp c (regs rbx) v) as Hm1 by apply user_mem_set.
  assert (0 ≤ receiver msg) as Hr0 by apply load64_range.
  assert (syscall_ipcsend regs k = (on_sched (sched_get_by_pid (receiver msg)) ≫= λ proc, assert_ (truth proc) ≫= λ _,
    on_sched (get_process proc) ≫= λ y, gets (λ k, load_ipc (user_mem k) (regs rbx)) ≫= λ v,
    on_sched (on_k (vec_push ks_realloc SIZEOF_IPC (mailbox y) v)) ≫= λ mb,
    on_sched (upd_process proc (p_set_mailbox mb)) ≫= λ _, mret (Return 0)) k1) as Hrun.
  { unfold syscall_ipcsend. cbv zeta. rewrite (bind_eq _ _ _ _ _ (ca_run _ _ _ Hc)), (ca_pid _ _ _ Hc).
    rewrite (bind_eq _ _ _ tt k1) by done. rewrite (bind_eq _ _ _ (receiver msg) k1); [done|]. unfold gets. by rewrite Hm1. }
  assert (runnable (kn_sched k) (receiver msg) = false → syscall_ipcsend regs k = Err AssertFailed) as Hdead.
  { intros Hno. rewrite Hrun. rewrite (bind_eq _ _ _ 0 k1) by (by apply get_by_pid_none). done. }
  unfold spec_send. fold msg. unfold view at 1. unfold runnable in Hdead.
  destruct (entry (kn_sched k) (receiver msg)) as [y|] eqn:Hy; [|by apply Hdead]. cbn [fmap option_fmap option_map pv_state pv_mail].
  case_decide as Hst; [|by apply Hdead, bool_decide_false]. unfold refines, runs. rewrite Hrun.
  destruct (entry_lookup _ _ Htab (entry_bound _ _ _ Htab Hy)) as (q & y' & Hat & Hl & Hq & He & Hpid & Hq0).
  assert (y' = y) as -> by congruence.
  rewrite (bind_eq _ _ _ q k1) by (rewrite (get_by_pid_run k1 _ q y) by done; by rewrite decide_True).
  rewrite (bind_eq _ _ _ tt k1) by (apply assert_Ok; split; [unfold truth; by rewrite (proj2 (Z.eqb_neq q 0)) by lia|done]).
  rewrite (bind_eq _ _ _ y k1) by (unfold on_sched, zoom, get_process; change (kn_sched k1) with (kn_sched k); rewrite Hq; by destruct k).
  rewrite (bind_eq _ _ _ msg k1) by (unfold gets; by rewrite Hm1).
  pose proof (push_runs (mailbox y) msg (space_roots (kn_sched k)) (other_mail (kn_sched k) (receiver msg)) (sc_k (kn_sched k)) (ko_mail _ Hok _ _ Hy) (Hlen y eq_refl)) as Hp.
  unfold runs in Hp. unfold mbind at 1, M_bind at 1. unfold on_sched at 1, zoom at 1, on_k, zoom at 1.
  change (kn_sched k1) with (kn_sched k). destruct (vec_push ks_realloc SIZEOF_IPC (mailbox y) msg (sc_k (kn_sched k))) as [[mb kk]|e].
  2: { apply Hp; [by apply held_split|by apply running_space]. }
  destruct Hp as (Hmb & Hlist & Hheld & Hcr); [by apply held_split|by apply running_space|].
  set (k2 := set_sched (set_k kk (kn_sched k)) k1).
  set (k3 := set_sched (set_procs (<[q := p_set_mailbox mb y]> (procs (kn_sched k))) (set_k kk (kn_sched k))) k1).
  rewrite (bind_eq _ _ _ tt k3).
  2: { unfold on_sched, zoom, upd_process. change (procs (kn_sched k2)) with (procs (kn_sched k)). by rewrite Hq. }
  cbv [mret M_ret]. split; [done|].
  destruct (kernel_alter k k3 (receiver msg) q y (p_set_mailbox mb y) kk) as (Hok3 & Hn3 & He3); try done; [apply (ko_serial _ Hok)|].
  split; [done|]. split; [by split|]. split; [|exists []; by rewrite app_nil_r].
  intros i. unfold view at 1. rewrite He3. change (kn_user k3) with (kn_user (set_user_mem (stamp c (regs rbx) v) k)). unfold view_at, view.
  destruct (decide (i = receiver msg)) as [->|Hne].
  - rewrite Hy. cbn [fmap option_fmap option_map pml mailbox state p_set_mailbox]. rewrite (user_after k _ _ y Hok Hy p x Hc), Hlist. fold c. by destruct (decide (receiver msg = c)).
  - destruct (entry (kn_sched k) i) as [z|] eqn:Hz; [|by case_decide].
    cbn [fmap option_fmap option_map]. rewrite (user_after k _ _ z Hok Hz p x Hc). fold c. by destruct (decide (i = c)).
Qed.

Lemma pop_mail (v : vec ipc_t) l x :
  mail_ok v → vec_list v = l ++ [x] → ∃ v', vec_pop v = Ok (x, v') ∧ mail_ok v' ∧ vec_list v' = l ∧ mail_block v' = mail_block v.
Proof.
  intros [Hv He] Hl. destruct (pop_spec v l x Hv Hl) as (v' & Hpop & Hv' & Hl'). exists v'.
  assert (v_ptr v' = v_ptr v ∧ v_capacity v' = v_capacity v) as [Hp Hc].
  { unfold vec_pop in Hpop. cbv zeta in Hpop. unfold mbind, res_bind in Hpop. destruct (vec_at _ _); [|done]. by injection Hpop as _ <-. }
  split_and!; try done; [split; [done|]; by rewrite Hp, Hc|]. unfold mail_block. by rewrite Hp, Hc.
Qed.

(** Taking the newest message. *)
Lemma receive_refines (k : kernel K) regs p x msg l o :
  kernel_ok k → caller k p x → vec_list (mailbox x) = l ++ [msg] →
  let c := current_pid (kn_sched k) in
  refines (λ _, False) (λ l, l = []) k (receive p x (regs rbx) ≫= λ _, mret o)
    (Ok (o, view_at c (λ v, pv_set_mem (store_ipc (regs rbx) msg (pv_mem v)) (pv_set_mail (removelast (pv_mail v)) v)) (view k))).
Proof.
  intros Hok Hc Hl c. destruct (pop_mail _ l msg (ko_mail _ Hok _ _ (ca_entry _ _ _ Hc)) Hl) as (mb & Hpop & Hmb & Hl' & Hbl).
  set (s := kn_sched k). set (k1 := set_sched (set_procs (<[p := p_set_mailbox mb x]> (procs s)) s) k).
  set (k2 := set_user_mem (store_ipc (regs rbx) msg (user_mem k)) k1).
  unfold refines, runs. rewrite (bind_eq _ _ _ tt k2).
  2: { unfold receive. rewrite (bind_eq _ _ _ (msg, mb) k) by (unfold lift; by rewrite Hpop). cbn beta iota.
       rewrite (bind_eq _ _ _ tt k1) by (unfold on_sched, zoom, upd_process; by rewrite (ca_object _ _ _ Hc)). done. }
  cbv [mret M_ret]. split; [done|].
  destruct (kernel_alter k k2 c p x (p_set_mailbox mb x) (sc_k s)) as (Hok2 & Hn2 & He2); try done; try apply Hc.
  - apply (ko_serial _ Hok).
  - cbn [mailbox p_set_mailbox]. rewrite Hbl. apply held_split; [done|apply Hc].
  - split; [done|]. split; [by split|]. split; [|exists []; by rewrite app_nil_r].
    intros i. unfold view at 1. rewrite He2. change (kn_user k2) with (kn_user (set_user_mem (store_ipc (regs rbx) msg (user_mem k)) k)).
    unfold view_at. destruct (decide (i = c)) as [->|Hne].
    + pose proof (view_caller k p x Hc) as Hvc. fold c in Hvc. rewrite Hvc. cbn [fmap option_fmap option_map pml mailbox state p_set_mailbox pv_set_mem pv_set_mail pv_state pv_mail pv_mem].
      rewrite (user_after k _ c x Hok (ca_entry _ _ _ Hc) p x Hc), decide_True, Hl', Hl, removelast_last by done. done.
    + unfold view. destruct (entry (kn_sched k) i) as [z|] eqn:Hz; [|done].
      cbn [fmap option_fmap option_map]. by rewrite (user_after k _ i z Hok Hz p x Hc), decide_False.
Qed.
Lemma same_run_refl (k : kernel K) : same_run k k.
Proof. by split. Qed.
Lemma refines_same (k : kernel K) E o V (out : list Z → Prop) m :
  kernel_ok k → out [] → m k = Ok (o, k) → (∀ i, view k i = V i) → refines E out k m (Ok (o, V)).
Proof.
  intros Hok Hout Hrun Hv. unfold refines, runs. rewrite Hrun. split; [done|]. split; [done|]. split; [apply same_run_refl|]. split; [done|].
  exists []. by rewrite app_nil_r.
Qed.
Lemma kernel_tick_view (k : kernel K) t i : view (set_sched (set_tick t (kn_sched k)) k) i = view k i.
Proof. done. Qed.
Lemma ipcrcv_refines (k : kernel K) regs p x :
  kernel_ok k → caller k p x →
  let c := current_pid (kn_sched k) in
  let v := mk_pview (state x) (vec_list (mailbox x)) (user_mem k) in
  refines (λ _, False) (λ l, l = []) k (syscall_ipcrcv_sync regs) (spec_receive c (regs rbx) v (view k) Wait) ∧
  refines (λ _, False) (λ l, l = []) k (syscall_ipcrcv_oneshot regs) (spec_receive c (regs rbx) v (view k) (Return 0)).
Proof.
  intros Hok Hc c v. pose proof (ko_mail _ Hok _ _ (ca_entry _ _ _ Hc)) as [Hv _]. pose proof (vec_list_length _ Hv) as Hlen.
  unfold spec_receive. cbn [pv_mail v]. unfold syscall_ipcrcv_sync, syscall_ipcrcv_oneshot.
  assert (∀ f : Z * process → M (kernel K) outcome, ∀ E out r, refines E out k (f (p, x)) r → refines E out k (current_process ≫= f) r) as Hcur.
  { intros f E out r. unfold refines, runs. by rewrite (bind_eq _ _ _ _ _ (ca_run _ _ _ Hc)). }
  destruct (last (vec_list (mailbox x))) as [msg|] eqn:Hlast.
  - apply last_Some in Hlast as [l Hl]. assert (v_length (mailbox x) =? 0 = false) as Hne.
    { apply Z.eqb_neq. rewrite <- Hlen, Hl, length_app. cbn. lia. }
    split; apply Hcur; rewrite Hne; by eapply receive_refines.
  - apply last_None in Hlast. rewrite Hlast in Hlen. change (0 = v_length (mailbox x)) in Hlen. split; apply Hcur; rewrite <- Hlen; cbn [Z.eqb negb when].
    + unfold refines, runs. rewrite (bind_eq _ _ _ tt (set_sched (set_tick SWITCH_TICK (kn_sched k)) k)) by done. cbv [mret M_ret].
      split; [done|]. split; [by apply kernel_tick|]. split; [split; try done; apply (so_tick _ (ko_sched _ Hok))|]. split; [done|]. exists []. by rewrite app_nil_r.
    + by apply refines_same.
Qed.

(** *** Printing *)

(** A change of the processor alone: the same processes. *)
Lemma kernel_cpu (k k' : kernel K) h :
  kernel_ok k → kn_sched k' = set_k (ks_set_hw h (sc_k (kn_sched k))) (kn_sched k) → serial_lock k' = 0 →
  hw_mem h = hw_mem (kn_hw k) → hw_cr3 h = hw_cr3 (kn_hw k) → kernel_ok k'.
Proof.
  intros [Hs Hser Hmail Hheld Hsp Hsps] Hk Hl Hm Hc. pose proof Hs as [Htab Htick Hlocks].
  split; unfold kn_hw, sc_hw; rewrite ?Hk; try done; [by split; [apply (table_ok_ext (kn_sched k))|..]|by apply mh_cpu|].
  cbn [sc_k set_k]. rewrite ks_get_set, Hc. exact Hsp.
Qed.
Lemma kernel_printed (k k' : kernel K) : kernel_ok k → printed k k' → kernel_ok k' ∧ same_run k k' ∧ ∀ i, view k' i = view k i.
Proof.
  intros Hok [(h & Hs & Hm & Hc) _ Hu _ Hl (Hf & _)]. split; [by eapply kernel_cpu|]. split; [split|]; rewrite ?Hs; try done.
  intros i. unfold view. by rewrite Hs, Hu.
Qed.

(** A string of user memory. *)
Lemma syscall_log_refines limit (k : kernel K) regs p x :
  kernel_ok k → caller k p x →
  let v := mk_pview (state x) (vec_list (mailbox x)) (user_mem k) in
  refines (λ _, False) (λ l, mem_bytes limit (user_mem k) (regs rbx) = Ok l) k (syscall_log limit regs) (spec_log limit (regs rbx) v (view k)).
Proof.
  intros Hok Hc v. unfold spec_log, syscall_log. cbn [pv_mem v].
  destruct (mem_bytes limit (user_mem k) (regs rbx)) as [t|e] eqn:Ht; cbn [mbind res_bind].
  - assert (wp (puts_with (λ k, mem_bytes limit (user_mem k) (regs rbx))) (λ _ k', printed k k' ∧ kn_console k' = kn_console k ++ t) k) as Hw.
    { apply puts_with_returns; [apply (ko_serial _ Hok)|]. intros k' Hu Hcr. unfold user_mem in *. by rewrite Hu, Hcr. }
    apply wp_elim in Hw as ([] & k' & Hrun & Hpr & Hcon). unfold refines, runs. rewrite (bind_eq _ _ _ _ _ Hrun). cbv [mret M_ret].
    destruct (kernel_printed _ _ Hok Hpr) as (Hok' & Hs & Hv). split; [done|]. split; [done|]. split; [done|]. split; [done|]. by exists t.
  - unfold refines. apply bind_Err. unfold puts_with. rewrite (ko_serial _ Hok). cbn [arch_acquire mbind res_bind].
    change (arch_acquire 0 (kn_hw k)) with (Ok (1, hw_set_if false (kn_hw k))). cbn [mbind res_bind].
    unfold user_mem, kn_hw, sc_hw in *. cbn. rewrite ks_get_set. cbn. by rewrite Ht.
Qed.

Lemma syscall_exit_refines stack (k : kernel K) regs p x :
  List.length stack = 32%nat → kernel_ok k → caller k p x →
  refines (λ _, False) (λ _, True) k (syscall_exit stack regs) (spec_exit (current_pid (kn_sched k)) (view k)).
Proof.
  intros Hst Hok Hc. unfold spec_exit, refines, runs.
  assert (wp (log_impl stack (lit "syscall.c") 34 (lit "PID {} exited {}") [fmtvald (pid x); fmtvald (regs rbx)]) (λ _, printed k) k) as Hlog.
  { apply log_impl_returns; [done|by vm_compute..| |apply (ko_serial _ Hok)]. repeat constructor; apply fmtvald_ok. }
  apply wp_elim in Hlog as ([] & k1 & Hlog & Hpr). destruct (kernel_printed _ _ Hok Hpr) as (Hok1 & [Hc1 Hn1 Hf1 Ht1] & Hv1).
  unfold syscall_exit. rewrite (bind_eq _ _ _ _ _ (ca_run _ _ _ Hc)), (bind_eq _ _ _ _ _ Hlog).
  destruct Hpr as [(h & Hs1 & _) _ _ [l Hl] Hser _]. set (s := kn_sched k) in *. set (c := current_pid s) in *.
  assert (procs s !! p = Some x) as Hpx by apply Hc.
  set (x1 := p_set_return (s32 (regs rbx)) x). set (x2 := p_set_state TASK_WAITINGFORDEATH x1).
  assert (procs (kn_sched k1) = procs s) as Hp1 by by rewrite Hs1.
  set (k2 := set_sched (set_procs (<[p := x2]> (procs s)) (kn_sched k1)) k1).
  rewrite (bind_eq _ _ _ tt (set_sched (set_procs (<[p := x1]> (procs s)) (kn_sched k1)) k1)).
  2: { unfold on_sched, zoom, upd_process. by rewrite Hp1, Hpx. }
  rewrite (bind_eq _ _ _ tt k2).
  2: { unfold on_sched, zoom, upd_process. cbn [kn_sched set_sched procs set_procs]. rewrite lookup_insert_eq. cbn [kn_sched set_sched procs set_procs].
       by rewrite insert_insert_eq. }
  cbv [mret M_ret]. split; [done|].
  assert (entry (kn_sched k1) c = Some x) as He1 by (rewrite Hs1; apply Hc).
  destruct (kernel_alter k1 k2 c p x x2 (sc_k (kn_sched k1)) Hok1) as (Hok2 & Hn2 & He2); try done.
  - rewrite Hs1. apply Hc.
  - rewrite Hp1. apply Hc.
  - by rewrite set_k_self, Hp1.
  - apply (ko_mail _ Hok _ _ (ca_entry _ _ _ Hc)).
  - exact (held_split k1 c x Hok1 He1).
  - split; [done|]. split; [split; try done; by rewrite Hn2|]. split; [|exists l; split; [exact Hl|done]].
    intros i. unfold view at 1. rewrite He2. change (kn_user k2) with (kn_user k1). unfold view_at. rewrite <- (Hv1 i). unfold view.
    destruct (decide (i = c)) as [->|Hne]; [by rewrite He1|done].
Qed.

(** ** The theorem *)

(** The number a full mailbox of the receiver may have; [vec_push] doubles the
    array, and the heap is asked for at most 1 GiB. *)
Definition MAIL_LIMIT : Z := 0x1000000.
Definition room_for (k : kernel K) (id arg : Z) : Prop :=
  id = SYS_IPC_SEND → ∀ v y, view k (current_pid (kn_sched k)) = Some v →
    view k (receiver (load_ipc (stamp (current_pid (kn_sched k)) arg v) arg)) = Some y → Z.of_nat (List.length (pv_mail y)) < MAIL_LIMIT.

Lemma syscall_refines_all stack limit (k : kernel K) regs :
  List.length stack = 32%nat → kernel_ok k → room_for k (regs rax) (regs rbx) →
  refines (λ e, regs rax = SYS_IPC_SEND ∧ mh_stops e)
    (λ l, regs rax ≠ SYS_EXIT → if decide (regs rax = SYS_LOG) then mem_bytes limit (user_mem k) (regs rbx) = Ok l else l = [])
    k (syscall_handler stack limit regs) (spec_call limit (current_pid (kn_sched k)) (regs rax) (regs rbx) (view k)).
Proof.
  intros Hst Hok Hroom. destruct (the_caller k Hok) as (p & x & Hc). pose proof (view_caller k p x Hc) as Hv.
  assert (∀ E E' (out out' : list Z → Prop) m r, refines E out k m r → (∀ e, E e → E' e) → (∀ l, out l → out' l) → refines E' out' k m r) as Hmono.
  { intros E E' out out' m [[o V]|e] Hr HE Hout; [|done]. eapply runs_mono; [exact HE| |exact Hr].
    intros o' k' (-> & Hok' & Hs & HV & l & Hl & Ho). split; [done|]. split; [done|]. split; [done|]. split; [done|]. exists l. eauto. }
  unfold spec_call. rewrite Hv. unfold syscall_handler.
  destruct (decide (regs rax = SYS_IPC_SEND)) as [Hid|Hne1].
  { rewrite Hid. eapply Hmono; [eapply ipcsend_refines; [done|done|]|done|by intros l -> _].
    intros y Hy. rewrite <- (vec_list_length (mailbox y)) by apply (ko_mail _ Hok _ _ Hy).
    refine (Hroom Hid _ (mk_pview (state y) (vec_list (mailbox y)) _) Hv _). unfold view at 1. by rewrite Hy. }
  destruct (ipcrcv_refines k regs p x Hok Hc) as [Hsync Hone].
  destruct (decide (regs rax = SYS_IPC_RCV_SYNC)) as [->|Hne2]; [by eapply Hmono; [exact Hsync| |intros l -> _]|].
  destruct (decide (regs rax = SYS_IPC_RCV_ONESHOT)) as [->|Hne3]; [by eapply Hmono; [exact Hone| |intros l -> _]|].
  destruct (decide (regs rax = SYS_LOG)) as [->|Hne4].
  { eapply Hmono; [by eapply syscall_log_refines|done|]. by intros l Hl _. }
  destruct (decide (regs rax = SYS_EXIT)) as [->|Hne5]; [by eapply Hmono; [by eapply syscall_exit_refines| |]|].
  destruct (decide (regs rax = SYS_GETPID)) as [->|Hne6].
  - apply refines_same; try done.
    change (syscall_getpid regs k = Ok (Return (current_pid (kn_sched k)), k)). unfold syscall_getpid.
    by rewrite (bind_eq _ _ _ _ _ (ca_run _ _ _ Hc)), (ca_pid _ _ _ Hc).
  - unfold refines. destruct (Z.ltb_spec (regs rax) 0); [done|].
    pose proof (syscall_handler_unchecked stack limit regs k) as Hun. unfold syscall_handler in Hun. rewrite (proj2 (Z.ltb_ge _ _)) in Hun by done.
    apply Hun; [done|]. set_solver.
Qed.

(** ** The timer *)

(** Entries after a tick: only saved registers differ. *)
Lemma yielded_entries s r q r' s' :
  table_ok s → yielded s r q r' s' →
  table_length s' = table_length s ∧
  ∀ i, entry s' i = entry s i ∨ ∃ x r, entry s i = Some x ∧ entry s' i = Some (p_set_regs r x).
Proof.
  intros Hok Hy. unfold yielded in Hy. destruct (tick s <? SWITCH_TICK).
  - destruct Hy as (_ & _ & _ & Hpr & Hp & _). unfold table_length, entry. rewrite Hpr, Hp. by split; [|left].
  - destruct Hy as (d & _ & _ & _ & [_ _ _ [Hp _] (p & Hat & Hpr) _ _ _ _]).
    split; [unfold table_length; by rewrite Hp|]. intros i. assert (entry s' i = entry (saved p r s) i) as ->.
    { unfold entry. rewrite Hpr, Hp. done. }
    rewrite entry_saved. destruct (entry s i) as [x|]; [|by left]. cbn [fmap option_fmap option_map]. case_decide; [right|by left]. by exists x, r.
Qed.
(** Where the processor is after a tick. *)
Lemma yielded_cpu s r q r' s' :
  table_ok s → yielded s r q r' s' →
  ∃ h, sc_k s' = ks_set_hw h (sc_k s) ∧ hw_mem h = hw_mem (sc_hw s) ∧
    if tick s <? SWITCH_TICK then hw_cr3 h = hw_cr3 (sc_hw s) ∧ current_pid s' = current_pid s
    else ∃ x, entry s' (current_pid s') = Some x ∧ hw_cr3 h = mmap_io_to_phys (pml x).
Proof.
  intros Hok Hy. unfold yielded in Hy. destruct (tick s <? SWITCH_TICK).
  - destruct Hy as (_ & _ & Hc & _ & _ & Hk & _). by eexists.
  - destruct Hy as (d & _ & _ & _ & [Hcur _ _ [Hp _] _ (p & x & Hat & Hx & _ & Hcr & _) [_ Hm] [h Hk] _]).
    assert (h = sc_hw s') as -> by (unfold sc_hw; by rewrite Hk, ks_get_set).
    eexists. split; [exact Hk|]. split; [done|]. exists x. split; [|done].
    pose proof (Z.mod_pos_bound (current_pid s + d) (table_length s) (proj1 (sk_length _ Hok))) as Hj. rewrite <- Hcur in *.
    destruct (entry_lookup s _ Hok Hj) as (p' & _ & Hat' & Hl & _). assert (p' = p) as -> by congruence.
    unfold entry. rewrite (proj2 (Z.ltb_ge _ _)), Hp, Hl by lia. done.
Qed.

(** A tick that comes while some process may run. *)
Record ticked (k : kernel K) (q : Z) (k' : kernel K) : Prop := {
  tk_ok : kernel_ok k';
  tk_view i : view k' i = view k i;
  tk_rest : is_scheduler (kn_sched k') = true ∧ has_fault k' = false ∧ kn_console k' = kn_console k ∧ table_length (kn_sched k') = table_length (kn_sched k);
  tk_next : if tick (kn_sched k) <? SWITCH_TICK then current_pid (kn_sched k') = current_pid (kn_sched k)
    else ∃ d, 1 ≤ d ≤ table_length (kn_sched k) ∧ current_pid (kn_sched k') = (current_pid (kn_sched k) + d) mod table_length (kn_sched k) ∧
      runnable (kn_sched k) (current_pid (kn_sched k')) = true ∧
      ∀ e, 1 ≤ e < d → runnable (kn_sched k) ((current_pid (kn_sched k) + e) mod table_length (kn_sched k)) = false;
  tk_nearer : current_pid (kn_sched k') = q ∧ tick (kn_sched k') = 0 ∨ wait (kn_sched k') q + 1 ≤ wait (kn_sched k) q
}.
Lemma timer_run stack limit depth now cr2 fr (k : kernel K) q :
  kernel_ok k → is_scheduler (kn_sched k) = true → has_fault k = false → fr intno = 32 → 0 ≤ q < table_length (kn_sched k) → runnable (kn_sched k) q = true →
  ∃ r' k', interrupts_handler stack limit depth now cr2 fr k = Ok (Resume r', k') ∧ ticked k q k'.
Proof.
  intros Hok Hsch Hf Hint Hq Hrun. pose proof Hok as [Hs Hser Hmail Hheld Hsp Hsps]. set (s := kn_sched k) in *. pose proof (so_table _ Hs) as Htab.
  rewrite irq_dispatch by (done || by rewrite Hint). cbv zeta. fold s. rewrite Hint, Hsch. cbn [andb Z.eqb Pos.eqb].
  destruct (yield_step s (fr) q Hs Hq Hrun) as (r' & s' & Hy & Hok' & Hn' & Hr' & Hcase). rewrite Hy.
  eexists r', _. split; [reflexivity|]. set (k' := set_eoi _ _). change (kn_sched k') with s'.
  destruct (yielded_entries s _ q r' s' Htab Hcase) as [_ Hent]. destruct (yielded_cpu s _ q r' s' Htab Hcase) as (h & Hk & Hm & Hcr).
  assert (∀ i x', entry s' i = Some x' → ∃ x, entry s i = Some x ∧ pml x' = pml x ∧ mailbox x' = mailbox x ∧ state x' = state x) as Hback.
  { intros i x' Hx'. destruct (Hent i) as [He|(x & r0 & He & He')]; [exists x'; by rewrite <- He|]. exists x. rewrite He' in Hx'. by injection Hx' as <-. }
  assert (∀ i, view k' i = view k i) as Hview.
  { intros i. unfold view. change (kn_sched k') with s'. change (kn_sched k) with s. destruct (Hent i) as [->|(x & r0 & -> & ->)]; done. }
  assert (is_scheduler s' = true) as Hsch'.
  { unfold yielded in Hcase. destruct (tick s <? SWITCH_TICK); [destruct Hcase as (_ & _ & _ & _ & _ & _ & ->)|destruct Hcase as (d & _ & _ & _ & Hsw); rewrite (sw_flags _ _ _ _ _ Hsw)]; done. }
  split.
  - split; change (kn_sched k') with s'; change (serial_lock k') with (serial_lock k); try done.
    + intros i x' Hx'. destruct (Hback i x' Hx') as (x & Hx & _ & -> & _). by eapply Hmail.
    + rewrite Hk. apply mh_cpu; [exact Hm|].
      eapply mh_mono; [|reflexivity|]; [|replace (all_mail s') with (all_mail s); [exact Hheld|]].
      { intros c (i & x' & Hx' & ->). destruct (Hback i x' Hx') as (x & Hx & -> & _). by exists i, x. }
      unfold all_mail. rewrite Hn'. apply Forall_bind_ext, Forall_forall. intros j _. unfold mail_of.
      destruct (Hent (Z.of_nat j)) as [->|(x & r0 & -> & ->)]; done.
    + intros x' Hx'. change (kn_hw k') with (sc_hw s'). unfold sc_hw. rewrite Hk, ks_get_set.
      destruct (tick s <? SWITCH_TICK).
      * destruct Hcr as [-> Hc]. rewrite Hc in Hx'. destruct (Hback _ x' Hx') as (x & Hx & -> & _). by apply Hsp.
      * destruct Hcr as (x & Hx & ->). congruence.
    + intros i j x y Hx Hy'. destruct (Hback i x Hx) as (x0 & Hx0 & -> & _), (Hback j y Hy') as (y0 & Hy0 & -> & _). by eapply Hsps.
  - done.
  - done.
  - change (kn_sched k') with s'. fold s. unfold yielded in Hcase. destruct (tick s <? SWITCH_TICK); [apply Hcase|].
    destruct Hcase as (d & Hd & Hrd & Hno & Hsw). exists d. rewrite (sw_current _ _ _ _ _ Hsw).
    pose proof (Z.mod_pos_bound (q - current_pid s - 1) (table_length s) (proj1 (sk_length _ Htab))). split_and!; try done; lia.
  - destruct (yielded_nearer s _ q r' s' Hs Hq Hn' Hcase) as [Hsw|Hnear]; [left|by right]. split; apply Hsw.
Qed.
(** The other interrupts of the controllers have no handler. *)
Lemma irq_run stack limit depth now cr2 fr (k : kernel K) :
  kernel_ok k → has_fault k = false → 32 < fr intno < 48 →
  ∃ l, interrupts_handler stack limit depth now cr2 fr k = Ok (Resume fr, set_eoi l k) ∧ kernel_ok (set_eoi l k).
Proof.
  intros Hok Hf Hint. rewrite irq_dispatch by (done || lia). cbv zeta. rewrite (proj2 (Z.eqb_neq _ _)) by lia. cbn [andb].
  eexists. split; [done|]. by destruct Hok.
Qed.
End refinement.

(** ** A kernel with four processes *)

Section sample.
Context {K : Type} `{MailHeap K}.
Variable k : K.
Definition sample_ipc_on : kernel K :=
  mk_kernel (mk_sched k
      {[ 0x5000 := sample_process 0 0x100 TASK_RUNNING; 0x6000 := sample_process 1 0x100 TASK_RUNNING;
         0x7000 := sample_process 2 0x100 TASK_RUNNING; 0x8000 := sample_process 3 0x100 TASK_RUNNING ]}
      (mk_vec 0x4000 [0x5000; 0x6000; 0x7000; 0x8000] 4 4 0) 0 0 0 0 4 true true ∅)
    (λ _, sample_user) [] 0 false 0 (mk_range 0 0) [].
Lemma sample_ipc_table : sched_ok (kn_sched sample_ipc_on).
Proof.
  split; [split|done|done]; cbn; try lia.
  - split; cbn; try lia. right. by exists 2.
  - intros [|[|[|[|i]]]] p Hp; cbn in Hp; [injection Hp as <-..|done]; (split; [lia|]); eexists; (split; [vm_compute; reflexivity|done]).
Qed.
Lemma sample_ipc_entry i x : entry (kn_sched sample_ipc_on) i = Some x ↔ 0 ≤ i ≤ 3 ∧ x = sample_process i 0x100 TASK_RUNNING.
Proof.
  assert (∀ i, 0 ≤ i ≤ 3 → entry (kn_sched sample_ipc_on) i = Some (sample_process i 0x100 TASK_RUNNING)) as Hi.
  { intros j Hj. assert (j = 0 ∨ j = 1 ∨ j = 2 ∨ j = 3) as [-> |[-> |[-> | ->]]] by lia; reflexivity. }
  split; [|intros [Hj ->]; by apply Hi]. intros Hx. assert (0 ≤ i ≤ 3) as Hj.
  { pose proof (entry_bound _ _ _ (so_table _ sample_ipc_table) Hx) as Hb. change (table_length (kn_sched sample_ipc_on)) with 4 in Hb. lia. }
  rewrite Hi in Hx by done. by injection Hx as <-.
Qed.
Lemma sample_pml i : 0 ≤ i ≤ 3 → mmap_io_to_phys (pml (sample_process i 0x100 TASK_RUNNING)) = 0x7000 * (i + 1).
Proof. intros Hi. assert (i = 0 ∨ i = 1 ∨ i = 2 ∨ i = 3) as [-> |[-> |[-> | ->]]] by lia; vm_compute; reflexivity. Qed.
Lemma sample_ipc_on_ok :
  hw_cr3 (ks_hw k) = 0x7000 → mh_held k (λ c, ∃ i, 0 ≤ i ≤ 3 ∧ c = 0x7000 * (i + 1)) [] → kernel_ok sample_ipc_on.
Proof.
  intros Hc Hk. split; [apply sample_ipc_table|done| | | |].
  - intros i x [_ ->]%sample_ipc_entry. by split; [apply vec_init_ok|].
  - apply (mh_mono k (λ c, ∃ i, 0 ≤ i ≤ 3 ∧ c = 0x7000 * (i + 1)) _ [] _); [|done|exact Hk].
    intros c (i & x & [Hi ->]%sample_ipc_entry & ->). exists i. by rewrite sample_pml.
  - intros x [Hi ->]%sample_ipc_entry. rewrite sample_pml by done. exact Hc.
  - intros i j x y [Hi ->]%sample_ipc_entry [Hj ->]%sample_ipc_entry. rewrite !sample_pml by done. lia.
Qed.
End sample.
Definition sample_ipc : kernel bump := sample_ipc_on (mk_bump (mk_hw (λ _, 0) true 0x7000 []) 0x10000).
Lemma sample_ipc_ok : kernel_ok sample_ipc.
Proof. by apply sample_ipc_on_ok. Qed.

