(* ===== verification/User.v ===== *)
(** User programs: C start-up (libs/ansi/crt0.c), the user's log
    (libs/navy/debug.c) and the test program (pkg/test/main.c) over the wrappers
    of libs/ansi/unistd.c and libs/navy/ipc.c.

    A program is an interaction tree: its events are the [syscall] instruction and
    the accesses to its own memory, between any two of which an interrupt may
    come. *)
From ITree Require Import ITree.
From S2P Require Import Prelude Machine CString Fmt Services Sched Process Kernel Syscall Devices Interrupt.
From Stdlib Require Import Strings.String.

Inductive userE : Type → Type :=
| Trap (syscall_id arg1 : Z) : userE Z            (** [syscall5] with the other arguments 0; the value of [rax] *)
| Read (a : Z) : userE Z                          (** 64 bits *)
| Write (f : memory → memory) : userE unit
| Fault (e : fault) : userE unit.                 (** undefined behaviour *)
Notation user := (itree userE).
#[export] Instance user_ret : MRet user := λ A a, Ret a.
#[export] Instance user_bind : MBind user := λ A B f m, ITree.bind m f.

(** [s] and its terminator at [a]. *)
Fixpoint store_string (a : Z) (s : list Z) (m : memory) : memory :=
  match s with [] => store8 a 0 m | c :: s => store_string (a + 1) s (store8 a c m) end.

(** Where the compiler puts the local variables, the strings and the buffers of
    the formatter, and what the latter hold. *)
Record layout : Type := mk_layout { ly_msg : Z; ly_msg2 : Z; ly_buffer : Z; ly_stack : list Z }.

Section program.
Variable ly : layout.
Notation msg := (ly_msg ly).
Notation msg2 := (ly_msg2 ly).

Definition u_trap (id arg : Z) : user Z := ITree.trigger (Trap id arg).
Definition u_read (a : Z) : user Z := ITree.trigger (Read a).
Definition u_write (f : memory → memory) : user unit := ITree.trigger (Write f).

Definition u_getpid : user Z := u_trap SYS_GETPID 0.
Definition u_ipc_send (ipc : Z) : user Z := u_trap SYS_IPC_SEND ipc.
Definition u_ipc_rcv_sync (ipc : Z) : user Z := u_trap SYS_IPC_RCV_SYNC ipc.
Definition u_ipc_rcv_oneshot (ipc : Z) : user Z := u_trap SYS_IPC_RCV_ONESHOT ipc.
Definition u_exit (status : Z) : user Z := u_trap SYS_EXIT (u64 status).

(** [sys_log] of a string. *)
Definition u_sys_log (s : list Z) : user Z := u_write (store_string (ly_buffer ly) s) ≫= λ _, u_trap SYS_LOG (ly_buffer ly).
Fixpoint emit (l : list (list Z)) : user unit :=
  match l with [] => mret tt | s :: l => u_sys_log s ≫= λ _, emit l end.
(** [PRINT_FORMAT(sys_log, ...)]: the strings it is called with, one by one. *)
Definition u_print (format : charp) (args : fmt_args) : user unit :=
  match PRINT_FORMAT collect (ly_stack ly) format args [] with
  | Ok (_, out) => emit out
  | Err e => ITree.trigger (Fault e)
  end.

Definition log_impl_userspace (filename : charp) (line_nbr : Z) (format : charp) (args : fmt_args) : user unit :=
  u_getpid ≫= λ pid,
  u_print (lit (ESC ++ "[92m({}) {}:{}" ++ ESC ++ "[0m ")%string) [fmtvald pid; fmtvals filename; fmtvald line_nbr] ≫= λ _,
  u_print format args ≫= λ _,
  emit [chars NL].

(** [log(format, msg.sender, msg.data)] *)
Definition log_message (line : Z) (format : string) : user unit :=
  u_read msg ≫= λ s,
  u_read (msg + 16) ≫= λ d,
  log_impl_userspace (lit "main.c") line (lit format) [fmtvald s; fmtvald d].

Definition receiver : user unit :=
  u_ipc_rcv_sync msg ≫= λ _,
  log_message 27 "Got IPC from {} with value {x}".
(** The body of [for (; msg.sender == 0; ipc_rcv_oneshot(&msg))]. *)
Definition poll (_ : unit) : user (unit + unit) :=
  u_read msg ≫= λ s,
  if s =? 0 then u_ipc_rcv_oneshot msg ≫= λ _, mret (inl tt) else mret (inr tt).
Definition receiver_oneshot : user unit :=
  u_write (store_ipc msg (mk_ipc 0 0 0)) ≫= λ _,
  ITree.iter poll tt ≫= λ _,
  log_message 34 "Got IPC ONESHOT from {} with value {x}".
Definition sender : user unit :=
  u_write (store_ipc msg (mk_ipc 0 1 0xdeadbeef)) ≫= λ _,
  u_write (store_ipc msg2 (mk_ipc 0 2 0xcafebabe)) ≫= λ _,
  u_ipc_send msg ≫= λ _,
  u_ipc_send msg2 ≫= λ _,
  mret tt.

Definition main : user Z :=
  u_getpid ≫= λ pid,
  (if pid =? 1 then receiver
   else if pid =? 2 then receiver_oneshot
   else if pid =? 3 then sender
   else mret tt) ≫= λ _,
  mret 0.

(** [_start], after which nothing is to be executed. *)
Definition start : user unit :=
  main ≫= λ ex,
  u_exit ex ≫= λ _,
  mret tt.
End program.

(** ** The processor with its programs

    The registers and the code of a process are what is left of its tree, kept
    by pid; what the interrupted and the calling process have in their other
    registers is arbitrary.  The kernel's own process only waits for interrupts:
    the turns of its reaper are in [Process]. *)
Inductive reply (X : Type) : Type := Answer (x : X) | Again | Never.
Arguments Answer {X}. Arguments Again {X}. Arguments Never {X}.

Record system (K : Type) : Type := mk_system {
  sy_kernel : kernel K;
  sy_program : Z → user unit;
  sy_printed : list (Z * list Z)   (** what each call of [sys_log] has printed, with its caller *)
}.
Arguments mk_system {K}. Arguments sy_kernel {K}. Arguments sy_program {K}. Arguments sy_printed {K}.

Section system.
Context {K : Type} `{KernelServices K}.
(** The formatter's buffers in the kernel; the length of the longest string. *)
Variables (stack : list Z) (limit : nat).
Implicit Types y : system K.

Definition set_kernel (k : kernel K) y : system K := mk_system k (sy_program y) (sy_printed y).
Definition set_program (i : Z) (t : user unit) y : system K :=
  mk_system (sy_kernel y) (λ j, if decide (j = i) then t else sy_program y j) (sy_printed y).
Definition on_the_kernel {A} (m : M (kernel K) A) : M (system K) A := zoom sy_kernel set_kernel m.

Definition perform (r : registers_t) {X} (e : userE X) : M (kernel K) (reply X) :=
  match e in userE X return M (kernel K) (reply X) with
  | Trap id arg =>
      syscall2 stack r limit id arg ≫= λ o,
      mret (match o with Return v => Answer v | Wait => Again | Stop => Never end)
  | Read a => gets (λ k, load64 (user_mem k) a) ≫= λ v, mret (Answer v)
  | Write f => modify (λ k, set_user_mem (f (user_mem k)) k) ≫= λ _, mret (Answer tt)
  | Fault e => fail e
  end.
Definition prints {X} (e : userE X) : bool := match e with Trap id _ => id =? SYS_LOG | _ => false end.

(** One event of the current process, whose other registers are [r]. *)
Definition turn (r : registers_t) : M (system K) unit :=
  gets (λ y, current_pid (kn_sched (sy_kernel y))) ≫= λ c,
  gets (λ y, sy_program y c) ≫= λ t,
  match observe t with
  | RetF _ => mret tt
  | TauF t => modify (set_program c t)
  | @VisF _ _ _ X e rest =>
      gets (λ y, List.length (kn_console (sy_kernel y))) ≫= λ n,
      on_the_kernel (perform r e) ≫= λ a,
      when (prints e) (modify (λ y, mk_system (sy_kernel y) (sy_program y) (sy_printed y ++ [(c, drop n (kn_console (sy_kernel y)))]))) ≫= λ _,
      match a with
      | Answer x => modify (set_program c (rest x))
      | Again => mret tt
      | Never => modify (set_program c (Ret tt))
      end
  end.

(** The machine goes on with an event of the current process, or the controllers
    interrupt it. *)
Inductive event : Type := Turn | Interrupt (no : Z).
#[export] Instance event_eq_dec : EqDecision event.
Proof. solve_decision. Defined.
Inductive system_step : event → system K → system K → Prop :=
| step_turn r y y' : turn r y = Ok (tt, y') → system_step Turn y y'
| step_interrupt depth now cr2 fr r k y :
    32 ≤ fr intno < 48 → interrupts_handler stack limit depth now cr2 fr (sy_kernel y) = Ok (Resume r, k) →
    system_step (Interrupt (fr intno)) y (set_kernel k y).
End system.
