(* ===== verification/Isolation.v ===== *)
(** Any user programs on the kernel: whatever they do, through system calls or by
    themselves, and whatever interrupts come, a process leaves the others' state
    and memory alone, except that it may put messages with its own pid at the end
    of their mailboxes. *)
From ITree Require Import ITree.
From S2P Require Import Prelude Machine CString Range FrameAllocator Fmt Services Vec Sched Process Kernel Syscall Devices Interrupt Ipc User.

(** ** What an event does to the processes *)

Definition spec_perform (limit : nat) (c : Z) {X} (e : userE X) (V : views) : res (reply X * views) :=
  match V c with
  | None => Err BadAccess
  | Some v =>
      match e in userE X return res (reply X * views) with
      | Trap id arg =>
          '(o, V') ← spec_call limit c id arg V;
          Ok (match o with Return v => Answer v | Wait => Again | Stop => Never end, V')
      | Read a => Ok (Answer (load64 (pv_mem v) a), V)
      | Write f => Ok (Answer tt, view_at c (pv_set_mem (f (pv_mem v))) V)
      | Fault e => Err e
      end
  end.

Section perform.
Context {K : Type} `{MailHeap K}.
Variables (stack : list Z) (limit : nat).
Hypothesis stack_length : List.length stack = 32%nat.

(** Why an event may stop: the heap has no room for a message. *)
Definition may_stop (f : fault) {X} (e : userE X) : Prop :=
  match e with Trap id _ => id = SYS_IPC_SEND ∧ mh_stops f | _ => False end.
(** What an event prints. *)
Definition said {X} (e : userE X) (m : memory) (l : list Z) : Prop :=
  match e with Trap id arg => id = SYS_LOG → mem_bytes limit m arg = Ok l | _ => True end.
Definition room_of (k : kernel K) {X} (e : userE X) : Prop := match e with Trap id arg => room_for k id arg | _ => True end.

Lemma user_write (k : kernel K) p x f :
  kernel_ok k → caller k p x → let k' := set_user_mem (f (user_mem k)) k in
  kernel_ok k' ∧ same_run k k' ∧ (∀ i, view k' i = view_at (current_pid (kn_sched k)) (pv_set_mem (f (user_mem k))) (view k) i).
Proof.
  intros Hok Hc k'. split; [by destruct Hok|]. split; [by split|]. intros i. unfold view at 1. change (kn_sched k') with (kn_sched k).
  unfold view_at, view. destruct (entry (kn_sched k) i) as [z|] eqn:Hz; [|by case_decide]. cbn [fmap option_fmap option_map].
  unfold k'. rewrite (user_after k _ i z Hok Hz p x Hc). by case_decide.
Qed.

Lemma perform_refines {X} (e : userE X) r (k : kernel K) :
  kernel_ok k → room_of k e →
  let c := current_pid (kn_sched k) in
  match spec_perform limit c e (view k) with
  | Err f => perform stack limit r e k = Err f
  | Ok (a, V) => runs (λ f, may_stop f e) (perform stack limit r e) (λ a' k', a' = a ∧ kernel_ok k' ∧ same_run k k' ∧ (∀ i, view k' i = V i) ∧
      ∃ l, kn_console k' = kn_console k ++ l ∧ said e (user_mem k) l) k
  end.
Proof.
  intros Hok Hroom c. destruct (the_caller k Hok) as (p & x & Hc). pose proof (view_caller k p x Hc) as Hv. unfold spec_perform. unfold c. rewrite Hv.
  destruct e as [id arg|a|f|f]; cbn [perform].
  - set (regs := set_reg rdi 0 (set_reg rsi 0 (set_reg rdx 0 (set_reg rbx arg (set_reg rax id r))))).
    pose proof (syscall_refines_all stack limit k regs stack_length Hok Hroom) as Href. change (regs rax) with id in Href. change (regs rbx) with arg in Href.
    change (syscall2 stack r limit id arg) with (syscall_handler stack limit regs).
    destruct (spec_call limit (current_pid (kn_sched k)) id arg (view k)) as [[o V]|f]; cbn [mbind res_bind].
    + apply runs_bind. eapply runs_mono; [| |exact Href]; [done|]. intros o' k' (-> & Hok' & Hs & HV & l & Hl & Ho). cbv [runs mret M_ret].
      split; [by destruct o|]. split; [done|]. split; [done|]. split; [done|]. exists l. split; [done|]. cbn. intros ->. by apply Ho.
    + unfold refines in Href. by apply bind_Err.
  - cbv [runs mbind M_bind gets mret M_ret]. split; [done|]. split; [done|]. split; [apply same_run_refl|]. split; [done|]. exists []. by rewrite app_nil_r.
  - destruct (user_write k p x f Hok Hc) as (Hok' & Hs & HV). cbv [runs mbind M_bind modify mret M_ret].
    split; [done|]. split; [done|]. split; [done|]. split; [done|]. exists []. by rewrite app_nil_r.
  - done.
Qed.
End perform.


(** ** The machine with any programs *)

(** What a step of process [c] may do to another process. *)
Record untouched (c : Z) (v v' : pview) : Prop := {
  ut_state : pv_state v' = pv_state v;
  ut_memory : pv_mem v' = pv_mem v;
  ut_mail : pv_mail v' = pv_mail v ∨ ∃ msg, pv_mail v' = pv_mail v ++ [msg] ∧ Sched.sender msg = c
}.
Lemma untouched_refl c v : untouched c v v.
Proof. split; [done|done|by left]. Qed.

(** What a step of process [c] does to the processes as a whole. *)
Definition isolating (c : Z) (V V' : views) : Prop :=
  ∀ i, match V i, V' i with
       | Some v, Some v' => (i ≠ c → untouched c v v') ∧ (List.length (pv_mail v') ≤ S (List.length (pv_mail v)))%nat
       | None, None => True
       | _, _ => False
       end.
Lemma isolating_refl c V : isolating c V V.
Proof. intros i. destruct (V i); [|done]. split; [intros _; apply untouched_refl|lia]. Qed.
Lemma isolating_own c f V : (∀ v, (List.length (pv_mail (f v)) ≤ S (List.length (pv_mail v)))%nat) → isolating c V (view_at c f V).
Proof.
  intros Hf i. unfold view_at. case_decide as Hi; [subst i|].
  - destruct (V c) as [v|]; [|done]. cbn. split; [done|apply Hf].
  - apply (isolating_refl c V i).
Qed.

(** A message stamped with the caller's pid has it, wherever it is. *)
Lemma load8_store_le_off n m a v x : (∀ i, 0 ≤ i < Z.of_nat n → u64 x ≠ u64 (a + i)) → load8 (store_le n a v m) x = load8 m x.
Proof.
  revert m a v. induction n as [|n IH]; intros m a v Hx; [done|]. cbn [store_le]. rewrite IH.
  - apply load8_store8_ne. specialize (Hx 0). rewrite Z.add_0_r in Hx. apply Hx. lia.
  - intros i Hi. rewrite <- Z.add_assoc. apply Hx. lia.
Qed.
Lemma load_store_le_wrap n m a v : Z.of_nat n ≤ 8 → load_le n (store_le n a v m) a = v mod 0x100 ^ Z.of_nat n.
Proof.
  revert m a v. induction n as [|n IH]; intros m a v Hn; [cbn; by rewrite Z.mod_1_r|]. cbn [load_le store_le].
  rewrite load8_store_le_off, load8_store8_eq, IH by (lia || (intros i Hi; unfold u64; Z.div_mod_to_equations; lia)).
  rewrite Nat2Z.inj_succ, Z.pow_succ_r by lia. unfold u8. by rewrite Z.rem_mul_r by (try apply Z.pow_pos_nonneg; lia).
Qed.
Lemma stamp_sender c arg v : 0 ≤ c < 0x10000000000000000 → Sched.sender (load_ipc (stamp c arg v) arg) = c.
Proof.
  intros Hc. change (load_le 8 (store_le 8 arg c (pv_mem v)) arg = c). rewrite load_store_le_wrap by lia.
  change (0x100 ^ Z.of_nat 8) with 0x10000000000000000. by apply Z.mod_small.
Qed.

Lemma isolating_send c arg v V o V' : 0 ≤ c < 0x10000000000000000 → V c = Some v → spec_send c arg v V = Ok (o, V') → isolating c V V'.
Proof.
  intros Hc Hv. unfold spec_send. set (msg := load_ipc (stamp c arg v) arg).
  destruct (V (Sched.receiver msg)) as [y|] eqn:Hy; [|done]. case_decide; [|done]. intros [= _ <-] i. unfold view_at.
  destruct (decide (i = Sched.receiver msg)) as [->|Hne].
  - rewrite Hy, decide_True by done. assert (Sched.sender msg = c) as Hs by by apply stamp_sender. case_decide as Hd; cbn [fmap option_fmap option_map].
    + split; [done|]. cbn. rewrite length_app. cbn. lia.
    + split; [|cbn; rewrite length_app; cbn; lia]. intros _. split; [done|done|]. right. by exists msg.
  - rewrite decide_False by done. case_decide as Hd; [subst i; rewrite Hv; split; [done|cbn; lia]|apply isolating_refl].
Qed.
Lemma isolating_receive c arg v V empty o V' : V c = Some v → spec_receive c arg v V empty = Ok (o, V') → isolating c V V'.
Proof.
  intros Hv. unfold spec_receive. destruct (last (pv_mail v)) as [msg|] eqn:Hl; intros [= _ <-]; [|apply isolating_refl].
  apply isolating_own. intros w. cbn [pv_set_mem pv_set_mail pv_mail]. induction (pv_mail w) as [|x [|z l] IH]; cbn in *; lia.
Qed.
Lemma isolating_call limit c id arg V o V' : 0 ≤ c < 0x10000000000000000 → spec_call limit c id arg V = Ok (o, V') → isolating c V V'.
Proof.
  intros Hc. unfold spec_call. destruct (V c) as [v|] eqn:Hv; [|done]. repeat case_decide.
  - by apply isolating_send.
  - by apply isolating_receive.
  - by apply isolating_receive.
  - unfold spec_log. destruct (mem_bytes limit (pv_mem v) arg); [|done]. intros [= _ <-]. apply isolating_refl.
  - intros [= _ <-]. apply isolating_own. intros w. cbn. lia.
  - intros [= _ <-]. apply isolating_refl.
  - done.
Qed.
Lemma isolating_perform limit c {X} (e : userE X) V a V' : 0 ≤ c < 0x10000000000000000 → spec_perform limit c e V = Ok (a, V') → isolating c V V'.
Proof.
  intros Hc. unfold spec_perform. destruct (V c) as [v|] eqn:Hv; [|done]. destruct e as [id arg|p|f|f].
  - destruct (spec_call limit c id arg V) as [[o V1]|] eqn:Hcall; [|done]. intros [= _ <-]. by eapply isolating_call.
  - intros [= _ <-]. apply isolating_refl.
  - intros [= _ <-]. apply isolating_own. intros w. cbn. lia.
  - done.
Qed.

(** ** A step of the machine *)

(** The lower half of an address space is the process's. *)
Definition USER_TOP : Z := 0x800000000000.

Section programs.
Context {K : Type} `{MailHeap K}.
Variables (stack : list Z) (limit : nat).
Hypothesis stack_length : List.length stack = 32%nat.
Implicit Types y : system K.
Notation current y := (current_pid (kn_sched (sy_kernel y))).

Definition any_step y y' : Prop := ∃ ev, system_step stack limit ev y y'.

(** The kernel is well formed, its own process waits for interrupts and no mailbox
    has more than [n] messages; the programs are arbitrary. *)
Record orderly (n : nat) y : Prop := {
  or_kernel : kernel_ok (sy_kernel y);
  or_flags : is_scheduler (kn_sched (sy_kernel y)) = true ∧ has_fault (sy_kernel y) = false;
  or_idle : ∃ v, view (sy_kernel y) 0 = Some v ∧ pv_state v = TASK_RUNNING;
  or_program : sy_program y 0 = Ret tt;
  or_mail i v : view (sy_kernel y) i = Some v → (List.length (pv_mail v) ≤ n)%nat
}.
Lemma running (k : kernel K) i v : view k i = Some v → pv_state v = TASK_RUNNING → runnable (kn_sched k) i = true.
Proof. unfold view, runnable. destruct (entry (kn_sched k) i); [|done]. intros [= <-] Hs. by apply bool_decide_true. Qed.

(** What a process may ask for so that its memory here, the lower half of its space,
    is all it concerns: neither the handlers of the system calls nor the tables of
    the kernel's heap keep it from addresses of the kernel's half, which is not
    part of the model. *)
Definition own_half {X} (e : userE X) : Prop :=
  match e with
  | Trap id arg => id ∈ [SYS_IPC_SEND; SYS_IPC_RCV_SYNC; SYS_IPC_RCV_ONESHOT; SYS_LOG] → 0 ≤ arg ∧ arg + SIZEOF_IPC ≤ USER_TOP
  | Read a => 0 ≤ a ∧ a + 8 ≤ USER_TOP
  | Write f => ∀ m x, USER_TOP ≤ x < 0x10000000000000000 → load8 (f m) x = load8 m x
  | Fault _ => True
  end.
Definition own_step (ev : event) y y' : Prop :=
  system_step stack limit ev y y' ∧
  (ev = Turn → ∀ X (e : userE X) k, observe (sy_program y (current y)) = VisF e k → own_half e).
Definition own_run : relation (system K) := λ y y', ∃ ev, own_step ev y y'.
Lemma own_any n y y' : nsteps own_run n y y' → nsteps any_step n y y'.
Proof. induction 1 as [|n y y1 y2 [ev [Hs _]] _ IH]; econstructor; [by exists ev|done]. Qed.

(** What the processes but the one that made the step see of it. *)
Definition aloof y y' : Prop :=
  isolating (current y) (view (sy_kernel y)) (view (sy_kernel y')) ∧ ∀ i, i ≠ current y → sy_program y' i = sy_program y i.

Lemma orderly_step n y k p out :
  orderly n y → kernel_ok k → is_scheduler (kn_sched k) = true ∧ has_fault k = false →
  (current y = 0 → ∀ i, view k i = view (sy_kernel y) i) → aloof y (mk_system k p out) → p 0 = Ret tt → orderly (S n) (mk_system k p out).
Proof.
  intros [_ _ (v & Hv & Hs) Hp Hm] Hk Hf Hz [Hiso Hal] Hp'. split; try done; cbn [sy_kernel sy_program] in *.
  - specialize (Hiso 0). rewrite Hv in Hiso. destruct (decide (current y = 0)) as [Hc|Hc]; [exists v; by rewrite Hz|].
    destruct (view k 0) as [w|]; [|done]. exists w. split; [done|]. destruct Hiso as [Hu _]. by rewrite (ut_state _ _ _ (Hu (not_eq_sym Hc))).
  - intros i w Hw. specialize (Hiso i). rewrite Hw in Hiso. destruct (view (sy_kernel y) i) as [u|] eqn:Hu; [|done].
    destruct Hiso as [_ Hl]. specialize (Hm i u Hu). lia.
Qed.

Lemma caller_bound (k : kernel K) : kernel_ok k → 0 ≤ current_pid (kn_sched k) < 0x10000000000000000.
Proof.
  intros Hok. pose proof (so_table _ (ko_sched _ Hok)) as Htab. pose proof (sk_current _ Htab). pose proof (sk_length _ Htab). lia.
Qed.
Lemma orderly_room n y {X} (e : userE X) : orderly n y → Z.of_nat n < MAIL_LIMIT → room_of (sy_kernel y) e.
Proof.
  intros Hy Hn. destruct e as [id arg| | |]; try done. intros Hid v w Hv Hw. pose proof (or_mail _ _ Hy _ _ Hw). lia.
Qed.

Lemma turn_aloof n r y y' : orderly n y → Z.of_nat n < MAIL_LIMIT → turn stack limit r y = Ok (tt, y') → orderly (S n) y' ∧ aloof y y'.
Proof.
  intros Hy Hn Hrun. pose proof Hy as [Hk Hf Hidle Hp Hm]. unfold turn in Hrun. set (c := current y) in *.
  assert (∀ t, c ≠ 0 → orderly (S n) (set_program c t y) ∧ aloof y (set_program c t y)) as Hown.
  { intros t Hc. assert (aloof y (set_program c t y)) as Hal.
    { split; [apply isolating_refl|]. intros i Hi. cbn. by rewrite decide_False. }
    split; [|done]. apply (orderly_step n y); try done. cbn. by rewrite decide_False. }
  unfold mbind, M_bind, gets in Hrun. cbn beta iota in Hrun. fold c in Hrun.
  destruct (decide (c = 0)) as [Hc|Hc].
  { rewrite Hc, Hp in Hrun. cbn in Hrun. injection Hrun as <-. split; [|split; [apply isolating_refl|done]].
    destruct y as [k p out]. apply (orderly_step n (mk_system k p out)); try done. split; [apply isolating_refl|done]. }
  destruct (observe (sy_program y c)) as [u|t|X e rest].
  - injection Hrun as <-. destruct y as [k p out]. assert (aloof (mk_system k p out) (mk_system k p out)) by (split; [apply isolating_refl|done]).
    split; [|done]. by apply (orderly_step n (mk_system k p out)).
  - injection Hrun as <-. by apply Hown.
  - pose proof (perform_refines stack limit stack_length e r _ Hk (orderly_room n y e Hy Hn)) as Href. cbv zeta in Href. fold c in Href.
    unfold on_the_kernel, zoom in Hrun.
    destruct (spec_perform limit c e (view (sy_kernel y))) as [[a V]|f] eqn:Hspec; [|by rewrite Href in Hrun].
    unfold runs in Href. destruct (perform stack limit r e (sy_kernel y)) as [[a' k]|f]; [|done].
    destruct Href as (-> & Hk' & [_ _ [Hsc Hfa] _] & HV & _).
    assert (isolating c (view (sy_kernel y)) (view k)) as Hiso.
    { intros i. rewrite HV. by apply (isolating_perform limit c e _ a V (caller_bound _ Hk) Hspec). }
    assert (∀ p out, (∀ i, i ≠ c → p i = sy_program y i) → orderly (S n) (mk_system k p out) ∧ aloof y (mk_system k p out)) as Hdone.
    { intros p out Hpo. split; [|by split]. apply (orderly_step n y); try done; [by rewrite Hsc, Hfa|]. rewrite Hpo by done. done. }
    assert (∀ t i, i ≠ c → (if decide (i = c) then t else sy_program y i) = sy_program y i) as Hown' by (intros t i Hi; by rewrite decide_False).
    destruct (prints e), a as [x| |]; injection Hrun as <-; (refine (Hdone _ _ _); [auto]).
Qed.

(** An interrupt changes nothing a process sees. *)
Lemma interrupt_aloof n depth now cr2 fr y :
  orderly n y → 32 ≤ fr intno < 48 →
  ∃ r k, interrupts_handler stack limit depth now cr2 fr (sy_kernel y) = Ok (Resume r, k) ∧ orderly n (set_kernel k y) ∧
    ∀ i, view k i = view (sy_kernel y) i.
Proof.
  intros [Hk [Hsc Hf] (v & Hv & Hs) Hp Hm] Hfr.
  assert (∀ k, kernel_ok k → is_scheduler (kn_sched k) = true ∧ has_fault k = false → (∀ i, view k i = view (sy_kernel y) i) → orderly n (set_kernel k y)) as Hdone.
  { intros k Hk' Hf' HV. split; try done; [exists v; split; [exact (eq_trans (HV 0) Hv)|done]|]. intros i w Hw. apply (Hm i w). by rewrite <- HV. }
  destruct (decide (fr intno = 32)) as [H32|H32].
  - pose proof (running _ _ _ Hv Hs) as Hr. assert (0 ≤ 0 < table_length (kn_sched (sy_kernel y))) as Hb.
    { split; [done|]. apply (sk_length _ (so_table _ (ko_sched _ Hk))). }
    destruct (timer_run stack limit depth now cr2 fr _ 0 Hk Hsc Hf H32 Hb Hr) as (r & k & Hi & [Hk' HV (Hs' & Hf' & _) _ _]).
    exists r, k. split; [done|]. split; [|done]. by apply Hdone.
  - destruct (irq_run stack limit depth now cr2 fr _ Hk Hf ltac:(lia)) as (l & Hi & Hk'). exists fr, (set_eoi l (sy_kernel y)).
    split; [done|]. split; [|done]. by apply Hdone.
Qed.

(** What a step lets a process see that did not make it. *)
Definition isolated_step (ev : event) y y' : Prop :=
  ∀ i v, (ev = Turn → i ≠ current y) → view (sy_kernel y) i = Some v →
    ∃ v', view (sy_kernel y') i = Some v' ∧ untouched (current y) v v' ∧ sy_program y' i = sy_program y i.
Lemma step_orderly n ev y y' :
  orderly n y → Z.of_nat n < MAIL_LIMIT → system_step stack limit ev y y' → orderly (S n) y' ∧ isolated_step ev y y'.
Proof.
  intros Hy Hn Hstep. inversion Hstep as [r ? ? Ht|depth now cr2 fr r k ? Hfr Hi]; subst.
  - destruct (turn_aloof n r y y' Hy Hn Ht) as [Hy' [Hiso Hal]]. split; [done|]. intros i v Hne Hv. specialize (Hiso i). rewrite Hv in Hiso.
    destruct (view (sy_kernel y') i) as [v'|]; [|done]. exists v'. split; [done|]. split; [by apply Hiso, Hne|]. by apply Hal, Hne.
  - destruct (interrupt_aloof n depth now cr2 fr y Hy Hfr) as (r' & k' & Hi' & Hy' & HV). rewrite Hi in Hi'. injection Hi' as <- <-. split.
    + destruct Hy' as [Hk Hf Hz Hp Hm]. split; try done. intros i v Hv. pose proof (Hm i v Hv). lia.
    + intros i v _ Hv. exists v. split; [by rewrite HV|]. split; [apply untouched_refl|done].
Qed.
Lemma orderly_steps m n y0 y : orderly m y0 → nsteps any_step n y0 y → Z.of_nat (m + n) ≤ MAIL_LIMIT → orderly (m + n) y.
Proof.
  intros Hy Hr. revert m Hy. induction Hr as [y|n y y1 y2 [ev Hs] _ IH]; intros m Hy Hn; [by rewrite Nat.add_0_r|].
  rewrite Nat.add_succ_r, <- Nat.add_succ_l. apply IH; [|lia]. by eapply step_orderly; [| |exact Hs]; [|lia].
Qed.

End programs.
