(* ===== verification/TestIpc.v ===== *)
(** The test program on the kernel: three processes made from one image send and
    receive two messages.  Whatever the interleaving, each receiver prints its
    line with the sender's pid and the value, and under interrupts that keep
    coming all three end. *)
From ITree Require Import ITree ITreeFacts.
From S2P Require Import Prelude Machine CString Fmt Services Vec Sched Process Kernel Syscall Devices Interrupt Ipc User.
From Stdlib Require Import Strings.String.

(** ** The programs as a machine of stages *)

Inductive stage : Type :=
| Begin                          (** about to call [getpid] *)
| Wait1                          (** [ipc_rcv_sync] *)
| Zero                           (** [ipc_t msg = {0}] *)
| Test (got : bool)              (** [msg.sender == 0]; [got]: a message is there *)
| Poll                           (** [ipc_rcv_oneshot] *)
| Back (got : bool)              (** back to the test *)
| Sender | Data | Name           (** the arguments of [log] *)
| Put (l : list (list Z))        (** the strings left to print; then [exit] *)
| Say (s : list Z) (l : list (list Z))
| Init1 | Init2 | Send1 | Send2
| Stopped.

Definition message (i : Z) : ipc_t := if i =? 1 then mk_ipc 3 1 0xdeadbeef else mk_ipc 3 2 0xcafebabe.
Definition draft (i : Z) : ipc_t := if i =? 1 then mk_ipc 0 1 0xdeadbeef else mk_ipc 0 2 0xcafebabe.
Definition log_line (i : Z) : Z := if i =? 1 then 27 else 34.
Definition log_format (i : Z) : string := if i =? 1 then "Got IPC from {} with value {x}"%string else "Got IPC ONESHOT from {} with value {x}"%string.

(** What a format prints, as strings passed to [sys_log]. *)
Definition outputs (stack : list Z) (format : charp) (args : fmt_args) : list (list Z) :=
  match PRINT_FORMAT collect stack format args [] with Ok (_, out) => out | Err _ => [] end.
Definition blank : list Z := replicate 32 0.
Definition line_strings (i : Z) : list (list Z) :=
  outputs blank (lit (ESC ++ "[92m({}) {}:{}" ++ ESC ++ "[0m ")%string) [fmtvald i; fmtvals (lit "main.c"); fmtvald (log_line i)] ++
  outputs blank (lit (log_format i)) [fmtvald 3; fmtvald (data (message i))] ++ [chars NL].
(** The line process [i] is to print. *)
Definition line_text (i : Z) : list Z :=
  if i =? 1 then chars (ESC ++ "[92m(1) main.c:27" ++ ESC ++ "[0m Got IPC from 3 with value deadbeef" ++ NL)%string
  else if i =? 2 then chars (ESC ++ "[92m(2) main.c:34" ++ ESC ++ "[0m Got IPC ONESHOT from 3 with value cafebabe" ++ NL)%string
  else [].
Lemma line_text_strings i : 1 ≤ i ≤ 2 → line_text i = mjoin (line_strings i).
Proof. intros Hi. assert (i = 1 ∨ i = 2) as [-> | ->] by lia; vm_compute; reflexivity. Qed.

Section test.
Variable ly : layout.
Hypothesis stack_length : List.length (ly_stack ly) = 32%nat.
Notation msg := (ly_msg ly).
Notation msg2 := (ly_msg2 ly).

Definition finish : user unit := u_exit 0 ≫= λ _, mret tt.
Definition then_finish (t : user unit) : user unit := t ≫= λ _, finish.
Definition print_message (i d : Z) : user unit :=
  log_impl_userspace ly (lit "main.c") (log_line i) (lit (log_format i)) [fmtvald 3; fmtvald d].
(** What is left of the program of process [i]. *)
Definition tree (i : Z) (st : stage) : user unit :=
  let loop := ITree.iter (poll ly) tt ≫= λ _, then_finish (log_message ly (log_line i) (log_format i)) in
  match st with
  | Begin => start ly
  | Wait1 => then_finish (receiver ly)
  | Zero => then_finish (receiver_oneshot ly)
  | Test _ => loop
  | Poll => u_ipc_rcv_oneshot msg ≫= λ _, Tau loop
  | Back _ => Tau loop
  | Sender => then_finish (log_message ly (log_line i) (log_format i))
  | Data => u_read (msg + 16) ≫= λ d, then_finish (print_message i d)
  | Name => then_finish (print_message i (data (message i)))
  | Put l => then_finish (emit ly l)
  | Say s l => u_trap SYS_LOG (ly_buffer ly) ≫= λ _, then_finish (emit ly l)
  | Init1 => then_finish (sender ly)
  | Init2 => u_write (store_ipc msg2 (draft 2)) ≫= λ _, u_ipc_send msg ≫= λ _, u_ipc_send msg2 ≫= λ _, finish
  | Send1 => u_ipc_send msg ≫= λ _, u_ipc_send msg2 ≫= λ _, finish
  | Send2 => u_ipc_send msg2 ≫= λ _, finish
  | Stopped => mret tt
  end.

(** The next event and what comes after it. *)
Lemma then_bind {A} (t : user A) (f : A → user unit) : then_finish (t ≫= f) ≅ t ≫= λ x, then_finish (f x).
Proof. unfold then_finish, mbind, user_bind. apply bind_bind. Qed.
Lemma trigger_step {X} (e : userE X) (f : X → user unit) : ITree.trigger e ≫= f ≅ Vis e f.
Proof. unfold mbind, user_bind. rewrite bind_trigger. reflexivity. Qed.
Lemma finish_step : finish ≅ Vis (Trap SYS_EXIT 0) (λ _, mret tt).
Proof. apply trigger_step. Qed.
Lemma tree_Wait1 : tree 1 Wait1 ≅ Vis (Trap SYS_IPC_RCV_SYNC msg) (λ _, tree 1 Sender).
Proof. unfold tree, receiver. rewrite then_bind. apply trigger_step. Qed.
Lemma tree_Zero : tree 2 Zero ≅ Vis (Write (store_ipc msg (mk_ipc 0 0 0))) (λ _, tree 2 (Test false)).
Proof.
  unfold tree, receiver_oneshot. etrans; [apply then_bind|]. etrans; [apply trigger_step|]. apply eqit_Vis. intros _. apply then_bind.
Qed.
Lemma tree_Test i b : tree i (Test b) ≅ Vis (Read msg) (λ s, if (s =? 0)%Z then tree i Poll else tree i Sender).
Proof.
  unfold tree. cbv zeta. unfold mbind at 1, user_bind at 1. rewrite unfold_iter, bind_bind. unfold poll at 1, u_read at 1.
  unfold mbind at 1, user_bind at 1. rewrite bind_bind, bind_trigger. apply eqit_Vis. intros s. destruct (s =? 0)%Z.
  - unfold u_ipc_rcv_oneshot, u_trap. unfold mbind at 1, user_bind at 1. rewrite bind_bind, trigger_step, bind_trigger.
    apply eqit_Vis. intros _. unfold mret, user_ret. rewrite !bind_ret_l, bind_tau. reflexivity.
  - unfold mret, user_ret. rewrite !bind_ret_l. reflexivity.
Qed.
Lemma tree_Poll i b : tree i Poll ≅ Vis (Trap SYS_IPC_RCV_ONESHOT msg) (λ _, tree i (Back b)).
Proof. apply trigger_step. Qed.
Lemma tree_Sender i : tree i Sender ≅ Vis (Read msg) (λ s, u_read (msg + 16) ≫= λ d,
  then_finish (log_impl_userspace ly (lit "main.c") (log_line i) (lit (log_format i)) [fmtvald s; fmtvald d])).
Proof. unfold tree, log_message. etrans; [apply then_bind|]. etrans; [apply trigger_step|]. apply eqit_Vis. intros s. apply then_bind. Qed.
Lemma tree_Data i : tree i Data ≅ Vis (Read (msg + 16)) (λ d, then_finish (print_message i d)).
Proof. apply trigger_step. Qed.

(** Printing is printing the strings. *)
Lemma emit_app l1 l2 (f : user unit) : emit ly (l1 ++ l2) ≫= (λ _, f) ≅ emit ly l1 ≫= λ _, emit ly l2 ≫= λ _, f.
Proof.
  unfold mbind, user_bind. induction l1 as [|s l1 IH]; cbn [app emit].
  - unfold mret, user_ret. by rewrite bind_ret_l.
  - unfold mbind, user_bind. rewrite !bind_bind. apply eqit_bind; [reflexivity|]. intros _. exact IH.
Qed.
Lemma outputs_blank format args :
  (∀ l, List.length l = 32%nat → PRINT_FORMAT collect l format args [] = Ok (tt, outputs blank format args)) →
  u_print ly format args = emit ly (outputs blank format args).
Proof. intros Ho. unfold u_print. by rewrite Ho. Qed.
Ltac any_stack := intros l Hl; do 32 (destruct l as [|? l]; [discriminate Hl|]); destruct l; [vm_compute; reflexivity|discriminate Hl].
Lemma tree_Name i : 1 ≤ i ≤ 2 → ∃ f, tree i Name ≅ Vis (Trap SYS_GETPID 0) f ∧ f i ≅ tree i (Put (line_strings i)).
Proof.
  intros Hi. eexists. split.
  - unfold tree, print_message, log_impl_userspace. rewrite then_bind. apply trigger_step.
  - cbn beta. unfold tree, line_strings. assert (i = 1 ∨ i = 2) as [-> | ->] by lia.
    all: rewrite (outputs_blank (lit (ESC ++ _)%string)) by any_stack; rewrite (outputs_blank (lit (log_format _))) by any_stack.
    all: rewrite then_bind; unfold then_finish; rewrite emit_app; apply eqit_bind; [reflexivity|intros _].
    all: rewrite emit_app; unfold mbind, user_bind; rewrite bind_bind; reflexivity.
Qed.
Lemma tree_exit i : tree i (Put []) ≅ Vis (Trap SYS_EXIT 0) (λ _, mret tt).
Proof. unfold tree, then_finish, emit, mbind, user_bind, mret, user_ret. rewrite bind_ret_l. apply finish_step. Qed.
Lemma tree_Put i s l : tree i (Put (s :: l)) ≅ Vis (Write (store_string (ly_buffer ly) s)) (λ _, tree i (Say s l)).
Proof.
  unfold tree. cbn [emit]. rewrite then_bind. unfold u_sys_log, mbind, user_bind. rewrite bind_bind. apply trigger_step.
Qed.
Lemma tree_Say i s l : tree i (Say s l) ≅ Vis (Trap SYS_LOG (ly_buffer ly)) (λ _, tree i (Put l)).
Proof. apply trigger_step. Qed.

Definition first_stage (i : Z) : stage := if i =? 1 then Wait1 else if i =? 2 then Zero else Init1.
Lemma tree_Begin i : 1 ≤ i ≤ 3 → ∃ f, tree i Begin ≅ Vis (Trap SYS_GETPID 0) f ∧ f i ≅ tree i (first_stage i).
Proof.
  intros Hi. assert (∀ t : user unit, (t ≫= λ _, mret 0) ≫= (λ ex, u_exit ex ≫= λ _, mret tt) ≅ then_finish t) as Hend.
  { intros t. unfold then_finish, finish, mbind, user_bind, mret, user_ret. rewrite bind_bind. apply eqit_bind; [reflexivity|].
    intros _. rewrite bind_ret_l. reflexivity. }
  eexists. split.
  - unfold tree, start, main. etrans; [apply bind_bind|]. apply trigger_step.
  - cbn beta. etrans; [apply Hend|]. assert (i = 1 ∨ i = 2 ∨ i = 3) as [-> |[-> | ->]] by lia; reflexivity.
Qed.
Lemma tree_Init1 : tree 3 Init1 ≅ Vis (Write (store_ipc msg (draft 1))) (λ _, tree 3 Init2).
Proof.
  unfold tree, sender. etrans; [apply then_bind|]. etrans; [apply trigger_step|]. apply eqit_Vis. intros _.
  etrans; [apply then_bind|]. apply eqit_bind; [reflexivity|]. intros _.
  etrans; [apply then_bind|]. apply eqit_bind; [reflexivity|]. intros _.
  etrans; [apply then_bind|]. apply eqit_bind; [reflexivity|]. intros _.
  unfold then_finish, mbind, user_bind, mret, user_ret. by rewrite bind_ret_l.
Qed.
Lemma tree_Init2 : tree 3 Init2 ≅ Vis (Write (store_ipc msg2 (draft 2))) (λ _, tree 3 Send1).
Proof. apply trigger_step. Qed.
Lemma tree_Send1 : tree 3 Send1 ≅ Vis (Trap SYS_IPC_SEND msg) (λ _, tree 3 Send2).
Proof. apply trigger_step. Qed.
Lemma tree_Send2 : tree 3 Send2 ≅ Vis (Trap SYS_IPC_SEND msg2) (λ _, tree 3 (Put [])).
Proof.
  etrans; [apply trigger_step|]. apply eqit_Vis. intros _. unfold tree, then_finish, emit, mbind, user_bind, mret, user_ret.
  by rewrite bind_ret_l.
Qed.
End test.
