(* ===== verification/TestRun.v ===== *)
(** The three processes of pkg/test/main.c on the kernel: the invariant of their
    interleavings, what they print and that they end. *)
From ITree Require Import ITree ITreeFacts.
From S2P Require Import Prelude Machine CString Range FrameAllocator Fmt Services Vec Sched Process Kernel Syscall Devices Interrupt Ipc User Isolation TestIpc.

(** ** Strings of a user program *)

Lemma store_string_ne a s m x : block_ok a (Z.of_nat (List.length s) + 1) → 0 ≤ x < 0x10000000000000000 → x < a → load8 (store_string a s m) x = load8 m x.
Proof.
  revert a m. induction s as [|c s IH]; intros a m (Ha & Hn & He) Hx Hlt; cbn [store_string List.length] in *.
  - rewrite load8_store8 by lia. destruct (Z.eqb_spec x a); [lia|done].
  - rewrite IH by (unfold block_ok in *; lia). rewrite load8_store8 by lia. destruct (Z.eqb_spec x a); [lia|done].
Qed.
Lemma mem_bytes_stored n a s m :
  Forall is_char s → (List.length s ≤ n)%nat → block_ok a (Z.of_nat (List.length s) + 1) → mem_bytes n (store_string a s m) a = Ok s.
Proof.
  intros Hs. revert n a m. induction Hs as [|c s Hc Hs IH]; intros n a m Hn Hb; pose proof Hb as (Ha & _ & He); cbn [store_string List.length] in *.
  - assert (load8 (store8 a 0 m) a = 0) as Hz by apply load8_store8_eq. destruct n; cbn [mem_bytes]; by rewrite Hz.
  - destruct n as [|n]; [lia|]. cbn [mem_bytes]. rewrite store_string_ne by (unfold block_ok; lia).
    rewrite load8_store8_eq. unfold is_char in Hc. rewrite u8_small by lia. rewrite (proj2 (Z.eqb_neq c 0)) by lia.
    rewrite IH by (unfold block_ok in *; lia). done.
Qed.

(** ** The stages of the three processes and the machine *)

Definition received (st : stage) : bool :=
  match st with Begin | Wait1 | Zero | Test false | Poll | Back false => false | _ => true end.
Definition sends (st : stage) : Z := match st with Begin | Init1 | Init2 | Send1 => 0 | Send2 => 1 | _ => 2 end.
Definition is_stopped (st : stage) : bool := match st with Stopped => true | _ => false end.
(** What the process is still to print. *)
Definition rest (i : Z) (st : stage) : list Z :=
  match st with Put l => mjoin l | Say s l => s ++ mjoin l | Stopped => [] | _ => line_text i end.
Definition belongs (i : Z) (st : stage) : bool :=
  match st with
  | Begin | Stopped | Put [] => true
  | Wait1 => i =? 1
  | Zero | Test _ | Poll | Back _ => i =? 2
  | Sender | Data | Name | Put _ | Say _ _ => i <=? 2
  | Init1 | Init2 | Send1 | Send2 => i =? 3
  end.
Definition mail_of_stage (i : Z) (st3 st : stage) : list ipc_t := if (i <=? sends st3) && negb (received st) then [message i] else [].

Definition string_ok (s : list Z) : Prop := Forall is_char s ∧ (List.length s ≤ 63)%nat.

Section stages.
Variables (ly : layout) (limit : nat).
Notation msg := (ly_msg ly).
Notation msg2 := (ly_msg2 ly).

(** The locals do not overlap and the strings are short enough for the kernel. *)
Record layout_ok : Prop := {
  lo_stack : List.length (ly_stack ly) = 32%nat;
  lo_limit : (63 ≤ limit)%nat;
  lo_msg : block_ok msg SIZEOF_IPC;
  lo_msg2 : block_ok msg2 SIZEOF_IPC;
  lo_apart : blocks_disjoint msg SIZEOF_IPC msg2 SIZEOF_IPC;
  lo_buffer : block_ok (ly_buffer ly) 64
}.

(** What the memory of process [i] holds at a stage. *)
Definition holds (i : Z) (st : stage) (m : memory) : Prop :=
  match st with
  | Test b | Back b => load_ipc m msg = if b then message 2 else mk_ipc 0 0 0
  | Poll => load_ipc m msg = mk_ipc 0 0 0
  | Sender | Data => load_ipc m msg = message i
  | Put l => Forall string_ok l
  | Say s l => mem_bytes limit m (ly_buffer ly) = Ok s ∧ Forall string_ok l
  | Init2 => load_ipc m msg = draft 1
  | Send1 => load_ipc m msg = draft 1 ∧ load_ipc m msg2 = draft 2
  | Send2 => load_ipc m msg2 = draft 2
  | _ => True
  end.
Record user_good (i : Z) (st3 st : stage) (v : pview) : Prop := {
  ug_belongs : belongs i st = true;
  ug_state : pv_state v = if is_stopped st then TASK_WAITINGFORDEATH else TASK_RUNNING;
  ug_mail : pv_mail v = mail_of_stage i st3 st;
  ug_memory : holds i st (pv_mem v)
}.
Record good (st : Z → stage) (V : views) : Prop := {
  gd_zero : ∃ v, V 0 = Some v ∧ pv_state v = TASK_RUNNING;
  gd_user i : 1 ≤ i ≤ 3 → ∃ v, V i = Some v ∧ user_good i (st 3) (st i) v;
  gd_order i : 1 ≤ i ≤ 2 → received (st i) = true → i ≤ sends (st 3)
}.
Definition set_stage (c : Z) (n : stage) (st : Z → stage) : Z → stage := λ j, if decide (j = c) then n else st j.

Lemma good_ext st V V' : (∀ i, V' i = V i) → good st V → good st V'.
Proof. intros He [Hz Hu Ho]. split; try done; [by rewrite He|]. intros i Hi. rewrite He. by apply Hu. Qed.

Lemma sends_bound st : 0 ≤ sends st ≤ 2.
Proof. by destruct st. Qed.
Lemma mail_three st3 st : mail_of_stage 3 st3 st = [].
Proof. unfold mail_of_stage. pose proof (sends_bound st3). by rewrite (proj2 (Z.leb_gt _ _)) by lia. Qed.

(** A process goes on by itself. *)
Lemma good_move st V c n f :
  good st V → 1 ≤ c ≤ 3 → belongs c n = true → (c ≤ 2 → received n = received (st c)) → (c = 3 → sends n = sends (st 3)) →
  (∀ v, V c = Some v → pv_state (f v) = (if is_stopped n then TASK_WAITINGFORDEATH else TASK_RUNNING) ∧ pv_mail (f v) = pv_mail v ∧ holds c n (pv_mem (f v))) →
  good (set_stage c n st) (view_at c f V).
Proof.
  intros [Hz Hu Ho] Hc Hb Hr Hs Hf. unfold set_stage, view_at.
  assert (sends (if decide (3 = c) then n else st 3) = sends (st 3)) as Hsnd by (case_decide; [by apply Hs|done]).
  split.
  - rewrite decide_False by lia. exact Hz.
  - intros i Hi. destruct (Hu i Hi) as (v & Hv & [Hvb Hvs Hvm Hvh]). destruct (decide (i = c)) as [->|Hne].
    + rewrite Hv. exists (f v). split; [done|]. destruct (Hf v Hv) as (Hf1 & Hf2 & Hf3). split; try done.
      rewrite Hf2, Hvm. unfold mail_of_stage. rewrite Hsnd. destruct (decide (c ≤ 2)) as [Hc2|]; [by rewrite Hr|].
      assert (c = 3) as -> by lia. pose proof (sends_bound (st 3)). by rewrite (proj2 (Z.leb_gt _ _)) by lia.
    + exists v. split; [done|]. split; try done. rewrite Hvm. unfold mail_of_stage. by rewrite Hsnd.
  - intros i Hi. rewrite Hsnd. destruct (decide (i = c)) as [->|]; [rewrite Hr by lia|]; by apply Ho.
Qed.
Lemma good_stay st V c n :
  good st V → 1 ≤ c ≤ 3 → belongs c n = true → (c ≤ 2 → received n = received (st c)) → (c = 3 → sends n = sends (st 3)) →
  is_stopped n = false → is_stopped (st c) = false → (∀ v, V c = Some v → holds c n (pv_mem v)) → good (set_stage c n st) V.
Proof.
  intros Hg Hc Hb Hr Hs Hn Hnc Hf. apply (good_ext _ (view_at c id V)).
  { intros i. unfold view_at. case_decide; [|done]. by destruct (V i). }
  apply good_move; try done. unfold id. intros v Hv. split; [|split; [done|by apply Hf]]. rewrite Hn.
  destruct (gd_user _ _ Hg c Hc) as (v' & Hv' & Hu). assert (v' = v) as -> by congruence. by rewrite (ug_state _ _ _ _ Hu), Hnc.
Qed.
(** A process takes its message. *)
Lemma good_receive st V c n f :
  good st V → 1 ≤ c ≤ 2 → belongs c n = true → received n = true → is_stopped n = false → c ≤ sends (st 3) →
  (∀ v, V c = Some v → pv_state (f v) = TASK_RUNNING ∧ pv_mail (f v) = [] ∧ holds c n (pv_mem (f v))) →
  good (set_stage c n st) (view_at c f V).
Proof.
  intros [Hz Hu Ho] Hc Hb Hr Hst Hle Hf. unfold set_stage, view_at.
  assert ((if decide (3 = c) then n else st 3) = st 3) as H3 by (by rewrite decide_False by lia). split.
  - rewrite decide_False by lia. exact Hz.
  - intros i Hi. destruct (Hu i Hi) as (v & Hv & Hug). destruct (decide (i = c)) as [->|Hne]; [|exists v; by rewrite H3].
    rewrite Hv. exists (f v). split; [done|]. destruct (Hf v Hv) as (Hf1 & Hf2 & Hf3). split; try done; [by rewrite Hst|].
    rewrite Hf2. unfold mail_of_stage. by rewrite Hr, andb_false_r.
  - intros i Hi. rewrite H3. destruct (decide (i = c)) as [->|]; [done|by apply Ho].
Qed.
(** The sender puts a message in the mailbox of [i]. *)
Lemma good_send st V i n f :
  good st V → 1 ≤ i ≤ 2 → belongs 3 n = true → is_stopped n = false → sends (st 3) = i - 1 → sends n = i →
  (∀ v, V 3 = Some v → pv_state (f v) = TASK_RUNNING ∧ pv_mail (f v) = pv_mail v ∧ holds 3 n (pv_mem (f v))) →
  good (set_stage 3 n st) (view_at i (pv_set_mail [message i]) (view_at 3 f V)).
Proof.
  intros [Hz Hu Ho] Hi Hb Hst Hs Hn Hf. unfold set_stage, view_at.
  assert ((if decide (3 = 3) then n else st 3) = n) as H3 by done. split.
  - rewrite !decide_False by lia. exact Hz.
  - intros j Hj. rewrite H3. destruct (Hu j Hj) as (v & Hv & [Hvb Hvs Hvm Hvh]). destruct (decide (j = i)) as [->|Hne].
    + rewrite !decide_False, Hv by lia. eexists. split; [done|]. split; try done. cbn [pv_mail pv_set_mail]. unfold mail_of_stage.
      rewrite Hn, Z.leb_refl. destruct (received (st i)) eqn:Hr; [|done]. specialize (Ho i Hi Hr). lia.
    + destruct (decide (j = 3)) as [->|Hn3].
      * rewrite Hv. exists (f v). split; [done|]. destruct (Hf v Hv) as (Hf1 & Hf2 & Hf3). split; try done; [by rewrite Hst|].
        rewrite Hf2, Hvm. by rewrite !mail_three.
      * exists v. split; [done|]. split; try done. rewrite Hvm. unfold mail_of_stage. rewrite Hn, Hs.
        assert ((j <=? i) = (j <=? i - 1)) as ->; [|done]. destruct (Z.leb_spec j i), (Z.leb_spec j (i - 1)); lia.
  - intros j Hj. rewrite H3, decide_False, Hn by lia. intros Hr. specialize (Ho j Hj Hr). lia.
Qed.

(** Events left, at most, for a receiver whose message is there. *)
Definition size (i : Z) (st : stage) : nat :=
  let line := (2 * List.length (line_strings i))%nat in
  match st with
  | Stopped => 0 | Put l => 2 * List.length l + 1 | Say _ l => 2 * List.length l + 2
  | Name => line + 2 | Data => line + 3 | Sender => line + 4
  | Test true => line + 5 | Back true => line + 6 | Poll => line + 7 | Test false => line + 8 | Back false => line + 9
  | Wait1 => line + 9 | Zero => line + 10
  | Send2 => 2 | Send1 => 3 | Init2 => 4 | Init1 => 5
  | Begin => line + 11
  end.

(** Process [c] reaches stage [n], having printed [out]. *)
Record goes (st : Z → stage) (c : Z) (n : stage) (out : list Z) (V' : views) : Prop := {
  go_good : good (set_stage c n st) V';
  go_rest : rest c (st c) = out ++ rest c n;
  go_size : (size c n < size c (st c))%nat ∨ c ≤ 2 ∧ sends (st 3) < c
}.
Record event_step (st : Z → stage) (V : views) (c : Z) {X} (e : userE X) (k : X → user unit) (a : reply X) (V' : views) (n : stage) (out : list Z) : Prop := {
  ev_tree : tree ly c (st c) ≅ Vis e k;
  ev_spec : spec_perform limit c e V = Ok (a, V');
  ev_goes : goes st c n out V';
  ev_next : match a with Answer x => k x ≅ tree ly c n | Again => n = st c | Never => n = Stopped end;
  ev_out : if prints e then ∀ l v, V c = Some v → said limit e (pv_mem v) l → l = out else out = [];
  ev_room : match e with
    | Trap id arg => id = SYS_IPC_SEND → c = 3 ∧ ∀ v y, V c = Some v → V (Sched.receiver (load_ipc (stamp c arg v) arg)) = Some y → Z.of_nat (List.length (pv_mail y)) < MAIL_LIMIT
    | _ => True
    end
}.
Definition steps (st : Z → stage) (V : views) (c : Z) : Prop :=
  ∃ X (e : userE X) k a V' n out, event_step st V c e k a V' n out.

Hypothesis Hly : layout_ok.
Variables (st : Z → stage) (V : views) (c : Z) (v : pview).
Hypotheses (Hgood : good st V) (Hc : 1 ≤ c ≤ 3) (Hv : V c = Some v) (Hug : user_good c (st 3) (st c) v).

Lemma spec_trap id arg o V' : spec_call limit c id arg V = Ok (o, V') →
  spec_perform limit c (Trap id arg) V = Ok (match o with Return v => Answer v | Wait => Again | Stop => Never end, V').
Proof. intros Hs. unfold spec_perform. by rewrite Hv, Hs. Qed.

(** [getpid] *)
Lemma steps_getpid n f :
  tree ly c (st c) ≅ Vis (Trap SYS_GETPID 0) f → f c ≅ tree ly c n → goes st c n [] V → steps st V c.
Proof.
  intros Ht Hf Hg. exists Z, (Trap SYS_GETPID 0), f, (Answer c), V, n, []. split; try done.
  unfold spec_perform, spec_call. by rewrite Hv.
Qed.
Lemma steps_read a n f :
  tree ly c (st c) ≅ Vis (Read a) f → f (load64 (pv_mem v) a) ≅ tree ly c n → goes st c n [] V → steps st V c.
Proof.
  intros Ht Hf Hg. exists Z, (Read a), f, (Answer (load64 (pv_mem v) a)), V, n, []. split; try done. unfold spec_perform. by rewrite Hv.
Qed.
Lemma steps_write g n :
  tree ly c (st c) ≅ Vis (Write g) (λ _, tree ly c n) → goes st c n [] (view_at c (pv_set_mem (g (pv_mem v))) V) → steps st V c.
Proof.
  intros Ht Hg. exists unit, (Write g), (λ _, tree ly c n), (Answer tt), (view_at c (pv_set_mem (g (pv_mem v))) V), n, []. split; try done.
  unfold spec_perform. by rewrite Hv.
Qed.

(** Going on without a message, the memory being unchanged or rewritten. *)
Lemma goes_stay n :
  belongs c n = true → (c ≤ 2 → received n = received (st c)) → (c = 3 → sends n = sends (st 3)) →
  is_stopped n = false → is_stopped (st c) = false → holds c n (pv_mem v) → rest c (st c) = rest c n →
  (size c n < size c (st c))%nat ∨ c ≤ 2 ∧ sends (st 3) < c → goes st c n [] V.
Proof. intros. split; try done. apply good_stay; try done. intros w Hw. by assert (w = v) as -> by congruence. Qed.
Lemma goes_write n m :
  belongs c n = true → (c ≤ 2 → received n = received (st c)) → (c = 3 → sends n = sends (st 3)) →
  is_stopped n = false → is_stopped (st c) = false → holds c n m → rest c (st c) = rest c n → (size c n < size c (st c))%nat →
  goes st c n [] (view_at c (pv_set_mem m) V).
Proof.
  intros. split; try done; [|by left]. apply good_move; try done. intros w Hw. assert (w = v) as -> by congruence.
  split; [|done]. cbn. rewrite (ug_state _ _ _ _ Hug). by repeat case_match.
Qed.
End stages.

(** ** Every stage takes its step *)

Lemma load_ipc_ne m a b v : block_ok a SIZEOF_IPC → block_ok b SIZEOF_IPC → blocks_disjoint a SIZEOF_IPC b SIZEOF_IPC → load_ipc (store64 b v m) a = load_ipc m a.
Proof. unfold block_ok, blocks_disjoint, SIZEOF_IPC. intros. unfold load_ipc. by rewrite !load64_store64_ne by (unfold block_ok, blocks_disjoint; lia). Qed.
Lemma load_store_ipc_ne m a b v : block_ok a SIZEOF_IPC → block_ok b SIZEOF_IPC → blocks_disjoint a SIZEOF_IPC b SIZEOF_IPC → load_ipc (store_ipc b v m) a = load_ipc m a.
Proof. unfold block_ok, blocks_disjoint, SIZEOF_IPC. intros. unfold load_ipc, store_ipc. by rewrite !load64_store64_ne by (unfold block_ok, blocks_disjoint; lia). Qed.

#[export] Instance string_ok_decision s : Decision (string_ok s).
Proof. unfold string_ok, is_char. apply _. Defined.
Lemma line_strings_ok i : 1 ≤ i ≤ 2 → Forall string_ok (line_strings i).
Proof. intros Hi. assert (i = 1 ∨ i = 2) as [-> | ->] by lia; apply (bool_decide_unpack _); vm_compute; exact I. Qed.

Section step.
Context (ly : layout) (limit : nat) (Hly : layout_ok ly limit) (st : Z → stage) (V : views) (Hgood : good ly limit st V).
Notation msg := (ly_msg ly).
Notation msg2 := (ly_msg2 ly).
Notation user_good := (user_good ly limit).
Notation steps := (steps ly limit).
Notation goes := (goes ly limit).

(** The message is there. *)
Lemma steps_take c v id n :
  1 ≤ c ≤ 2 → V c = Some v → user_good c (st 3) (st c) v → received (st c) = false → c ≤ sends (st 3) →
  id = SYS_IPC_RCV_SYNC ∨ id = SYS_IPC_RCV_ONESHOT → tree ly c (st c) ≅ Vis (Trap id msg) (λ _, tree ly c n) →
  belongs c n = true → received n = true → is_stopped n = false → (size c n < size c (st c))%nat → rest c (st c) = rest c n →
  (∀ m, load_ipc m msg = message c → holds ly limit c n m) → steps st V c.
Proof.
  intros Hc Hv Hug Hr Hle Hid Ht Hb Hrn Hs Hsz Hrest Hholds.
  pose proof (ug_mail _ _ _ _ _ _ Hug) as Hm. unfold mail_of_stage in Hm. rewrite Hr, (proj2 (Z.leb_le _ _) Hle) in Hm. cbn in Hm.
  assert (∃ o, spec_call limit c id msg V = spec_receive c msg v V o) as [o Hspec].
  { unfold spec_call. rewrite Hv. destruct Hid as [-> | ->]; by eexists. }
  unfold spec_receive in Hspec. rewrite Hm in Hspec. cbn [last] in Hspec.
  eexists Z, (Trap id msg), (λ _, tree ly c n), (Answer 0), _, n, [].
  split; [exact Ht|exact (spec_trap limit V c v Hv id msg _ _ Hspec)| |reflexivity|by destruct Hid as [-> | ->]|by destruct Hid as [-> | ->]].
  split; [|done|by left]. apply good_receive; try done. intros w Hw. assert (w = v) as -> by congruence.
  split; [cbn; rewrite (ug_state _ _ _ _ _ _ Hug); by destruct (st c)|]. cbn [pv_mem pv_mail pv_set_mem pv_set_mail removelast]. rewrite Hm. split; [done|]. apply Hholds.
  rewrite load_store_ipc by apply Hly. assert (c = 1 ∨ c = 2) as [-> | ->] by lia; done.
Qed.
(** It is not. *)
Lemma no_mail c v id o :
  V c = Some v → user_good c (st 3) (st c) v → sends (st 3) < c → id = SYS_IPC_RCV_SYNC ∧ o = Wait ∨ id = SYS_IPC_RCV_ONESHOT ∧ o = Return 0 →
  spec_call limit c id msg V = Ok (o, V).
Proof.
  intros Hv Hug Hlt Hid. pose proof (ug_mail _ _ _ _ _ _ Hug) as Hm. unfold mail_of_stage in Hm. rewrite (proj2 (Z.leb_gt _ _) Hlt) in Hm.
  unfold spec_call. rewrite Hv. destruct Hid as [(-> & ->)|(-> & ->)]; cbn; unfold spec_receive; by rewrite Hm.
Qed.
Lemma steps_wait v : V 1 = Some v → user_good 1 (st 3) (st 1) v → st 1 = Wait1 → steps st V 1.
Proof.
  intros Hv Hug Hst. destruct (decide (1 ≤ sends (st 3))) as [Hle|Hlt].
  - apply (steps_take 1 v SYS_IPC_RCV_SYNC Sender); try done; rewrite ?Hst; try done; [by left|apply tree_Wait1|cbn; lia].
  - exists Z, (Trap SYS_IPC_RCV_SYNC msg), (λ _, tree ly 1 Sender), Again, V, Wait1, []. split; try done.
    + rewrite Hst. apply tree_Wait1.
    + apply (spec_trap limit V 1 v Hv _ _ Wait). apply (no_mail 1 v); try done; [lia|by left].
    + apply (goes_stay _ _ st V 1 v); rewrite ?Hst; try done. right. lia.
Qed.
Lemma steps_poll v : V 2 = Some v → user_good 2 (st 3) (st 2) v → st 2 = Poll → steps st V 2.
Proof.
  intros Hv Hug Hst. destruct (decide (2 ≤ sends (st 3))) as [Hle|Hlt].
  - apply (steps_take 2 v SYS_IPC_RCV_ONESHOT (Back true)); try done; rewrite ?Hst; try done; [by right|apply tree_Poll|cbn; lia].
  - exists Z, (Trap SYS_IPC_RCV_ONESHOT msg), (λ _, tree ly 2 (Back false)), (Answer 0), V, (Back false), []. split; try done.
    + rewrite Hst. apply tree_Poll.
    + apply (spec_trap limit V 2 v Hv _ _ (Return 0)). apply (no_mail 2 v); try done; [lia|by right].
    + pose proof (ug_memory _ _ _ _ _ _ Hug) as Hm. rewrite Hst in Hm.
      apply (goes_stay _ _ st V 2 v); rewrite ?Hst; try done. right. lia.
Qed.

Lemma steps_exit c v : 1 ≤ c ≤ 3 → V c = Some v → user_good c (st 3) (st c) v → st c = Put [] → steps st V c.
Proof.
  intros Hc Hv Hug Hst. exists Z, (Trap SYS_EXIT 0), (λ _, mret tt), Never, (view_at c (pv_set_state TASK_WAITINGFORDEATH) V), Stopped, [].
  split; try done.
  - rewrite Hst. apply tree_exit.
  - apply (spec_trap limit V c v Hv _ _ Stop). unfold spec_call. by rewrite Hv.
  - split; [|by rewrite Hst|left; rewrite Hst; cbn; lia]. apply good_move; rewrite ?Hst; try done. intros ->. by rewrite Hst.
Qed.
Lemma steps_say c v s l : 1 ≤ c ≤ 3 → V c = Some v → user_good c (st 3) (st c) v → st c = Say s l → steps st V c.
Proof.
  intros Hc Hv Hug Hst. pose proof (ug_memory _ _ _ _ _ _ Hug) as Hm. pose proof (ug_belongs _ _ _ _ _ _ Hug) as Hb.
  rewrite Hst in Hm, Hb. destruct Hm as [Hm Hl]. cbn in Hb.
  exists Z, (Trap SYS_LOG (ly_buffer ly)), (λ _, tree ly c (Put l)), (Answer 0), V, (Put l), s.
  split; try done.
  - rewrite Hst. apply tree_Say.
  - apply (spec_trap limit V c v Hv _ _ (Return 0)). unfold spec_call, spec_log. rewrite Hv. cbn. by rewrite Hm.
  - split; [|by rewrite Hst|left; rewrite Hst; cbn; lia]. apply good_stay; rewrite ?Hst; try done; [by destruct l|intros ->; by rewrite Hst].
  - intros l' w Hw Hs. assert (w = v) as -> by congruence. specialize (Hs eq_refl). congruence.
Qed.
Lemma steps_send v i n f :
  1 ≤ i ≤ 2 → V 3 = Some v → user_good 3 (st 3) (st 3) v → sends (st 3) = i - 1 → sends n = i → is_stopped (st 3) = false →
  load_ipc (pv_mem v) (if i =? 1 then msg else msg2) = draft i →
  tree ly 3 (st 3) ≅ Vis (Trap SYS_IPC_SEND (if i =? 1 then msg else msg2)) f → f 0 ≅ tree ly 3 n →
  belongs 3 n = true → is_stopped n = false → (size 3 n < size 3 (st 3))%nat → rest 3 (st 3) = rest 3 n →
  holds ly limit 3 n (stamp 3 (if i =? 1 then msg else msg2) v) → steps st V 3.
Proof.
  intros Hi Hv Hug Hs Hn Hns Hd Ht Hf Hb Hnn Hsz Hrest Hh. set (a := if i =? 1 then msg else msg2) in *.
  assert (block_ok a SIZEOF_IPC) as Ha by (unfold a; case_match; apply Hly).
  destruct (gd_user _ _ _ _ Hgood i ltac:(lia)) as (y & Hy & Huy).
  assert (received (st i) = false) as Hr.
  { destruct (received (st i)) eqn:E; [|done]. pose proof (gd_order _ _ _ _ Hgood i Hi E). lia. }
  assert (pv_state y = TASK_RUNNING) as Hsy by (rewrite (ug_state _ _ _ _ _ _ Huy); by destruct (st i)).
  assert (pv_mail y = []) as Hmy.
  { rewrite (ug_mail _ _ _ _ _ _ Huy). unfold mail_of_stage. rewrite Hs. by rewrite (proj2 (Z.leb_gt i (i - 1))) by lia. }
  assert (load_ipc (stamp 3 a v) a = message i ∧ Sched.receiver (message i) = i) as [Hld Hrc].
  { unfold stamp. rewrite load_ipc_sender by done. pose proof (f_equal Sched.receiver Hd) as E1. pose proof (f_equal data Hd) as E2.
    cbn [load_ipc Sched.receiver data] in E1, E2. rewrite E1, E2. assert (i = 1 ∨ i = 2) as [-> | ->] by lia; done. }
  exists Z, (Trap SYS_IPC_SEND a), f, (Answer 0), (view_at i (pv_set_mail [message i]) (view_at 3 (pv_set_mem (stamp 3 a v)) V)), n, []. split; try done.
  - apply (spec_trap limit V 3 v Hv _ _ (Return 0)). unfold spec_call. rewrite Hv, decide_True by done. unfold spec_send. cbv zeta. rewrite Hld, Hrc, Hy.
    rewrite decide_True by done. by rewrite Hmy.
  - split; [|done|by left]. apply good_send; try done. intros w Hw. assert (w = v) as -> by congruence.
    split; [cbn; by rewrite (ug_state _ _ _ _ _ _ Hug), Hns|]. by split.
  - intros _. split; [done|]. intros w y' Hw. assert (w = v) as -> by congruence. rewrite Hld, Hrc, Hy. intros [= <-]. by rewrite Hmy.
Qed.

(** The next step of each stage. *)
Lemma stage_step c :
  1 ≤ c ≤ 3 → match st c with Stopped => True | Back b => goes st c (Test b) [] V | _ => steps st V c end.
Proof.
  intros Hc. destruct (gd_user _ _ _ _ Hgood c Hc) as (v & Hv & Hug).
  pose proof (ug_memory _ _ _ _ _ _ Hug) as Hm. pose proof (ug_belongs _ _ _ _ _ _ Hug) as Hb.
  pose proof (lo_stack _ _ Hly) as Hstack. assert (∃ s, st c = s) as [s Hst] by by eexists. rewrite Hst in Hm, Hb |- *.
  destruct s as [| | |b| |b| | | |[|s l]|s l| | | | |]; cbn [belongs holds] in Hb, Hm; rewrite ?Z.eqb_eq, ?Z.leb_le in Hb; subst; try done.
  - destruct (tree_Begin ly Hstack c Hc) as (f & Ht & Hf). rewrite <- Hst in Ht. eapply (steps_getpid _ _ _ _ _ v); try done.
    assert (c = 1 ∨ c = 2 ∨ c = 3) as [-> |[-> | ->]] by lia; (apply (goes_stay _ _ st V _ v); try done; rewrite ?Hst; try done; left; cbn; lia).
  - by eapply steps_wait.
  - eapply (steps_write _ _ _ _ 2 v Hv); [rewrite Hst; apply tree_Zero|].
    apply (goes_write _ _ st V _ v); try done; rewrite ?Hst; try done; [|cbn; lia]. cbn [holds]. by rewrite load_store_ipc by apply Hly.
  - eapply (steps_read _ _ _ _ 2 v Hv msg (if b then Sender else Poll)); [rewrite Hst; apply tree_Test| |].
    + change (load64 (pv_mem v) msg) with (Sched.sender (load_ipc (pv_mem v) msg)). rewrite Hm. by destruct b.
    + destruct b; (apply (goes_stay _ _ st V _ v); try done; rewrite ?Hst; try done; left; cbn; lia).
  - by eapply steps_poll.
  - destruct b; (apply (goes_stay _ _ st V _ v); try done; rewrite ?Hst; try done; left; cbn; lia).
  - eapply (steps_read _ _ _ _ c v Hv msg Data); [rewrite Hst; apply tree_Sender| |].
    + change (load64 (pv_mem v) msg) with (Sched.sender (load_ipc (pv_mem v) msg)). rewrite Hm. by assert (c = 1 ∨ c = 2) as [-> | ->] by lia.
    + apply (goes_stay _ _ st V _ v); try done; rewrite ?Hst; try done; [by apply Z.leb_le|lia|left; cbn; lia].
  - eapply (steps_read _ _ _ _ c v Hv (msg + 16) Name); [rewrite Hst; apply tree_Data| |].
    + change (load64 (pv_mem v) (msg + 16)) with (data (load_ipc (pv_mem v) msg)). by rewrite Hm.
    + apply (goes_stay _ _ st V _ v); try done; rewrite ?Hst; try done; [by apply Z.leb_le|lia|left; cbn; lia].
  - destruct (tree_Name ly Hstack c ltac:(lia)) as (f & Ht & Hf). rewrite <- Hst in Ht. eapply (steps_getpid _ _ _ _ _ v); try done.
    apply (goes_stay _ _ st V _ v); try done; rewrite ?Hst; try done.
    + cbn. destruct (line_strings c); [done|by apply Z.leb_le].
    + lia.
    + apply line_strings_ok. lia.
    + apply line_text_strings. lia.
    + left. cbn. lia.
  - by eapply steps_exit.
  - eapply (steps_write _ _ _ _ c v Hv); [rewrite Hst; apply tree_Put|]. apply Forall_cons in Hm as [[Hs Hn] Hl].
    apply (goes_write _ _ st V _ v); try done; rewrite ?Hst; try done; [by apply Z.leb_le|lia| |cbn; lia].
    split; [|done]. pose proof (lo_limit _ _ Hly). pose proof (lo_buffer _ _ Hly). apply mem_bytes_stored; [done|lia|unfold block_ok in *; lia].
  - by eapply steps_say.
  - eapply (steps_write _ _ _ _ 3 v Hv); [rewrite Hst; apply tree_Init1|].
    apply (goes_write _ _ st V _ v); try done; rewrite ?Hst; try done; [|cbn; lia]. cbn [holds]. by rewrite load_store_ipc by apply Hly.
  - eapply (steps_write _ _ _ _ 3 v Hv); [rewrite Hst; apply tree_Init2|].
    apply (goes_write _ _ st V _ v); try done; rewrite ?Hst; try done; [|cbn; lia]. cbn [holds].
    rewrite load_store_ipc, load_store_ipc_ne by apply Hly. done.
  - destruct Hm as [Hm1 Hm2]. eapply (steps_send v 1 Send2); try done; rewrite ?Hst; try done; [apply tree_Send1|reflexivity|cbn; lia|].
    cbn [holds Z.eqb Pos.eqb]. unfold stamp. rewrite load_ipc_ne; [done|apply Hly..|]. pose proof (lo_apart _ _ Hly). unfold blocks_disjoint in *. tauto.
  - eapply (steps_send v 2 (Put [])); try done; rewrite ?Hst; try done; [apply tree_Send2|reflexivity|cbn; lia|constructor].
Qed.
End step.
