(* ===== verification/TestSystem.v ===== *)
(** The test program on the kernel, from the start to the end: whatever the
    interleaving each receiver prints its line, and if the timer keeps coming all
    three processes end. *)
From ITree Require Import ITree ITreeFacts.
From S2P Require Import Prelude Machine CString Range FrameAllocator Fmt Services Vec Sched Process Kernel Syscall Devices Interrupt Ipc User Isolation TestIpc TestRun.

Section machine.
Context {K : Type} `{MailHeap K}.
Variables (stack : list Z) (limit : nat) (ly : layout).
Hypotheses (stack_length : List.length stack = 32%nat) (Hly : layout_ok ly limit).
Implicit Types y : system K.
Notation good := (good ly limit).
Notation set_stage := TestRun.set_stage.

(** What process [i] has printed. *)
Definition printed_by (i : Z) (l : list (Z * list Z)) : list Z := mjoin (snd <$> filter (λ p, p.1 = i) l).
Lemma printed_by_app i c out l : printed_by i (l ++ [(c, out)]) = printed_by i l ++ if decide (c = i) then out else [].
Proof.
  unfold printed_by. rewrite filter_app, fmap_app, join_app. f_equal. case_decide as Hc; [rewrite filter_cons_True by done|by rewrite filter_cons_False].
  cbn. by rewrite app_nil_r.
Qed.

(** The four entries of the process table are in the state the kernel leaves them
    in when it has created the processes (whatever their memory). *)
Record booted y : Prop := {
  bo_kernel : kernel_ok (sy_kernel y);
  bo_flags : is_scheduler (kn_sched (sy_kernel y)) = true ∧ has_fault (sy_kernel y) = false ∧ table_length (kn_sched (sy_kernel y)) = 4;
  bo_process i : 0 ≤ i ≤ 3 → ∃ m, view (sy_kernel y) i = Some (mk_pview TASK_RUNNING [] m);
  bo_program i : 0 ≤ i ≤ 3 → sy_program y i = if i =? 0 then mret tt else start ly;
  bo_printed : sy_printed y = []
}.

(** ** The invariant *)

Record inv y (st : Z → stage) : Prop := {
  in_kernel : kernel_ok (sy_kernel y);
  in_flags : is_scheduler (kn_sched (sy_kernel y)) = true ∧ has_fault (sy_kernel y) = false ∧ table_length (kn_sched (sy_kernel y)) = 4;
  in_good : good st (view (sy_kernel y));
  in_program i : 1 ≤ i ≤ 3 → sy_program y i ≅ tree ly i (st i);
  in_idle : sy_program y 0 ≅ mret tt;
  in_printed i : 1 ≤ i ≤ 3 → printed_by i (sy_printed y) ++ rest i (st i) = line_text i
}.
Notation current y := (current_pid (kn_sched (sy_kernel y))).

Lemma booted_inv y : booted y → inv y (λ _, Begin).
Proof.
  intros [Hk Hf Hp Ht Hl]. split; try done.
  - split.
    + destruct (Hp 0 ltac:(lia)) as (m & ->). by eexists.
    + intros i Hi. destruct (Hp i ltac:(lia)) as (m & ->). eexists. split; [done|]. split; try done.
      unfold mail_of_stage. cbn [pv_mail sends]. by rewrite (proj2 (Z.leb_gt i 0)) by lia.
    + done.
  - intros i Hi. rewrite Ht by lia. rewrite (proj2 (Z.eqb_neq i 0)) by lia. reflexivity.
  - rewrite Ht by lia. reflexivity.
  - intros i Hi. rewrite Hl. done.
Qed.

(** Changing the stage of the current process. *)
Definition moves (st : Z → stage) (c : Z) (st' : Z → stage) : Prop :=
  st' = st ∧ (c = 0 ∨ is_stopped (st c) = true) ∨
  ∃ n, st' = set_stage c n st ∧ ((size c n < size c (st c))%nat ∨ c ≤ 2 ∧ sends (st 3) < c).
Lemma inv_move y st c n out V y' :
  inv y st → 1 ≤ c ≤ 3 → goes ly limit st c n out V →
  kernel_ok (sy_kernel y') → same_run (sy_kernel y) (sy_kernel y') → (∀ i, view (sy_kernel y') i = V i) →
  sy_program y' c ≅ tree ly c n → (∀ j, j ≠ c → sy_program y' j = sy_program y j) →
  sy_printed y' = sy_printed y ∧ out = [] ∨ sy_printed y' = sy_printed y ++ [(c, out)] → inv y' (set_stage c n st).
Proof.
  intros [Hk (Hsc & Hf & Hn) Hg Hp Hi Hpr] Hc [Hgood Hrest _] Hk' [Hcur Hlen [Hsc' Hf'] _] HV Ht Ho Hout. unfold set_stage.
  assert (∀ i, printed_by i (sy_printed y') = printed_by i (sy_printed y) ++ if decide (c = i) then out else []) as Hpb.
  { intros i. destruct Hout as [[-> ->]| ->]; [case_decide; by rewrite app_nil_r|apply printed_by_app]. }
  split; [done|by rewrite Hsc', Hf', Hlen|by eapply good_ext| | |].
  - intros i Hi'. destruct (decide (i = c)) as [->|]; [done|]. rewrite Ho by done. by apply Hp.
  - rewrite Ho by lia. done.
  - intros i Hi'. rewrite Hpb. destruct (decide (i = c)) as [->|Hne].
    + rewrite decide_True, <- app_assoc, <- Hrest by done. by apply Hpr.
    + rewrite (decide_False (P := c = i)), app_nil_r by done. by apply Hpr.
Qed.

(** ** A turn *)

Definition failing y (e : fault) : Prop := current y = 3 ∧ mh_stops e.
Lemma current_bound y st : inv y st → 0 ≤ current y ≤ 3.
Proof.
  intros [Hk (_ & _ & Hn) _ _ _ _]. pose proof (sk_current _ (so_table _ (ko_sched _ Hk))). lia.
Qed.
Definition turned y st y' : Prop := ∃ st', inv y' st' ∧ moves st (current y) st' ∧ same_run (sy_kernel y) (sy_kernel y').
Lemma turn_run r y st : inv y st → runs (failing y) (turn stack limit r) (λ _, turned y st) y.
Proof.
  intros Hinv. pose proof (current_bound y st Hinv) as Hcur. set (c := current y) in *. unfold turn.
  eapply runs_eq; [done|]. eapply runs_eq; [done|]. fold c.
  assert ((c = 0 ∨ is_stopped (st c) = true) → sy_program y c ≅ mret tt → turned y st y) as Hstay.
  { intros Hc _. exists st. split; [done|]. split; [by left|apply same_run_refl]. }
  destruct (decide (c = 0)) as [Hc0|Hc0].
  { pose proof (in_idle _ _ Hinv) as Hi. rewrite Hc0. apply eqitree_inv_Ret_r in Hi as ->. apply Hstay; [by left|].
    rewrite Hc0. apply (in_idle _ _ Hinv). }
  pose proof (in_program _ _ Hinv c ltac:(lia)) as Hp. pose proof (stage_step ly limit Hly st _ (in_good _ _ Hinv) c ltac:(lia)) as Hstep.
  assert (st c = Stopped ∨ (∃ b, st c = Back b) ∨ steps ly limit st (view (sy_kernel y)) c) as [Hst|[[b Hst]|Hs]].
  { destruct (st c); eauto. }
  - rewrite Hst in Hp. apply eqitree_inv_Ret_r in Hp as Hp'. rewrite Hp'. apply Hstay; [by rewrite Hst; right|exact Hp].
  - rewrite Hst in Hp, Hstep. apply eqitree_inv_Tau_r in Hp as (t & -> & Ht). cbv [runs modify].
    exists (set_stage c (Test b) st). split; [|split; [|apply same_run_refl]].
    + eapply (inv_move y st c (Test b) [] _ _ Hinv); [lia|exact Hstep|apply Hinv|apply same_run_refl|done| | |by left].
      * cbn. rewrite decide_True by done. exact Ht.
      * intros j Hj. cbn. by rewrite decide_False.
    + right. exists (Test b). split; [done|]. apply Hstep.
  - clear Hstep. destruct Hs as (X & e & k & a & V' & n & out & [Htree Hspec Hgo Hnext Hout Hroom]).
    rewrite Htree in Hp. apply eqitree_inv_Vis_r in Hp as (k' & -> & Hk').
    pose proof (perform_refines stack limit stack_length e r (sy_kernel y) (in_kernel _ _ Hinv)) as Href. cbv zeta in Href. fold c in Href.
    rewrite Hspec in Href. assert (room_of (sy_kernel y) e) as Hrm.
    { destruct e as [id arg| | |]; try done. intros Hid. by destruct (Hroom Hid) as [_ Hr]. }
    specialize (Href Hrm). eapply runs_eq; [done|]. unfold mbind at 1, M_bind at 1, on_the_kernel, zoom, runs. unfold runs in Href.
    destruct (perform stack limit r e (sy_kernel y)) as [[a' k2]|f].
    2: { destruct e as [id arg| | |]; try done. destruct Href as [Hid Hmh]. split; [by apply Hroom|done]. }
    destruct Href as (-> & Hk2 & Hsame & HV & l & Hl & Hsaid).
    set (y1 := set_kernel k2 y). set (y2 := mk_system k2 (sy_program y) (sy_printed y ++ if prints e then [(c, out)] else [])).
    assert (when (prints e) (modify (λ y1, mk_system (sy_kernel y1) (sy_program y1)
      (sy_printed y1 ++ [(c, drop (List.length (kn_console (sy_kernel y))) (kn_console (sy_kernel y1)))]))) y1 = Ok (tt, y2)) as Hw.
    { unfold y2. destruct (prints e) in Hout |- *; [|by rewrite app_nil_r]. destruct (the_caller _ (in_kernel _ _ Hinv)) as (p & x & Hc).
      assert (l = out) as <- by (eapply Hout; [by eapply view_caller|exact Hsaid]).
      cbv [when modify]. cbn. by rewrite Hl, drop_app_length. }
    rewrite (bind_eq _ _ _ _ _ Hw).
    assert (∀ y', sy_kernel y' = k2 → sy_printed y' = sy_printed y2 → sy_program y' c ≅ tree ly c n →
      (∀ j, j ≠ c → sy_program y' j = sy_program y j) → turned y st y') as Hdone.
    { intros y' Hky Hpy Hcy Hoy. exists (set_stage c n st). rewrite Hky. split; [|split; [right; exists n; split; [done|apply Hgo]|done]].
      eapply (inv_move y st c n out V' y' Hinv); rewrite ?Hky; try done; [lia|]. rewrite Hpy. unfold y2. cbn [sy_printed].
      destruct (prints e) in Hout |- *; [by right|left]. by rewrite app_nil_r. }
    destruct a as [x| |]; cbv [modify mret M_ret]; apply Hdone; try done; cbn; try (intros j Hj; by rewrite decide_False).
    + rewrite decide_True by done. rewrite Hk'. exact Hnext.
    + rewrite Hnext. apply (in_program _ _ Hinv). lia.
    + rewrite decide_True by done. rewrite Hnext. reflexivity.
Qed.

(** ** Interrupts *)

Lemma inv_view y st k : inv y st → kernel_ok k → (∀ i, view k i = view (sy_kernel y) i) →
  is_scheduler (kn_sched k) = true ∧ has_fault k = false ∧ table_length (kn_sched k) = 4 → inv (set_kernel k y) st.
Proof. intros [Hk Hf Hg Hp Hi Hpr] Hk' HV Hf'. split; try done. by eapply good_ext. Qed.
Lemma idle_runnable y st : inv y st → runnable (kn_sched (sy_kernel y)) 0 = true.
Proof. intros Hinv. destruct (gd_zero _ _ _ _ (in_good _ _ Hinv)) as (v & Hv & Hs). by eapply running. Qed.

(** [q] is resumed, or its turn comes nearer. *)
Definition nearer q y y' : Prop :=
  current y' = q ∧ tick (kn_sched (sy_kernel y')) = 0 ∨ wait (kn_sched (sy_kernel y')) q + 1 ≤ wait (kn_sched (sy_kernel y)) q.
Lemma timer_inv depth now cr2 fr y st q :
  inv y st → fr intno = 32 → 0 ≤ q ≤ 3 → runnable (kn_sched (sy_kernel y)) q = true →
  ∃ r k, interrupts_handler stack limit depth now cr2 fr (sy_kernel y) = Ok (Resume r, k) ∧ inv (set_kernel k y) st ∧ nearer q y (set_kernel k y).
Proof.
  intros Hinv Hfr Hq Hrun. destruct (in_flags _ _ Hinv) as (Hsc & Hf & Hn).
  destruct (timer_run stack limit depth now cr2 fr _ q (in_kernel _ _ Hinv) Hsc Hf Hfr ltac:(lia) Hrun) as (r & k & Hi & [Hk HV (Hs' & Hf' & Hc' & Hn') _ Hnear]).
  exists r, k. split; [done|]. split; [|done]. apply inv_view; try done. by rewrite Hn'.
Qed.
Lemma interrupt_inv depth now cr2 fr y st :
  inv y st → 32 ≤ fr intno < 48 → ∃ r k, interrupts_handler stack limit depth now cr2 fr (sy_kernel y) = Ok (Resume r, k) ∧ inv (set_kernel k y) st.
Proof.
  intros Hinv Hfr. destruct (decide (fr intno = 32)) as [H32|H32].
  - destruct (timer_inv depth now cr2 fr y st 0 Hinv H32 ltac:(lia) (idle_runnable y st Hinv)) as (r & k & Hi & Hinv' & _). by exists r, k.
  - destruct (in_flags _ _ Hinv) as (Hsc & Hf & Hn).
    destruct (irq_run stack limit depth now cr2 fr _ (in_kernel _ _ Hinv) Hf ltac:(lia)) as (l & Hi & Hk). exists fr, (set_eoi l (sy_kernel y)).
    split; [done|]. by apply inv_view.
Qed.

(** ** Steps *)

Definition step_spec (ev : event) y st y' st' : Prop :=
  if decide (ev = Interrupt 32)
  then st' = st ∧ ∀ q, 0 ≤ q ≤ 3 → runnable (kn_sched (sy_kernel y)) q = true → nearer q y y'
  else same_run (sy_kernel y) (sy_kernel y') ∧ if decide (ev = Turn) then moves st (current y) st' else st' = st.
Lemma step_inv ev y y' st : inv y st → system_step stack limit ev y y' → ∃ st', inv y' st' ∧ step_spec ev y st y' st'.
Proof.
  intros Hinv Hstep. unfold step_spec. inversion Hstep as [r ? ? Ht|depth now cr2 fr r k ? Hfr Hi]; subst.
  - pose proof (turn_run r y st Hinv) as Hr. unfold runs in Hr. rewrite Ht in Hr. destruct Hr as (st' & Hinv' & Hm & Hs). by exists st'.
  - exists st. rewrite (decide_False (P := Interrupt _ = Turn)) by done. case_decide as Hd.
    + injection Hd as Hd.
      assert (∀ q, 0 ≤ q ≤ 3 → runnable (kn_sched (sy_kernel y)) q = true → inv (set_kernel k y) st ∧ nearer q y (set_kernel k y)) as Hq.
      { intros q Hq Hrun. destruct (timer_inv depth now cr2 fr y st q Hinv Hd Hq Hrun) as (r' & k' & Hi' & Hn). rewrite Hi in Hi'. by injection Hi' as <- <-. }
      split; [|split; [done|intros q Hq' Hrun; by apply Hq]]. by apply (Hq 0); [|eapply idle_runnable].
    + destruct (in_flags _ _ Hinv) as (Hsc & Hf & Hn).
      destruct (irq_run stack limit depth now cr2 fr _ (in_kernel _ _ Hinv) Hf) as (l & Hi' & Hk).
      { split; [|lia]. assert (fr intno ≠ 32) by congruence. lia. }
      rewrite Hi in Hi'. injection Hi' as _ Hkk. subst k. split; [by apply inv_view|]. split; [by split|done].
Qed.
Notation any_step := (any_step stack limit).
Lemma reach_inv y0 y : booted y0 → rtc any_step y0 y → ∃ st, inv y st.
Proof.
  intros Hb Hr. apply booted_inv in Hb. assert (∃ st, inv y0 st) as Hinv by by eexists. clear Hb.
  induction Hr as [|y0 y1 y [ev Hs] _ IH]; [done|]. destruct Hinv as [st Hinv]. apply IH.
  destruct (step_inv ev _ _ st Hinv Hs) as (st' & Hinv' & _). by exists st'.
Qed.
(** What a state says of a process. *)
Lemma inv_output y st i : inv y st → 1 ≤ i ≤ 3 → ∃ v, view (sy_kernel y) i = Some v ∧
  if is_stopped (st i) then pv_state v = TASK_WAITINGFORDEATH ∧ printed_by i (sy_printed y) = line_text i
  else pv_state v = TASK_RUNNING ∧ ∃ more, printed_by i (sy_printed y) ++ more = line_text i.
Proof.
  intros Hinv Hi. destruct (gd_user _ _ _ _ (in_good _ _ Hinv) i Hi) as (v & Hv & Hu). exists v. split; [done|].
  pose proof (ug_state _ _ _ _ _ _ Hu) as Hs. pose proof (in_printed _ _ Hinv i Hi) as Hp.
  destruct (is_stopped (st i)) eqn:Hst; split; [done| |done|by eexists].
  destruct (st i); try done. cbn in Hp. by rewrite app_nil_r in Hp.
Qed.

(** C4. From the start on, however the events of the three processes, the timer's
    interrupts and the other controllers' interrupts are interleaved: what a
    process has printed is a prefix of its line, and all of the line when it has
    exited ([Got IPC from 3 with value deadbeef] by process 1, [Got IPC ONESHOT
    from 3 with value cafebabe] by process 2, nothing by process 3); no interrupt
    stops the machine, and no event of a process does, except that the heap may
    stop a send of process 3. *)
Theorem test_program_output y0 y : booted y0 → rtc any_step y0 y →
  (∀ i, 1 ≤ i ≤ 3 → ∃ v, view (sy_kernel y) i = Some v ∧
    (pv_state v = TASK_RUNNING ∧ (∃ more, printed_by i (sy_printed y) ++ more = line_text i) ∨
     pv_state v = TASK_WAITINGFORDEATH ∧ printed_by i (sy_printed y) = line_text i)) ∧
  (∀ depth now cr2 fr, 32 ≤ fr intno < 48 → ∃ r k, interrupts_handler stack limit depth now cr2 fr (sy_kernel y) = Ok (Resume r, k)) ∧
  (∀ r e, turn stack limit r y = Err e → current y = 3 ∧ mh_stops e).
Proof.
  intros Hb Hr. destruct (reach_inv y0 y Hb Hr) as [st Hinv]. split; [|split].
  - intros i Hi. destruct (inv_output y st i Hinv Hi) as (v & Hv & Ho). exists v. split; [done|]. destruct (is_stopped (st i)); tauto.
  - intros depth now cr2 fr Hfr. destruct (interrupt_inv depth now cr2 fr y st Hinv Hfr) as (r & k & Hi & _). by exists r, k.
  - intros r e He. pose proof (turn_run r y st Hinv) as Ht. unfold runs in Ht. by rewrite He in Ht.
Qed.

(** ** The end *)

(** An endless run from the start in which the timer keeps coming and after each of
    its ticks the current process has a turn before the next one. *)
Record fair_run (f : nat → system K) (ev : nat → event) : Prop := {
  fr_start : booted (f 0%nat);
  fr_step n : system_step stack limit (ev n) (f n) (f (S n));
  fr_ticks n : ∃ m, (n ≤ m)%nat ∧ ev m = Interrupt 32;
  fr_turns n : ev n = Interrupt 32 → ∃ m, (n < m)%nat ∧ ev m = Turn ∧ ∀ j, (n < j < m)%nat → ev j ≠ Interrupt 32
}.

(** Nothing process [i] waits for is missing. *)
Definition ready (i : Z) (st : Z → stage) : Prop := i = 3 ∨ st 3 = Stopped.
Lemma size_stopped i st : size i st = 0%nat → st = Stopped.
Proof. destruct st as [| | |[]| |[]| | | | | | | | | |]; cbn; done || lia. Qed.
Lemma moves_size i st c st' : 1 ≤ i ≤ 3 → 0 ≤ c ≤ 3 → ready i st → moves st c st' →
  ready i st' ∧ (size i (st' i) ≤ size i (st i))%nat ∧ (c = i → st i ≠ Stopped → (size i (st' i) < size i (st i))%nat).
Proof.
  intros Hi Hc Hr [[-> Hst]|(n & -> & Hn)].
  - split; [done|]. split; [done|]. intros -> Hns. destruct Hst as [|Hst]; [lia|]. by destruct (st i).
  - unfold set_stage, TestRun.set_stage, ready in *. destruct (decide (i = c)) as [<-|Hne].
    + assert (size i n < size i (st i))%nat as Hlt.
      { destruct Hn as [Hn|[Hc2 Hs]]; [done|]. destruct Hr as [->|Hr]; [lia|]. rewrite Hr in Hs. cbn in Hs. lia. }
      split; [|split; [lia|done]]. destruct Hr as [->|Hr]; [by left|right]. case_decide; [subst|done]. rewrite Hr in Hlt. cbn in Hlt. lia.
    + split; [|split; [done|by intros ->]]. destruct Hr as [->|Hr]; [by left|right]. case_decide as Hd; [|done]. subst c.
      destruct Hn as [Hn|[Hc2 _]]; [|lia]. rewrite Hr in Hn. cbn in Hn. lia.
Qed.

Section run.
Variables (f : nat → system K) (ev : nat → event).
Hypothesis Hf : fair_run f ev.

Lemma run_inv n : ∃ st, inv (f n) st.
Proof.
  induction n as [|n [st IH]]; [eexists; apply booted_inv, Hf|]. destruct (step_inv _ _ _ _ IH (fr_step _ _ Hf n)) as (st' & Hinv & _). by exists st'.
Qed.
Lemma next_tick n : ∃ m, (n ≤ m)%nat ∧ ev m = Interrupt 32 ∧ ∀ j, (n ≤ j < m)%nat → ev j ≠ Interrupt 32.
Proof.
  destruct (fr_ticks _ _ Hf n) as (m & Hm & Ht). remember (m - n)%nat as d eqn:Hd. revert n Hm Hd.
  induction d as [|d IH]; intros n Hm Hd.
  - exists n. assert (m = n) as -> by lia. split; [done|]. split; [done|lia].
  - destruct (decide (ev n = Interrupt 32)) as [He|He]; [exists n; split; [done|]; split; [done|lia]|].
    destruct (IH (S n) ltac:(lia) ltac:(lia)) as (k & Hk & Ht' & Hno). exists k. split; [lia|]. split; [done|].
    intros j Hj. destruct (decide (j = n)) as [->|]; [done|]. apply Hno. lia.
Qed.

Section process.
Variable i : Z.
Hypothesis Hi : 1 ≤ i ≤ 3.

(** Process [i] has [s] events left at most. *)
Definition left (s : nat) (n : nat) : Prop := ∃ st, inv (f n) st ∧ ready i st ∧ size i (st i) = s.
Definition less (s : nat) (n : nat) : Prop := ∃ m s', (n ≤ m)%nat ∧ (s' < s)%nat ∧ left s' m.
Notation current_at n := (current (f n)).
Notation wait_at n := (wait (kn_sched (sy_kernel (f n))) i).

Lemma left_runnable s n : left (S s) n → runnable (kn_sched (sy_kernel (f n))) i = true.
Proof.
  intros (st & Hinv & _ & Hs). destruct (inv_output _ _ i Hinv Hi) as (v & Hv & Ho). eapply running; [exact Hv|]. destruct (is_stopped (st i)) eqn:Hst; [by destruct (st i)|apply Ho].
Qed.
(** Without a tick. *)
Lemma walk_step s n : ev n ≠ Interrupt 32 → left (S s) n →
  less (S s) n ∨ left (S s) (S n) ∧ current_at (S n) = current_at n ∧ wait_at (S n) ≤ wait_at n ∧ ¬ (ev n = Turn ∧ current_at n = i).
Proof.
  intros He (st & Hinv & Hr & Hs). destruct (step_inv _ _ _ _ Hinv (fr_step _ _ Hf n)) as (st' & Hinv' & Hsp).
  unfold step_spec in Hsp. rewrite decide_False in Hsp by done. destruct Hsp as [[Hcur Hlen _ Htick] Hm].
  assert (ready i st' ∧ (size i (st' i) ≤ S s)%nat ∧ (ev n = Turn → current_at n = i → (size i (st' i) < S s)%nat)) as (Hr' & Hle & Hlt).
  { rewrite <- Hs. destruct (decide (ev n = Turn)) as [Ht|Ht].
    - destruct (moves_size i st _ st' Hi (current_bound _ _ Hinv) Hr Hm) as (Hr' & Hle & Hlt). split; [done|]. split; [done|].
      intros _ Hc. apply Hlt; [done|]. intros Hst. by rewrite Hst in Hs.
    - subst st'. by split. }
  destruct (decide (size i (st' i) = S s)) as [Heq|Hne].
  - right. split; [by exists st'|]. split; [done|]. split; [unfold wait; rewrite Hcur, Hlen; lia|]. intros [Ht Hc]. specialize (Hlt Ht Hc). lia.
  - left. exists (S n), (size i (st' i)). split; [lia|]. split; [lia|]. by exists st'.
Qed.
Lemma walk s n m : (n ≤ m)%nat → (∀ j, (n ≤ j < m)%nat → ev j ≠ Interrupt 32) → left (S s) n →
  less (S s) n ∨ left (S s) m ∧ current_at m = current_at n ∧ wait_at m ≤ wait_at n.
Proof.
  intros Hnm. induction Hnm as [|m Hnm IH]; intros Hno Hl; [right; done|].
  destruct IH as [|(Hl' & Hc & Hw)]; [intros j Hj; apply Hno; lia|done|by left|].
  destruct (walk_step s m) as [(k & s' & Hk & Hs)|(Hl2 & Hc2 & Hw2 & _)]; [apply Hno; lia|done| |].
  - left. exists k, s'. split; [lia|done].
  - right. split; [done|]. split; [congruence|lia].
Qed.
Lemma runs_again w s n : left (S s) n → wait_at n ≤ Z.of_nat w → less (S s) n.
Proof.
  revert n. induction w as [w IH] using lt_wf_ind. intros n Hl Hw.
  destruct (next_tick n) as (t & Hnt & Ht & Hno). destruct (walk s n t Hnt Hno Hl) as [|(Hlt & _ & Hwt)]; [done|].
  destruct Hlt as (st & Hinv & Hr & Hs). destruct (step_inv _ _ _ _ Hinv (fr_step _ _ Hf t)) as (st' & Hinv' & Hsp).
  unfold step_spec in Hsp. rewrite decide_True in Hsp by done. destruct Hsp as [-> Hnear].
  assert (left (S s) (S t)) as Hl' by by exists st.
  assert (less (S s) (S t) → less (S s) n) as Hless by (intros (k & s' & Hk & Hs'); exists k, s'; split; [lia|done]).
  destruct (Hnear i ltac:(lia)) as [[Hc _]|Hn]; [eapply left_runnable; by exists st| |].
  - destruct (fr_turns _ _ Hf t Ht) as (m & Hm & Hturn & Hno'). apply Hless.
    destruct (walk s (S t) m) as [|(Hlm & Hcm & _)]; [lia|intros j Hj; apply Hno'; lia|done|done|].
    destruct (walk_step s m) as [(k & s' & Hk & Hs')|(_ & _ & _ & Hcon)]; [by rewrite Hturn|done|exists k, s'; split; [lia|done]|].
    destruct Hcon. split; [done|congruence].
  - apply Hless. assert (0 ≤ wait_at (S t)) as Hpos.
    { pose proof (so_tick _ (ko_sched _ (in_kernel _ _ Hinv'))). destruct (in_flags _ _ Hinv') as (_ & _ & Hlen).
      pose proof (Z.mod_pos_bound (i - current_at (S t) - 1) (table_length (kn_sched (sy_kernel (f (S t)))))). unfold wait. lia. }
    apply (IH (Z.to_nat (wait_at (S t)))); [lia|done|lia].
Qed.
Lemma stops s n : left s n → ∃ m st, (n ≤ m)%nat ∧ inv (f m) st ∧ ready i st ∧ st i = Stopped.
Proof.
  revert n. induction s as [s IH] using lt_wf_ind. intros n Hl. destruct s as [|s].
  - destruct Hl as (st & Hinv & Hr & Hs). exists n, st. split; [done|]. split; [done|]. split; [done|]. by eapply size_stopped.
  - destruct (runs_again (Z.to_nat (wait_at n)) s n Hl ltac:(lia)) as (k & s' & Hk & Hs' & Hl').
    destruct (IH s' Hs' k Hl') as (m & st & Hm & Hst). exists m, st. split; [lia|done].
Qed.
Lemma left_stays n m : (n ≤ m)%nat → left 0 n → left 0 m.
Proof.
  intros Hnm Hl. induction Hnm as [|m _ (st & Hinv & Hr & Hs)]; [done|].
  destruct (step_inv _ _ _ _ Hinv (fr_step _ _ Hf m)) as (st' & Hinv' & Hsp). exists st'. split; [done|]. unfold step_spec in Hsp.
  case_decide; [by destruct Hsp as [-> _]|]. destruct Hsp as [_ Hm]. case_decide; [|by subst].
  destruct (moves_size i st _ st' Hi (current_bound _ _ Hinv) Hr Hm) as (Hr' & Hle & _). split; [done|lia].
Qed.
Lemma ends n st : inv (f n) st → ready i st → ∃ m, ∀ k, (m ≤ k)%nat → left 0 k.
Proof.
  intros Hinv Hr. destruct (stops (size i (st i)) n) as (m & st' & _ & Hinv' & Hr' & Hs'); [by exists st|].
  exists m. intros k Hk. apply (left_stays m k Hk). exists st'. by rewrite Hs'.
Qed.
Lemma left_output n : left 0 n →
  ∃ v, view (sy_kernel (f n)) i = Some v ∧ pv_state v = TASK_WAITINGFORDEATH ∧ printed_by i (sy_printed (f n)) = line_text i.
Proof.
  intros (st & Hinv & _ & Hs). destruct (inv_output _ _ i Hinv Hi) as (v & Hv & Ho). exists v. split; [done|].
  by rewrite (size_stopped _ _ Hs) in Ho.
Qed.
End process.
End run.

(** *** There are such runs where the heap never stops: a tick and a turn in turns *)

Definition tick_frame : registers_t := set_reg intno 32 zero_regs.
Definition advance (e : event) y : system K :=
  match e with
  | Turn => match turn stack limit zero_regs y with Ok (_, y') => y' | Err _ => y end
  | Interrupt _ =>
      match interrupts_handler stack limit 0 0 0 tick_frame (sy_kernel y) with Ok (Resume _, k) => set_kernel k y | _ => y end
  end.
Definition alternately (n : nat) : event := if Nat.even n then Interrupt 32 else Turn.
Fixpoint run_from y (n : nat) : system K := match n with O => y | S n => advance (alternately n) (run_from y n) end.
Lemma advance_step n y st : (∀ e, ¬ mh_stops e) → inv y st →
  system_step stack limit (alternately n) y (advance (alternately n) y) ∧ ∃ st', inv (advance (alternately n) y) st'.
Proof.
  intros Hno Hinv. assert (system_step stack limit (alternately n) y (advance (alternately n) y)) as Hs.
  { unfold alternately. destruct (Nat.even n); unfold advance.
    - destruct (interrupt_inv 0 0 0 tick_frame y st Hinv) as (r & k & Hi & _); [by vm_compute|]. rewrite Hi.
      change 32 with (tick_frame intno). by econstructor.
    - pose proof (turn_run zero_regs y st Hinv) as Ht. unfold runs in Ht.
      destruct (turn stack limit zero_regs y) as [[[] y']|e] eqn:Hy; [|by destruct Ht as [_ ?%Hno]]. by econstructor. }
  split; [done|]. destruct (step_inv _ _ _ _ Hinv Hs) as (st' & Hinv' & _). by exists st'.
Qed.
Lemma alternating_run y : (∀ e, ¬ mh_stops e) → booted y → fair_run (run_from y) alternately.
Proof.
  intros Hno Hb. assert (∀ n, ∃ st, inv (run_from y n) st) as Hinv.
  { induction n as [|n [st IH]]; [eexists; by apply booted_inv|]. by eapply advance_step. }
  split.
  - done.
  - intros n. destruct (Hinv n) as [st Hst]. by eapply (advance_step n).
  - intros n. exists (2 * n)%nat. split; [lia|]. unfold alternately. by rewrite Nat.even_mul.
  - intros n Hn. exists (S n). split; [lia|]. split; [|lia]. unfold alternately in *. rewrite Nat.even_succ, <- Nat.negb_even.
    by destruct (Nat.even n).
Qed.
Lemma run_reaches f ev n : fair_run f ev → rtc any_step (f 0%nat) (f n).
Proof. intros Hf. induction n as [|n IH]; [done|]. eapply rtc_r; [exact IH|]. exists (ev n). apply (fr_step _ _ Hf). Qed.

(** C3. In every such run, however the turns and the interrupts fall, there is a time
    from which on all three processes have exited and each has printed its whole
    line: the sender ends, both messages arrive, the process that waits in the
    kernel and the one that polls both get theirs. *)
Theorem test_program_ends f ev : fair_run f ev → ∃ n, ∀ m i, (n ≤ m)%nat → 1 ≤ i ≤ 3 →
  ∃ v, view (sy_kernel (f m)) i = Some v ∧ pv_state v = TASK_WAITINGFORDEATH ∧ printed_by i (sy_printed (f m)) = line_text i.
Proof.
  intros Hf. pose proof (booted_inv _ (fr_start _ _ Hf)) as Hinv.
  destruct (ends f ev Hf 3 ltac:(lia) 0 _ Hinv) as [m3 H3]; [by left|].
  destruct (H3 m3 ltac:(lia)) as (st & Hinv3 & _ & Hs3). apply size_stopped in Hs3.
  destruct (ends f ev Hf 1 ltac:(lia) m3 st Hinv3) as [m1 H1']; [by right|].
  destruct (ends f ev Hf 2 ltac:(lia) m3 st Hinv3) as [m2 H2]; [by right|].
  exists (m1 + m2 + m3)%nat. intros m i Hm Hi. apply left_output; [done|].
  assert (i = 1 ∨ i = 2 ∨ i = 3) as [-> |[-> | ->]] by lia; [apply H1'|apply H2|apply H3]; lia.
Qed.
End machine.

(** ** The theorems at a concrete machine *)

Definition sample_layout : layout := mk_layout 0x400000 0x400018 0x400030 blank.
Lemma sample_layout_ok : layout_ok sample_layout 63.
Proof. split; cbn; unfold block_ok, blocks_disjoint, SIZEOF_IPC; try done; lia. Qed.
Definition sample_system_on {K} (k : kernel K) : system K := mk_system k (λ i, if i =? 0 then mret tt else start sample_layout) [].
Lemma sample_booted_on `{MailHeap K} (k : K) : kernel_ok (sample_ipc_on k) → booted sample_layout (sample_system_on (sample_ipc_on k)).
Proof.
  intros Hk. split; try done. intros i Hi. exists sample_user. unfold view, sample_system_on. cbn [sy_kernel].
  by rewrite (proj2 (sample_ipc_entry k i _) (conj Hi eq_refl)).
Qed.
Definition sample_system : system bump := sample_system_on sample_ipc.
Lemma sample_booted : booted sample_layout sample_system.
Proof. apply sample_booted_on, sample_ipc_ok. Qed.
Definition sample_run : nat → system bump := run_from blank 63 sample_system.
Lemma bump_never_stops (e : fault) : ¬ mh_stops (K := bump) e.
Proof. intros []. Qed.
Lemma sample_fair : fair_run blank 63 sample_layout sample_run alternately.
Proof. exact (alternating_run blank 63 sample_layout eq_refl sample_layout_ok sample_system bump_never_stops sample_booted). Qed.

Lemma test_program_output_witness :
  ∃ v, view (sy_kernel (sample_run 1000)) 1 = Some v ∧
    (pv_state v = TASK_RUNNING ∧ (∃ more, printed_by 1 (sy_printed (sample_run 1000)) ++ more = line_text 1) ∨
     pv_state v = TASK_WAITINGFORDEATH ∧ printed_by 1 (sy_printed (sample_run 1000)) = line_text 1).
Proof.
  destruct (test_program_output blank 63 sample_layout eq_refl sample_layout_ok sample_system (sample_run 1000) sample_booted) as (Hout & _).
  - exact (run_reaches blank 63 sample_layout sample_run alternately 1000 sample_fair).
  - apply (Hout 1). lia.
Defined.
Lemma test_program_ends_witness :
  ∃ n, ∀ i, 1 ≤ i ≤ 3 → printed_by i (sy_printed (sample_run n)) = line_text i.
Proof.
  destruct (test_program_ends blank 63 sample_layout eq_refl sample_layout_ok sample_run alternately sample_fair) as [n Hn].
  exists n. intros i Hi. destruct (Hn n i (le_n n) Hi) as (v & _ & _ & Hp). exact Hp.
Defined.

(** Arbitrary programs: these ones. *)
Lemma booted_orderly `{MailHeap K} ly (y : system K) : booted ly y → orderly 0 y.
Proof.
  intros [Hk (Hs & Hf & Hn) Hp Ht _]. assert (∀ i v, view (sy_kernel y) i = Some v → 0 ≤ i ≤ 3) as Hb.
  { intros i v Hv. unfold view in Hv. destruct (entry (kn_sched (sy_kernel y)) i) as [x|] eqn:Hx; [|done].
    pose proof (entry_bound _ _ _ (so_table _ (ko_sched _ Hk)) Hx). lia. }
  split; [done|done| | |].
  - destruct (Hp 0 ltac:(lia)) as (m & Hv). by eexists.
  - by rewrite Ht by lia.
  - intros i v Hv. destruct (Hp i (Hb i v Hv)) as (m & Hm). rewrite Hm in Hv. by injection Hv as <-.
Qed.
(** Any number of ticks of the timer: what a process may ask for does not matter. *)
Lemma sample_ticks `{MailHeap K} n (y0 : system K) : orderly 0 y0 → ∃ y, nsteps (own_run blank 63) n y0 y ∧ orderly n y.
Proof.
  intros Hy0. induction n as [|n (y & Hr & Hy)].
  - exists y0. by split; [constructor|].
  - destruct (interrupt_aloof blank 63 eq_refl n 0 0 0 (set_reg intno 32 zero_regs) y Hy (ltac:(done))) as (r & k & Hi & [Hk Hf Hz Hp Hm] & _).
    exists (set_kernel k y). split.
    + eapply nsteps_r; [exact Hr|]. exists (Interrupt (set_reg intno 32 zero_regs intno)). split; [by eapply step_interrupt|done].
    + split; try done. intros i v Hv. pose proof (Hm i v Hv). lia.
Qed.
