(* ===== verification/Running.v ===== *)
(** The processes on the kernel's own allocators: the heap, the page tables and the
    bitmap keep what the system calls ask of them ([MailHeap]), so that every
    theorem on processes holds of the kernel as it is linked, and the mailboxes
    stay apart from each other and from what the allocators keep. *)
From ITree Require Import ITree.
From S2P Require Import Prelude Machine CString Range FrameAllocator Pmm Vmm Spaces Memory Fmt Services Vec Sched Process Kernel Syscall Devices Interrupt Dll Liballoc LiballocSpec Compat KernelHeap KernelMemory Ipc User Isolation TestIpc TestRun TestSystem.

(** ** The kernel's memory while processes run

    Once the scheduler runs, [liballoc_alloc] maps into the page table of
    [sched_current_process], the one in the root register ([ko_space]): here it
    is taken from the register before each operation. *)
Record running_memory : Type := mk_running { rn_memory : kernel_memory }.
Definition running_root (s : kernel_memory) : Z := mmap_phys_to_io (hw_cr3 (la_hw s)).
Definition while_running {A} (m : M kernel_memory A) : M running_memory A := λ k,
  match m (switched_to (running_root (rn_memory k)) (rn_memory k)) with Ok (a, s) => Ok (a, mk_running s) | Err e => Err e end.

#[export] Instance running_services : KernelServices running_memory := {
  ks_hw := λ k, la_hw (rn_memory k);
  ks_set_hw := λ h k, mk_running (la_set_hw h (rn_memory k));
  ks_malloc := λ n, while_running (kmalloc n);
  ks_realloc := λ p n, while_running (krealloc p n);
  ks_free := λ p, while_running (kfree p);
  ks_pmm_alloc := λ n, while_running (arch_pmm_alloc n);
  ks_pmm_free := λ r, while_running (ks_pmm_free r);
  ks_vmm_map := λ pml virt phys u, while_running (arch_vmm_map pml virt phys u);
  ks_space_create := while_running arch_create_space;
  ks_space_destroy := λ pml, while_running (arch_space_destroy pml)
}.
#[export] Instance running_laws : KernelServicesLaws running_memory.
Proof.
  split.
  - done.
  - intros [s]. exact (f_equal mk_running (ks_set_get s)).
  - done.
Qed.

(** ** What it promises to the mailboxes *)

(** The areas are held with nothing else known of what is held besides, and every
    root is that of a space there is. *)
Record held_running (k : running_memory) (roots : Z → Prop) (areas : list (Z * Z)) A F Rs : Prop := {
  hr_isolated : isolated (mk_holder (rn_memory k) (areas ++ A) F Rs);
  hr_roots c : roots c → mmap_phys_to_io c ∈ Rs
}.
Lemma isolated_perm s A A' F Rs : A ≡ₚ A' → isolated (mk_holder s A F Rs) → isolated (mk_holder s A' F Rs).
Proof.
  intros Hp [(R & v & c & Hh & Hl) Hf Hn Hd]. split; try done. exists R, v, c. split; [done|]. by rewrite Hl.
Qed.

(** What the allocators leave alone besides: the user's half of the spaces, and the
    bytes that are held. *)
Definition left_alone (s s' : kernel_memory) A F Rs : Prop :=
  same_view Rs (la_sys s) (la_sys s') ∧ ∀ x, area_byte A x ∨ frame_byte F x → load8 (la_mem s') x = load8 (la_mem s) x.
Lemma left_alone_trans s1 s2 s3 A F Rs : left_alone s1 s2 A F Rs → left_alone s2 s3 A F Rs → left_alone s1 s3 A F Rs.
Proof. intros [Hv Hm] [Hv' Hm']. split; [by eapply same_view_trans|]. intros x Hx. rewrite Hm' by done. by apply Hm. Qed.
(** A request in the current space, and what it leaves. *)
Lemma grow_running k roots p n m areas A F Rs :
  held_running k roots ((if n =? 0 then [] else [(p, n)]) ++ areas) A F Rs → roots (hw_cr3 (ks_hw k)) →
  0 ≤ n → (n = 0 → p = 0) → 0 < m ≤ 0x40000000 →
  runs pmm_stops (ks_realloc p m) (λ q k', q ≠ 0 ∧ held_running k' roots ((q, m) :: areas) A F Rs ∧ hw_cr3 (ks_hw k') = hw_cr3 (ks_hw k) ∧ left_alone (rn_memory k) (rn_memory k') A F Rs) k.
Proof.
  intros [His Hroots] Hroot Hn Hp Hm. set (s := switched_to (running_root (rn_memory k)) (rn_memory k)).
  assert (hw_cr3 (la_hw s) = hw_cr3 (ks_hw k)) as Hcr by done.
  assert (isolated (mk_holder s (((if n =? 0 then [] else [(p, n)]) ++ areas) ++ A) F Rs)) as Hs by (apply isolated_switch; [done|by apply Hroots]).
  assert (runs pmm_stops (krealloc p m) (λ q s', q ≠ 0 ∧ isolated (mk_holder s' ((q, m) :: areas ++ A) F Rs) ∧ hw_cr3 (la_hw s') = hw_cr3 (la_hw s) ∧ left_alone s s' A F Rs) s) as Hrun.
  { assert (∀ x, area_byte A x ∨ frame_byte F x → area_byte (areas ++ A) x ∨ frame_byte F x) as Hsub.
    { intros x [(a & Ha & Hx)|?]; [left|by right]. exists a. split; [apply elem_of_app; by right|done]. }
    destruct (Z.eqb_spec n 0) as [Hz|Hnz].
    - rewrite (Hp Hz). assert (krealloc 0 m = kmalloc m) as -> by (unfold krealloc, liballoc_realloc; by rewrite (proj2 (Z.eqb_neq m 0)) by lia).
      eapply runs_mono; [| |exact (malloc_isolated Rs s (areas ++ A) F m Hs ltac:(lia))]; [by intros e [? _]|].
      intros q s' [[Hq _] Hi Hk _ Hc Hv]. split; [lia|]. split; [done|]. split; [done|]. split; [done|]. intros x Hx. by apply Hk, Hsub.
    - eapply runs_mono; [| |exact (realloc_isolated Rs s [] p n (areas ++ A) F m Hs ltac:(lia) Hm)]; [by intros e [? _]|].
      intros q s' (? & ? & ? & Hv & Hk). split; [done|]. split; [done|]. split; [done|]. split; [done|]. intros x Hx. by apply Hk, Hsub. }
  unfold runs in *. change (ks_realloc p m k) with (while_running (krealloc p m) k). unfold while_running. fold s.
  destruct (krealloc p m s) as [[q s']|e]; [|done]. destruct Hrun as (Hq & Hi & Hc & Hl). split; [done|]. split; [by split|]. split; [by rewrite <- Hcr|exact Hl].
Qed.

#[export] Instance running_mail : MailHeap running_memory.
Proof.
  refine {| mh_held := λ k roots areas, ∃ A F Rs, held_running k roots areas A F Rs; mh_stops := pmm_stops |}.
  - intros k roots roots' areas areas' Hr Hp (A & F & Rs & [Hi Hroots]). exists A, F, Rs. split; [|by intros c Hc%Hr; apply Hroots].
    eapply isolated_perm; [|exact Hi]. by rewrite Hp.
  - intros h k roots areas Hm (A & F & Rs & [Hi Hroots]). exists A, F, Rs. split; [|done]. apply isolated_write; [done|]. intros x _ _ _. by rewrite Hm.
  - intros p n m roots areas k (A & F & Rs & Hh) Hroot Hn Hp Hm.
    eapply runs_mono; [| |exact (grow_running k roots p n m areas A F Rs Hh Hroot Hn Hp Hm)]; [done|].
    intros q k' (Hq & Hh' & Hc & _). rewrite decide_False by done. split; [|done]. by exists A, F, Rs.
Defined.


(** The same keeping an eye on what is left alone. *)
Section tracked.
Variables (s0 : kernel_memory) (A : list (Z * Z)) (F : list range_t) (Rs : list Z).
#[local] Instance tracked_mail : MailHeap running_memory.
Proof.
  refine {| mh_held := λ k roots areas, held_running k roots areas A F Rs ∧ left_alone s0 (rn_memory k) A F Rs; mh_stops := pmm_stops |}.
  - intros k roots roots' areas areas' Hr Hp [[Hi Hroots] Hl]. split; [|done]. split; [|by intros c Hc%Hr; apply Hroots].
    eapply isolated_perm; [|exact Hi]. by rewrite Hp.
  - intros h k roots areas Hm [[Hi Hroots] Hl]. split.
    + split; [|done]. apply isolated_write; [done|]. intros x _ _ _. by rewrite Hm.
    + eapply left_alone_trans; [exact Hl|]. destruct k as [s]. change (hw_mem h = la_mem s) in Hm.
      split; [intros r v _ _; change (leaf (hw_mem h) r v = leaf (la_mem s) r v); by rewrite Hm|].
      intros x _. change (load8 (hw_mem h) x = load8 (la_mem s) x). by rewrite Hm.
  - intros p n m roots areas k [Hh Hl] Hroot Hn Hp Hm.
    eapply runs_mono; [| |exact (grow_running k roots p n m areas A F Rs Hh Hroot Hn Hp Hm)]; [done|].
    intros q k' (Hq & Hh' & Hc & Hl'). rewrite decide_False by done. split; [|done]. split; [done|]. by eapply left_alone_trans.
Defined.
Lemma tracked_steps stack limit n (y0 y : system running_memory) :
  List.length stack = 32%nat → orderly (H1 := running_mail) 0 y0 → s0 = rn_memory (sc_k (kn_sched (sy_kernel y0))) →
  held_running (sc_k (kn_sched (sy_kernel y0))) (space_roots (kn_sched (sy_kernel y0))) (all_mail (kn_sched (sy_kernel y0))) A F Rs →
  nsteps (any_step stack limit) n y0 y → Z.of_nat n < MAIL_LIMIT →
  orderly (H1 := running_mail) n y ∧ held_running (sc_k (kn_sched (sy_kernel y))) (space_roots (kn_sched (sy_kernel y))) (all_mail (kn_sched (sy_kernel y))) A F Rs ∧
  left_alone s0 (rn_memory (sc_k (kn_sched (sy_kernel y)))) A F Rs.
Proof.
  intros Hst [[Hs Hser Hmail _ Hsp Hspaces] Hf Hidle Hprog Hm] Hs0 Hh Hr Hn.
  assert (orderly (H1 := tracked_mail) 0 y0) as Hy.
  { split; [split|..]; try done. split; [exact Hh|]. by rewrite Hs0. }
  destruct (orderly_steps stack limit Hst 0 n y0 y Hy Hr ltac:(lia)) as [[Hs' Hser' Hmail' [Hh' Hl'] Hsp' Hspaces'] Hf' Hidle' Hprog' Hm'].
  split; [|by split]. split; [split|..]; try done. by exists A, F, Rs.
Qed.
End tracked.

(** ** A kernel with four processes

    Of 1024 pages the first 32 are in use: page 1 has the bitmap, page 2 the
    kernel's root table, pages 7, 14, 21 and 28 those of the processes. *)
Definition running_bytes : memory := λ x, if (frame_io 1 <=? x) && (x <? frame_io 1 + 4) then 0xff else 0.
Definition running_vmm : vmm_state pmm_state :=
  mk_vmm (mk_pmm (mk_hw running_bytes true 0x7000 []) (frame_io 1) 128 96 0 0) (frame_io 2) 0.
Definition running_spaces : list Z := frame_io <$> [2; 7; 14; 21; 28].
Lemma running_page_used f : 0 ≤ f < 32 → ¬ page_free (vm_pmm running_vmm) f.
Proof.
  intros Hf. unfold page_free, is_set_pmm. cbn [pm_mem hw_mem pm_hw vm_pmm running_vmm bitmap].
  assert (load8 running_bytes (frame_io 1 + f / 8) = 0xff) as ->.
  { unfold load8, running_bytes. rewrite u64_small by (unfold frame_io, MMAP_IO_BASE; Z.div_mod_to_equations; lia).
    rewrite (proj2 (Z.leb_le _ _)), (proj2 (Z.ltb_lt _ _)) by (Z.div_mod_to_equations; lia). done. }
  assert (∃ n : nat, (n < 32)%nat ∧ f = Z.of_nat n) as (n & Hn & ->) by (exists (Z.to_nat f); lia).
  do 32 (destruct n as [|n]; [done|]). lia.
Qed.
Lemma running_fa_ok : pmm_fa_ok (vm_pmm running_vmm).
Proof.
  split; [split; [split|]|]; try (cbn; unfold block_ok, frame_io, MMAP_IO_BASE; lia).
  split; [cbn; lia|]. intros f x [Hf Hfree] Hx Hp. change (0 ≤ f < 128) in Hf.
  change (in_block (frame_io 1) 128 x) in Hp. unfold in_block, frame_io in *. assert (f = 1) as -> by lia.
  by destruct (running_page_used 1 ltac:(lia)).
Qed.
Lemma running_space_ok f : 2 ≤ f < 32 →
  space_ok running_vmm (frame_io f) ∧ ∀ p t, valid_path p → table_at (vm_mem running_vmm) (frame_io f) p = Some t → p = [] ∧ t = frame_io f.
Proof.
  intros Hf. apply blank_space; [exact running_fa_ok|change (0 ≤ f < 8 * 128); lia|apply running_page_used; lia| |].
  - intros x Hx Hpr. change (in_block (frame_io 1) 128 x) in Hpr. unfold in_block, frame_io in *. lia.
  - intros i Hi. apply load_le_zero. intros x Hx. unfold in_block, entry_addr, frame_io, MMAP_IO_BASE in Hx.
    change (u8 (running_bytes (u64 x)) = 0). rewrite u64_small by lia. unfold running_bytes, frame_io, MMAP_IO_BASE.
    rewrite (proj2 (Z.ltb_ge _ _)) by lia. by rewrite andb_false_r.
Qed.
Lemma running_spaces_ok : spaces_ok running_vmm running_spaces.
Proof.
  assert (∀ r, r ∈ running_spaces → ∃ f, 2 ≤ f < 32 ∧ r = frame_io f) as Hroot.
  { intros r (f & -> & Hf)%list_elem_of_fmap. exists f. split; [|done]. rewrite !elem_of_cons, elem_of_nil in Hf. lia. }
  apply blank_spaces. intros r (f & Hf & ->)%Hroot. by apply running_space_ok.
Qed.
Lemma running_compat_ok : compat_ok running_spaces (mk_compat running_vmm None).
Proof.
  split; [exact running_spaces_ok|by left|by left|done|].
  intros x Hx. change (in_block (frame_io 1) 128 x) in Hx. unfold in_block, frame_io in Hx. lia.
Qed.
Definition running_kernel : kernel running_memory := sample_ipc_on (mk_running (mk_la (mk_compat running_vmm None) heap_init)).
Lemma running_kernel_ok : kernel_ok running_kernel.
Proof.
  apply sample_ipc_on_ok; [done|]. exists [], [], running_spaces. split; [exact (isolated_init _ _ running_compat_ok)|].
  intros c (i & Hi & ->). assert (mmap_phys_to_io (0x7000 * (i + 1)) = frame_io (7 * (i + 1))) as ->.
  { unfold mmap_phys_to_io, frame_io, MMAP_IO_BASE. rewrite u64_small by lia. lia. }
  apply list_elem_of_fmap_2'  with (x := 7 * (i + 1)); [|done]. rewrite !elem_of_cons. lia.
Qed.

(** ** The mailboxes in the kernel's memory *)

(** No two mailboxes share a byte, and none has one of the bitmap, of a free frame
    or of a table of an address space; the spaces of all processes are among
    [Rs], and well formed with everything else the allocators keep. *)
Record mail_apart (s : sched_state running_memory) (Rs : list Z) : Prop := {
  ma_memory : compat_ok Rs (mk_compat (cs_vmm (la_sys (rn_memory (sc_k s)))) (Some (running_root (rn_memory (sc_k s)))));
  ma_spaces i x : entry s i = Some x → mmap_phys_to_io (mmap_io_to_phys (pml x)) ∈ Rs;
  ma_mailboxes i j x y a b : i ≠ j → entry s i = Some x → entry s j = Some y →
    a ∈ mail_block (mailbox x) → b ∈ mail_block (mailbox y) → blocks_disjoint a.1 a.2 b.1 b.2;
  ma_manager i x a p : entry s i = Some x → a ∈ mail_block (mailbox x) → in_block a.1 a.2 p →
    ¬ manager_byte Rs (la_sys (rn_memory (sc_k s))) p
}.
(** What is in [all_mail]. *)
Lemma mail_block_all (s : sched_state running_memory) i x a : table_ok s → entry s i = Some x → a ∈ mail_block (mailbox x) → a ∈ all_mail s.
Proof. intros Ht Hx Ha. rewrite (all_mail_split s i x Ht Hx). apply elem_of_app. by left. Qed.
Lemma mail_block_other (s : sched_state running_memory) i j x y : table_ok s → i ≠ j → entry s i = Some x → entry s j = Some y →
  ∃ l, all_mail s ≡ₚ mail_block (mailbox x) ++ mail_block (mailbox y) ++ l.
Proof.
  intros Ht Hne Hx Hy. pose proof (all_mail_split s i x Ht Hx) as Hsplit. unfold other_mail in Hsplit.
  pose proof (entry_bound _ _ _ Ht Hy) as Hj. set (l := filter _ _) in Hsplit.
  assert (Z.to_nat j ∈ l) as Hin.
  { apply list_elem_of_filter. split; [lia|]. apply elem_of_seq. lia. }
  apply elem_of_Permutation in Hin as [l' Hl']. exists (l' ≫= mail_of s). rewrite Hsplit, Hl', bind_cons.
  unfold mail_of at 1. by rewrite Z2Nat.id, Hy by lia.
Qed.
Lemma kernel_mail_apart (k : kernel running_memory) : kernel_ok k → ∃ Rs, mail_apart (kn_sched k) Rs.
Proof.
  intros Hok. set (s := kn_sched k). pose proof (so_table _ (ko_sched _ Hok)) as Ht. fold s in Ht.
  destruct (ko_held _ Hok) as (A & F & Rs & [Hi Hroots]). fold s in Hi, Hroots. exists Rs.
  destruct (isolated_apart _ Hi) as [[Hnd Hdis] _ _ Hman]. cbn [hd_areas hd_state hd_spaces] in *. split.
  - assert (running_root (rn_memory (sc_k s)) ∈ Rs) as Hr by (apply Hroots, (running_space k Hok)).
    destruct (is_heap _ (isolated_switch Rs _ _ _ _ Hi Hr)) as (R & v & c & Hh & _). exact (be_ok _ _ _ _ _ (heap_sys _ _ _ _ _ _ Hh)).
  - intros i x Hx. apply Hroots. by exists i, x.
  - intros i j x y a b Hne Hx Hy Ha Hb. destruct (mail_block_other s i j x y Ht Hne Hx Hy) as [l Hl].
    assert (∀ i x a, entry s i = Some x → a ∈ mail_block (mailbox x) → a ∈ all_mail s ++ A) as Hall.
    { intros i' z c Hz Hc. apply elem_of_app. left. by eapply mail_block_all. }
    destruct (Hdis a b (Hall i x a Hx Ha) (Hall j y b Hy Hb)) as [<-|]; [|done]. exfalso. rewrite Hl, <- !app_assoc, NoDup_app in Hnd. destruct Hnd as (_ & Hno & _). apply (Hno a Ha), elem_of_app. by left.
  - intros i x a p Hx Ha Hp. apply Hman. left. exists a. split; [|done]. apply elem_of_app. left. by eapply mail_block_all.
Qed.

(** Between two states of the running kernel the user's half of the processes'
    spaces leads where it led, and what is held besides the mailboxes, the
    processes' frames among it, is held on with the bytes it had. *)
Record memory_steady (s s' : sched_state running_memory) : Prop := {
  ms_views i x v : entry s' i = Some x → user_address v → let r := mmap_phys_to_io (mmap_io_to_phys (pml x)) in
    leaf (ks_mem (sc_k s')) r v = leaf (ks_mem (sc_k s)) r v;
  ms_held A F Rs : held_running (sc_k s) (space_roots s) (all_mail s) A F Rs →
    held_running (sc_k s') (space_roots s') (all_mail s') A F Rs ∧
    ∀ x, area_byte A x ∨ frame_byte F x → load8 (ks_mem (sc_k s')) x = load8 (ks_mem (sc_k s)) x
}.


(** The test program there: the theorems on it hold too. *)
Definition running_system : system running_memory := sample_system_on running_kernel.
Lemma running_booted : booted sample_layout running_system.
Proof. apply sample_booted_on, running_kernel_ok. Qed.

(** A page mapped in the space of process 0. *)
Lemma running_supply : fa_supply 3 (vm_pmm running_vmm).
Proof.
  change (pmm_supply 3 (vm_pmm running_vmm)).
  split; [cbn; lia|]. exists [32; 33; 34]. split_and!; [repeat constructor|done|].
  repeat (apply Forall_cons; split; [split; [cbn; lia|reflexivity]|]). constructor.
Qed.
