(* ===== verification/Ubsan.v ===== *)
(** kernel/tinyubsan.c: the handlers the compiler's undefined-behaviour checks
    call.  Each prints one line and returns to the code that misbehaved. *)
From S2P Require Import Prelude Machine CString Fmt Services Sched Kernel.
From Stdlib Require Import Strings.String.

Record tu_source_location : Type := mk_location { file : charp; line : Z; column : Z }.
(** The fields the handlers read; [log_alignment] is an [unsigned char]. *)
Record tu_overflow_data : Type := mk_overflow { ov_location : tu_source_location }.
Record tu_shift_out_of_bounds_data : Type := mk_shift { sh_location : tu_source_location }.
Record tu_invalid_value_data : Type := mk_invalid { iv_location : tu_source_location }.
Record tu_array_out_of_bounds_data : Type := mk_bounds { ab_location : tu_source_location }.
Record tu_type_mismatch_v1_data : Type := mk_mismatch { tm_location : tu_source_location; log_alignment : Z }.
Record tu_negative_vla_data : Type := mk_vla { vl_location : tu_source_location }.
Record tu_nonnull_return_data : Type := mk_nonnull_return { nr_location : tu_source_location }.
Record tu_nonnull_arg_data : Type := mk_nonnull_arg { na_location : tu_source_location }.
Record tu_unreachable_data : Type := mk_unreachable { un_location : tu_source_location }.
Record tu_invalid_builtin_data : Type := mk_builtin { ib_location : tu_source_location }.

Section ubsan.
Context {K : Type} `{KernelServices K} (stack : list Z).

Definition tu_print_location (message : charp) (loc : tu_source_location) : M (kernel K) unit :=
  kprint stack (lit (ESC ++ "[31mTinyUBsan" ++ ESC ++ "[0m: {} at file {}, line {}, column {}" ++ NL)%string)
    [fmtvals message; fmtvals (file loc); fmtvald (line loc); fmtvald (column loc)].

Definition __ubsan_handle_add_overflow (data : tu_overflow_data) := tu_print_location (lit "addition overflow") (ov_location data).
Definition __ubsan_handle_sub_overflow (data : tu_overflow_data) := tu_print_location (lit "subtraction overflow") (ov_location data).
Definition __ubsan_handle_mul_overflow (data : tu_overflow_data) := tu_print_location (lit "multiplication overflow") (ov_location data).
Definition __ubsan_handle_divrem_overflow (data : tu_overflow_data) := tu_print_location (lit "division overflow") (ov_location data).
Definition __ubsan_handle_negate_overflow (data : tu_overflow_data) := tu_print_location (lit "negation overflow") (ov_location data).
Definition __ubsan_handle_pointer_overflow (data : tu_overflow_data) := tu_print_location (lit "pointer overflow") (ov_location data).
Definition __ubsan_handle_shift_out_of_bounds (data : tu_shift_out_of_bounds_data) :=
  tu_print_location (lit "shift out of bounds") (sh_location data).
Definition __ubsan_handle_load_invalid_value (data : tu_invalid_value_data) :=
  tu_print_location (lit "invalid load value") (iv_location data).
Definition __ubsan_handle_out_of_bounds (data : tu_array_out_of_bounds_data) :=
  tu_print_location (lit "array out of bounds") (ab_location data).
Definition __ubsan_handle_type_mismatch_v1 (data : tu_type_mismatch_v1_data) (ptr : Z) :=
  if ptr =? 0 then tu_print_location (lit "use of NULL pointer") (tm_location data)
  else if truth (Z.land ptr (u64 (s32 (Z.shiftl 1 (log_alignment data)) - 1))) then
    tu_print_location (lit "use of misaligned pointer") (tm_location data)
  else tu_print_location (lit "no space for object") (tm_location data).
Definition __ubsan_handle_vla_bound_not_positive (data : tu_negative_vla_data) :=
  tu_print_location (lit "variable-length argument is negative") (vl_location data).
Definition __ubsan_handle_nonnull_return (data : tu_nonnull_return_data) :=
  tu_print_location (lit "non-null return is null") (nr_location data).
Definition __ubsan_handle_nonnull_arg (data : tu_nonnull_arg_data) :=
  tu_print_location (lit "non-null argument is null") (na_location data).
Definition __ubsan_handle_builtin_unreachable (data : tu_unreachable_data) :=
  tu_print_location (lit "unreachable code reached") (un_location data).
Definition __ubsan_handle_invalid_builtin (data : tu_invalid_builtin_data) :=
  tu_print_location (lit "invalid builtin") (ib_location data).
End ubsan.

Section theorems.
Context {K : Type} `{KernelServicesLaws K}.
Context (stack : list Z) (Hstack : List.length stack = 32%nat).

Definition file_ok (loc : tu_source_location) : Prop := ∃ t l, file loc = Some l ∧ cstr t l.

(** A report prints and returns: the kernel goes on with its state unchanged. *)
Lemma tu_print_location_returns message loc (k : kernel K) :
  lit_okb message = true → file_ok loc → serial_lock k = 0 →
  wp (tu_print_location stack (lit message) loc) (λ _, printed k) k.
Proof.
  intros Hm Hf Hl. apply kprint_returns; [done|vm_compute; reflexivity| |done].
  repeat constructor; [by apply lit_value|exact Hf|apply fmtvald_ok..].
Qed.

(** What the pointer check reports, and that it returns: NULL, an address that
    is not a multiple of the alignment, or any other. *)
Lemma type_mismatch_returns data ptr n (k : kernel K) :
  0 ≤ n < 31 → log_alignment data = n → 0 ≤ ptr < 0x10000000000000000 → file_ok (tm_location data) → serial_lock k = 0 →
  __ubsan_handle_type_mismatch_v1 stack data ptr =
    tu_print_location stack (lit (if ptr =? 0 then "use of NULL pointer"
      else if ptr mod 2 ^ n =? 0 then "no space for object" else "use of misaligned pointer")) (tm_location data) ∧
  wp (__ubsan_handle_type_mismatch_v1 stack data ptr) (λ _, printed k) k.
Proof.
  intros Hn Hlog Hptr Hf Hl.
  assert (__ubsan_handle_type_mismatch_v1 stack data ptr =
    tu_print_location stack (lit (if ptr =? 0 then "use of NULL pointer"
      else if ptr mod 2 ^ n =? 0 then "no space for object" else "use of misaligned pointer")) (tm_location data)) as Heq.
  { unfold __ubsan_handle_type_mismatch_v1. rewrite Hlog, Z.shiftl_1_l. destruct (ptr =? 0); [done|].
    assert (0 < 2 ^ n ≤ 0x40000000) as Hp.
    { split; [apply Z.pow_pos_nonneg; lia|]. change 0x40000000 with (2 ^ 30). apply Z.pow_le_mono_r; lia. }
    rewrite s32_small, u64_small by lia. replace (2 ^ n - 1) with (Z.ones n) by (rewrite Z.ones_equiv; lia).
    rewrite Z.land_ones by lia. unfold truth. by destruct (ptr mod 2 ^ n =? 0). }
  split; [exact Heq|]. rewrite Heq. apply tu_print_location_returns; [|done|done].
  destruct (ptr =? 0); [reflexivity|]. by destruct (ptr mod 2 ^ n =? 0).
Qed.
End theorems.
