(* ===== verification/Acpi.v ===== *)
(** arch/cross-x86/acpi.c and acpi.h: the search of the ACPI tables for the local
    APIC, its registers and its timer.  Log calls are left out.  The registers
    are memory-mapped: a [Registers] is the device's state with its answer to a
    32-bit read and write of an address. *)
From S2P Require Import Prelude Machine CString Range Handover Devices.

Class Registers (R : Type) : Type := {
  reg_read : Z → R → Z * R;
  reg_write : Z → Z → R → R
}.

Definition LAPIC_CPU_ID : Z := 0x20.
Definition LAPIC_EOI : Z := 0x0b0.
Definition APIC_TIMER_REG : Z := 0x320.
Definition APIC_TIMER_INITIAL_COUNT : Z := 0x380.
Definition APIC_TIMER_CURRENT_COUNT : Z := 0x390.
Definition APIC_TIMER_DEVIDER : Z := 0x3e0.
Definition APIC_LVT_INT_MASKED : Z := 0x10000.
Definition APIC_LVT_TIMER_MODE_PERIODIC : Z := 0x20000.

(** The fields of [rsdt_descriptor], [rsdt] and [madt] that are read. *)
Definition SIZEOF_RSDT_DESCRIPTOR : Z := 36.
Definition descriptor_length (m : memory) (a : Z) : Z := load32 m (a + 4).
Definition sign (m : memory) (a : Z) : list Z := (λ i, load8 m (a + i)) <$> [0; 1; 2; 3].
Definition otherPtr (m : memory) (a i : Z) : Z := load32 m (a + SIZEOF_RSDT_DESCRIPTOR + 4 * i).
Definition madt_lapic (m : memory) (a : Z) : Z := load32 m (a + SIZEOF_RSDT_DESCRIPTOR).

Record acpi (R B : Type) : Type := mk_acpi {
  ac_mem : memory;
  lapic_addr : Z;              (** the file's static variable *)
  ac_regs : R;
  ac_devices : devices B
}.
Arguments mk_acpi {R B}. Arguments ac_mem {R B}. Arguments lapic_addr {R B}. Arguments ac_regs {R B}. Arguments ac_devices {R B}.

Section acpi.
Context {R B : Type} `{Registers R} `{Bus B}.
Implicit Types s : acpi R B.

Definition set_lapic (v : Z) s : acpi R B := mk_acpi (ac_mem s) v (ac_regs s) (ac_devices s).
Definition set_regs (r : R) s : acpi R B := mk_acpi (ac_mem s) (lapic_addr s) r (ac_devices s).
Definition on_devices {A} (m : M (devices B) A) : M (acpi R B) A :=
  zoom ac_devices (λ d s, mk_acpi (ac_mem s) (lapic_addr s) (ac_regs s) d) m.

(** [reg] and [value] are [uint32_t]. *)
Definition read_register (a : Z) : M (acpi R B) Z := λ s,
  let '(v, r) := reg_read (u64 a) (ac_regs s) in Ok (u32 v, set_regs r s).
Definition lapic_read (reg : Z) : M (acpi R B) Z :=
  gets lapic_addr ≫= λ a,
  assert_ (negb (a =? 0)) ≫= λ _,
  read_register (a + u32 reg).
Definition lapic_write (reg value : Z) : M (acpi R B) unit :=
  modify (λ s, set_regs (reg_write (u64 (lapic_addr s + u32 reg)) (u32 value) (ac_regs s)) s).

(** The body of the loop of [acpi_init]. *)
Definition acpi_entry (rsdt i : Z) : M (acpi R B) unit :=
  gets (λ s, otherPtr (ac_mem s) rsdt i) ≫= λ h,
  gets (λ s, strncmp (Some (sign (ac_mem s) h)) (Some [65; 80; 73; 67; 0]) 4) ≫= λ r,
  lift r ≫= λ r,
  when (r =? 0) (modify (λ s, set_lapic (madt_lapic (ac_mem s) h) s)).
Definition acpi_init (ho : handover) : M (acpi R B) unit :=
  gets (λ s, u64 (descriptor_length (ac_mem s) (rsdt ho) - SIZEOF_RSDT_DESCRIPTOR) / 4) ≫= λ entries,
  forZ (Z.to_nat entries) 0 (acpi_entry (rsdt ho)).

Definition lapic_current_cpu : M (acpi R B) Z := lapic_read LAPIC_CPU_ID ≫= λ v, mret (Z.shiftr v 24).

(** [reads] bounds the wait of [pit_sleep]. *)
Definition apic_timer_init (reads : nat) : M (acpi R B) unit :=
  lapic_write APIC_TIMER_DEVIDER 0x3 ≫= λ _,
  lapic_write APIC_TIMER_INITIAL_COUNT 0xFFFFFFFF ≫= λ _,
  on_devices (pit_sleep reads 10) ≫= λ _,
  lapic_write APIC_TIMER_REG APIC_LVT_INT_MASKED ≫= λ _,
  lapic_read APIC_TIMER_CURRENT_COUNT ≫= λ count,
  let tickIn10ms := u32 (0xFFFFFFFF - count) in
  lapic_write APIC_TIMER_REG (Z.lor 32 APIC_LVT_TIMER_MODE_PERIODIC) ≫= λ _,
  lapic_write APIC_TIMER_DEVIDER 0x3 ≫= λ _,
  lapic_write APIC_TIMER_INITIAL_COUNT tickIn10ms.

Definition lapic_eoi : M (acpi R B) unit := lapic_write LAPIC_EOI 0.

(** ** The table that is found *)

Definition APIC : list Z := [65; 80; 73; 67].
(** The tables the root table points to. *)
Definition acpi_tables (m : memory) (rsdt : Z) : list Z :=
  otherPtr m rsdt <$> seqZ 0 ((descriptor_length m rsdt - SIZEOF_RSDT_DESCRIPTOR) / 4).
Definition madts (m : memory) (tables : list Z) : list Z := filter (λ h, sign m h = APIC) tables.

(** [strncmp] of a signature. *)
Lemma strncmp_sign m h : ∃ r, strncmp (Some (sign m h)) (Some [65; 80; 73; 67; 0]) 4 = Ok r ∧ (r = 0 ↔ sign m h = APIC).
Proof.
  assert (∀ a b, 0 ≤ a < 0x100 → 0 ≤ b < 0x80 → s8 a = s8 b → a = b) as Hinj by (intros; word_lia).
  unfold sign, APIC. cbn [fmap list_fmap].
  pose proof (load8_range m (h + 0)) as R0. pose proof (load8_range m (h + 1)) as R1. pose proof (load8_range m (h + 2)) as R2.
  pose proof (load8_range m (h + 3)) as R3. revert R0 R1 R2 R3.
  generalize (load8 m (h + 0)) (load8 m (h + 1)) (load8 m (h + 2)) (load8 m (h + 3)). intros a b c d R0 R1 R2 R3.
  unfold strncmp. change (Z.to_nat 4) with 4%nat.
  assert (∀ l k i x y, 0 ≤ i → l !! Z.to_nat i = Some x → [65; 80; 73; 67; 0] !! Z.to_nat i = Some y → (2 ≤ List.length l)%nat → 0 ≤ x < 0x100 → 0 < y < 0x80 →
    strncmp_loop (Datatypes.S k) i (Some l) (Some [65; 80; 73; 67; 0]) =
      if decide (x = y) then strncmp_loop k (i + 1) (Some l) (Some [65; 80; 73; 67; 0])
      else Ok (if s8 (nth 1 l 0) <? s8 80 then -1 else 1)) as Hstep.
  { intros [|l0 [|l1 l]] k i x y Hi Hx Hy Hl Rx Ry; cbn in Hl; try lia. cbn [strncmp_loop].
    rewrite (deref_Some _ i x Hi Hx), (deref_Some _ i y Hi Hy). cbn [mbind res_bind nth].
    destruct (Z.eqb_spec (s8 x) (s8 y)) as [He|Hne]; cbn [negb].
    - apply Hinj in He as ->; [|lia..]. rewrite decide_True by done. by rewrite (proj2 (Z.eqb_neq y 0)) by lia.
    - rewrite decide_False by congruence. done. }
  rewrite (Hstep _ 3%nat 0 a 65) by (done || cbn; lia). case_decide; [subst|eexists; split; [done|]; split; [by case_match|congruence]].
  rewrite (Hstep _ 2%nat 1 b 80) by (done || cbn; lia). case_decide; [subst|eexists; split; [done|]; split; [by case_match|congruence]].
  rewrite (Hstep _ 1%nat 2 c 73) by (done || cbn; lia). case_decide; [subst|eexists; split; [done|]; split; [by case_match|congruence]].
  rewrite (Hstep _ 0%nat 3 d 67) by (done || cbn; lia). case_decide; [subst|eexists; split; [done|]; split; [by case_match|congruence]].
  by exists 0.
Qed.

Lemma acpi_loop_run rsdt n i s :
  ∃ s', forZ n i (acpi_entry rsdt) s = Ok (tt, s') ∧
    s' = set_lapic (default (lapic_addr s) (madt_lapic (ac_mem s) <$> last (madts (ac_mem s) (otherPtr (ac_mem s) rsdt <$> seqZ i (Z.of_nat n))))) s.
Proof.
  revert i s. induction n as [|n IH]; intros i s; cbn [forZ].
  - exists s. split; [done|]. by destruct s.
  - rewrite seqZ_cons by lia. replace (Z.pred (Z.of_nat (Datatypes.S n))) with (Z.of_nat n) by lia. rewrite fmap_cons. unfold madts.
    rewrite filter_cons. set (h := otherPtr (ac_mem s) rsdt i). destruct (strncmp_sign (ac_mem s) h) as (r & Hr & Hiff).
    destruct (IH (i + 1) (if r =? 0 then set_lapic (madt_lapic (ac_mem s) h) s else s)) as (s' & Hs' & Heq). exists s'. split.
    + rewrite <- Hs'. rewrite (bind_eq (acpi_entry rsdt i) _ _ tt (if r =? 0 then set_lapic (madt_lapic (ac_mem s) h) s else s)); [done|]. unfold acpi_entry. rewrite (bind_eq _ _ _ h s) by done.
      rewrite (bind_eq _ _ _ (strncmp (Some (sign (ac_mem s) h)) (Some [65; 80; 73; 67; 0]) 4) s) by done.
      rewrite (bind_eq _ _ _ r s) by (by apply lift_Ok). by destruct (r =? 0).
    + rewrite Heq. replace (Z.succ i) with (i + 1) by lia. destruct (Z.eqb_spec r 0) as [E|E].
      * rewrite decide_True by tauto. cbn [ac_mem set_lapic lapic_addr]. fold (madts (ac_mem s) (otherPtr (ac_mem s) rsdt <$> seqZ (i + 1) (Z.of_nat n))).
        rewrite last_cons. destruct (last (madts _ _)) eqn:El; rewrite ?El; done.
      * by rewrite decide_False by tauto.
Qed.

End acpi.

(** ** Two tables, the second the APIC's *)

#[export] Instance silent_registers : Registers unit := { reg_read := λ _ r, (0, r); reg_write := λ _ _ r, r }.
Definition sample_acpi : acpi unit unit :=
  mk_acpi (store_le 4 0x1004 44 (store_le 4 0x1024 0x2000 (store_le 4 0x1028 0x3000
    (store_le 4 0x2000 0x50434146 (store_le 4 0x3000 0x43495041 (store_le 4 0x3024 0xfee00000 (λ _, 0)))))))
    0 tt (mk_devices tt [] true).
