(* ===== verification/Spawn.v ===== *)
(** From a module in memory to an entry of the process table: [task_init] and
    [sched_init] of kernel/sched.c over the services of kernel/elf.c, with what
    they ask of the heap. *)
From S2P Require Import Prelude Machine Range FrameAllocator Services Vec Sched Process Elf.

Notation ld_mem l := (ks_mem (ld_k l)).

(** An area of [n0] bytes at [p] (none when both are 0) was replaced by one of [n]
    bytes at [q]: everything else that was handed out is as it was. *)
Definition resized {K} `{KernelServices K, LoaderView K} (k : K) (p n0 q n : Z) (k' : K) : Prop :=
  lk_ok k' ∧ lk_mapped k' = lk_mapped k ∧ lk_area k' q n ∧
  (∀ t, lk_space k t → lk_space k' t) ∧ hw_cr3 (ks_hw k') = hw_cr3 (ks_hw k) ∧
  (∀ x, 0 ≤ x < 0x10000000000000000 → lk_taken k x ∨ lk_quiet x → ¬ in_block p n0 x → load8 (ks_mem k') x = load8 (ks_mem k) x) ∧
  (∀ x, lk_taken k x → ¬ in_block p n0 x → lk_taken k' x ∧ ¬ in_block q n x) ∧
  (p = 0 → ∀ a m, lk_area k a m → lk_area k' a m).

(** The kernel's heap never answers NULL: its page provider asserts first. *)
Class SpawnServices (K : Type) `{LoaderServices K} : Prop := {
  sp_area k p n x : lk_ok k → lk_area k p n → in_block p n x → lk_taken k x;
  sp_malloc n k :
    lk_ok k → 0 < n ≤ 0x40000000 →
    run (ks_malloc n) (λ p k', kept k k' ∧ lk_mapped k' = lk_mapped k ∧ 0 < p ∧ p + n ≤ 0x10000000000000000 ∧
      ∀ x, in_block p n x → ¬ lk_taken k x ∧ ¬ lk_quiet x ∧ lk_taken k' x) k;
  sp_realloc p n0 n k :
    lk_ok k → p = 0 ∧ n0 = 0 ∨ lk_area k p n0 ∧ 0 < n0 → 0 < n ≤ 0x40000000 →
    run (ks_realloc p n) (λ q k', q ≠ 0 ∧ resized k p n0 q n k') k
}.

Section spawn.
Context {K : Type} `{SpawnServices K}.
Implicit Types s : sched_state K.

Lemma kcalloc_run n k : lk_ok k → 0 < n ≤ 0x40000000 →
  run (kcalloc n) (λ p k', kept k k' ∧ lk_mapped k' = lk_mapped k ∧ 0 < p < 0x10000000000000000 ∧ ¬ lk_taken k p ∧ lk_taken k' p) k.
Proof.
  intros Hok Hn. unfold kcalloc. apply runs_bind. pose proof (sp_malloc n k Hok Hn) as Hm. unfold runs in *.
  destruct (ks_malloc n k) as [[p k1]|e]; [|done]. destruct Hm as (Hk1 & Hmp & Hp & Hend & Hfr).
  rewrite (proj2 (Z.eqb_neq p 0)) by lia. rewrite (bind_eq _ _ _ tt (ks_set_mem (memset p 0 n) k1)) by done.
  assert (steady k1 (ks_set_mem (memset p 0 n) k1)) as Hst.
  { apply lk_frame; [apply Hk1|]. intros x Hx Hno. rewrite load8_memset by (unfold block_ok; lia). rewrite decide_False; [done|]. intros Hin. by apply Hno, Hfr. }
  destruct (Hfr p) as (Hnt & _ & Ht); [unfold in_block; lia|]. cbv [mret M_ret].
  split; [|split; [|split; [lia|split; [done|by apply Hst]]]].
  - destruct Hk1 as (_ & Hm1 & Ht1 & Ha1 & Hs1 & Hc1), Hst as (Hok2 & Ht2 & _ & Ha2 & Hs2 & Hc2).
    split; [done|]. split; [|split; [intros x Hx; by apply Ht2, Ht1|split; [auto|split; [auto|congruence]]]].
    intros x Hx Hxt. unfold ks_set_mem, ks_mem at 1. rewrite ks_get_set. cbn.
    rewrite load8_memset by (unfold block_ok; lia). rewrite decide_False; [by apply Hm1|]. intros Hin. destruct (Hfr x Hin) as (Hxn & Hnq & _). by destruct Hxt.
  - destruct Hst as (_ & _ & -> & _). done.
Qed.

(** A state with one process object more, on another memory. *)
Definition with_process (p : Z) (x : process) (k : K) s : sched_state K := set_k k (set_procs (<[p := x]> (procs s)) s).
Lemma upd_with_process p x k s f : upd_process p f (with_process p x k s) = Ok (tt, with_process p (f x) k s).
Proof. unfold upd_process, with_process. cbn. rewrite lookup_insert_eq. unfold set_k, set_procs. cbn. by rewrite insert_insert_eq. Qed.
Lemma on_k_with_process {A} (m : M K A) p x k s :
  on_k m (with_process p x k s) = match m k with Ok (a, k') => Ok (a, with_process p x k' s) | Err e => Err e end.
Proof. unfold on_k, zoom. cbn. by destruct (m k) as [[]|]. Qed.

(** The objects of the table lie in memory that was handed out. *)
Definition procs_taken (m : gmap Z process) (k : K) : Prop := ∀ p x, m !! p = Some x → lk_taken k p.
Lemma procs_taken_kept m k k' : kept k k' → procs_taken m k → procs_taken m k'.
Proof. intros Hk Hm p x Hp. apply Hk. by eapply Hm. Qed.

Lemma new_process_run s : lk_ok (sc_k s) → procs_taken (procs s) (sc_k s) →
  run new_process (λ p s', ∃ k, s' = with_process p zero_process k s ∧ kept (sc_k s) k ∧ lk_mapped k = lk_mapped (sc_k s) ∧
    0 < p < 0x10000000000000000 ∧ procs s !! p = None ∧ lk_taken k p) s.
Proof.
  intros Hok Htk. unfold new_process. apply runs_bind. pose proof (kcalloc_run SIZEOF_PROCESS (sc_k s) Hok ltac:(done)) as Hc.
  unfold runs in *. unfold on_k, zoom. destruct (kcalloc SIZEOF_PROCESS (sc_k s)) as [[p k]|e]; [|done].
  destruct Hc as (Hk & Hmp & Hp & Hnt & Ht). exists k. split_and!; try done; try lia.
  destruct (procs s !! p) as [x|] eqn:Hx; [|done]. exfalso. by apply Hnt, (Htk p x).
Qed.

(** The process [task_init] makes. *)
Definition spawned (pml0 rip0 b : Z) (st : range_t) : process :=
  p_set_regs (set_reg rflags 0x202 (set_reg rbp USER_STACK_BASE (set_reg rsp (USER_STACK_BASE + KERNEL_STACK_SIZE)
    (set_reg rip rip0 (set_reg cs 0x23 (set_reg ss 0x1b zero_regs))))))
  (p_set_mailbox vec_init (p_set_stack st (p_set_kstack b (u64 (b + KERNEL_STACK_SIZE))
    (p_set_state TASK_RUNNING (p_set_pml pml0 zero_process))))).
(** The mapping of its stack. *)
Definition stack_mapping (pml0 : Z) (st : range_t) : Z * range_t * range_t * bool :=
  (pml0, mk_range USER_STACK_BASE KERNEL_STACK_SIZE, st, true).

Lemma task_init_run pml0 rip0 s : lk_ok (sc_k s) → lk_space (sc_k s) pml0 → usertask_lock s = 0 → procs_taken (procs s) (sc_k s) →
  run (task_init pml0 rip0) (λ p s', ∃ b st k, s' = with_process p (spawned pml0 rip0 b st) k (set_usertask_lock 0 s) ∧
    kept (sc_k s) k ∧ lk_mapped k = lk_mapped (sc_k s) ++ [stack_mapping pml0 st] ∧ (length st = KERNEL_STACK_SIZE ∧ fresh_frames (sc_k s) k st) ∧
    0 < p < 0x10000000000000000 ∧ procs s !! p = None ∧ lk_taken k p) s.
Proof.
  intros Hok Hsp Hl Htk. unfold task_init. destruct (kept_irq false (sc_k s) Hok) as [Hk0 Hm0].
  set (s0 := set_usertask_lock 1 (set_k (ks_set_hw (hw_set_if false (sc_hw s)) (sc_k s)) s)).
  eapply (runs_eq _ _ _ _ _ tt s0); [unfold acquire; by rewrite Hl|]. apply runs_bind.
  eapply runs_post; [|apply (new_process_run s0); [apply Hk0|by eapply procs_taken_kept]].
  intros p s1 (k1 & -> & Hk1 & Hm1 & Hp & Hnew & Htp). cbn [procs s0 set_usertask_lock set_k] in Hnew.
  do 4 (eapply runs_eq; [apply upd_with_process|]).
  apply runs_bind. unfold runs at 1. rewrite on_k_with_process.
  pose proof (sp_malloc KERNEL_STACK_SIZE k1 (proj1 Hk1) ltac:(done)) as Hb. unfold runs in Hb.
  destruct (ks_malloc KERNEL_STACK_SIZE k1) as [[b k2]|e]; [|done]. destruct Hb as (Hk2 & Hm2 & _).
  eapply runs_eq; [apply upd_with_process|]. apply runs_bind. unfold runs at 1. rewrite on_k_with_process.
  pose proof (lk_alloc KERNEL_STACK_SIZE k2 (proj1 Hk2) ltac:(done) ltac:(done)) as Hst. unfold runs in Hst.
  destruct (ks_pmm_alloc KERNEL_STACK_SIZE k2) as [[st k3]|e]; [|done]. destruct Hst as (Hk3 & Hm3 & Hr).
  do 2 (eapply runs_eq; [apply upd_with_process|]). destruct (Z.eqb_spec (length st) 0) as [Hz|Hnz].
  { apply runs_bind. unfold truth. rewrite Hz. apply lk_assert. }
  destruct Hr as [?|(Hlen & Hpf & Hrx)]; [done|]. eapply runs_eq; [unfold truth; rewrite (proj2 (Z.eqb_neq _ _) Hnz); done|].
  apply runs_bind. unfold runs at 1. rewrite on_k_with_process.
  assert (kept (sc_k s) k3) as Hk03 by (do 3 (eapply mem_kept_trans; [eassumption|]); done).
  pose proof (lk_map pml0 (mk_range USER_STACK_BASE KERNEL_STACK_SIZE) st true k3 (proj1 Hk3) ltac:(by apply Hk03) Hlen ltac:(done)) as Hmap. unfold runs in Hmap.
  destruct (ks_vmm_map _ _ _ _ k3) as [[[] k4]|e]; [|done]. destruct Hmap as (Hk4 & Hm4).
  eapply runs_eq; [apply upd_with_process|]. destruct (kept_irq true k4 (proj1 Hk4)) as [Hk5 Hm5].
  eapply runs_eq; [done|]. apply runs_ret. exists b, st, (ks_set_hw (hw_set_if true (ks_hw k4)) k4).
  split; [done|]. split; [by do 2 (eapply mem_kept_trans; [eassumption|])|].
  split; [rewrite Hm5, Hm4, Hm3, Hm2, Hm1; by rewrite <- Hm0|]. split; [|split; [done|split; [done|]]].
  { split; [done|]. apply (fresh_frames_before _ k2); [exact (mem_kept_trans _ _ _ Hk0 (mem_kept_trans _ _ _ Hk1 Hk2))|].
    apply (fresh_frames_after _ k3); [exact (mem_kept_trans _ _ _ Hk4 Hk5)|]. split; [done|]. intros x Hx. rewrite Hlen in Hx. by destruct (Hrx x Hx) as (? & _ & ?). }
  apply Hk5, Hk4, Hk3, Hk2, Htp.
Qed.

(** *** The first process *)

Definition kernel_process (pml0 : Z) : process := p_set_pml pml0 (p_set_state TASK_RUNNING (p_set_pid 0 zero_process)).
Definition started (p : Z) (v : vec Z) (pml0 : Z) (k : K) s : sched_state K :=
  set_flags true true (set_processes v (with_process p (kernel_process pml0) k s)).
Lemma resized_none k q n k' : resized k 0 0 q n k' → kept k k'.
Proof.
  intros (Hok & _ & _ & Hs & Hc & Hm & Ht & Ha). assert (∀ x, ¬ in_block 0 0 x) as Hno by (intros x; unfold in_block; lia).
  split; [done|]. split; [auto|]. split; [intros x Hx; by apply Ht|]. by repeat split; auto.
Qed.
Lemma sched_init_run s : lk_ok (sc_k s) → procs_taken (procs s) (sc_k s) →
  run sched_init (λ _ s', ∃ p v pml0 k, s' = started p v pml0 k s ∧
    kept (sc_k s) k ∧ lk_mapped k = lk_mapped (sc_k s) ∧ vec_ok v ∧ vec_list v = [p] ∧ v_length v = 1 ∧
    0 < p < 0x10000000000000000 ∧ procs s !! p = None ∧ lk_taken k p ∧
    pml0 = mmap_phys_to_io (hw_cr3 (ks_hw k)) ∧ (lk_area k (v_ptr v) (v_capacity v * 8) ∧ 0 < v_capacity v)) s.
Proof.
  intros Hok Htk. unfold sched_init. set (s0 := set_processes vec_init s). eapply (runs_eq _ _ _ _ _ tt s0); [done|]. apply runs_bind.
  eapply runs_post; [|by apply (new_process_run s0)]. intros p s1 (k1 & -> & Hk1 & Hm1 & Hp & Hnew & Htp).
  do 2 (eapply runs_eq; [apply upd_with_process|]). eapply runs_eq; [done|]. eapply runs_eq; [apply upd_with_process|].
  set (cr3 := hw_cr3 _). set (x := p_set_pml _ _). apply runs_bind. unfold runs at 1, push_process.
  rewrite (bind_eq _ _ _ vec_init (with_process p x k1 s0)) by done.
  pose proof (sp_realloc 0 0 8 k1 (proj1 Hk1) ltac:(by left) ltac:(done)) as Hre. unfold runs in Hre. destruct (ks_realloc 0 8 k1) as [[ptr k2]|e] eqn:Er.
  - destruct Hre as (Hptr & Hre). assert (kept k1 k2) as Hk2 by by apply (resized_none k1 ptr 8). destruct Hre as (_ & Hm2 & Har & _).
    destruct (push_spec ks_realloc 8 vec_init p k1 ptr k2 vec_init_ok ltac:(done) (λ _, conj Er Hptr)) as (v & Hpush & Hv & Hlist & Hlen).
    rewrite decide_True in Hpush by done. rewrite (bind_eq _ _ _ v (with_process p x k2 s0)) by (rewrite on_k_with_process; by rewrite Hpush).
    pose proof (push_array ks_realloc 8 vec_init p k1 v k2 vec_init_ok ltac:(done) Hpush) as Hpa. rewrite decide_True in Hpa by done.
    destruct Hpa as (Hr & _ & Hcap). change (ks_realloc 0 8 k1 = Ok (v_ptr v, k2)) in Hr. rewrite Er in Hr. injection Hr as Hr. change (v_capacity v = 1) in Hcap.
    exists p, v, (mmap_phys_to_io cr3), k2. split; [done|]. split; [by eapply mem_kept_trans|]. split; [by rewrite Hm2|].
    split; [done|]. split; [done|]. split; [exact Hlen|]. split; [done|]. split; [done|]. split; [by apply Hk2|]. split.
    + f_equal. destruct Hk2 as (_ & _ & _ & _ & _ & ->). done.
    + rewrite <- Hr, Hcap. by split.
  - rewrite (bind_Err _ _ _ e); [done|].
    rewrite on_k_with_process. by rewrite (push_fails ks_realloc 8 vec_init p k1 e vec_init_ok).
Qed.

Lemma started_ok s p v pml0 k :
  sched_lock s = 0 → usertask_lock s = 0 → 0 ≤ tick s ≤ SWITCH_TICK → current_pid s = 0 → last_pid s = 1 →
  vec_ok v → vec_list v = [p] → v_length v = 1 → 0 < p < 0x10000000000000000 →
  sched_ok (started p v pml0 k s).
Proof.
  intros Hl Hu Ht Hc Hla Hv Hlist Hlen Hp. split; [split|done|done]; unfold table_length; cbn; [done|lia|lia| |lia].
  intros i q. rewrite Hlist. intros Hq%list_lookup_singleton_Some. destruct Hq as [-> <-]. split; [done|].
  rewrite lookup_insert_eq. by exists (kernel_process pml0).
Qed.

(** *** A process from a module *)

(** What the making of a process adds to the mappings. *)
Definition process_mappings (m : memory) (ps : list Z) (pml0 : Z) (rs : list range_t) (st : range_t) : list (Z * range_t * range_t * bool) :=
  zip_with (mapping m pml0) ps rs ++ [stack_mapping pml0 st].
Record load_ready (elf : range_t) (l : loader K) : Prop := {
  lr_locks : ld_lock l = 0 ∧ usertask_lock (ld_sched l) = 0;
  lr_ok : lk_ok (ld_k l);
  lr_image : image_ok elf (ld_mem l) (image_phdrs (ld_mem l) elf);
  lr_procs : procs_taken (procs (ld_sched l)) (ld_k l)
}.
Lemma image_phdrs_same elf k k' : kept k k' → quiet_block (base elf) 64 → block_ok (base elf) 64 → image_phdrs (ks_mem k') elf = image_phdrs (ks_mem k) elf.
Proof. intros Hu Hq Hb. unfold image_phdrs. by destruct (elf_header_same elf k k' Hu Hq Hb) as (-> & -> & _ & ->). Qed.
Lemma image_ok_kept elf k k' : kept k k' → image_ok elf (ks_mem k) (image_phdrs (ks_mem k) elf) → image_ok elf (ks_mem k') (image_phdrs (ks_mem k') elf).
Proof. intros Hk Him. rewrite (image_phdrs_same elf k k' Hk) by apply Him. by apply (image_ok_same elf _ k k'). Qed.

Lemma load_module_run elf l : load_ready elf l →
  let ps := loadable (ld_mem l) (image_phdrs (ld_mem l) elf) in
  run (load_elf_module elf) (λ p l', ∃ pml0 rs b st k,
    ld_sched l' = with_process p (spawned pml0 (e_entry (ld_mem l) (base elf)) b st) k (ld_sched l) ∧
    kept (ld_k l) k ∧ lk_mapped k = lk_mapped (ld_k l) ++ process_mappings (ld_mem l) ps pml0 rs st ∧
    Forall2 (λ p r, loaded elf (ld_mem l) p r (ks_mem k)) ps rs ∧ (length st = KERNEL_STACK_SIZE ∧ Forall (fresh_frames (ld_k l) k) (st :: rs)) ∧
    0 < p < 0x10000000000000000 ∧ procs (ld_sched l) !! p = None ∧ (¬ lk_space (ld_k l) pml0 ∧ lk_space k pml0) ∧ load_ready elf l') l.
Proof.
  intros [[Hl Hu] Hok Him Hpr] ps. destruct (load_elf_module_cases elf l Hl Hok Him) as [(e & He & Herr)|(pml0 & l1 & Hd & Hl1 & Hnsp & Hsp & Heq)].
  { unfold runs. by rewrite Herr. }
  unfold runs. rewrite Heq. destruct Hd as ([Hk1 Hs1] & _ & rs & Hf & Hfr & Hmp). fold ps in Hf, Hmp.
  assert (procs (ld_sched l1) = procs (ld_sched l)) as Hpr1 by by rewrite Hs1.
  assert (procs_taken (procs (ld_sched l)) (ld_k l1)) as Hpt1 by by eapply procs_taken_kept.
  pose proof (task_init_run pml0 (e_entry (ld_mem l) (base elf)) (ld_sched l1) ltac:(apply Hk1) Hsp ltac:(by rewrite Hs1) ltac:(by rewrite Hpr1)) as Ht.
  unfold on_task, zoom, runs in *. destruct (task_init _ _ (ld_sched l1)) as [[p s2]|e]; [|done].
  destruct Ht as (b & st & k & -> & Hk & Hm & [Hst Hfst] & Hp & Hnew & Htp). rewrite Hpr1 in Hnew. change (sc_k (ld_sched l1)) with (ld_k l1) in Hk, Hm.
  set (x := spawned pml0 _ b st). set (s2 := with_process p x k (set_usertask_lock 0 (ld_sched l1))).
  assert (s2 = with_process p x k (ld_sched l)) as Hs2.
  { unfold s2. rewrite Hs1. destruct l as [[] ?]. cbn in Hu. by subst. }
  assert (kept (ld_k l) k) as Hlk by by eapply mem_kept_trans.
  exists pml0, rs, b, st, k. split; [exact Hs2|]. split; [done|].
  split; [unfold process_mappings; by rewrite Hm, Hmp, <- app_assoc|].
  split; [eapply loaded_all_kept; [exact Hk|exact Hfr|apply loadable_ok, Him|exact Hf]|].
  split; [split; [done|]; constructor; [by apply (fresh_frames_before _ (ld_k l1))|eapply Forall_impl; [exact Hfr|]; intros r; by apply fresh_frames_after]|].
  split; [done|]. split; [done|]. split; [split; [done|by apply Hk]|]. split; cbn [ld_lock ld_sched].
  - split; [exact Hl1|]. by rewrite Hs2.
  - apply Hk.
  - by apply (image_ok_kept elf (ld_k l)).
  - intros q y. change (procs s2) with (<[p := x]> (procs (ld_sched l1))). rewrite Hpr1. change (ld_k (mk_loader s2 (ld_lock l1))) with k.
    intros [[<- <-]|[_ Hq]]%lookup_insert_Some; [done|]. by eapply (procs_taken_kept _ (ld_k l)).
Qed.

(** The same seen from an earlier memory. *)
Lemma load_module_again elf k0 l :
  kept k0 (ld_k l) → image_ok elf (ks_mem k0) (image_phdrs (ks_mem k0) elf) → load_ready elf l →
  let m := ks_mem k0 in let ps := loadable m (image_phdrs m elf) in
  run (load_elf_module elf) (λ p l', ∃ pml0 rs b st k,
    ld_sched l' = with_process p (spawned pml0 (e_entry m (base elf)) b st) k (ld_sched l) ∧
    kept (ld_k l) k ∧ lk_mapped k = lk_mapped (ld_k l) ++ process_mappings m ps pml0 rs st ∧
    Forall2 (λ p r, loaded elf m p r (ks_mem k)) ps rs ∧ (length st = KERNEL_STACK_SIZE ∧ Forall (fresh_frames (ld_k l) k) (st :: rs)) ∧
    0 < p < 0x10000000000000000 ∧ procs (ld_sched l) !! p = None ∧ (¬ lk_space (ld_k l) pml0 ∧ lk_space k pml0) ∧ load_ready elf l') l.
Proof.
  intros Hk Him Hrd m ps. pose proof Him as (Hq & Hb & Hps). eapply runs_post; [|by apply load_module_run].
  rewrite (image_phdrs_same elf k0 _ Hk Hq Hb), (loadable_same elf _ k0 _ Hk Hps). fold m ps.
  destruct (elf_header_same elf k0 _ Hk Hq Hb) as (_ & _ & -> & _).
  intros p l' (pml0 & rs & b & st & k & Hs & Hk' & Hm & Hf & Hrest). fold m in Hs.
  destruct (loaded_all_same elf pml0 ps rs k0 (ld_k l) _ Hk (loadable_ok _ _ _ Hps) Hf) as [Hf' Hz].
  exists pml0, rs, b, st, k. split; [done|]. split; [done|]. split; [|by split]. rewrite Hm. unfold process_mappings. by rewrite Hz.
Qed.

(** *** Pushing it *)

(** The array of the process table is an area of the heap, once there is one. *)
Definition vector_area s : Prop :=
  v_ptr (processes s) = 0 ∧ v_capacity (processes s) * 8 = 0 ∨
  lk_area (sc_k s) (v_ptr (processes s)) (v_capacity (processes s) * 8) ∧ 0 < v_capacity (processes s) * 8.
Definition in_vector s (x : Z) : Prop := in_block (v_ptr (processes s)) (v_capacity (processes s) * 8) x.

(** The entry [i] that pushing the object [x] makes. *)
Definition pushed_as (x : process) (i : Z) (y : process) : Prop :=
  pid y = i ∧ pml y = pml x ∧ state y = state x ∧ stack y = stack x ∧ mailbox y = mailbox x ∧
  (∀ r, regs y r = if decide (r = rdi) then 0 else if decide (r = rsi) then 0
                   else if decide (r = rdx) then 0 else if decide (r = rcx) then 0 else regs x r).
(** What pushing leaves of the memory: all but the old array of the table. *)
Record push_kept s s' : Prop := {
  pk_ok : lk_ok (sc_k s') ∧ lk_mapped (sc_k s') = lk_mapped (sc_k s);
  pk_vector : vector_area s';
  pk_memory x : 0 ≤ x < 0x10000000000000000 → lk_taken (sc_k s) x ∨ lk_quiet x → ¬ in_vector s x →
    load8 (ks_mem (sc_k s')) x = load8 (ks_mem (sc_k s)) x;
  pk_taken x : lk_taken (sc_k s) x → ¬ in_vector s x → lk_taken (sc_k s') x ∧ ¬ in_vector s' x;
  pk_spaces t : lk_space (sc_k s) t → lk_space (sc_k s') t;
  pk_cr3 : hw_cr3 (sc_hw s') = hw_cr3 (sc_hw s)
}.
Record push_done (p : Z) (x : process) s s' : Prop := {
  pd_ok : sched_ok s';
  pd_kept : push_kept s s';
  pd_length : table_length s' = table_length s + 1;
  pd_new : ∃ y, entry s' (table_length s) = Some y ∧ pushed_as x (table_length s) y ∧ procs s' = <[p := y]> (procs s);
  pd_old i : 0 ≤ i < table_length s → entry s' i = entry s i;
  pd_list : vec_list (processes s') = vec_list (processes s) ++ [p];
  pd_rest : sched_is_init s' = sched_is_init s ∧ is_scheduler s' = is_scheduler s ∧ current_pid s' = current_pid s
}.
(** The table's array was replaced between taking the lock and releasing it. *)
Lemma push_kept_moved s s' k' ptr :
  lk_ok (sc_k s) → resized (locked_k s) (v_ptr (processes s)) (v_capacity (processes s) * 8) ptr (doubled (v_capacity (processes s)) * 8) k' →
  sc_k s' = unlocked_k k' → v_ptr (processes s') = ptr → v_capacity (processes s') = doubled (v_capacity (processes s)) → 0 ≤ v_capacity (processes s) →
  push_kept s s'.
Proof.
  intros Hok (Hok' & Hm' & Har' & Hsp' & Hcr' & Hmem' & Htk' & _) Hk Hp Hc Hc0.
  destruct (kept_irq false (sc_k s) Hok) as [(_ & Hmem1 & Htk1 & _ & Hsp1 & Hcr1) Hm1]. change (ks_set_hw _ (sc_k s)) with (locked_k s) in *.
  destruct (kept_irq true k' Hok') as [(Hok2 & Hmem2 & Htk2 & Har2 & Hsp2 & Hcr2) Hm2]. change (ks_set_hw _ k') with (unlocked_k k') in *.
  split; unfold vector_area, in_vector, sc_hw; rewrite ?Hk, ?Hp, ?Hc.
  - split; [done|]. etrans; [exact Hm2|]. etrans; [exact Hm'|exact Hm1].
  - right. split; [by apply Har2|]. unfold doubled. destruct (Z.eqb_spec (v_capacity (processes s)) 0); lia.
  - intros x Hx Hxt Hno. assert (lk_taken (locked_k s) x ∨ lk_quiet x) as Hxt1 by (destruct Hxt; auto).
    rewrite Hmem2, Hmem', Hmem1; try done. destruct Hxt1 as [Ht|?]; [|by right]. left. by apply Htk'.
  - intros x Hxt Hno. destruct (Htk' x (Htk1 x Hxt) Hno). auto.
  - auto.
  - congruence.
Qed.
Lemma push_kept_same s s' :
  lk_ok (sc_k s) → vector_area s → sc_k s' = unlocked_k (locked_k s) → v_ptr (processes s') = v_ptr (processes s) →
  v_capacity (processes s') = v_capacity (processes s) → push_kept s s'.
Proof.
  intros Hok Hva Hk Hp Hc.
  destruct (kept_irq false (sc_k s) Hok) as [Hk1 Hm1]. change (ks_set_hw _ (sc_k s)) with (locked_k s) in *.
  destruct (kept_irq true (locked_k s) (proj1 Hk1)) as [Hk2 Hm2]. change (ks_set_hw _ (locked_k s)) with (unlocked_k (locked_k s)) in *.
  destruct (mem_kept_trans _ _ _ Hk1 Hk2) as (Hok2 & Hmem & Htk & Har & Hsp & Hcr).
  split; unfold vector_area, in_vector, sc_hw in *; rewrite ?Hk, ?Hp, ?Hc; auto.
  - split; [done|congruence].
  - destruct Hva as [?|[? ?]]; [by left|right; auto].
Qed.

Lemma push_run s p x :
  sched_ok s → lk_ok (sc_k s) → vector_area s → procs s !! p = Some x → p ∉ vec_list (processes s) → 0 < p < 0x10000000000000000 →
  table_length s < 0x1000000 →
  run (sched_push_process1 p) (λ _ s', push_done p x s s') s.
Proof.
  intros Hok Hk Hva Hx Hnew Hp Hlen. destruct (kept_irq false (sc_k s) Hk) as [Hk1 Hm1]. change (ks_set_hw _ (sc_k s)) with (locked_k s) in Hk1, Hm1.
  pose proof (vec_capacity_bound _ (sk_vec _ (so_table _ Hok))) as Hcap. assert (table_length s < 0xffffffff) as Hlen' by lia.
  set (v := processes s) in *. set (n := (if v_capacity v =? 0 then 1 else 2 * v_capacity v) * 8).
  destruct (decide (v_length v = v_capacity v)) as [Hfull|Hroom].
  - assert (u64 n = doubled (v_capacity v) * 8 ∧ 0 < u64 n ≤ 0x40000000) as [Hn Hnb].
    { unfold table_length in Hlen. fold v in Hlen. unfold n, doubled. destruct (Z.eqb_spec (v_capacity v) 0); [done|]. rewrite u64_small; lia. }
    assert (v_ptr v = 0 ∧ v_capacity v * 8 = 0 ∨ lk_area (locked_k s) (v_ptr v) (v_capacity v * 8) ∧ 0 < v_capacity v * 8) as Hva1.
    { destruct Hva as [?|[? ?]]; [by left|right]. split; [by apply Hk1|done]. }
    pose proof (sp_realloc (v_ptr v) (v_capacity v * 8) (u64 n) (locked_k s) (proj1 Hk1) Hva1 Hnb) as Hre. unfold runs in Hre.
    destruct (ks_realloc (v_ptr v) (u64 n) (locked_k s)) as [[ptr k']|e] eqn:Er.
    + destruct Hre as (Hptr & Hre). rewrite Hn in Hre.
      destruct (push_process_run s p x 0 0 0 0 ptr k' Hok Hx Hnew Hp Hlen' (λ _, conj Er Hptr))
        as (s' & y & Hrun & Hok' & Hl' & He' & Hpid & Hpml & Hst & Hstk & Hmb & Hr & Hold & Hlist & Hpr & Hsk & Hi & Hs & Hc & _ & Hvec).
      unfold runs, sched_push_process1. rewrite Hrun. fold v in Hsk, Hvec. rewrite decide_True in Hsk by done. rewrite decide_True in Hvec by done. destruct Hvec as [Hvp Hvc].
      split; try done; [by eapply push_kept_moved; [| |exact Hsk|..]; try done; apply Hcap|by exists y].
    + unfold runs, sched_push_process1, sched_push_process5. destruct Hok as [[Hv _ _ _ Hla] _ [_ Hu]].
      rewrite (bind_eq _ _ _ tt (set_usertask_lock 1 (set_k (locked_k s) s))) by (unfold acquire; by rewrite Hu).
      set (s1 := set_usertask_lock 1 (set_k (locked_k s) s)). rewrite (bind_eq _ _ _ (last_pid s) s1) by done.
      set (s2 := set_last_pid (u64 (last_pid s + 1)) s1). rewrite (bind_eq _ _ _ tt s2) by done.
      set (y := p_set_pid (last_pid s) x). rewrite (bind_eq _ _ _ tt (with_process p y (locked_k s) s2)).
      2: { unfold upd_process. change (procs s2) with (procs s). by rewrite Hx. }
      rewrite (bind_eq _ _ _ _ _ (upd_with_process _ _ _ _ _)). rewrite (bind_Err _ _ _ e); [done|].
      unfold push_process. rewrite (bind_eq _ _ _ v _) by done. rewrite (bind_Err _ _ _ e); [done|].
      rewrite on_k_with_process. rewrite (push_fails ks_realloc 8 v p (locked_k s) e Hv); [done| |done|exact Er].
      unfold table_length in Hlen. change (2 ^ 60) with 0x1000000000000000. unfold v. lia.
  - destruct (push_process_run s p x 0 0 0 0 0 (locked_k s) Hok Hx Hnew Hp Hlen' (λ Hf, False_ind _ (Hroom Hf)))
      as (s' & y & Hrun & Hok' & Hl' & He' & Hpid & Hpml & Hst & Hstk & Hmb & Hr & Hold & Hlist & Hpr & Hsk & Hi & Hs & Hc & _ & Hvec).
    unfold runs, sched_push_process1. rewrite Hrun. fold v in Hsk, Hvec. rewrite decide_False in Hsk by done. rewrite decide_False in Hvec by done. destruct Hvec as [Hvp Hvc].
    split; try done; [by apply push_kept_same|by exists y].
Qed.

(** *** Several processes from one module *)

Record spawn : Type := mk_spawn { sw_ptr : Z; sw_space : Z; sw_frames : list range_t; sw_kstack : Z; sw_stack : range_t }.
Definition spawn_object (m : memory) (elf : range_t) (e : spawn) : process :=
  spawned (sw_space e) (e_entry m (base elf)) (sw_kstack e) (sw_stack e).
Definition segments_of (m : memory) (elf : range_t) : list Z := loadable m (image_phdrs m elf).
Definition spawn_mappings (m : memory) (elf : range_t) (e : spawn) : list (Z * range_t * range_t * bool) :=
  process_mappings m (segments_of m elf) (sw_space e) (sw_frames e) (sw_stack e).
(** All that is mapped in its space. *)
Definition spawn_memory (e : spawn) : list range_t := sw_stack e :: sw_frames e.
Definition spawn_loaded (m : memory) (elf : range_t) (k k' : K) (e : spawn) : Prop :=
  Forall2 (λ p r, loaded elf m p r (ks_mem k')) (segments_of m elf) (sw_frames e) ∧
  length (sw_stack e) = KERNEL_STACK_SIZE ∧ Forall (fresh_frames k k') (spawn_memory e).
Definition memory_byte (e : spawn) (x : Z) : Prop := ∃ r, r ∈ spawn_memory e ∧ in_block (mmap_phys_to_io (base r)) (length r) x.
Definition memories_apart (es : list spawn) : Prop :=
  ∀ (i j : nat) e e' x, es !! i = Some e → es !! j = Some e' → memory_byte e x → memory_byte e' x → i = j.
Lemma memory_byte_fresh k k' e x : Forall (fresh_frames k k') (spawn_memory e) → memory_byte e x → ¬ lk_taken k x ∧ lk_taken k' x.
Proof. rewrite Forall_forall. intros Hf (r & Hr & Hx). by apply (Hf r Hr). Qed.
(** New memory is apart from what was there. *)
Lemma memories_apart_snoc es e k k' : memories_apart es → (∀ e' x, e' ∈ es → memory_byte e' x → lk_taken k x) →
  Forall (fresh_frames k k') (spawn_memory e) → memories_apart (es ++ [e]).
Proof.
  intros Ha Ht Hf i j e1 e2 x Hi Hj Ha1 Ha2.
  assert (∀ (n : nat) e', es !! n = Some e' → memory_byte e' x → memory_byte e x → False) as Hno.
  { intros n e' Hn Hx Hy. apply (memory_byte_fresh k k' e x Hf) in Hy as [Hy _]. apply Hy, (Ht e'); [by eapply list_elem_of_lookup_2|done]. }
  apply lookup_app_Some in Hi as [Hi|[Hi He1]], Hj as [Hj|[Hj He2]].
  - by eapply Ha.
  - apply list_lookup_singleton_Some in He2 as [? <-]. by destruct (Hno _ _ Hi).
  - apply list_lookup_singleton_Some in He1 as [? <-]. by destruct (Hno _ _ Hj).
  - apply list_lookup_singleton_Some in He1 as [? _], He2 as [? _]. lia.
Qed.

(** [l] is [s0] after making the processes of [es], none in the table yet, the
    module as it was in [k0]. *)
Record spawns_done (elf : range_t) (k0 : K) (s0 : sched_state K) (es : list spawn) (l : loader K) : Prop := {
  sd_ready : load_ready elf l;
  sd_kept : kept k0 (ld_k l);
  sd_mapped : lk_mapped (ld_k l) = lk_mapped k0 ++ (es ≫= spawn_mappings (ks_mem k0) elf);
  sd_since : kept (sc_k s0) (ld_k l);
  sd_apart : memories_apart es;
  sd_loaded : Forall (spawn_loaded (ks_mem k0) elf (sc_k s0) (ld_k l)) es;
  sd_spaces : NoDup (sw_space <$> es) ∧ ∀ e, e ∈ es → ¬ lk_space (sc_k s0) (sw_space e) ∧ lk_space (ld_k l) (sw_space e);
  sd_sched : ld_sched l = set_k (ld_k l) (set_procs (procs (ld_sched l)) s0);
  sd_procs e : e ∈ es → procs (ld_sched l) !! sw_ptr e = Some (spawn_object (ks_mem k0) elf e);
  sd_old q x : procs s0 !! q = Some x → procs (ld_sched l) !! q = Some x;
  sd_ptrs : NoDup (sw_ptr <$> es) ∧ ∀ e, e ∈ es → 0 < sw_ptr e < 0x10000000000000000 ∧ procs s0 !! sw_ptr e = None
}.

Lemma spawns_done_nil elf k0 s0 v : kept k0 (sc_k s0) → lk_mapped (sc_k s0) = lk_mapped k0 → load_ready elf (mk_loader s0 v) → spawns_done elf k0 s0 [] (mk_loader s0 v).
Proof.
  intros Hk Hm Hr. assert (∀ e : spawn, e ∈ [] → False) as Hno by (intros e; apply not_elem_of_nil).
  split; try done.
  - cbn. by rewrite app_nil_r.
  - apply mem_kept_refl. apply Hk.
  - split; [constructor|]. intros e He. by destruct (Hno e He).
  - by destruct s0.
  - intros e He. by destruct (Hno e He).
  - split; [constructor|]. intros e He. by destruct (Hno e He).
Qed.

Lemma spawn_loaded_kept m elf k k1 k' e : image_ok elf m (image_phdrs m elf) → kept k1 k' → spawn_loaded m elf k k1 e → spawn_loaded m elf k k' e.
Proof.
  intros Him Hk (Hl & Hst & Hf). split; [eapply loaded_all_kept; [exact Hk|by apply Forall_cons in Hf as [_ Hf]|apply loadable_ok, Him|exact Hl]|].
  split; [done|]. eapply Forall_impl; [exact Hf|]. intros r. by apply fresh_frames_after.
Qed.

Lemma spawns_done_step elf k0 s0 es l :
  image_ok elf (ks_mem k0) (image_phdrs (ks_mem k0) elf) → spawns_done elf k0 s0 es l →
  run (load_elf_module elf) (λ p l', ∃ e, sw_ptr e = p ∧ spawns_done elf k0 s0 (es ++ [e]) l') l.
Proof.
  intros Him [Hr Hk Hmp Hk0 Hap Hld [Hsnd Hsp] Hs Hps Hold [Hnd Hptr]]. eapply runs_post; [|by apply (load_module_again elf k0)].
  intros p l' (pml0 & rs & b & st & k & Hs' & Hk' & Hmp' & Hf & [Hst Hfr] & Hp & Hnew & [Hns Hsn] & Hr').
  assert (ld_k l' = k) as Hlk by (unfold ld_k; by rewrite Hs').
  assert (procs (ld_sched l') = <[p := spawned pml0 (e_entry (ks_mem k0) (base elf)) b st]> (procs (ld_sched l))) as Hpr by by rewrite Hs'.
  assert (∀ e, e ∈ es → sw_ptr e ≠ p) as Hne by (intros e He Heq; rewrite <- Heq, (Hps e He) in Hnew; congruence).
  exists (mk_spawn p pml0 rs b st). split; [done|]. split; rewrite ?Hlk, ?Hpr.
  - done.
  - by eapply mem_kept_trans.
  - rewrite Hmp', Hmp, bind_app, <- app_assoc. cbn [mbind list_bind]. by rewrite app_nil_r.
  - by eapply mem_kept_trans.
  - eapply memories_apart_snoc; [done| |exact Hfr]. intros e x He Hx. rewrite Forall_forall in Hld. destruct (Hld e He) as (_ & _ & Hfe). by eapply memory_byte_fresh.
  - apply Forall_app. split; [eapply Forall_impl; [exact Hld|]; intros e; by apply spawn_loaded_kept|].
    constructor; [|done]. split; [done|]. split; [done|]. eapply Forall_impl; [exact Hfr|]. intros r. by apply fresh_frames_before.
  - split.
    + rewrite fmap_app. apply NoDup_app. split; [done|]. split; [|apply NoDup_singleton].
      intros t [e [-> He]]%list_elem_of_fmap Ht%list_elem_of_singleton. apply Hns. cbn in Ht. rewrite <- Ht. by apply Hsp.
    + intros e [He| ->%list_elem_of_singleton]%elem_of_app.
      * destruct (Hsp e He) as [Hn He']. split; [done|]. by apply Hk'.
      * split; [|done]. intros Hin. by apply Hns, Hk0.
  - rewrite Hs', Hs. unfold with_process. cbn. done.
  - intros e [He| ->%list_elem_of_singleton]%elem_of_app; [|by rewrite lookup_insert_eq].
    rewrite lookup_insert_ne by (intros ?; by eapply Hne). by apply Hps.
  - intros q x Hq. rewrite lookup_insert_ne; [by apply Hold|]. intros ->. rewrite (Hold _ _ Hq) in Hnew. congruence.
  - split.
    + rewrite fmap_app. apply NoDup_app. split; [done|]. split; [|apply NoDup_singleton].
      intros q [e [-> He]]%list_elem_of_fmap Hq%list_elem_of_singleton. by eapply Hne.
    + intros e [He| ->%list_elem_of_singleton]%elem_of_app; [by apply Hptr|]. split; [done|]. cbn.
      destruct (procs s0 !! p) eqn:E; [|done]. rewrite (Hold _ _ E) in Hnew. congruence.
Qed.

(** *** The images while the table grows *)

(** The bytes of the frames the images were loaded into, and of the stacks. *)
Definition image_byte (es : list spawn) (x : Z) : Prop := ∃ e, e ∈ es ∧ memory_byte e x.
(** Since [k1] the bytes [W] are as they were and nobody's array. *)
Record since (k1 : K) (W : Z → Prop) s : Prop := {
  sn_ok : lk_ok (sc_k s) ∧ lk_mapped (sc_k s) = lk_mapped k1;
  sn_vector : vector_area s;
  sn_memory x : 0 ≤ x < 0x10000000000000000 → W x → lk_taken (sc_k s) x ∧ ¬ in_vector s x ∧ load8 (ks_mem (sc_k s)) x = load8 (ks_mem k1) x;
  sn_spaces t : lk_space k1 t → lk_space (sc_k s) t;
  sn_cr3 : hw_cr3 (sc_hw s) = hw_cr3 (ks_hw k1)
}.
Lemma since_push k1 W s s' : since k1 W s → push_kept s s' → since k1 W s'.
Proof.
  intros [[_ Hmp] _ Hm Hsp Hc] [[Hok Hmp'] Hv Hm' Ht Hsp' Hc']. split; [split; [done|congruence]|done| |auto|congruence].
  intros x Hx HW. destruct (Hm x Hx HW) as (Htk & Hno & Heq). destruct (Ht x Htk Hno) as [Htk' Hno']. split; [done|]. split; [done|].
  rewrite Hm'; [done|done|by left|done].
Qed.
Lemma since_loaded elf m k1 es s :
  since k1 (image_byte es) s → image_ok elf m (image_phdrs m elf) →
  Forall (λ e, Forall2 (λ p r, loaded elf m p r (ks_mem k1)) (segments_of m elf) (sw_frames e)) es →
  (∀ e r, e ∈ es → r ∈ spawn_memory e → page_frames r) →
  Forall (λ e, Forall2 (λ p r, loaded elf m p r (ks_mem (sc_k s))) (segments_of m elf) (sw_frames e)) es.
Proof.
  intros Hsn (_ & _ & Him) Hl Hb. rewrite Forall_forall in Hl |- *. intros e He. specialize (Hl e He).
  apply loadable_ok in Him. fold (segments_of m elf) in Him.
  assert (∀ r, r ∈ sw_frames e → block_ok (mmap_phys_to_io (base r)) (length r) ∧
    ∀ x, in_block (mmap_phys_to_io (base r)) (length r) x → image_byte es x) as Hr by (intros r Hr; split; [by apply page_frames_io, (Hb e); [|right]|intros x Hx; exists e; split; [done|]; exists r; split; [by right|done]]).
  revert Hl Hr Him. generalize (sw_frames e) as rs, (segments_of m elf) as ps. intros rs ps Hl. induction Hl as [|p r ps rs [Hlen Hc] _ IH]; [constructor|].
  intros Hr [[_ (Hpos & _ & Hup) _] Hps]%Forall_cons. constructor; [|apply IH; [intros q Hq; apply Hr; by right|done]].
  split; [done|]. intros i Hi. rewrite <- Hc by done. destruct (Hr r) as [Hbk Hin]; [by left|].
  destruct (ALIGN_UP_bounds (p_memsz m p)) as [Hal _]; [lia|lia|]. apply (sn_memory _ _ _ Hsn); [unfold block_ok in Hbk; lia|]. apply Hin. unfold in_block. lia.
Qed.

(** [es] are in the table [s] behind its first process, [pending] are not yet. *)
Record table_of (obj : spawn → process) (p0 : Z) (x0 : process) (k1 : K) (es pending : list spawn) (s : sched_state K) : Prop := {
  to_ok : sched_ok s;
  to_since : since k1 (image_byte (es ++ pending)) s;
  to_list : vec_list (processes s) = p0 :: (sw_ptr <$> es);
  to_first : entry s 0 = Some x0;
  to_entry (i : nat) e : es !! i = Some e → ∃ y, entry s (Z.of_nat i + 1) = Some y ∧ pushed_as (obj e) (Z.of_nat i + 1) y;
  to_pending e : e ∈ pending → procs s !! sw_ptr e = Some (obj e) ∧ 0 < sw_ptr e < 0x10000000000000000;
  to_ptrs : NoDup (p0 :: (sw_ptr <$> es ++ pending));
  to_rest : sched_is_init s = true ∧ is_scheduler s = true ∧ current_pid s = 0
}.
Lemma table_of_length obj p0 x0 k1 es pending s : table_of obj p0 x0 k1 es pending s → table_length s = Z.of_nat (List.length es) + 1.
Proof.
  intros [Hok _ Hl _ _ _ _ _]. unfold table_length. rewrite <- (vec_list_length _ (sk_vec _ (so_table _ Hok))), Hl. cbn. rewrite length_fmap. lia.
Qed.

Lemma table_of_push obj p0 x0 k1 es e pending s :
  table_of obj p0 x0 k1 es (e :: pending) s → (List.length es < 1000)%nat →
  run (sched_push_process1 (sw_ptr e)) (λ _ s', table_of obj p0 x0 k1 (es ++ [e]) pending s') s.
Proof.
  intros Ht Hn. pose proof (table_of_length _ _ _ _ _ _ _ Ht) as Hlen. destruct Ht as [Hok Hsn Hl Hf He Hp Hnd (Hi & Hs & Hc)].
  destruct (Hp e) as [Hx Hr]; [by left|].
  assert (sw_ptr e ∉ vec_list (processes s)) as Hnew.
  { rewrite Hl. rewrite fmap_app in Hnd. change (p0 :: (sw_ptr <$> es) ++ (sw_ptr <$> e :: pending)) with ((p0 :: (sw_ptr <$> es)) ++ (sw_ptr <$> e :: pending)) in Hnd.
    apply NoDup_app in Hnd as (_ & Hd & _). intros Hin. apply (Hd _ Hin). by left. }
  eapply runs_post; [|apply (push_run s (sw_ptr e) (obj e)); try done; [apply Hsn|apply Hsn|lia]].
  intros [] s' [Hok' Hk' Hlen' (y & Hy & Hya & Hpr) Hold Hl' (Hi' & Hs' & Hc')].
  assert (table_length s = Z.of_nat (List.length es) + 1) as Htl by lia. split.
  - done.
  - rewrite <- app_assoc. by eapply since_push.
  - by rewrite Hl', Hl, fmap_app.
  - rewrite Hold; [done|lia].
  - intros i e' [Hlook|[Hge Hlook]]%lookup_app_Some.
    + pose proof (lookup_lt_Some _ _ _ Hlook). rewrite Hold by lia. by apply He.
    + apply list_lookup_singleton_Some in Hlook as [Hi0 <-]. replace (Z.of_nat i + 1) with (table_length s) by lia. by exists y.
  - intros e' He'. destruct (Hp e') as [Hx' Hr']; [by right|]. split; [|done]. rewrite Hpr, lookup_insert_ne; [done|].
    intros Heq. rewrite fmap_app, fmap_cons in Hnd. apply NoDup_cons in Hnd as [_ Hnd]. apply NoDup_app in Hnd as (_ & _ & [Hnd _]%NoDup_cons).
    apply Hnd. rewrite Heq. by apply list_elem_of_fmap_2.
  - by rewrite <- app_assoc.
  - split_and!; congruence.
Qed.

(** Nobody in such a table waits for death. *)
Lemma table_of_idle obj p0 x0 k1 es pending s turns :
  table_of obj p0 x0 k1 es pending s → state x0 = TASK_RUNNING → (∀ e, state (obj e) = TASK_RUNNING) → task_slayer turns s = Ok (tt, s).
Proof.
  intros [Hok _ Hl Hf He _ _ _] Hx0 Hobj. apply task_slayer_idle; [done|]. apply elem_of_nil_inv. intros x Hx.
  unfold doomed in Hx. apply list_elem_of_filter in Hx as [Hw (p & Hp & Hx)%list_elem_of_omap].
  apply list_elem_of_lookup_1 in Hp as [i Hi].
  assert (entry s (Z.of_nat i) = Some x) as Hent by (unfold entry; destruct (Z.ltb_spec (Z.of_nat i) 0); [lia|]; rewrite Nat2Z.id, Hi; done).
  rewrite Hl in Hi. destruct i as [|i]; [change (Z.of_nat 0) with 0 in Hent; congruence|].
  cbn in Hi. apply list_lookup_fmap_Some in Hi as (e & -> & Hi). destruct (He i e Hi) as (y & Hy & (_ & _ & Hst & _)).
  replace (Z.of_nat (Datatypes.S i)) with (Z.of_nat i + 1) in Hent by lia. rewrite Hobj in Hst. congruence.
Qed.

(** The table after [sched_init] and the making of [es]. *)
Lemma table_of_spawns elf k0 s es l p v pml0 k :
  spawns_done elf k0 (started p v pml0 k s) es l → sched_ok (started p v pml0 k s) → vec_list v = [p] → v_length v = 1 → current_pid s = 0 →
  lk_ok k → lk_area k (v_ptr v) (v_capacity v * 8) ∧ 0 < v_capacity v →
  table_of (spawn_object (ks_mem k0) elf) p (kernel_process pml0) (ld_k l) [] es (ld_sched l).
Proof.
  intros [Hr _ _ Hk0 _ Hld _ Hs Hps Hold [Hnd Hptr]] Hok Hv Hn Hc Hkok [Hva Hcap]. set (s0 := started p v pml0 k s) in *. change (sc_k s0) with k in Hk0, Hld.
  assert (procs s0 !! p = Some (kernel_process pml0)) as Hp0 by (unfold s0, started, with_process; cbn; by rewrite lookup_insert_eq).
  assert (processes (ld_sched l) = v) as Hpv by (rewrite Hs; done).
  assert (entry (ld_sched l) 0 = Some (kernel_process pml0)) as He0.
  { unfold entry. rewrite Hpv. change (0 <? 0) with false. cbn [Z.to_nat]. rewrite Hv. cbn. by apply Hold. }
  split.
  - destruct Hok as [[Hvok Hlen Hcur Hent Hla] Ht Hl]. split; [split|by rewrite Hs|by rewrite Hs].
    + by rewrite Hpv.
    + by rewrite Hs.
    + by rewrite Hs.
    + intros i q Hq. rewrite Hpv in Hq. destruct (Hent i q Hq) as (Hq0 & x & Hx & Hpx). split; [done|]. exists x. split; [by apply Hold|done].
    + by rewrite Hs.
  - split; [split; [apply Hr|done]| | |done|done].
    + right. rewrite Hpv. split; [by apply Hk0|lia].
    + intros x Hx (e & He & Hin). rewrite Forall_forall in Hld. destruct (Hld e He) as (_ & _ & Hfr).
      destruct (memory_byte_fresh _ _ _ _ Hfr Hin) as [Hnt Ht]. split; [done|]. split; [|done].
      unfold in_vector. rewrite Hpv. intros Hiv. apply Hnt. by eapply sp_area.
  - by rewrite Hpv, Hv.
  - done.
  - done.
  - intros e He. split; [by apply Hps|by apply Hptr].
  - cbn. constructor; [|done]. intros [e [-> He]]%list_elem_of_fmap. destruct (Hptr e He) as [_ Hno]. congruence.
  - rewrite Hs. done.
Qed.
End spawn.

(** The services that record their mappings are such. *)
#[export] Instance mapper_spawn : SpawnServices mapper.
Proof.
  split.
  - intros k p n x _ [Hp Hn] Hx. cbn. unfold mapper_taken, in_block in *. lia.
  - intros n k Hk Hn. eapply runs_post; [|exact (mapper_object_spec n k Hk ltac:(lia))]. intros p k' (Hkept & Hmp & -> & Hw & Hnx).
    pose proof Hkept as ([Hok' _] & _). destruct Hk as [Hk _]. split; [done|]. split; [done|]. cbn.
    unfold in_block, mapper_taken, MMAP_IO_BASE, MAPPER_END in *. split; [lia|]. split; [lia|]. intros x Hx. lia.
  - intros p n0 n k Hk _ Hn. eapply runs_post; [|exact (mapper_object_spec n k Hk ltac:(lia))]. intros q k' (Hkept & Hmp & -> & Hw & Hnx).
    destruct Hkept as (Hok' & Hm & Ht & Ha & Hs & Hc), Hk as [Hk _]. split; [unfold MMAP_IO_BASE; lia|].
    split; [done|]. split; [done|]. split; [cbn; unfold MMAP_IO_BASE; lia|]. split; [done|]. split; [done|]. split; [by intros x Hx Hxt _; apply Hm|]. split; [|done].
    intros x Hx _. split; [by apply Ht|]. cbn in Hx. unfold mapper_taken, in_block in *. lia.
Qed.
