(* ===== verification/Ledger.v ===== *)
(** The kernel's memory with a ledger: next to the state of the allocators stands
    what was asked of them and is still held, as in [KernelMemory], and every
    mapping that was made.  With it the allocators give the loader and the
    scheduler what these ask for ([LoaderServices], [SpawnServices]). *)
From S2P Require Import Prelude Machine Range FrameAllocator Pmm Vmm Spaces Memory Services Dll Liballoc LiballocSpec Compat KernelHeap KernelMemory Elf Spawn.

Record ledger : Type := mk_ledger { lg_holder : holder; lg_maps : list (Z * range_t * range_t * bool) }.
Definition lg_memory (k : ledger) : kernel_memory := hd_state (lg_holder k).
Notation lg_areas k := (hd_areas (lg_holder k)).
Notation lg_frames k := (hd_frames (lg_holder k)).
Notation lg_spaces k := (hd_spaces (lg_holder k)).

(** The memory moves on, and what is held with it. *)
Definition lg_enter (s : kernel_memory) A F Rs (k : ledger) : ledger := mk_ledger (mk_holder s A F Rs) (lg_maps k).
Definition lg_set_memory (s : kernel_memory) (k : ledger) : ledger := lg_enter s (lg_areas k) (lg_frames k) (lg_spaces k) k.
Definition entered {A} (m : M kernel_memory A) (note : A → kernel_memory → ledger → ledger) : M ledger A := λ k,
  match m (lg_memory k) with Ok (a, s) => Ok (a, note a s k) | Err e => Err e end.

(** The area at [p], if there is one with a byte, is given up. *)
Fixpoint without_area (p : Z) (A : list (Z * Z)) : list (Z * Z) :=
  match A with
  | [] => []
  | a :: A => if (a.1 =? p) && (0 <? a.2) then A else a :: without_area p A
  end.
#[export] Instance range_eq_dec : EqDecision range_t.
Proof. solve_decision. Defined.
#[export] Instance ledger_services : KernelServices ledger := {
  ks_hw := λ k, la_hw (lg_memory k);
  ks_set_hw := λ h k, lg_set_memory (la_set_hw h (lg_memory k)) k;
  ks_malloc := λ n, entered (kmalloc n) (λ p s k, lg_enter s ((p, n) :: lg_areas k) (lg_frames k) (lg_spaces k) k);
  ks_realloc := λ p n, entered (krealloc p n) (λ q s k,
    lg_enter s ((q, n) :: if p =? 0 then lg_areas k else without_area p (lg_areas k)) (lg_frames k) (lg_spaces k) k);
  ks_free := λ p, entered (kfree p) (λ _ s k, lg_enter s (without_area p (lg_areas k)) (lg_frames k) (lg_spaces k) k);
  ks_pmm_alloc := λ n, entered (arch_pmm_alloc n) (λ r s k,
    lg_enter s (lg_areas k) (if length r =? 0 then lg_frames k else r :: lg_frames k) (lg_spaces k) k);
  ks_pmm_free := λ r, entered (ks_pmm_free r) (λ _ s k, lg_enter s (lg_areas k) (filter (λ q, q ≠ r) (lg_frames k)) (lg_spaces k) k);
  ks_vmm_map := λ pml virt phys u, entered (arch_vmm_map pml virt phys u) (λ _ s k,
    mk_ledger (mk_holder s (lg_areas k) (lg_frames k) (lg_spaces k)) (lg_maps k ++ [(pml, virt, phys, u)]));
  ks_space_create := entered arch_create_space (λ t s k, lg_enter s (lg_areas k) (lg_frames k) (t :: lg_spaces k) k);
  ks_space_destroy := λ pml, entered (arch_space_destroy pml) (λ _ s k,
    mk_ledger (mk_holder s (lg_areas k) (lg_frames k) (filter (λ r, r ≠ pml) (lg_spaces k))) (filter (λ m, m.1.1.1 ≠ pml) (lg_maps k)))
}.
#[export] Instance ledger_laws : KernelServicesLaws ledger.
Proof.
  split.
  - done.
  - intros [[s A F Rs] maps]. exact (f_equal (λ s, mk_ledger (mk_holder s A F Rs) maps) (@ks_set_get kernel_memory _ _ s)).
  - done.
Qed.

(** ** What the mappings amount to *)

(** [r] is the space of the mapping, [v] in the range; the entry for its page. *)
Definition covers (m : Z * range_t * range_t * bool) (r v : Z) : bool :=
  let '(pml, virt, phys, u) := m in (pml =? r) && ((vpage v - base virt / 4096) mod 0x1000000000 <? length virt / 4096).
Definition page_entry (m : Z * range_t * range_t * bool) (v : Z) : Z :=
  let '(pml, virt, phys, u) := m in pml_make_entry (range_page phys ((vpage v - base virt / 4096) mod 0x1000000000)) u.
(** The last one counts. *)
Definition translation (maps : list (Z * range_t * range_t * bool)) (r v : Z) : Z :=
  foldl (λ e m, if covers m r v then page_entry m v else e) 0 maps.
Lemma translation_snoc maps m r v : translation (maps ++ [m]) r v = if covers m r v then page_entry m v else translation maps r v.
Proof. unfold translation. by rewrite foldl_app. Qed.

Lemma page_offset virt v j : 0 ≤ j < 0x1000000000 → vpage v = vpage (range_page virt j) ↔ (vpage v - base virt / 4096) mod 0x1000000000 = j.
Proof.
  intros Hj. assert (0 ≤ vpage v < 0x1000000000) as Hv by (by apply Z.mod_pos_bound). rewrite vpage_range_page.
  set (b := base virt / 4096). clearbody b. revert Hv. generalize (vpage v) as w. intros w Hw. split; [intros ->|intros <-].
  - rewrite Zminus_mod_idemp_l. replace (b + j - b) with j by lia. by apply Z.mod_small.
  - rewrite Zplus_mod_idemp_r. replace (b + (w - b)) with w by lia. by rewrite Z.mod_small.
Qed.
Lemma map_translation `{FrameAllocatorLaws P} (s s' : vmm_state P) root virt phys u v :
  range_mapped s root virt phys u s' → 0 ≤ length virt / 4096 ≤ 0x1000000000 →
  leaf (vm_mem s') root v = if covers (root, virt, phys, u) root v then page_entry (root, virt, phys, u) v else leaf (vm_mem s) root v.
Proof.
  intros Hm Hn. cbn [covers page_entry]. rewrite Z.eqb_refl. cbn [andb]. set (j := _ mod _).
  assert (0 ≤ j < 0x1000000000) as Hj by (by apply Z.mod_pos_bound). destruct (Z.ltb_spec j (length virt / 4096)) as [Hlt|Hge].
  - assert (vpage v = vpage (range_page virt j)) as Hv by (by apply page_offset). rewrite <- (rm_pages _ _ _ _ _ _ Hm j) by lia.
    unfold leaf. apply same_slot in Hv as [-> ->]. done.
  - apply (rm_others _ _ _ _ _ _ Hm). intros i Hi Hv. apply page_offset in Hv; [|lia]. fold j in Hv. lia.
Qed.
Lemma covers_other r' virt phys u r v : r' ≠ r → covers (r', virt, phys, u) r v = false.
Proof. intros Hne. cbn. by rewrite (proj2 (Z.eqb_neq _ _) Hne). Qed.

(** ** What the allocators promise *)

(** [Q] are addresses that are held in frames all the time: the module's; [Old] the
    spaces there were when the ledger was opened. *)
Section promises.
Variables (Q : Z → Prop) (Old : list Z).

Definition held (k : ledger) (x : Z) : Prop := area_byte (lg_areas k) x ∨ frame_byte (lg_frames k) x.
(** Nothing is held twice; the newer spaces translate the addresses of the user's
    half as the mappings say. *)
Record ledger_ok (k : ledger) : Prop := {
  lo_isolated : isolated (lg_holder k);
  lo_quiet x : Q x → frame_byte (lg_frames k) x;
  lo_old : Old ⊆ lg_spaces k;
  lo_maps m : m ∈ lg_maps k → m.1.1.1 ∈ lg_spaces k;
  lo_view r v : r ∈ lg_spaces k → r ∉ Old → user_address v → leaf (la_mem (lg_memory k)) r v = translation (lg_maps k) r v
}.
#[local] Instance ledger_view : LoaderView ledger := {
  lk_ok := ledger_ok;
  lk_taken := held;
  lk_quiet := Q;
  lk_area := λ k p n, (p, n) ∈ lg_areas k;
  lk_space := λ k t, t ∈ lg_spaces k;
  lk_mapped := lg_maps;
  lk_stops := pmm_stops
}.

(** What is held after [k] is held as before. *)
Lemma ledger_ok_after k s A F Rs maps :
  isolated (mk_holder s A F Rs) → ledger_ok k → lg_frames k ⊆ F → lg_spaces k ⊆ Rs → (∀ m, m ∈ maps → m ∈ lg_maps k ∨ m.1.1.1 ∈ Rs) →
  (∀ r v, r ∈ Rs → r ∉ Old → user_address v → leaf (la_mem s) r v = translation maps r v) → ledger_ok (mk_ledger (mk_holder s A F Rs) maps).
Proof.
  intros His [_ HQ HO HM _] HF HR Hmaps Hv. split; [done|..|exact Hv].
  - intros x (r & Hr & Hx)%HQ. exists r. split; [by apply HF|done].
  - intros r Hr. by apply HR, HO.
  - intros m [Hm|Hm]%Hmaps; [by apply HR, HM|done].
Qed.
Lemma ledger_kept k s A F Rs maps :
  isolated (mk_holder s A F Rs) → lk_ok k → lg_areas k ⊆ A → lg_frames k ⊆ F → lg_spaces k ⊆ Rs → (∀ m, m ∈ maps → m ∈ lg_maps k ∨ m.1.1.1 ∈ Rs) →
  (∀ x, held k x → load8 (la_mem s) x = load8 (la_mem (lg_memory k)) x) → hw_cr3 (la_hw s) = hw_cr3 (la_hw (lg_memory k)) →
  (∀ r v, r ∈ Rs → r ∉ Old → user_address v → leaf (la_mem s) r v = translation maps r v) →
  kept k (mk_ledger (mk_holder s A F Rs) maps).
Proof.
  intros His Hok HA HF HR Hmaps Hm Hc Hv. pose proof (lo_quiet _ Hok) as HQ.
  assert (∀ x, frame_byte (lg_frames k) x → frame_byte F x) as HF' by (intros x (r & Hr & Hx); exists r; auto).
  split; [by apply (ledger_ok_after k)|]. split; [|split; [|split; [|split; [|done]]]].
  - intros x _ [Hx|Hx]; apply Hm; [done|right; by apply HQ].
  - intros x [(a & Ha & Hx)|Hx]; [left; exists a; auto|right; auto].
  - intros p n. apply HA.
  - intros t. apply HR.
Qed.
(** The spaces are translated as before. *)
Lemma view_after k s : ledger_ok k → same_view (lg_spaces k) (la_sys (lg_memory k)) (la_sys s) →
  ∀ r v, r ∈ lg_spaces k → r ∉ Old → user_address v → leaf (la_mem s) r v = translation (lg_maps k) r v.
Proof. intros Hok Hs r v Hr HO Hv. rewrite <- (lo_view _ Hok r v Hr HO Hv). by apply Hs. Qed.

(** Writing into what is held. *)
Lemma write_view k h : ledger_ok k → (∀ x, 0 ≤ x < 0x10000000000000000 → ¬ held k x → load8 (hw_mem h) x = load8 (la_mem (lg_memory k)) x) →
  isolated (mk_holder (la_set_hw h (lg_memory k)) (lg_areas k) (lg_frames k) (lg_spaces k)) ∧
  same_view (lg_spaces k) (la_sys (lg_memory k)) (la_sys (la_set_hw h (lg_memory k))).
Proof.
  intros Hok Hh. destruct k as [[s A F Rs] maps]. pose proof (lo_isolated _ Hok) as His. cbn [lg_holder] in His. split.
  - apply isolated_write; [done|]. intros x Hx HA HF. apply Hh; [done|]. by intros [?|?].
  - apply (compat_frame Rs h (la_sys s)); [by eapply isolated_compat|]. intros x Hx Hno. apply Hh; [done|]. intros Hheld. by eapply Hno, held_handed.
Qed.
Lemma ledger_frame f k :
  lk_ok k → (∀ x, 0 ≤ x < 0x10000000000000000 → ¬ lk_taken k x → load8 (f (ks_mem k)) x = load8 (ks_mem k) x) → steady k (ks_set_mem f k).
Proof.
  intros Hok Hf. destruct (write_view k (hw_set_mem f (la_hw (lg_memory k))) Hok Hf) as [Hi Hv].
  split; [|done]. apply (ledger_ok_after k); try done; try (by intros ? ?; left). by apply (view_after k).
Qed.
Lemma ledger_irq b k : lk_ok k →
  kept k (ks_set_hw (hw_set_if b (ks_hw k)) k) ∧ lk_mapped (ks_set_hw (hw_set_if b (ks_hw k)) k) = lk_mapped k.
Proof.
  intros Hok. destruct (write_view k (hw_set_if b (la_hw (lg_memory k))) Hok) as [Hi Hv]; [done|]. split; [|done].
  apply ledger_kept; try done; try (by intros ? ?; left). by apply (view_after k).
Qed.

Lemma ledger_malloc n k : lk_ok k → 0 ≤ n ≤ 0x40000000 →
  runs pmm_stops (ks_malloc n) (λ p k', kept k k' ∧ lk_mapped k' = lk_mapped k ∧ (p, n) ∈ lg_areas k' ∧ 0 < p ∧
    ∀ x, in_block p n x → ¬ lk_taken k x ∧ ¬ lk_quiet x ∧ lk_taken k' x) k.
Proof.
  intros Hok Hn. pose proof Hok as [His HQ _ _ _]. destruct k as [[s A F Rs] maps]. pose proof (malloc_isolated Rs s A F n His Hn) as Hm.
  unfold runs in *. cbn [ks_malloc ledger_services]. unfold entered. change (lg_memory _) with s.
  destruct (kmalloc n s) as [[p s']|e]; [|apply Hm]. destruct Hm as [[Hp _] Hi Hk Hf Hc Hv]. split; [|split; [done|split; [by left|split; [done|]]]].
  - apply ledger_kept; try done; try (by intros ? ?; left); [intros a Ha; by right|]. by apply (view_after (mk_ledger (mk_holder s A F Rs) maps)).
  - intros x Hx. destruct (Hf x Hx) as (HnA & HnF & _). split; [by intros [?|?]|]. split; [intros Hq; by apply HnF, HQ|].
    left. exists (p, n). split; [by left|done].
Qed.

(** The bitmap allocator: what it gives is new, ends below 2^44, and the rest stays. *)
Lemma pmm_alloc_given Rs s amount r p' :
  compat_ok Rs s → 0 < amount < 0x8000000000000000 → pmm_alloc amount (frames_of s) = Ok (r, p') →
  hw_cr3 (pm_hw p') = hw_cr3 (pm_hw (frames_of s)) ∧ same_view Rs s (compat_set_pmm p' s) ∧ (∀ x, handed_out Rs s x → load8 (pm_mem p') x = load8 (pm_mem (frames_of s)) x) ∧
  (length r = 0 ∨ length r = pages_for amount * 4096 ∧ base r mod 4096 = 0 ∧ 0 ≤ base r ∧ base r + length r ≤ 0x100000000000 ∧ ∀ x, io_block r x → manager_byte Rs s x).
Proof.
  intros Hok Ham Hal. destruct (compat_pmm _ _ Hok) as [Hready [Hsz _]]. destruct (Z.eqb_spec (length r) 0) as [Hz|Hnz].
  - assert (r = mk_range 0 0) as ->.
    { destruct (decide (r = mk_range 0 0)) as [|Hne]; [done|]. destruct (pmm_alloc_allocated _ _ _ _ Hready Ham Hne Hal) as [_ Hl _ _ _ _ _ _ _ _].
      unfold pages_for in Hl. Z.div_mod_to_equations; lia. }
    pose proof (pmm_alloc_empty _ _ _ Hready Ham Hal) as ->. split; [done|]. split; [done|]. split; [done|by left].
  - destruct (take_frames Rs s amount r p' Hok Ham Hal Hnz) as ([_ _ Hm _ _ Hc] & Hv & Hl & Hb4 & Hb0 & _ & Hin).
    assert (r ≠ mk_range 0 0) as Hr by (by intros ->). destruct (pmm_alloc_allocated _ _ _ _ Hready Ham Hr Hal) as [_ _ Hhi _ _ _ _ _ _ _].
    split; [exact Hc|]. split; [exact Hv|]. split; [exact Hm|]. right. split; [done|]. split; [done|]. split; [done|]. split; [lia|]. intros x Hx. by apply Hin.
Qed.
Lemma ledger_alloc n k : lk_ok k → 0 < n < 0x8000000000000000 → n mod 4096 = 0 →
  runs pmm_stops (ks_pmm_alloc n) (λ r k', kept k k' ∧ lk_mapped k' = lk_mapped k ∧
    (length r = 0 ∨ length r = n ∧ page_frames r ∧
       ∀ x, in_block (mmap_phys_to_io (base r)) n x → ¬ lk_taken k x ∧ ¬ lk_quiet x ∧ lk_taken k' x)) k.
Proof.
  intros Hok Hn Hmod. pose proof Hok as [His HQ _ _ _]. destruct k as [[s A F Rs] maps]. cbn [lg_holder] in His.
  pose proof (isolated_compat _ _ _ _ His) as Hc. unfold runs. cbn [ks_pmm_alloc ledger_services]. unfold entered. change (lg_memory _) with s.
  destruct (arch_pmm_alloc n s) as [[r s']|e] eqn:Hrun.
  - pose proof (isolated_frames Rs s A F n r s' His Hn Hrun) as Hi. pose proof Hrun as Hal.
    unfold arch_pmm_alloc, on_sys, on_vmm, on_pmm, zoom in Hal. change (fa_alloc ?r) with (pmm_alloc r) in Hal. fold (frames_of (la_sys s)) in Hal.
    destruct (pmm_alloc n (frames_of (la_sys s))) as [[r1 p']|e] eqn:Hp; [|done]. injection Hal as -> Hs'.
    destruct (pmm_alloc_given Rs _ _ _ _ Hc Hn Hp) as (Hcr & Hv & Hm & Hr). split; [|split; [done|]].
    + rewrite <- Hs' in Hi |- *. apply ledger_kept; try done; try (by intros ? ?; left); [case_match; set_solver| |by apply (view_after (mk_ledger (mk_holder s A F Rs) maps))].
      intros x Hx. apply Hm. by eapply held_handed.
    + destruct Hr as [Hz|(Hl & Hb4 & Hb & Hhi & Hin)]; [by left|right].
      assert (pages_for n * 4096 = n) as Hpn by (unfold pages_for; Z.div_mod_to_equations; lia). rewrite Hpn in Hl.
      assert (mmap_phys_to_io (base r) = base r + MMAP_IO_BASE) as Hio by (unfold mmap_phys_to_io, MMAP_IO_BASE; rewrite u64_small; lia).
      rewrite Hio. split; [done|]. split; [unfold page_frames; split; [done|lia]|].
      intros x Hx. assert (io_block r x) as Hrx by (unfold io_block; by rewrite Hl). pose proof (Hin x Hrx) as Hman.
      assert (¬ held (mk_ledger (mk_holder s A F Rs) maps) x) as Hno by (intros Hh; by destruct (held_handed _ _ _ _ _ His Hh)).
      split; [done|]. split; [intros Hq; apply Hno; right; by apply HQ|]. right. exists r.
      rewrite (proj2 (Z.eqb_neq (length r) 0)) by lia. split; [by left|done].
  - unfold arch_pmm_alloc, on_sys, on_vmm, on_pmm, zoom in Hrun. change (fa_alloc ?r) with (pmm_alloc r) in Hrun. fold (frames_of (la_sys s)) in Hrun.
    destruct (pmm_alloc n (frames_of (la_sys s))) as [[r1 p']|e1] eqn:Hp; [done|]. injection Hrun as <-.
    eapply pmm_alloc_stops; [|exact Hn|exact Hp]. apply (compat_pmm _ _ Hc).
Qed.
Lemma ledger_map pml v p u k :
  lk_ok k → lk_space k pml → length p = length v → 0 ≤ length v ≤ 0x1000000000000 →
  runs pmm_stops (ks_vmm_map pml v p u) (λ _ k', kept k k' ∧ lk_mapped k' = lk_mapped k ++ [(pml, v, p, u)]) k.
Proof.
  intros Hok Hsp Hlen Hn. destruct k as [[s A F Rs] maps]. pose proof (lo_isolated _ Hok) as His. cbn [lg_holder] in His.
  pose proof (isolated_compat _ _ _ _ His) as Hc. assert (0 ≤ length v / 4096 ≤ 0x1000000000) as Hp by (Z.div_mod_to_equations; lia).
  pose proof (map_gives Rs (la_sys s) pml v p u Hc Hsp Hlen Hp) as Hm.
  unfold runs in *. cbn [ks_vmm_map ledger_services]. unfold entered. change (lg_memory _) with s.
  destruct (arch_vmm_map pml v p u s) as [[[] s']|e] eqn:Hrun.
  - pose proof (isolated_map Rs s A F pml v p u s' His Hsp Hlen Hp Hrun) as Hi. split; [|done].
    unfold arch_vmm_map, on_sys, zoom in Hrun. destruct (on_vmm _ (la_sys s)) as [[[] sys]|e]; [|done]. injection Hrun as <-.
    destruct Hm as [[_ _ Hmem _ _ Hcr] Hr]. apply ledger_kept; try done; [by intros m [Hm| ->%list_elem_of_singleton]%elem_of_app; [left|right]|intros x Hx; apply Hmem; by eapply held_handed|].
    intros r w Hw HO Hu. cbn [lg_maps]. rewrite translation_snoc. change (la_mem (mk_la sys (la_heap s))) with (vm_mem (cs_vmm sys)).
    destruct (decide (r = pml)) as [->|Hne].
    + rewrite (map_translation _ _ _ _ _ _ w Hr Hp). case_match; [done|]. by apply (lo_view _ Hok).
    + rewrite covers_other by done. rewrite (map_view Rs _ _ pml v p u Hc Hsp Hr r w Hw Hu) by by left. by apply (lo_view _ Hok).
  - unfold arch_vmm_map, on_sys, zoom in Hrun. destruct (on_vmm _ (la_sys s)) as [[[] sys]|e1]; [done|]. injection Hrun as <-. apply Hm.
Qed.
(** A space that is not there has no mappings. *)
Lemma translation_none maps t v : (∀ m, m ∈ maps → m.1.1.1 ≠ t) → translation maps t v = 0.
Proof.
  induction maps as [|[[[r virt] phys] u] maps IH] using rev_ind; intros Hno; [done|]. rewrite translation_snoc, covers_other.
  - apply IH. intros m Hm. apply Hno, elem_of_app. by left.
  - apply (Hno (r, virt, phys, u)), elem_of_app. right. by left.
Qed.
Lemma ledger_create k : lk_ok k → runs pmm_stops ks_space_create (λ t k', kept k k' ∧ lk_mapped k' = lk_mapped k ∧ lk_space k' t ∧ ¬ lk_space k t) k.
Proof.
  intros Hok. destruct k as [[s A F Rs] maps]. pose proof (lo_isolated _ Hok) as His. cbn [lg_holder] in His.
  pose proof (create_gives Rs (la_sys s) (isolated_compat _ _ _ _ His)) as Hm.
  unfold runs in *. cbn [ks_space_create ledger_services]. unfold entered. change (lg_memory _) with s.
  destruct (arch_create_space s) as [[t s']|e] eqn:Hrun.
  - pose proof (isolated_create Rs s A F t s' His Hrun) as Hi.
    unfold arch_create_space, on_sys, zoom in Hrun. destruct (on_vmm _ (la_sys s)) as [[t' sys]|e]; [|done]. injection Hrun as <- <-.
    destruct Hm as (_ & _ & Hmem & Hcr & _ & Hno & Hv & Hz). split; [|split; [done|split; [by left|done]]].
    apply ledger_kept; try done; try (by intros ? ?; left); [intros r Hr; by right|intros x Hx; apply Hmem; by eapply held_handed|].
    intros r w [->|Hr]%elem_of_cons HO Hu.
    + rewrite translation_none; [by apply Hz|]. intros m Hm%(lo_maps _ Hok) <-. done.
    + by apply (view_after (mk_ledger (mk_holder s A F Rs) maps)).
  - unfold arch_create_space, on_sys, zoom in Hrun. destruct (on_vmm _ (la_sys s)) as [[t' sys]|e1]; [done|]. injection Hrun as <-. apply Hm.
Qed.
Lemma ledger_root k t : lk_ok k → lk_space k t → ∃ f, t = frame_io f ∧ 0 ≤ f < 0x800000000.
Proof.
  intros Hok Ht. pose proof (lo_isolated _ Hok) as His. destruct k as [[s A F Rs] maps]. pose proof (isolated_compat _ _ _ _ His) as Hc.
  pose proof (ss_space _ _ (co_spaces _ _ Hc) _ Ht) as Hsp. destruct (sp_table _ _ Hsp [] _ valid_nil eq_refl) as (f & -> & Hf & _).
  exists f. split; [done|]. by apply (fa_managed_range _ _ (sp_fa _ _ Hsp)).
Qed.

#[local] Instance ledger_loader : LoaderServices ledger.
Proof.
  split.
  - apply pmm_stops_assert.
  - exact ledger_root.
  - exact ledger_frame.
  - exact ledger_alloc.
  - exact ledger_map.
  - exact ledger_create.
  - exact ledger_irq.
Qed.

(** The area at an address is the one that was given out there. *)
Lemma without_area_split p n A :
  (p, n) ∈ A → 0 < n → (∀ a b, a ∈ A → b ∈ A → a = b ∨ blocks_disjoint a.1 a.2 b.1 b.2) →
  ∃ A1 A2, A = A1 ++ (p, n) :: A2 ∧ without_area p A = A1 ++ A2.
Proof.
  intros Hin Hn Hd. assert (∀ a, a ∈ A → a.1 = p → 0 < a.2 → a = (p, n)) as Huniq.
  { intros [q m] Ha Hq Hm. cbn in Hq, Hm. subst q. destruct (Hd _ _ Ha Hin) as [?|Hno]; [done|]. unfold blocks_disjoint in Hno. cbn in Hno. lia. }
  clear Hd. induction A as [|a A IH]; [by apply not_elem_of_nil in Hin|]. cbn [without_area].
  destruct (Z.eqb_spec a.1 p) as [Hp|Hp]; [destruct (Z.ltb_spec 0 a.2) as [Hm|Hm]|]; cbn [andb].
  - exists [], A. rewrite (Huniq a) by (done || by left). done.
  - apply elem_of_cons in Hin as [<-|Hin]; [cbn in Hm; lia|].
    destruct IH as (A1 & A2 & -> & ->); [done|intros b Hb; apply Huniq; by right|]. by exists (a :: A1), A2.
  - apply elem_of_cons in Hin as [<-|Hin]; [done|].
    destruct IH as (A1 & A2 & -> & ->); [done|intros b Hb; apply Huniq; by right|]. by exists (a :: A1), A2.
Qed.

Lemma ledger_realloc p n0 n k :
  lk_ok k → p = 0 ∧ n0 = 0 ∨ lk_area k p n0 ∧ 0 < n0 → 0 < n ≤ 0x40000000 →
  runs pmm_stops (ks_realloc p n) (λ q k', q ≠ 0 ∧ resized k p n0 q n k') k.
Proof.
  intros Hok Hp Hn. destruct Hp as [[-> ->]|[Hin Hn0]].
  - assert (krealloc 0 n = kmalloc n) as Hre by (unfold krealloc, liballoc_realloc; by rewrite (proj2 (Z.eqb_neq n 0)) by lia).
    pose proof (ledger_malloc n k Hok ltac:(lia)) as Hm. unfold runs in *. cbn [ks_realloc ks_malloc ledger_services] in *. unfold entered in *. rewrite Hre.
    destruct (kmalloc n (lg_memory k)) as [[q s']|e]; [|done]. change (0 =? 0) with true. cbv iota.
    destruct Hm as ((Hok' & Hmem & Htk & Har & Hsp & Hcr) & Hmp & Hq & Hq0 & Hfr). split; [lia|].
    split; [done|]. split; [done|]. split; [done|]. split; [done|]. split; [done|]. split; [intros x Hx Hxt _; by apply Hmem|]. split; [|auto].
    intros x Hx _. split; [by apply Htk|]. intros Hxq. by destruct (Hfr x Hxq).
  - pose proof Hok as [His HQ _ _ _]. destruct k as [[s A F Rs] maps]. cbn [lg_holder] in His.
    destruct (isolated_apart _ His) as [[_ Hdis] _ Hbet _]. cbn [hd_areas hd_frames] in Hdis, Hbet.
    destruct (without_area_split p n0 A Hin Hn0 Hdis) as (A1 & A2 & -> & Hwo).
    assert (p ≠ 0) as Hp0.
    { pose proof (held_range Rs s (A1 ++ (p, n0) :: A2) F p His) as Hr. unfold MMAP_IO_BASE in Hr. intros ->. destruct Hr; [|lia].
      left. exists (0, n0). split; [set_solver|unfold in_block; cbn; lia]. }
    pose proof (realloc_isolated Rs s A1 p n0 A2 F n His Hn0 Hn) as Hm. unfold runs in *. cbn [ks_realloc ledger_services]. unfold entered. change (lg_memory _) with s.
    destruct (krealloc p n s) as [[q s']|e]; [|apply Hm]. destruct Hm as (Hq & Hi & Hcr & Hv & Hmem). split; [done|].
    cbn [lg_holder hd_areas hd_frames hd_spaces]. rewrite Hwo. rewrite (proj2 (Z.eqb_neq _ _) Hp0). unfold lg_enter. cbn [lg_maps].
    assert (∀ x, held (mk_ledger (mk_holder s (A1 ++ (p, n0) :: A2) F Rs) maps) x → ¬ in_block p n0 x → area_byte (A1 ++ A2) x ∨ frame_byte F x) as Hrest.
    { intros x [(a & Ha & Hx)|Hx] Hno; [left|by right]. exists a. split; [|done]. apply elem_of_app in Ha as [Ha|[->|Ha]%elem_of_cons]; [set_solver| |set_solver].
      done. }
    split; [|split; [done|split; [by left|split; [done|split; [exact Hcr|]]]]].
    { apply (ledger_ok_after (mk_ledger (mk_holder s (A1 ++ (p, n0) :: A2) F Rs) maps)); try done; [by intros ? ?; left|by apply (view_after (mk_ledger (mk_holder s (A1 ++ (p, n0) :: A2) F Rs) maps))]. } split; [|split; [|done]].
    + intros x Hx [Ht|Hqx] Hno; apply Hmem; [by apply Hrest|right; by apply HQ].
    + intros x Ht Hno. specialize (Hrest x Ht Hno). split.
      * destruct Hrest as [(a & Ha & Hx)|Hx]; [left; exists a; split; [by right|done]|by right].
      * destruct (isolated_apart _ Hi) as [[Hnd' Hdis'] _ Hbet' _]. cbn [hd_areas hd_frames] in *. intros Hxq.
        assert (area_byte ((q, n) :: A1 ++ A2) x) as Hxa by (exists (q, n); split; [by left|done]).
        destruct Hrest as [(a & Ha & Hx)|Hx]; [|by apply (Hbet' x)]. apply NoDup_cons in Hnd' as [Hnq _].
        destruct (Hdis' (q, n) a) as [<-|Hd]; [by left|by right|done|]. unfold blocks_disjoint, in_block in *. cbn in Hd. lia.
Qed.
#[local] Instance ledger_spawn : SpawnServices ledger.
Proof.
  split.
  - intros k p n x _ Hp Hx. left. by exists (p, n).
  - intros n k Hok Hn. eapply runs_post; [|exact (ledger_malloc n k Hok ltac:(lia))]. intros p k' (Hk & Hmp & Hin & Hp & Hf).
    split; [done|]. split; [done|]. split; [done|]. split; [|done]. destruct Hk as [[His _] _]. destruct k' as [[s A F Rs] maps].
    assert (in_block p n (p + n - 1)) as Hlast by (unfold in_block; lia).
    pose proof (held_range Rs s A F (p + n - 1) His (or_introl (ex_intro _ (p, n) (conj Hin Hlast)))). lia.
  - exact ledger_realloc.
Qed.

(** The heap may be told of another space. *)
Lemma ledger_switch r k : lk_ok k → lk_space k r → kept k (lg_set_memory (switched_to r (lg_memory k)) k).
Proof.
  intros Hok Hr. pose proof Hok as [His _]. destruct k as [[s A F Rs] maps]. apply ledger_kept; try done; try (by intros ? ?; left). by apply isolated_switch.
Qed.
End promises.
