(* ===== verification/UserView.v ===== *)
(** What a process finds at its addresses: where the entries of its page tables
    lead, and how the mappings made for an image decide it. *)
From S2P Require Import Prelude Machine Range FrameAllocator Pmm Vmm Spaces Services Sched Elf Spawn Ledger.

(** The processor's view: the entry for the page lets the user in; the byte it leads
    to, where the kernel sees it. *)
Definition user_page (m : memory) (r v : Z) : Prop := pml_present (leaf m r v) = true ∧ pml_user (leaf m r v) = true.
Definition seen_at (m : memory) (r v : Z) : Z := mmap_phys_to_io (u64 (Z.shiftl (pml_physical (leaf m r v)) 12) + v mod 4096).

(** ** Translations *)

Lemma translation_skip maps1 maps2 r v : (∀ m, m ∈ maps2 → covers m r v = false) → translation (maps1 ++ maps2) r v = translation maps1 r v.
Proof.
  induction maps2 as [|m maps IH] using rev_ind; intros Hno; [by rewrite app_nil_r|].
  rewrite app_assoc, translation_snoc, Hno by (apply elem_of_app; right; by left). apply IH. intros m' Hm. apply Hno, elem_of_app. by left.
Qed.
Lemma translation_last maps1 m maps2 r v : covers m r v = true → (∀ m', m' ∈ maps2 → covers m' r v = false) →
  translation (maps1 ++ m :: maps2) r v = page_entry m v.
Proof.
  intros Hc Hno. change (m :: maps2) with ([m] ++ maps2). rewrite app_assoc, translation_skip, translation_snoc by done. by rewrite Hc.
Qed.
Lemma translation_cases maps r v : translation maps r v = 0 ∨ ∃ m, m ∈ maps ∧ covers m r v = true ∧ translation maps r v = page_entry m v.
Proof.
  induction maps as [|m maps IH] using rev_ind; [by left|]. rewrite translation_snoc. destruct (covers m r v) eqn:Hc.
  - right. exists m. split; [apply elem_of_app; right; by left|done].
  - destruct IH as [?|(m' & ? & ? & ?)]; [by left|right]. exists m'. split; [apply elem_of_app; by left|done].
Qed.
Lemma covers_root m r v : covers m r v = true → m.1.1.1 = r.
Proof. destruct m as [[[r' virt] phys] u]. cbn. by intros [?%Z.eqb_eq _]%andb_true_iff. Qed.
(** Of the mappings of several processes those of the space's own decide. *)
Lemma translation_own (maps : spawn → list (Z * range_t * range_t * bool)) es e v :
  (∀ e m, m ∈ maps e → m.1.1.1 = sw_space e) → NoDup (sw_space <$> es) → e ∈ es →
  translation (es ≫= maps) (sw_space e) v = translation (maps e) (sw_space e) v.
Proof.
  intros Hroot. induction es as [|e' es IH] using rev_ind; intros Hnd He; [by apply not_elem_of_nil in He|].
  rewrite bind_app. cbn [mbind list_bind]. rewrite app_nil_r. rewrite fmap_app in Hnd. apply NoDup_app in Hnd as (Hnd & Hno & _).
  assert (∀ m (l : list spawn), m ∈ l ≫= maps → ∃ e, e ∈ l ∧ m.1.1.1 = sw_space e) as Hfrom.
  { intros m l (e0 & Hm & He0)%list_elem_of_bind. exists e0. split; [done|by apply Hroot]. }
  apply elem_of_app in He as [He| ->%list_elem_of_singleton].
  - rewrite translation_skip; [by apply IH|]. intros m Hm%Hroot. apply not_true_iff_false. intros Hc%covers_root.
    apply (Hno (sw_space e)); [by apply list_elem_of_fmap_2|]. apply list_elem_of_singleton. cbn. congruence.
  - clear IH. induction (maps e') as [|m l IHl] using rev_ind.
    + rewrite app_nil_r. apply translation_none. intros m (e0 & He0 & Hm)%Hfrom Heq.
      apply (Hno (sw_space e0)); [by apply list_elem_of_fmap_2|]. apply list_elem_of_singleton. cbn. congruence.
    + rewrite app_assoc, !translation_snoc. by rewrite IHl.
Qed.

(** ** Entries *)

Lemma range_page_frames r j : page_frames r → 0 ≤ j < length r / 4096 → range_page r j = base r + 4096 * j ∧ 0 ≤ base r + 4096 * j ≤ 0x400000000000 - 4096.
Proof.
  intros (Hm & Hb & Hl & He) Hj. assert (4096 * j + 4096 ≤ length r) by (Z.div_mod_to_equations; lia).
  unfold range_page. rewrite ALIGN_DOWN_page. unfold PAGE_SIZE. rewrite u64_small; Z.div_mod_to_equations; lia.
Qed.
(** The entry of a page of whole frames leads there. *)
Lemma page_entry_leads r j v : page_frames r → 0 ≤ j < length r / 4096 → let e := pml_make_entry (range_page r j) true in
  pml_present e = true ∧ pml_user e = true ∧
  mmap_phys_to_io (u64 (Z.shiftl (pml_physical e) 12) + v mod 4096) = mmap_phys_to_io (base r) + (4096 * j + v mod 4096) ∧
  0 ≤ 4096 * j + v mod 4096 < length r.
Proof.
  intros Hr Hj e. destruct (range_page_frames r j Hr Hj) as [Hp Hb]. destruct (page_frames_io r Hr) as (-> & _).
  destruct (pml_make_entry_fields (range_page r j) true) as (Hpr & _ & Hu & Hph & _); [lia|]. fold e in Hpr, Hu, Hph.
  split; [done|]. split; [done|]. destruct Hr as (Hm & Hb0 & Hl & He). assert (4096 * j + 4096 ≤ length r) by (Z.div_mod_to_equations; lia).
  pose proof (Z.mod_pos_bound v 4096 ltac:(lia)). split; [|lia]. rewrite Hph, Hp, Z.shiftl_mul_pow2 by lia. change (2 ^ 12) with 4096.
  assert ((base r + 4096 * j) / 4096 * 4096 = base r + 4096 * j) as -> by (Z.div_mod_to_equations; lia).
  rewrite u64_small by lia. unfold mmap_phys_to_io, MMAP_IO_BASE. rewrite u64_small by lia. lia.
Qed.
Lemma no_entry : pml_present 0 = false.
Proof. done. Qed.

(** ** The mappings of an image *)

Definition user_mapping (root : Z) (virt phys : range_t) : Z * range_t * range_t * bool := (root, virt, phys, true).
(** Where a process has its segments and its stack. *)
Definition user_ranges (m : memory) (elf : range_t) : list range_t :=
  ((λ p, mk_range (p_vaddr m p) (ALIGN_UP (p_memsz m p) PAGE_SIZE)) <$> segments_of m elf) ++ [mk_range USER_STACK_BASE KERNEL_STACK_SIZE].
(** Whole pages of the user's half, apart from one another. *)
Record laid_out (vs : list range_t) : Prop := {
  lo_pages : Forall (λ r, base r mod 4096 = 0 ∧ 0 ≤ base r ∧ 0 ≤ length r ∧ base r + length r ≤ 0x7f8000000000) vs;
  lo_apart (i j : nat) r q : vs !! i = Some r → vs !! j = Some q → i ≠ j → blocks_disjoint (base r) (length r) (base q) (length q)
}.
Lemma user_half r v : 0 ≤ base r → base r + length r ≤ 0x7f8000000000 → in_block (base r) (length r) v → user_address v.
Proof.
  unfold user_address, PML4_GET_INDEX, KERNEL_HALF, in_block. intros Hb He Hv. rewrite PMLX_GET_INDEX_eq by lia. change (2 ^ (12 + 3 * 9)) with 0x8000000000.
  rewrite Z.mod_small; Z.div_mod_to_equations; lia.
Qed.
Lemma covers_range root virt phys v :
  base virt mod 4096 = 0 → 0 ≤ base virt → 0 ≤ length virt → base virt + length virt ≤ 0x7f8000000000 → 0 ≤ v < 0x7f8000000000 → length virt mod 4096 = 0 →
  covers (user_mapping root virt phys) root v = bool_decide (in_block (base virt) (length virt) v) ∧
  (in_block (base virt) (length virt) v → (vpage v - base virt / 4096) mod 0x1000000000 = (v - base virt) / 4096).
Proof.
  intros Hm Hb Hl He Hv Hlm. cbn [covers user_mapping]. rewrite Z.eqb_refl. cbn [andb].
  assert (vpage v = v / 4096) as -> by (unfold vpage; rewrite Z.mod_small; Z.div_mod_to_equations; lia).
  assert (in_block (base virt) (length virt) v → (v / 4096 - base virt / 4096) mod 0x1000000000 = (v - base virt) / 4096) as Hin.
  { unfold in_block. intros Hv'. rewrite Z.mod_small; Z.div_mod_to_equations; lia. }
  split; [|done]. case_bool_decide as Hd.
  - rewrite Hin by done. unfold in_block in Hd. apply Z.ltb_lt. Z.div_mod_to_equations; lia.
  - apply Z.ltb_ge. unfold in_block in Hd. destruct (Z.le_gt_cases (base virt) v) as [Hle|Hgt].
    + rewrite Z.mod_small; Z.div_mod_to_equations; lia.
    + rewrite <- (Z.mod_add _ 1) by lia. rewrite Z.mod_small; Z.div_mod_to_equations; lia.
Qed.

Section image.
Variables (root : Z) (vs ps : list range_t).
Hypothesis Hlaid : laid_out vs.
Hypothesis Hpages : Forall (λ r, length r mod 4096 = 0) vs.
Hypothesis Hframes : Forall2 (λ v r, length v = length r ∧ page_frames r) vs ps.
Notation maps := (zip_with (user_mapping root) vs ps).

(** An address of one of the ranges leads to its place in the frames. *)
Lemma image_leads i virt phys v e : vs !! i = Some virt → ps !! i = Some phys → in_block (base virt) (length virt) v →
  e = translation maps root v →
  pml_present e = true ∧ pml_user e = true ∧
  mmap_phys_to_io (u64 (Z.shiftl (pml_physical e) 12) + v mod 4096) = mmap_phys_to_io (base phys) + (v - base virt).
Proof.
  intros Hv Hp Hin ->. destruct (Forall2_lookup_lr _ _ _ _ _ _ Hframes Hv Hp) as [Hlen Hpf].
  assert (∀ j r, vs !! j = Some r → (base r mod 4096 = 0 ∧ 0 ≤ base r ∧ 0 ≤ length r ∧ base r + length r ≤ 0x7f8000000000) ∧ length r mod 4096 = 0) as Hr.
  { intros j r Hj. split; [by apply (proj1 (Forall_lookup _ _) (lo_pages _ Hlaid) j)|by apply (proj1 (Forall_lookup _ _) Hpages j)]. }
  destruct (Hr i virt Hv) as [(Hm & Hb & Hl & He) Hlm]. assert (0 ≤ v < 0x7f8000000000) as Hvr by (unfold in_block in Hin; lia).
  destruct (covers_range root virt phys v Hm Hb Hl He Hvr Hlm) as [Hc Hpg]. specialize (Hpg Hin). rewrite bool_decide_true in Hc by done.
  assert (maps !! i = Some (user_mapping root virt phys)) as Hi by (by rewrite lookup_zip_with, Hv; cbn; rewrite Hp).
  assert (translation maps root v = page_entry (user_mapping root virt phys) v) as ->.
  { rewrite <- (take_drop_middle _ _ _ Hi). apply translation_last; [done|]. intros m' [k Hk]%list_elem_of_lookup.
    rewrite lookup_drop in Hk. apply lookup_zip_with_Some in Hk as (virt' & phys' & -> & Hv' & _). destruct (Hr _ _ Hv') as [(Hm' & Hb' & Hl' & He') Hlm'].
    rewrite (proj1 (covers_range root virt' phys' v Hm' Hb' Hl' He' Hvr Hlm')). apply bool_decide_false. intros Hin'.
    assert (i ≠ (S i + k)%nat) as Hne by lia. pose proof (lo_apart _ Hlaid _ _ _ _ Hv Hv' Hne) as Hd. unfold blocks_disjoint, in_block in *. lia. }
  cbn [page_entry user_mapping]. rewrite Hpg. unfold in_block in Hin.
  destruct (page_entry_leads phys ((v - base virt) / 4096) v Hpf) as (H1 & H2 & H3 & _); [rewrite <- Hlen; Z.div_mod_to_equations; lia|].
  split; [done|]. split; [done|]. rewrite H3. Z.div_mod_to_equations; lia.
Qed.
(** Whatever is mapped leads into the frames. *)
Lemma image_reaches v e : e = translation maps root v → pml_present e = true →
  ∃ r, r ∈ ps ∧ in_block (mmap_phys_to_io (base r)) (length r) (mmap_phys_to_io (u64 (Z.shiftl (pml_physical e) 12) + v mod 4096)).
Proof.
  intros -> He. destruct (translation_cases maps root v) as [H0|(m & [i Hi]%list_elem_of_lookup & Hc & Htr)]; [rewrite H0 in He; done|].
  apply lookup_zip_with_Some in Hi as (virt & phys & -> & Hv & Hp).
  destruct (Forall2_lookup_lr _ _ _ _ _ _ Hframes Hv Hp) as [Hlen Hpf]. rewrite Htr. cbn [page_entry user_mapping]. cbn [covers user_mapping] in Hc.
  apply andb_true_iff in Hc as [_ Hc%Z.ltb_lt]. rewrite Hlen in Hc. set (j := _ mod 0x1000000000) in *.
  assert (0 ≤ j) by (by apply Z.mod_pos_bound). destruct (page_entry_leads phys j v Hpf) as (_ & _ & Heq & Hr); [lia|].
  exists phys. split; [by eapply list_elem_of_lookup_2|]. rewrite Heq. unfold in_block. lia.
Qed.
End image.

(** What is mapped for a process: its segments, then its stack. *)
Lemma spawn_mappings_zip (m m' : memory) elf e :
  Forall2 (λ p r, loaded elf m p r m') (segments_of m elf) (sw_frames e) → length (sw_stack e) = KERNEL_STACK_SIZE →
  spawn_mappings m elf e = zip_with (user_mapping (sw_space e)) (user_ranges m elf) (sw_frames e ++ [sw_stack e]).
Proof.
  intros Hf Hst. unfold spawn_mappings, process_mappings, user_ranges. rewrite zip_with_app by (by rewrite length_fmap, (Forall2_length _ _ _ Hf)).
  f_equal. rewrite zip_with_fmap_l. induction Hf as [|p r ps rs [Hl _] _ IH]; [done|]. cbn [zip_with]. rewrite IH. f_equal. unfold mapping, user_mapping. by rewrite Hl.
Qed.
Lemma spawn_mappings_root m elf e x : x ∈ spawn_mappings m elf e → x.1.1.1 = sw_space e.
Proof.
  unfold spawn_mappings, process_mappings. rewrite elem_of_app, list_elem_of_singleton, list_elem_of_lookup. intros [[i Hi]| ->]; [|done].
  by apply lookup_zip_with_Some in Hi as (p & r & -> & _).
Qed.

(** The image as a process sees it: the file's bytes at the segments' addresses, then
    zeros, and a stack. *)
Record user_image (elf : range_t) (m m' : memory) (r : Z) : Prop := {
  ui_segment p i : p ∈ segments_of m elf → 0 ≤ i < p_memsz m p → user_page m' r (p_vaddr m p + i) ∧
    load8 m' (seen_at m' r (p_vaddr m p + i)) = if i <? p_filesz m p then load8 m (u64 (base elf + p_offset m p) + i) else 0;
  ui_stack v : in_block USER_STACK_BASE KERNEL_STACK_SIZE v → user_page m' r v
}.
Section spawned.
Variables (elf : range_t) (m m' : memory) (e : spawn).
Hypothesis Hloaded : Forall2 (λ p r, loaded elf m p r m') (segments_of m elf) (sw_frames e).
Hypothesis Hstack : length (sw_stack e) = KERNEL_STACK_SIZE.
Hypothesis Hframes : Forall page_frames (spawn_memory e).
Hypothesis Hleaf : ∀ v, user_address v → leaf m' (sw_space e) v = translation (spawn_mappings m elf e) (sw_space e) v.

Lemma ranges_frames : Forall2 (λ v r, length v = length r ∧ page_frames r) (user_ranges m elf) (sw_frames e ++ [sw_stack e]).
Proof.
  apply Forall_cons in Hframes as [Hs Hfr]. unfold user_ranges. apply Forall2_app; [|by constructor].
  apply Forall2_fmap_l. revert Hfr Hloaded. clear. intros Hfr Hld. induction Hld as [|p r ps rs [Hl _] _ IH]; [constructor|]. revert Hfr.
  intros [Hr Hrs]%Forall_cons. constructor; [by split|by apply IH].
Qed.
Lemma process_reaches v : user_address v → pml_present (leaf m' (sw_space e) v) = true → memory_byte e (seen_at m' (sw_space e) v).
Proof.
  intros Hv Hp. pose proof (Hleaf v Hv) as Hl. rewrite (spawn_mappings_zip m m') in Hl by done.
  destruct (image_reaches _ _ _ ranges_frames v _ Hl Hp) as (r & Hr & Hx). exists r. split; [|exact Hx].
  apply elem_of_app in Hr as [Hr| ->%list_elem_of_singleton]; [by right|by left].
Qed.

Hypothesis Hsizes : Forall (λ p, 0 < p_memsz m p ∧ p_memsz m p + 4095 < 0x8000000000000000) (segments_of m elf).
Hypothesis Hlaid : laid_out (user_ranges m elf).
Lemma ranges_pages : Forall (λ r, length r mod 4096 = 0) (user_ranges m elf).
Proof.
  unfold user_ranges. apply Forall_app. split; [|by constructor]. apply Forall_fmap. eapply Forall_impl; [exact Hsizes|].
  intros p [Hp Hu]. destruct (ALIGN_UP_bounds (p_memsz m p)) as [_ ?]; [lia|lia|done].
Qed.
Lemma process_leads i virt phys v : user_ranges m elf !! i = Some virt → (sw_frames e ++ [sw_stack e]) !! i = Some phys → in_block (base virt) (length virt) v →
  user_page m' (sw_space e) v ∧ seen_at m' (sw_space e) v = mmap_phys_to_io (base phys) + (v - base virt).
Proof.
  intros Hv Hp Hin. pose proof (proj1 (Forall_lookup _ _) (lo_pages _ Hlaid) _ _ Hv) as (_ & Hb & _ & He).
  pose proof (Hleaf v (user_half virt v Hb He Hin)) as Hl. rewrite (spawn_mappings_zip m m') in Hl by done.
  by destruct (image_leads _ _ _ Hlaid ranges_pages ranges_frames i virt phys v _ Hv Hp Hin Hl) as (? & ? & ?).
Qed.
Lemma process_image : user_image elf m m' (sw_space e).
Proof.
  pose proof (Forall2_length _ _ _ Hloaded) as Hn. split.
  - intros p i [k Hk]%list_elem_of_lookup Hi. destruct (Forall2_lookup_l _ _ _ _ _ Hloaded Hk) as (r & Hr & Hl & Hc).
    destruct (proj1 (Forall_lookup _ _) Hsizes _ _ Hk) as [Hpos Hup]. destruct (ALIGN_UP_bounds (p_memsz m p)) as [Hal _]; [lia|lia|].
    destruct (process_leads k (mk_range (p_vaddr m p) (ALIGN_UP (p_memsz m p) PAGE_SIZE)) r (p_vaddr m p + i)) as [Hup' ->].
    + unfold user_ranges. rewrite lookup_app_l by (rewrite length_fmap; by apply lookup_lt_is_Some). by rewrite list_lookup_fmap, Hk.
    + rewrite lookup_app_l by (by apply lookup_lt_is_Some). done.
    + unfold in_block. cbn [base length]. lia.
    + split; [done|]. cbn [base]. rewrite <- Hc by done. f_equal. lia.
  - intros v Hv. apply (process_leads (List.length (sw_frames e)) (mk_range USER_STACK_BASE KERNEL_STACK_SIZE) (sw_stack e)); [| |exact Hv].
    + unfold user_ranges. rewrite lookup_app_r by (rewrite length_fmap; lia). by rewrite length_fmap, Hn, Nat.sub_diag.
    + rewrite lookup_app_r by lia. by rewrite Nat.sub_diag.
Qed.
End spawned.
