(* ===== verification/Boot.v ===== *)
(** arch/x86_64/arch.c ([arch_init]), kernel/entry.c and
    arch/x86_64/stivale_bootsrap.c: the parts put together in the order in which
    the kernel starts.  Log calls are left out, so is the splash's log line. *)
From Stdlib Require Import Strings.String.
From S2P Require Import Prelude Machine CString Range Handover Stivale FrameAllocator Pmm Vmm Fmt Services Vec Sched.
From S2P Require Import Process Elf Spawn Devices Symbols Kernel Gdt Liballoc Compat.

(** All that the kernel keeps: [bt_kernel] has the memory ([sc_k]), the tables are
    read and written with that memory ([on_tables]). *)
Record boot (K B : Type) : Type := mk_boot {
  bt_kernel : kernel K;
  bt_elf_lock : Z;
  bt_tables : tables K;
  bt_devices : devices B
}.
Arguments mk_boot {K B}. Arguments bt_kernel {K B}. Arguments bt_elf_lock {K B}. Arguments bt_tables {K B}. Arguments bt_devices {K B}.

Section kmain.
Context {K B : Type} `{KernelServices K} `{Bus B}.
Implicit Types b : boot K B.
(** What [liballoc_alloc] asks the scheduler for on each call: the space of the
    current process, once there is one.  The memory subsystem is told when it
    changes. *)
Variable note_space : option Z → K → K.

Definition boot_k b : K := sc_k (kn_sched (bt_kernel b)).
Definition on_kernel {A} (m : M (kernel K) A) : M (boot K B) A :=
  zoom bt_kernel (λ k b, mk_boot k (bt_elf_lock b) (bt_tables b) (bt_devices b)) m.
Definition on_memory {A} (m : M K A) : M (boot K B) A := on_kernel (on_sched (on_k m)).
Definition on_loader {A} (m : M (loader K) A) : M (boot K B) A :=
  zoom (λ b, mk_loader (kn_sched (bt_kernel b)) (bt_elf_lock b))
    (λ l b, mk_boot (set_sched (ld_sched l) (bt_kernel b)) (ld_lock l) (bt_tables b) (bt_devices b)) m.
Definition on_tables {A} (m : M (tables K) A) : M (boot K B) A :=
  zoom (λ b, set_tb_k (boot_k b) (bt_tables b))
    (λ t b, mk_boot (set_sched (set_k (tb_k t) (kn_sched (bt_kernel b))) (bt_kernel b)) (bt_elf_lock b) t (bt_devices b)) m.
Definition on_ports {A} (m : M (devices B) A) : M (boot K B) A :=
  zoom bt_devices (λ d b, mk_boot (bt_kernel b) (bt_elf_lock b) (bt_tables b) d) m.

Definition kernel_splash : M (kernel K) unit :=
  arch_serial_puts (lit (NL ++ "__/\\\\\_____/\\\____________________________________________        " ++ NL)%string) ≫= λ _,
  arch_serial_puts (lit (" _\/\\\\\\___\/\\\____________________________________________       " ++ NL)%string) ≫= λ _,
  arch_serial_puts (lit ("  _\/\\\/\\\__\/\\\_________________________________/\\\__/\\\_      " ++ NL)%string) ≫= λ _,
  arch_serial_puts (lit ("   _\/\\\//\\\_\/\\\__/\\\\\\\\\_____/\\\____/\\\___\//\\\/\\\__     " ++ NL)%string) ≫= λ _,
  arch_serial_puts (lit ("    _\/\\\\//\\\\/\\\_\////////\\\___\//\\\__/\\\_____\//\\\\\___    " ++ NL)%string) ≫= λ _,
  arch_serial_puts (lit ("     _\/\\\_\//\\\/\\\___/\\\\\\\\\\___\//\\\/\\\_______\//\\\____   " ++ NL)%string) ≫= λ _,
  arch_serial_puts (lit ("      _\/\\\__\//\\\\\\__/\\\/////\\\____\//\\\\\_____/\\_/\\\_____  " ++ NL)%string) ≫= λ _,
  arch_serial_puts (lit ("       _\/\\\___\//\\\\\_\//\\\\\\\\/\\____\//\\\_____\//\\\\/______ " ++ NL)%string) ≫= λ _,
  arch_serial_puts (lit ("        _\///_____\/////___\////////\//______\///_______\////________" ++ NL ++ NL)%string).

(** [is_sched_init() ? sched_current_process()->pml] *)
Definition current_space (s : sched_state K) : option Z :=
  if is_sched_init s then pml <$> entry s (current_pid s) else None.
Definition kernel_sched_init : M (kernel K) unit :=
  on_sched sched_init ≫= λ _,
  on_sched (modify (λ s, set_k (note_space (current_space s) (sc_k s)) s)).

(** [turns] bounds the loop of [task_slayer], which ends [kmain]. *)
Definition kmain (turns : nat) (ho : handover) : M (boot K B) unit :=
  on_kernel kernel_splash ≫= λ _,
  on_kernel kernel_sched_init ≫= λ _,
  lift (handover_find_module ho (lit "test_ipc")) ≫= λ test_range,
  assert_ (truth (length test_range)) ≫= λ _,
  on_loader (load_elf_module test_range) ≫= λ test_ipc,
  on_loader (load_elf_module test_range) ≫= λ test_ipc2,
  on_loader (load_elf_module test_range) ≫= λ test_ipc3,
  on_loader (on_task (sched_push_process1 test_ipc)) ≫= λ _,
  on_loader (on_task (sched_push_process1 test_ipc2)) ≫= λ _,
  on_loader (on_task (sched_push_process1 test_ipc3)) ≫= λ _,
  on_loader (on_task (task_slayer turns)).
End kmain.

(** ** The kernel on its own memory subsystem *)
Section arch_init.
Context {B : Type} `{Bus B}.
Notation state := (boot kernel_memory B).
(** The addresses of the statics of gdt.c and idt.c, of [syscall_handle] and of
    the interrupt entry points. *)
Variables (gdt_addr tss_addr kidt_addr syscall_handle : Z) (interrupt_vector : list Z).

Definition note_current_space (space : option Z) (k : kernel_memory) : kernel_memory :=
  mk_la (mk_compat (cs_vmm (la_sys k)) space) (la_heap k).
Definition on_vmm_state {A} (m : M (vmm_state pmm_state) A) : M state A := on_memory (on_sys (on_vmm m)).
Definition set_mmap (l : list mmap_entry) (h : handover) : handover :=
  mk_handover (memory_usable h) (usable_pages h) (memory_map_size h) (rsdt h) (ho_framebuffer h) l (module_count h) (modules h).

(** [pmm_init] changes the memory map in the handover. *)
Definition arch_init (turns : nat) (ho : handover) : M state unit :=
  on_tables (gdt_init gdt_addr tss_addr) ≫= λ _,
  on_tables (idt_init kidt_addr interrupt_vector) ≫= λ _,
  on_vmm_state (on_pmm (pmm_init ho)) ≫= λ map,
  let ho := set_mmap map ho in
  on_vmm_state (vmm_init ho) ≫= λ _,
  on_tables intstack_init ≫= λ _,
  on_ports (pit_init 1000) ≫= λ _,
  on_ports pic_init ≫= λ _,
  on_tables (syscall_init syscall_handle) ≫= λ _,
  kmain note_current_space turns ho.

Definition set_symbols (r : range_t) (k : kernel kernel_memory) : kernel kernel_memory :=
  mk_kernel (kn_sched k) (kn_user k) (kn_console k) (serial_lock k) (has_fault k) (random_next k) r (kn_eoi k).
(** [stack] is what the stack of [parse_module] holds. *)
Definition stivale2_entry (turns : nat) (m : memory) (stack : list Z) (stivale2 : list stivale2_tag) : M state unit :=
  lift (stivale2_parse_header m stack stivale2) ≫= λ '(ho, _),
  lift (handover_find_module ho (lit "symbols")) ≫= λ symbols,
  on_kernel (zoom kn_symbols set_symbols (register_symbols symbols)) ≫= λ _,
  arch_init turns ho.
End arch_init.

(** ** What [kmain] leaves *)
Section started.
Context {K B : Type} `{SpawnServices K} `{Bus B}.
Implicit Types b : boot K B.
Variable note_space : option Z → K → K.
Hypothesis note_kept : ∀ t k, lk_ok k → lk_space k t → kept k (note_space (Some t) k) ∧ lk_mapped (note_space (Some t) k) = lk_mapped k.
Notation ld_mem l := (ks_mem (ld_k l)).

(** The statics as the file gives them, and the module. *)
Record kmain_ready (elf : range_t) (ho : handover) b : Prop := {
  kr_locks : bt_elf_lock b = 0 ∧ serial_lock (bt_kernel b) = 0 ∧ has_fault (bt_kernel b) = false ∧
    sched_lock (kn_sched (bt_kernel b)) = 0 ∧ usertask_lock (kn_sched (bt_kernel b)) = 0;
  kr_statics : tick (kn_sched (bt_kernel b)) = 0 ∧ current_pid (kn_sched (bt_kernel b)) = 0 ∧
    last_pid (kn_sched (bt_kernel b)) = 1 ∧ procs (kn_sched (bt_kernel b)) = ∅;
  kr_ok : lk_ok (boot_k b) ∧ lk_space (boot_k b) (mmap_phys_to_io (hw_cr3 (ks_hw (boot_k b))));
  kr_module : handover_find_module ho (lit "test_ipc") = Ok elf ∧ length elf ≠ 0;
  kr_image : image_ok elf (ks_mem (boot_k b)) (image_phdrs (ks_mem (boot_k b)) elf)
}.

Definition loader_of b : loader K := mk_loader (kn_sched (bt_kernel b)) (bt_elf_lock b).
Definition put_loader (l : loader K) b : boot K B := mk_boot (set_sched (ld_sched l) (bt_kernel b)) (ld_lock l) (bt_tables b) (bt_devices b).
Lemma loader_of_put l b : loader_of (put_loader l b) = l.
Proof. by destruct l. Qed.
Lemma run_on_loader {A C} (m : M (loader K) A) (f : A → M (boot K B) C) Q b :
  run m (λ a l, run (f a) Q (put_loader l b)) (loader_of b) → run (on_loader m ≫= f) Q b.
Proof. intros Hm. apply runs_bind. unfold runs at 1, on_loader, zoom. fold (loader_of b). unfold runs at 1 in Hm. by destruct (m (loader_of b)) as [[]|]. Qed.
Lemma run_on_kernel {A C} (m : M (kernel K) A) (f : A → M (boot K B) C) Q b :
  run m (λ a k, run (f a) Q (mk_boot k (bt_elf_lock b) (bt_tables b) (bt_devices b))) (bt_kernel b) → run (on_kernel m ≫= f) Q b.
Proof. intros Hm. apply runs_bind. unfold runs at 1, on_kernel, zoom. unfold runs at 1 in Hm. by destruct (m (bt_kernel b)) as [[]|]. Qed.
Lemma run_on_task {A} (m : M (sched_state K) A) Q l :
  run m (λ a s, Q a (mk_loader s (ld_lock l))) (ld_sched l) → run (on_task m) Q l.
Proof. unfold runs, on_task, zoom. by destruct (m (ld_sched l)) as [[]|]. Qed.
Lemma wp_run {S A} (m : M S A) Q s : wp m Q s → run m Q s.
Proof. unfold wp, runs. by destruct (m s) as [[]|]. Qed.

(** The splash prints. *)
Lemma splash_run (k : kernel K) : serial_lock k = 0 → run kernel_splash (λ _, printed k) k.
Proof.
  assert (∀ s k0 k, lit_okb s = true → printed k0 k → run (arch_serial_puts (lit s)) (λ _, printed k0) k) as Hlast.
  { intros s k0 k1 Hs Hk. eapply runs_post; [|apply wp_run, puts_lit_returns; [exact Hs|apply Hk]]. intros [] k2 Hk2. by eapply printed_trans. }
  assert (∀ s (f : unit → M (kernel K) unit) k0 k, lit_okb s = true → printed k0 k → (∀ k', printed k0 k' → run (f tt) (λ _, printed k0) k') →
    run (arch_serial_puts (lit s) ≫= f) (λ _, printed k0) k) as Hline.
  { intros s f k0 k1 Hs Hk Hf. apply runs_bind. eapply runs_post; [|by apply Hlast]. intros [] k2 Hk2. by apply Hf. }
  intros Hk. unfold kernel_splash. apply printed_refl in Hk.
  do 8 (apply Hline; [by vm_compute|assumption|]; clear Hk; intros ? Hk). apply Hlast; [by vm_compute|assumption].
Qed.

(** [kernel_sched_init] makes the kernel's process. *)
Lemma kernel_sched_init_run (k : kernel K) :
  lk_ok (sc_k (kn_sched k)) → lk_space (sc_k (kn_sched k)) (mmap_phys_to_io (hw_cr3 (ks_hw (sc_k (kn_sched k))))) →
  procs (kn_sched k) = ∅ → current_pid (kn_sched k) = 0 →
  run (kernel_sched_init note_space) (λ _ k', ∃ p v pml0 kk, k' = set_sched (started p v pml0 kk (kn_sched k)) k ∧
    kept (sc_k (kn_sched k)) kk ∧ lk_mapped kk = lk_mapped (sc_k (kn_sched k)) ∧ vec_ok v ∧ vec_list v = [p] ∧ v_length v = 1 ∧
    0 < p < 0x10000000000000000 ∧ lk_taken kk p ∧
    pml0 = mmap_phys_to_io (hw_cr3 (ks_hw (sc_k (kn_sched k)))) ∧ (lk_area kk (v_ptr v) (v_capacity v * 8) ∧ 0 < v_capacity v)) k.
Proof.
  intros Hok Hroot Hpr Hcur. unfold kernel_sched_init. apply runs_bind. unfold runs at 1, on_sched, zoom.
  assert (procs_taken (procs (kn_sched k)) (sc_k (kn_sched k))) as Hpt by (rewrite Hpr; intros q x; by rewrite lookup_empty).
  pose proof (sched_init_run (kn_sched k) Hok Hpt) as Hs. unfold runs at 1 in Hs.
  destruct (sched_init (kn_sched k)) as [[[] s1]|e]; [|done].
  destruct Hs as (p & v & pml0 & k1 & -> & Hk1 & Hm1 & Hv & Hl & Hn & Hp & _ & Ht & Hpml & Hva & Hcap).
  set (s1 := started p v pml0 k1 (kn_sched k)). 
  assert (pml0 = mmap_phys_to_io (hw_cr3 (ks_hw (sc_k (kn_sched k))))) as Hpml0 by (rewrite Hpml; f_equal; apply Hk1).
  assert (current_space s1 = Some pml0) as Hcs.
  { assert (entry s1 0 = Some (kernel_process pml0)) as He; [|unfold current_space; change (current_pid s1) with (current_pid (kn_sched k)); by rewrite Hcur, He].
    unfold entry. change (0 <? 0) with false. change (processes s1) with v. rewrite Hl. apply lookup_insert_eq. }
  destruct (note_kept pml0 k1 (proj1 Hk1)) as [Hk2 Hm2]; [rewrite Hpml0; by apply Hk1|].
  exists p, v, pml0, (note_space (Some pml0) k1). split; [by rewrite <- Hcs|]. split; [by eapply mem_kept_trans|]. split; [by rewrite Hm2|].
  do 3 (split; [done|]). split; [done|]. split; [by apply Hk2|]. split; [exact Hpml0|]. split; [by apply Hk2|done].
Qed.

(** Printing leaves memory alone. *)
Lemma printed_kept (k k' : kernel K) : printed k k' → lk_ok (sc_k (kn_sched k)) →
  ∃ kk, kn_sched k' = set_k kk (kn_sched k) ∧ kept (sc_k (kn_sched k)) kk ∧ lk_mapped kk = lk_mapped (sc_k (kn_sched k)).
Proof.
  intros [(h & Hs & _) (i & Hi) _ _ _ _] Hok. unfold kn_hw, sc_hw in Hi. rewrite Hs in Hi. cbn in Hi. rewrite ks_get_set in Hi. subst h.
  destruct (kept_irq i _ Hok) as [Hk Hm]. eexists. split; [exact Hs|]. by split.
Qed.

(** The kernel when it is up: the process table has the kernel's own process, which
    keeps the space the kernel started in, and three processes made from [elf], each
    in a space of its own with an empty mailbox.  [k0] is the memory before, with
    the image. *)
Record kernel_up (elf : range_t) (k0 : K) (es : list spawn) b : Prop := {
  ku_sched : sched_ok (kn_sched (bt_kernel b)) ∧ sched_is_init (kn_sched (bt_kernel b)) = true ∧
    is_scheduler (kn_sched (bt_kernel b)) = true ∧ bt_elf_lock b = 0 ∧ serial_lock (bt_kernel b) = 0 ∧ has_fault (bt_kernel b) = false;
  ku_table : table_length (kn_sched (bt_kernel b)) = 4 ∧ current_pid (kn_sched (bt_kernel b)) = 0;
  ku_kernel : entry (kn_sched (bt_kernel b)) 0 = Some (kernel_process (mmap_phys_to_io (hw_cr3 (ks_hw k0))));
  ku_spawned : List.length es = 3%nat ∧ ∀ (i : nat) e, es !! i = Some e → ∃ y,
    entry (kn_sched (bt_kernel b)) (Z.of_nat i + 1) = Some y ∧ pid y = Z.of_nat i + 1 ∧ state y = TASK_RUNNING ∧
    pml y = sw_space e ∧ stack y = sw_stack e ∧ mailbox y = vec_init ∧
    regs y rip = e_entry (ks_mem k0) (base elf) ∧ regs y cs = 0x23 ∧ regs y ss = 0x1b ∧ regs y rflags = 0x202 ∧
    regs y rsp = USER_STACK_BASE + KERNEL_STACK_SIZE ∧ regs y rdi = 0;
  ku_memory : lk_ok (boot_k b) ∧ hw_cr3 (ks_hw (boot_k b)) = hw_cr3 (ks_hw k0) ∧ (∀ t, lk_space k0 t → lk_space (boot_k b) t);
  ku_spaces : NoDup (sw_space <$> es) ∧ ∀ e, e ∈ es → ¬ lk_space k0 (sw_space e) ∧ lk_space (boot_k b) (sw_space e);
  ku_mapped : lk_mapped (boot_k b) = lk_mapped k0 ++ (es ≫= spawn_mappings (ks_mem k0) elf);
  ku_memories e : e ∈ es → length (sw_stack e) = KERNEL_STACK_SIZE ∧ Forall (fresh_frames k0 (boot_k b)) (spawn_memory e);
  ku_apart : memories_apart es;
  ku_loaded : Forall (λ e, Forall2 (λ p r, loaded elf (ks_mem k0) p r (ks_mem (boot_k b))) (segments_of (ks_mem k0) elf) (sw_frames e)) es
}.

Lemma kernel_up_intro elf k0 s0 l s es b p :
  spawns_done elf k0 s0 es l → image_ok elf (ks_mem k0) (image_phdrs (ks_mem k0) elf) → kept k0 (sc_k s0) →
  table_of (spawn_object (ks_mem k0) elf) p (kernel_process (mmap_phys_to_io (hw_cr3 (ks_hw k0)))) (ld_k l) es [] s →
  kn_sched (bt_kernel b) = s → bt_elf_lock b = ld_lock l → serial_lock (bt_kernel b) = 0 → has_fault (bt_kernel b) = false → List.length es = 3%nat →
  kernel_up elf k0 es b.
Proof.
  intros Hd Him Hk0 Ht Hs Hl Hser Hhf Hn. pose proof (table_of_length _ _ _ _ _ _ _ Ht) as Hlen. destruct Ht as [Hok Hsn _ Hf He _ _ (Hi & Hsc & Hc)].
  rewrite app_nil_r in Hsn. pose proof (sd_kept _ _ _ _ _ Hd) as Hkl. pose proof (sd_loaded _ _ _ _ _ Hd) as Hld. pose proof (proj1 (Forall_forall _ _) Hld) as Hmem. unfold boot_k. split; unfold boot_k; rewrite ?Hs.
  - split_and!; try done. rewrite Hl. apply (sd_ready _ _ _ _ _ Hd).
  - split; [lia|done].
  - done.
  - split; [done|]. intros i e Hei. destruct (He i e Hei) as (y & Hy & Hpid & Hpml & Hst & Hstk & Hmb & Hr). exists y.
    rewrite !Hr, Hpid, Hpml, Hst, Hstk, Hmb. by split_and!.
  - split; [apply Hsn|]. split; [etrans; [apply (sn_cr3 _ _ _ Hsn)|apply Hkl]|]. intros t Ht. by apply (sn_spaces _ _ _ Hsn), Hkl.
  - destruct (sd_spaces _ _ _ _ _ Hd) as [Hnd Hsp]. split; [done|]. intros e Hin. destruct (Hsp e Hin) as [Hno Hyes].
    split; [intros Ht; by apply Hno, Hk0|by apply (sn_spaces _ _ _ Hsn)].
  - rewrite (proj2 (sn_ok _ _ _ Hsn)). apply (sd_mapped _ _ _ _ _ Hd).
  - intros e Hin. destruct (Hmem e Hin) as (_ & Hst & Hfr). split; [done|]. rewrite Forall_forall in Hfr |- *. intros r Hr. destruct (Hfr r Hr) as [Hpf Hx]. split; [done|].
    intros x Hxr. destruct (Hx x Hxr) as [Hno _]. split; [intros Htk; by apply Hno, Hk0|].
    apply (sn_memory _ _ _ Hsn); [|exists e; split; [done|]; by exists r]. destruct (page_frames_io r Hpf) as (_ & Hbk & _). unfold block_ok, in_block in *. lia.
  - apply (sd_apart _ _ _ _ _ Hd).
  - eapply since_loaded; [exact Hsn|done|eapply Forall_impl; [exact Hld|]; by intros e []|].
    intros e r Hin Hr. destruct (Hmem e Hin) as (_ & _ & Hfr). rewrite Forall_forall in Hfr. by apply Hfr.
Qed.

(** From the statics as they are initialised, with a module
    named "test_ipc" that is a well-formed image in memory nothing else uses,
    [kmain] stops at an assertion (out of memory) or brings the kernel up, and
    then stays in the loop of [task_slayer] without an effect however often it
    turns: the table holds the kernel's process and three running processes with
    pids 1 to 3 that start at the image's entry point in user mode on a mapped
    stack, each in a space of its own in which the image's segments are mapped and
    no other mapping was made; the frames they are mapped to have the file's bytes
    followed by zeros, still when the table is filled; the scheduler is on and the
    locks are free. *)
Theorem kmain_spawns turns elf ho b :
  kmain_ready elf ho b →
  run (kmain note_space turns ho) (λ _ b', ∃ es, kernel_up elf (boot_k b) es b') b.
Proof.
  intros [(Hel & Hser & Hhf & Hsl & Hul) (Htick & Hcur & Hlast & Hpr) [Hok Hroot] [Hfind Hlen] Him]. unfold kmain. set (k0 := boot_k b) in *.
  apply run_on_kernel. eapply runs_post; [|by apply splash_run]. intros [] k1 Hk1.
  destruct (printed_kept _ _ Hk1 Hok) as (kk1 & Hs1 & Hkk1 & Hm1). fold (boot_k b) in Hkk1, Hm1. fold k0 in Hkk1, Hm1.
  apply run_on_kernel. cbn [bt_kernel bt_elf_lock bt_tables bt_devices].
  eapply runs_post; [|apply kernel_sched_init_run; rewrite Hs1; [apply Hkk1| |done|done]].
  2: { change (sc_k (set_k kk1 _)) with kk1. rewrite (proj2 (proj2 (proj2 (proj2 (proj2 Hkk1))))). by apply Hkk1. }
  intros [] k2 (p & v & pml0 & kk2 & -> & Hkk2 & Hm2 & Hv & Hvl & Hvn & Hp & Htp & Hpml & Hva). rewrite Hs1 in Hkk2, Hm2, Hpml |- *.
  change (sc_k (set_k kk1 _)) with kk1 in Hkk2, Hm2, Hpml. rewrite (proj2 (proj2 (proj2 (proj2 (proj2 Hkk1))))) in Hpml. subst pml0. set (pml0 := mmap_phys_to_io (hw_cr3 (ks_hw k0))). set (s0 := started p v pml0 kk2 (set_k kk1 (kn_sched (bt_kernel b)))).
  eapply runs_eq; [by rewrite Hfind|]. eapply runs_eq; [unfold truth; by rewrite (proj2 (Z.eqb_neq _ _) Hlen)|].
  set (b2 := mk_boot _ _ _ _). assert (kept k0 kk2) as Hk02 by by eapply mem_kept_trans.
  assert (spawns_done elf k0 s0 [] (loader_of b2)) as Hd0.
  { assert (loader_of b2 = mk_loader s0 (bt_elf_lock b)) as -> by done. apply spawns_done_nil; [exact Hk02|change (lk_mapped kk2 = lk_mapped k0); congruence|].
    split; [done|apply Hkk2|by apply (image_ok_kept elf k0)|]. intros q x. cbn [ld_sched]. change (procs s0) with (<[p := kernel_process pml0]> (procs (kn_sched (bt_kernel b)))).
    rewrite Hpr. intros [[<- _]|[_ Hq]]%lookup_insert_Some; [exact Htp|by rewrite lookup_empty in Hq]. }
  apply run_on_loader. eapply runs_post; [|by apply spawns_done_step]. intros p1 l1 (e1 & <- & Hd1).
  apply run_on_loader. rewrite loader_of_put. eapply runs_post; [|by apply spawns_done_step]. intros p2 l2 (e2 & <- & Hd2).
  apply run_on_loader. rewrite loader_of_put. eapply runs_post; [|by apply spawns_done_step]. intros p3 l3 (e3 & <- & Hd3).
  cbn [app] in Hd3. set (es := [e1; e2; e3]) in *.
  assert (sched_ok s0) as Hok0 by (apply started_ok; try done; cbn; rewrite Htick; unfold SWITCH_TICK; lia).
  pose proof (table_of_spawns elf k0 _ es l3 p v pml0 kk2 Hd3 Hok0 Hvl Hvn Hcur (proj1 Hkk2) Hva) as Ht.
  apply run_on_loader. rewrite loader_of_put. apply run_on_task. eapply runs_post; [|eapply table_of_push; [exact Ht|cbn; lia]]. intros [] s1 Ht1.
  apply run_on_loader. rewrite loader_of_put. apply run_on_task. eapply runs_post; [|eapply table_of_push; [exact Ht1|cbn; lia]]. intros [] s2 Ht2.
  apply run_on_loader. rewrite loader_of_put. apply run_on_task. eapply runs_post; [|eapply table_of_push; [exact Ht2|cbn; lia]]. intros [] s3 Ht3.
  cbn [app ld_lock] in Ht3.
  assert (on_task (task_slayer turns) (mk_loader s3 (ld_lock l3)) = Ok (tt, mk_loader s3 (ld_lock l3))) as Hidle.
  { unfold on_task, zoom. cbn [ld_sched]. by rewrite (table_of_idle _ _ _ _ _ _ _ turns Ht3) by done. }
  unfold runs, on_loader, zoom at 1. change (mk_loader (kn_sched _) _) with (mk_loader s3 (ld_lock l3)). rewrite Hidle.
  exists es. apply (kernel_up_intro elf k0 s0 l3 s3 es _ p Hd3 Him Hk02 Ht3); [done..|apply Hk1| |done].
  rewrite <- Hhf. apply Hk1.
Qed.
End started.

(** ** A machine with one module *)

Definition sample_ho : handover :=
  mk_handover 0 0 0 0 (mk_fb 0 0 0 0) [] 1 [mk_module (chars "test_ipc" ++ replicate 120 0) sample_elf].
Definition sample_boot : boot mapper unit :=
  mk_boot (mk_kernel (ld_sched sample_loader) (λ _ _, 0) [] 0 false 1 (mk_range 0 0) []) 0
    (mk_tables (ld_k sample_loader) [] (init_tss 0) (mk_tss [0; 0; 0] (replicate 7 0) 0) (0, 0) (0, 0) 0 [] (0, 0) ∅) (mk_devices tt [] true).
Lemma kmain_spawns_witness :
  runs lk_stops (kmain (λ _ k, k) 5 sample_ho) (λ _ b', ∃ es, kernel_up sample_elf (boot_k sample_boot) es b') sample_boot.
Proof.
  destruct sample_image_ok as [Hph Him].
  apply (kmain_spawns (λ _ k, k) (λ _ k Hk _, conj (mem_kept_refl k Hk) eq_refl) 5 sample_elf sample_ho sample_boot). split.
  - by split_and!.
  - by split_and!.
  - split; [change (0 ≤ 0x10000 < 0x400000000000 ∧ 0x10000 mod 4096 = 0); split; [lia|done]|].
    exists (hw_cr3 (ks_hw (boot_k sample_boot)) / 4096). split_and!; [reflexivity|done|done].
  - split; [vm_compute; reflexivity|discriminate].
  - change (ks_mem (boot_k sample_boot)) with sample_image. rewrite Hph. exact Him.
Defined.
