(* ===== verification/Erasure.v ===== *)
(** Changing the memory subsystem under the kernel: when a map of its states
    commutes with every service, it commutes with what the kernel does with them.
    Used to forget a ledger ([Ledger]): what [kmain] does does not depend on it. *)
From Stdlib Require Import Strings.String.
From S2P Require Import Prelude Machine CString Range FrameAllocator Pmm Vmm Spaces Memory Fmt Services Vec Sched Elf Devices Symbols Kernel Gdt Dll Liballoc LiballocSpec Compat KernelHeap KernelMemory Spawn Ledger Boot.

(** [m'] does on [f s] what [m] does on [s]. *)
Definition sim {S S' A} (f : S → S') (m : M S A) (m' : M S' A) : Prop :=
  ∀ s, m' (f s) = match m s with Ok (a, t) => Ok (a, f t) | Err e => Err e end.

Section sim.
Context {S S' : Type} (f : S → S').
Lemma sim_ret {A} (a : A) : sim f (mret a) (mret a).
Proof. done. Qed.
Lemma sim_bind {A B} (m : M S A) m' (g : A → M S B) g' : sim f m m' → (∀ a, sim f (g a) (g' a)) → sim f (m ≫= g) (m' ≫= g').
Proof. intros Hm Hg s. unfold mbind, M_bind. rewrite Hm. destruct (m s) as [[a t]|e]; [apply Hg|done]. Qed.
Lemma sim_gets {A} (g : S → A) g' : (∀ s, g' (f s) = g s) → sim f (gets g) (gets g').
Proof. intros Hg s. unfold gets. by rewrite Hg. Qed.
Lemma sim_modify g g' : (∀ s, g' (f s) = f (g s)) → sim f (modify g) (modify g').
Proof. intros Hg s. unfold modify. by rewrite Hg. Qed.
Lemma sim_fail {A} e : sim f (fail (A := A) e) (fail e).
Proof. done. Qed.
Lemma sim_lift {A} (r : res A) : sim f (lift r) (lift r).
Proof. intros s. by destruct r. Qed.
Lemma sim_assert c : sim f (assert_ c) (assert_ c).
Proof. by destruct c. Qed.
Lemma sim_when c m m' : sim f m m' → sim f (when c m) (when c m').
Proof. intros Hm. by destruct c. Qed.
Lemma sim_forZ n i body body' : (∀ j, sim f (body j) (body' j)) → sim f (forZ n i body) (forZ n i body').
Proof. intros Hb. revert i. induction n as [|n IH]; intros i; [apply sim_ret|]. apply sim_bind; [apply Hb|intros _; apply IH]. Qed.
Lemma sim_zoom {T T' A} (g : T → T') get get' set set' (m : M T A) m' :
  (∀ s, get' (f s) = g (get s)) → (∀ t s, set' (g t) (f s) = f (set t s)) → sim g m m' → sim f (zoom get set m) (zoom get' set' m').
Proof. intros Hget Hset Hm s. unfold zoom. rewrite Hget, Hm. destruct (m (get s)) as [[a t]|e]; [by rewrite Hset|done]. Qed.
(** What is proved of a run holds of the run without. *)
Lemma sim_runs {A} E (m : M S A) m' Q s : sim f m m' → runs E m Q s → runs E m' (λ a t', ∃ t, t' = f t ∧ Q a t) (f s).
Proof. intros Hm Hr. unfold runs in *. rewrite Hm. destruct (m s) as [[a t]|e]; [by exists t|done]. Qed.
End sim.
#[export] Hint Resolve sim_ret sim_fail sim_lift sim_assert sim_when : sim.
Ltac sim_step :=
  first [done | solve [eauto with sim] | apply sim_bind; [|intros ?] | apply sim_when | apply sim_gets; intros ? | apply sim_modify; intros ?
        | apply sim_forZ; intros ? | match goal with |- sim _ (match ?x with _ => _ end) _ => destruct x end ].
Ltac sim_auto := repeat sim_step.

(** The services of [K] and [K'] correspond. *)
Class Erases {K K' : Type} `{KernelServices K, KernelServices K'} (f : K → K') : Prop := {
  er_hw k : ks_hw (f k) = ks_hw k;
  er_set_hw h k : ks_set_hw h (f k) = f (ks_set_hw h k);
  er_malloc n : sim f (ks_malloc n) (ks_malloc n);
  er_realloc p n : sim f (ks_realloc p n) (ks_realloc p n);
  er_free p : sim f (ks_free p) (ks_free p);
  er_pmm_alloc n : sim f (ks_pmm_alloc n) (ks_pmm_alloc n);
  er_pmm_free r : sim f (ks_pmm_free r) (ks_pmm_free r);
  er_vmm_map pml v p u : sim f (ks_vmm_map pml v p u) (ks_vmm_map pml v p u);
  er_create : sim f ks_space_create ks_space_create;
  er_destroy pml : sim f (ks_space_destroy pml) (ks_space_destroy pml)
}.
#[export] Hint Resolve er_malloc er_realloc er_free er_pmm_alloc er_pmm_free er_vmm_map er_create er_destroy : sim.
#[export] Instance ledger_erases : Erases lg_memory.
Proof.
  split; try done.
  all: intros; intros k; cbn [ks_malloc ks_realloc ks_free ks_pmm_alloc ks_pmm_free ks_vmm_map ks_space_create ks_space_destroy ledger_services kernel_services]; unfold entered.
  all: match goal with |- ?m ?s = _ => by destruct (m s) as [[]|] end.
Qed.

Section erasure.
Context {K K' : Type} {f : K → K'} `{Erases K K' f}.

Definition map_sched (s : sched_state K) : sched_state K' :=
  mk_sched (f (sc_k s)) (procs s) (processes s) (tick s) (sched_lock s) (usertask_lock s) (current_pid s) (last_pid s)
    (sched_is_init s) (is_scheduler s) (msr s).
Definition map_loader (l : loader K) : loader K' := mk_loader (map_sched (ld_sched l)) (ld_lock l).
Definition map_kernel (k : kernel K) : kernel K' :=
  mk_kernel (map_sched (kn_sched k)) (kn_user k) (kn_console k) (serial_lock k) (has_fault k) (random_next k) (kn_symbols k) (kn_eoi k).

(** *** kernel/sched.c *)

Lemma er_mem k : ks_mem (f k) = ks_mem k.
Proof. unfold ks_mem. by rewrite er_hw. Qed.
Lemma er_set_mem g k : ks_set_mem g (f k) = f (ks_set_mem g k).
Proof. unfold ks_set_mem. by rewrite er_hw, er_set_hw. Qed.
Lemma sim_on_k {A} (m : M K A) m' : sim f m m' → sim map_sched (on_k m) (on_k m').
Proof. by apply sim_zoom. Qed.
#[local] Hint Resolve sim_on_k : sim.
Lemma set_k_hw h s : set_k (ks_set_hw h (sc_k (map_sched s))) (map_sched s) = map_sched (set_k (ks_set_hw h (sc_k s)) s).
Proof. change (sc_k (map_sched s)) with (f (sc_k s)). by rewrite er_set_hw. Qed.
Lemma map_hw s : sc_hw (map_sched s) = sc_hw s.
Proof. exact (er_hw (sc_k s)). Qed.
Lemma sim_acquire get set get' set' :
  (∀ s, get' (map_sched s) = get s) → (∀ l s, set' l (map_sched s) = map_sched (set l s)) → sim map_sched (acquire get set) (acquire get' set').
Proof.
  intros Hget Hset s. unfold acquire. rewrite Hget, map_hw. destruct (arch_acquire _ _) as [[l h]|e]; [|done]. by rewrite set_k_hw, Hset.
Qed.
Lemma sim_release set set' : (∀ l s, set' l (map_sched s) = map_sched (set l s)) → sim map_sched (release set) (release set').
Proof. intros Hset. apply sim_modify. intros s. rewrite map_hw. destruct (arch_release _) as [l h]. by rewrite set_k_hw, Hset. Qed.
Lemma sim_get_process p : sim map_sched (get_process p) (get_process p).
Proof. intros s. unfold get_process. cbn. by destruct (procs s !! p). Qed.
Lemma sim_upd_process p g : sim map_sched (upd_process p g) (upd_process p g).
Proof. intros s. unfold upd_process. cbn. by destruct (procs s !! p). Qed.
Lemma sim_process_at i : sim map_sched (process_at i) (process_at i).
Proof. intros s. unfold process_at. cbn. by destruct (vec_at _ _). Qed.
Lemma sim_read_space : sim map_sched arch_read_space arch_read_space.
Proof. apply sim_gets. intros s. by rewrite map_hw. Qed.
#[local] Hint Resolve sim_get_process sim_upd_process sim_process_at sim_read_space : sim.
#[local] Hint Extern 1 (sim map_sched (acquire _ _) _) => by apply sim_acquire : sim.
#[local] Hint Extern 1 (sim map_sched (release _) _) => by apply sim_release : sim.
Lemma sim_vec_push {T} n (v : vec T) x : sim f (vec_push ks_realloc n v x) (vec_push ks_realloc n v x).
Proof. unfold vec_push, vec_expand_. sim_auto. Qed.
Lemma sim_kcalloc n : sim f (kcalloc n) (kcalloc n).
Proof. unfold kcalloc. sim_auto. apply er_set_mem. Qed.
#[local] Hint Resolve sim_vec_push sim_kcalloc : sim.
Lemma sim_new_process : sim map_sched new_process new_process.
Proof. unfold new_process. sim_auto. Qed.
Lemma sim_push_process p : sim map_sched (push_process p) (push_process p).
Proof. unfold push_process. sim_auto. Qed.
#[local] Hint Resolve sim_new_process sim_push_process : sim.
Lemma sim_sched_init : sim map_sched sched_init sched_init.
Proof. unfold sched_init, arch_enable_scheduler. sim_auto. Qed.
Lemma sim_task_slayer turns : sim map_sched (task_slayer turns) (task_slayer turns).
Proof. induction turns as [|turns IH]; [apply sim_ret|]. cbn [task_slayer]. unfold task_slayer_pass, slay. sim_auto. Qed.
Lemma sim_task_init pml0 rip0 : sim map_sched (task_init pml0 rip0) (task_init pml0 rip0).
Proof. unfold task_init. sim_auto. Qed.
Lemma sim_push_process1 p : sim map_sched (sched_push_process1 p) (sched_push_process1 p).
Proof. unfold sched_push_process1, sched_push_process5. sim_auto. Qed.
#[local] Hint Resolve sim_sched_init sim_task_slayer sim_task_init sim_push_process1 : sim.

(** *** kernel/elf.c *)

Lemma ld_mem_map l : ks_mem (ld_k (map_loader l)) = ks_mem (ld_k l).
Proof. exact (er_mem (ld_k l)). Qed.
Lemma sim_on_task {A} (m : M (sched_state K) A) m' : sim map_sched m m' → sim map_loader (on_task m) (on_task m').
Proof. by apply sim_zoom. Qed.
Lemma sim_on_svc {A} (m : M K A) m' : sim f m m' → sim map_loader (on_svc m) (on_svc m').
Proof. intros Hm. by apply sim_on_task, sim_on_k. Qed.
#[local] Hint Resolve sim_on_task sim_on_svc : sim.
Lemma sim_upd_mem g : sim map_loader (upd_mem g) (upd_mem g).
Proof. apply sim_on_svc, sim_modify. intros k. apply er_set_mem. Qed.
#[local] Hint Resolve sim_upd_mem : sim.
Lemma sim_ld_acquire : sim map_loader ld_acquire ld_acquire.
Proof.
  intros l. unfold ld_acquire. change (ks_hw (sc_k (ld_sched (map_loader l)))) with (sc_hw (map_sched (ld_sched l))). rewrite map_hw.
  change (ld_lock (map_loader l)) with (ld_lock l). change (sc_hw (ld_sched l)) with (ks_hw (sc_k (ld_sched l))).
  destruct (arch_acquire _ _) as [[v h]|e]; [|done]. change (ld_sched (map_loader l)) with (map_sched (ld_sched l)). by rewrite set_k_hw.
Qed.
Lemma sim_ld_release : sim map_loader ld_release ld_release.
Proof.
  apply sim_modify. intros l. change (ks_hw (sc_k (ld_sched (map_loader l)))) with (sc_hw (map_sched (ld_sched l))). rewrite map_hw.
  change (sc_hw (ld_sched l)) with (ks_hw (sc_k (ld_sched l))). destruct (arch_release _) as [v h].
  change (ld_sched (map_loader l)) with (map_sched (ld_sched l)). by rewrite set_k_hw.
Qed.
#[local] Hint Resolve sim_ld_acquire sim_ld_release : sim.
Lemma sim_load_segment elf pml phdr : sim map_loader (load_segment elf pml phdr) (load_segment elf pml phdr).
Proof. unfold load_segment. sim_auto; by rewrite ld_mem_map. Qed.
#[local] Hint Resolve sim_load_segment : sim.
Lemma sim_load_segments fuel i elf pml phdr : sim map_loader (load_segments fuel i elf pml phdr) (load_segments fuel i elf pml phdr).
Proof. revert i phdr. induction fuel as [|fuel IH]; intros i phdr; [apply sim_fail|]. cbn [load_segments]. sim_auto; by rewrite ld_mem_map. Qed.
#[local] Hint Resolve sim_load_segments : sim.
Lemma sim_load_elf_module elf : sim map_loader (load_elf_module elf) (load_elf_module elf).
Proof. unfold load_elf_module. sim_auto; by rewrite ld_mem_map. Qed.
#[local] Hint Resolve sim_load_elf_module : sim.

(** *** kernel/entry.c *)

Lemma sim_on_sched {A} (m : M (sched_state K) A) m' : sim map_sched m m' → sim map_kernel (on_sched m) (on_sched m').
Proof. by apply sim_zoom. Qed.
#[local] Hint Resolve sim_on_sched : sim.
Lemma kn_hw_map k : kn_hw (map_kernel k) = kn_hw k.
Proof. exact (map_hw (kn_sched k)). Qed.
Lemma set_kn_hw_map h k : set_kn_hw h (map_kernel k) = map_kernel (set_kn_hw h k).
Proof. unfold set_kn_hw. change (kn_sched (map_kernel k)) with (map_sched (kn_sched k)). by rewrite set_k_hw. Qed.
Lemma sim_puts s : sim map_kernel (arch_serial_puts s) (arch_serial_puts s).
Proof.
  intros k. unfold arch_serial_puts, puts_with. change (serial_lock (map_kernel k)) with (serial_lock k). rewrite kn_hw_map.
  destruct (arch_acquire _ _) as [[l h]|e]; [|done]. cbn [mbind res_bind]. rewrite set_kn_hw_map. set (k1 := set_kn_hw h k).
  destruct s as [s|]; [|done]. destruct (c_bytes s) as [o|e]; [|done]. cbn [mbind res_bind].
  change (set_console _ _) with (map_kernel (set_console (kn_console (set_serial_lock l k1) ++ o) (set_serial_lock l k1))) at 1 2.
  set (k2 := set_console _ _). rewrite kn_hw_map. destruct (arch_release _) as [l' h']. by rewrite set_kn_hw_map.
Qed.
#[local] Hint Resolve sim_puts : sim.
Lemma sim_splash : sim map_kernel kernel_splash kernel_splash.
Proof. unfold kernel_splash. sim_auto. Qed.
#[local] Hint Resolve sim_splash : sim.

Context (note : option Z → K → K) (note' : option Z → K' → K').
Hypothesis note_map : ∀ o k, note' o (f k) = f (note o k).
Lemma current_space_map s : current_space (map_sched s) = current_space s.
Proof. done. Qed.
Lemma sim_kernel_sched_init : sim map_kernel (kernel_sched_init note) (kernel_sched_init note').
Proof.
  unfold kernel_sched_init. sim_auto. change (kn_sched (map_kernel s)) with (map_sched (kn_sched s)).
  change (sc_k (map_sched (kn_sched s))) with (f (sc_k (kn_sched s))). by rewrite note_map.
Qed.
#[local] Hint Resolve sim_kernel_sched_init : sim.

Context {B : Type} `{Bus B}.
Definition map_tables (t : tables K) : tables K' :=
  mk_tables (f (tb_k t)) (entries t) (gdt_tss t) (tb_tss t) (gdtr t) (segments t) (tr t) (kidt t) (idtr t) (tb_msr t).
Definition map_boot (b : boot K B) : boot K' B := mk_boot (map_kernel (bt_kernel b)) (bt_elf_lock b) (map_tables (bt_tables b)) (bt_devices b).
Lemma sim_on_kernel {A} (m : M (kernel K) A) m' : sim map_kernel m m' → sim map_boot (on_kernel m) (on_kernel m').
Proof. by apply sim_zoom. Qed.
Lemma sim_on_loader {A} (m : M (loader K) A) m' : sim map_loader m m' → sim map_boot (on_loader m) (on_loader m').
Proof. by apply sim_zoom. Qed.
#[local] Hint Resolve sim_on_kernel sim_on_loader : sim.
(** What [kmain] does. *)
Lemma sim_kmain turns ho : sim map_boot (kmain note turns ho) (kmain note' turns ho).
Proof. unfold kmain. sim_auto. Qed.
End erasure.
