(* ===== verification/Booting.v ===== *)
(** The kernel brought up on its own memory: [kmain] over the heap, the page tables
    and the bitmap leaves each process with its image where the image wants to be,
    and the machine of processes in the state from which the theorems of
    [Isolation], [Running] and [TestSystem] speak. *)
From ITree Require Import ITree.
From Stdlib Require Import Strings.String.
From S2P Require Import Prelude Machine CString Range Handover FrameAllocator Pmm Vmm Spaces Memory Fmt Services Vec Sched Process Elf Devices Symbols Kernel Gdt Syscall Interrupt Dll Liballoc LiballocSpec Compat KernelHeap KernelMemory Ipc User Isolation TestIpc TestRun TestSystem Running Spawn Ledger UserView Boot Erasure.

(** From here on the heap looks at the root register for its space ([running_root]). *)
Definition running_of (k : kernel kernel_memory) : kernel running_memory := map_kernel (f := mk_running) k.
(** The processes as [kmain] leaves them: the kernel's waits for interrupts, the
    others are about to start the program. *)
Definition first_system (ly : layout) (k : kernel kernel_memory) : system running_memory :=
  mk_system (running_of k) (λ i, if i =? 0 then mret tt else start ly) [].

(** The image of a program in the frames [F], where the module was loaded. *)
Definition image_in (F : list range_t) (elf : range_t) (m : memory) : Prop :=
  @image_ok ledger (ledger_view (frame_byte F) []) elf m (image_phdrs m elf).

(** It does not matter which spaces are old. *)
Lemma image_in_view Old Old' F elf m : @image_ok ledger (ledger_view (frame_byte F) Old) elf m (image_phdrs m elf) →
  @image_ok ledger (ledger_view (frame_byte F) Old') elf m (image_phdrs m elf).
Proof.
  intros (Hq & Hb & Hh). split; [exact Hq|]. split; [exact Hb|]. eapply Forall_impl; [exact Hh|].
  intros p (Hqp & Hbp & Hs). split; [exact Hqp|]. split; [exact Hbp|]. intros [Hhd Hsz Hsrc]%Hs. by split.
Qed.

Section booting.
Context {B : Type} `{Bus B}.
Implicit Types b : boot kernel_memory B.

(** The statics as the file gives them; the memory as [arch_init] leaves it, the
    areas [A], the frames [F] (the module among them) and the spaces [Rs] in use. *)
Record machine_ready (elf : range_t) (ho : handover) b A F Rs : Prop := {
  mr_locks : bt_elf_lock b = 0 ∧ serial_lock (bt_kernel b) = 0 ∧ has_fault (bt_kernel b) = false ∧
    sched_lock (kn_sched (bt_kernel b)) = 0 ∧ usertask_lock (kn_sched (bt_kernel b)) = 0;
  mr_statics : tick (kn_sched (bt_kernel b)) = 0 ∧ current_pid (kn_sched (bt_kernel b)) = 0 ∧
    last_pid (kn_sched (bt_kernel b)) = 1 ∧ procs (kn_sched (bt_kernel b)) = ∅;
  mr_memory : isolated (mk_holder (boot_k b) A F Rs);
  mr_root : mmap_phys_to_io (hw_cr3 (ks_hw (boot_k b))) ∈ Rs ∧ 0 ≤ hw_cr3 (ks_hw (boot_k b)) < 0x10000000000000000;
  mr_module : handover_find_module ho (lit "test_ipc") = Ok elf ∧ length elf ≠ 0;
  mr_image : image_in F elf (ks_mem (boot_k b))
}.

(** What is left: the three processes of [es], each with the image at its addresses,
    none able to reach what another can or what was held before; the rest of memory
    is still held apart. *)
Record machine_up (elf : range_t) (b0 : boot kernel_memory B) A0 F0 (es : list spawn) b : Prop := {
  mu_locks : sched_ok (kn_sched (bt_kernel b)) ∧ bt_elf_lock b = 0 ∧ serial_lock (bt_kernel b) = 0;
  mu_spawned : List.length es = 3%nat ∧ ∀ (i : nat) e, es !! i = Some e → ∃ y,
    entry (kn_sched (bt_kernel b)) (Z.of_nat i + 1) = Some y ∧ pid y = Z.of_nat i + 1 ∧ state y = TASK_RUNNING ∧
    pml y = sw_space e ∧ regs y rip = e_entry (ks_mem (boot_k b0)) (base elf) ∧ regs y cs = 0x23 ∧ regs y ss = 0x1b ∧
    regs y rflags = 0x202 ∧ regs y rsp = USER_STACK_BASE + KERNEL_STACK_SIZE;
  mu_loaded : Forall (λ e, Forall2 (λ p r, loaded elf (ks_mem (boot_k b0)) p r (ks_mem (boot_k b))) (segments_of (ks_mem (boot_k b0)) elf) (sw_frames e)) es;
  mu_image e : laid_out (user_ranges (ks_mem (boot_k b0)) elf) → e ∈ es → user_image elf (ks_mem (boot_k b0)) (ks_mem (boot_k b)) (sw_space e);
  mu_private (i j : nat) e e' v w : es !! i = Some e → es !! j = Some e' → user_address v → user_address w →
    pml_present (leaf (ks_mem (boot_k b)) (sw_space e) v) = true → pml_present (leaf (ks_mem (boot_k b)) (sw_space e') w) = true →
    seen_at (ks_mem (boot_k b)) (sw_space e) v = seen_at (ks_mem (boot_k b)) (sw_space e') w → i = j;
  mu_memory : ∃ A F Rs, isolated (mk_holder (boot_k b) A F Rs) ∧ (∀ e, e ∈ es → sw_space e ∈ Rs) ∧
    ∀ e v, e ∈ es → user_address v → pml_present (leaf (ks_mem (boot_k b)) (sw_space e) v) = true →
      let x := seen_at (ks_mem (boot_k b)) (sw_space e) v in (area_byte A x ∨ frame_byte F x) ∧ ¬ (area_byte A0 x ∨ frame_byte F0 x)
}.

End booting.

(** ** The processes in the kernel's memory *)

Lemma sched_ok_map {K K'} (f : K → K') s : sched_ok s → sched_ok (map_sched (f := f) s).
Proof. intros [[Hv Hl Hc He Hp] Ht Hlk]. split; [split|..]; done. Qed.
Lemma io_roundtrip f : 0 ≤ f < 0x800000000 → mmap_phys_to_io (mmap_io_to_phys (frame_io f)) = frame_io f.
Proof. intros Hf. rewrite mmap_io_to_phys_frame by done. unfold mmap_phys_to_io, frame_io, MMAP_IO_BASE. rewrite u64_small; lia. Qed.
Lemma phys_roundtrip c : 0 ≤ c < 0x10000000000000000 → mmap_io_to_phys (mmap_phys_to_io c) = c.
Proof. intros Hc. unfold mmap_io_to_phys, mmap_phys_to_io, u64, MMAP_IO_BASE. Z.div_mod_to_equations; lia. Qed.

(** A table whose processes have no mail and a space of their own each, among [Rs]. *)
Lemma fresh_kernel_ok (k : kernel kernel_memory) spaces A F Rs :
  sched_ok (kn_sched k) → serial_lock k = 0 → isolated (mk_holder (sc_k (kn_sched k)) A F Rs) →
  (∀ i x, entry (kn_sched k) i = Some x → mailbox x = vec_init ∧ spaces !! Z.to_nat i = Some (pml x)) →
  NoDup spaces → spaces ⊆ Rs →
  (∀ x, entry (kn_sched k) (current_pid (kn_sched k)) = Some x → hw_cr3 (kn_hw k) = mmap_io_to_phys (pml x)) →
  kernel_ok (running_of k).
Proof.
  intros Hs Hser His He Hnd Hsub Hc. pose proof (so_table _ Hs) as Ht.
  assert (∀ i x, entry (kn_sched k) i = Some x → ∃ f, pml x = frame_io f ∧ 0 ≤ f < 0x800000000) as Hf.
  { intros i x [_ Hx]%He. apply list_elem_of_lookup_2, Hsub in Hx. pose proof (isolated_compat _ _ _ _ His) as Hok.
    pose proof (ss_space _ _ (co_spaces _ _ Hok) _ Hx) as Hsp. destruct (sp_table _ _ Hsp [] _ valid_nil eq_refl) as (f & Heq & Hm & _).
    exists f. split; [done|]. by apply (fa_managed_range _ _ (sp_fa _ _ Hsp)). }
  assert (all_mail (kn_sched (running_of k)) = []) as Hmail.
  { apply elem_of_nil_inv. intros a (j & Ha & _)%list_elem_of_bind. unfold mail_of in Ha.
    change (entry (kn_sched (running_of k)) (Z.of_nat j)) with (entry (kn_sched k) (Z.of_nat j)) in Ha.
    destruct (entry (kn_sched k) (Z.of_nat j)) as [x|] eqn:Hx; [|by apply not_elem_of_nil in Ha].
    destruct (He _ _ Hx) as [Hm _]. rewrite Hm in Ha. by apply not_elem_of_nil in Ha. }
  split.
  - by apply sched_ok_map.
  - done.
  - intros i x [-> _]%He. by split; [apply vec_init_ok|].
  - rewrite Hmail. exists A, F, Rs. split; [done|]. intros c (i & x & Hx & ->). destruct (Hf i x Hx) as (f & Hp & Hfr).
    rewrite Hp, io_roundtrip, <- Hp by done. apply Hsub. destruct (He i x Hx) as [_ Hl]. by apply list_elem_of_lookup_2 in Hl.
  - exact Hc.
  - intros i j x y Hx Hy Heq. destruct (Hf i x Hx) as (f & Hp & Hfr), (Hf j y Hy) as (g & Hq & Hg). rewrite Hp, Hq, !mmap_io_to_phys_frame in Heq by done.
    assert (f = g) as -> by lia. destruct (He i x Hx) as [_ Hi], (He j y Hy) as [_ Hj]. rewrite Hp in Hi. rewrite Hq in Hj.
    pose proof (NoDup_lookup _ _ _ _ Hnd Hi Hj) as Hij. pose proof (entry_bound _ _ _ Ht Hx). pose proof (entry_bound _ _ _ Ht Hy). lia.
Qed.

Section up.
Context {B : Type} `{Bus B}.
Variables (Q : Z → Prop) (Old : list Z).
#[local] Instance the_view : LoaderView ledger := ledger_view Q Old.
#[local] Instance the_loader : LoaderServices ledger := ledger_loader Q Old.
#[local] Instance the_services : SpawnServices ledger := ledger_spawn Q Old.

(** The spaces in the order of the table. *)
Definition space_list (k0 : ledger) (es : list spawn) : list Z := mmap_phys_to_io (hw_cr3 (ks_hw k0)) :: (sw_space <$> es).
Lemma up_entries elf k0 es (b : boot ledger B) i x : kernel_up elf k0 es b → entry (kn_sched (bt_kernel b)) i = Some x →
  mailbox x = vec_init ∧ state x = TASK_RUNNING ∧ space_list k0 es !! Z.to_nat i = Some (pml x).
Proof.
  intros [(Hok & _) [Hlen _] Hk [Hn Hs] _ _ _ _] Hx. pose proof (entry_bound _ _ _ (so_table _ Hok) Hx) as Hi. rewrite Hlen in Hi.
  destruct (decide (i = 0)) as [->|Hne].
  - rewrite Hk in Hx. injection Hx as <-. by split_and!.
  - destruct (es !! (Z.to_nat (i - 1))) as [e|] eqn:He; [|apply lookup_ge_None in He; lia].
    destruct (Hs _ _ He) as (y & Hy & _ & Hst & Hp & _ & Hm & _). replace (Z.of_nat (Z.to_nat (i - 1)) + 1) with i in Hy by lia.
    rewrite Hx in Hy. injection Hy as ->. split; [done|]. split; [done|]. replace (Z.to_nat i) with (S (Z.to_nat (i - 1))) by lia.
    change ((sw_space <$> es) !! Z.to_nat (i - 1) = Some (pml y)). rewrite list_lookup_fmap, He, Hp. done.
Qed.
Lemma up_kernel_ok elf k0 es (b : boot ledger B) :
  kernel_up elf k0 es b → mmap_phys_to_io (hw_cr3 (ks_hw k0)) ∈ lg_spaces k0 → 0 ≤ hw_cr3 (ks_hw k0) < 0x10000000000000000 →
  kernel_ok (running_of (map_kernel (f := lg_memory) (bt_kernel b))).
Proof.
  intros Hup Hroot Hcr. pose proof (up_entries elf k0 es b) as Hent. pose proof Hup as [(Hok & _ & _ & _ & Hser & _) [Hlen Hcur] Hk _ [[His _ _ _ _] [Hc Hmono]] [Hnd Hsp] _ _].
  unfold boot_k in *. destruct (sc_k (kn_sched (bt_kernel b))) as [[s A F Rs] maps] eqn:Hsc.
  apply (fresh_kernel_ok _ (space_list k0 es) A F Rs).
  - by apply sched_ok_map.
  - done.
  - change (sc_k (kn_sched (map_kernel (bt_kernel b)))) with (lg_memory (sc_k (kn_sched (bt_kernel b)))). rewrite Hsc. exact His.
  - intros i x Hx. destruct (Hent i x Hup Hx) as (? & _ & ?). done.
  - constructor; [|done]. intros [e [Heq He]]%list_elem_of_fmap. destruct (Hsp e He) as [Hno _]. apply Hno. rewrite <- Heq. exact Hroot.
  - intros t [->|[e [-> He]]%list_elem_of_fmap]%elem_of_cons; [by apply Hmono|by apply Hsp].
  - intros x Hx. change (current_pid (kn_sched (map_kernel (bt_kernel b)))) with (current_pid (kn_sched (bt_kernel b))) in Hx. rewrite Hcur in Hx.
    change (entry (kn_sched (bt_kernel b)) 0 = Some x) in Hx. rewrite Hk in Hx. injection Hx as <-.
    change (pml (kernel_process _)) with (mmap_phys_to_io (hw_cr3 (ks_hw k0))). rewrite phys_roundtrip by done. rewrite <- Hc.
    change (kn_hw (map_kernel (bt_kernel b))) with (ks_hw (sc_k (kn_sched (bt_kernel b)))). by rewrite Hsc.
Qed.
(** The user's half of a process's space is what was mapped for it. *)
Lemma up_leaf elf k0 es (b : boot ledger B) e v :
  kernel_up elf k0 es b → lg_maps k0 = [] → (∀ r, r ∈ Old → lk_space k0 r) → e ∈ es → user_address v →
  leaf (ks_mem (boot_k b)) (sw_space e) v = translation (spawn_mappings (ks_mem k0) elf e) (sw_space e) v.
Proof.
  intros [_ _ _ _ [Hok _] [Hnd Hsp] Hm _ _ _] Hk0 HO He Hv. destruct (Hsp e He) as [Hno Hin].
  rewrite <- (translation_own (spawn_mappings (ks_mem k0) elf) es e v (spawn_mappings_root _ _) Hnd He).
  change (lk_mapped k0) with (lg_maps k0) in Hm. rewrite Hk0 in Hm. cbn [app] in Hm. rewrite <- Hm.
  apply (lo_view _ _ _ Hok); [exact Hin|by intros ?%HO|done].
Qed.
(** ... and leads into its own memory. *)
Lemma up_reaches elf k0 es (b : boot ledger B) e v :
  kernel_up elf k0 es b → lg_maps k0 = [] → (∀ r, r ∈ Old → lk_space k0 r) → e ∈ es → user_address v →
  pml_present (leaf (ks_mem (boot_k b)) (sw_space e) v) = true → memory_byte e (seen_at (ks_mem (boot_k b)) (sw_space e) v).
Proof.
  intros Hup Hk0 HO He Hv Hp. destruct (ku_memories _ _ _ _ Hup e He) as [Hst Hfr].
  apply (process_reaches elf (ks_mem k0) (ks_mem (boot_k b)) e); [|done| |by intros w; apply (up_leaf elf k0 es)|done|done].
  - by apply (proj1 (Forall_forall _ _) (ku_loaded _ _ _ _ Hup)).
  - eapply Forall_impl; [exact Hfr|]. by intros r [].
Qed.
Lemma up_image elf k0 es (b : boot ledger B) e :
  kernel_up elf k0 es b → lg_maps k0 = [] → (∀ r, r ∈ Old → lk_space k0 r) → e ∈ es →
  image_ok elf (ks_mem k0) (image_phdrs (ks_mem k0) elf) → laid_out (user_ranges (ks_mem k0) elf) →
  user_image elf (ks_mem k0) (ks_mem (boot_k b)) (sw_space e).
Proof.
  intros Hup Hk0 HO He (_ & _ & Him%loadable_ok) Hlo. destruct (ku_memories _ _ _ _ Hup e He) as [Hst Hfr].
  apply process_image; [|done| |by intros w; apply (up_leaf elf k0 es)| |done].
  - by apply (proj1 (Forall_forall _ _) (ku_loaded _ _ _ _ Hup)).
  - eapply Forall_impl; [exact Hfr|]. by intros r [].
  - eapply Forall_impl; [exact Him|]. intros p [_ (? & _ & ?) _]. done.
Qed.
End up.

(** ** Bringing the kernel up *)
Section kmain.
Context {B : Type} `{Bus B}.
Implicit Types b : boot kernel_memory B.

Definition with_ledger A F Rs b : boot ledger B := map_boot (f := λ s, mk_ledger (mk_holder s A F Rs) []) b.
Lemma without_ledger A F Rs b : map_boot (f := lg_memory) (with_ledger A F Rs b) = b.
Proof. by destruct b as [[[] ? ? ? ? ? ? ?] ? [] ?]. Qed.
Definition note_in_ledger (o : option Z) (k : ledger) : ledger := lg_set_memory (note_current_space o (lg_memory k)) k.

Lemma ready_with_ledger elf ho b A F Rs : machine_ready elf ho b A F Rs →
  @kmain_ready ledger B _ (ledger_view (frame_byte F) Rs) elf ho (with_ledger A F Rs b).
Proof.
  intros [Hl Hs Hm [Hr _] Hmod Him]. split; [done|done| |done|].
  2: { by apply image_in_view with (Old := []). }
  split; [|exact Hr]. split; [exact Hm|done|done|..].
  - intros m Hno. by apply not_elem_of_nil in Hno.
  - intros r v Hin Hno. by destruct Hno.
Qed.
Lemma up_without_ledger elf ho A F Rs b es (bl : boot ledger B) : machine_ready elf ho b A F Rs →
  @kernel_up ledger B _ (ledger_view (frame_byte F) Rs) elf (boot_k (with_ledger A F Rs b)) es bl →
  machine_up elf b A F es (map_boot (f := lg_memory) bl) ∧ ∀ ly, booted ly (first_system ly (map_kernel (f := lg_memory) (bt_kernel bl))).
Proof.
  intros [_ _ Hiso [Hr Hc] _ Him] Hup. pose proof (up_kernel_ok (frame_byte F) Rs _ _ _ _ Hup Hr Hc) as Hok.
  assert (∀ r, r ∈ Rs → r ∈ lg_spaces (boot_k (with_ledger A F Rs b))) as HO by done.
  pose proof (λ e v, up_reaches (frame_byte F) Rs elf _ es bl e v Hup eq_refl HO) as Hreach.
  pose proof (λ e He, up_image (frame_byte F) Rs elf _ es bl e Hup eq_refl HO He (image_in_view [] Rs F elf _ Him)) as Himage.
  pose proof Hup as [(Hs & _ & Hsc & Hel & Hser & Hf) [Hlen Hcur] Hk [Hn Hsp] [Hlok _] [_ Hspace] _ Hmem Hap Hld].
  assert (∀ e x, e ∈ es → memory_byte e x → held (boot_k bl) x ∧ ¬ held (boot_k (with_ledger A F Rs b)) x) as Hheld.
  { intros e x He Hx. destruct (Hmem e He) as [_ Hfr]. by destruct (memory_byte_fresh _ _ _ _ Hfr Hx). }
  split.
  - split.
    + split; [by apply sched_ok_map|done].
    + split; [done|]. intros i e He. destruct (Hsp i e He) as (y & Hy & Hpid & Hst & Hp & _ & _ & Hip & Hcs & Hss & Hfl & Hrsp & _).
      exists y. by split_and!.
    + exact Hld.
    + intros e Hlo He. by apply Himage.
    + intros i j e e' v w Hi Hj Hv Hw Hpv Hpw Heq. pose proof (Hreach e v (list_elem_of_lookup_2 _ _ _ Hi) Hv Hpv) as Hx.
      pose proof (Hreach e' w (list_elem_of_lookup_2 _ _ _ Hj) Hw Hpw) as Hy. eapply (Hap i j e e' _ Hi Hj Hx).
      change (ks_mem (boot_k (map_boot bl))) with (ks_mem (boot_k bl)) in Heq. by rewrite Heq.
    + exists (lg_areas (boot_k bl)), (lg_frames (boot_k bl)), (lg_spaces (boot_k bl)).
      change (boot_k (map_boot (f := lg_memory) bl)) with (lg_memory (boot_k bl)). split; [|split].
      * pose proof (lo_isolated _ _ _ Hlok) as His. destruct (lg_holder (boot_k bl)) as [] eqn:E. unfold lg_memory. rewrite E. exact His.
      * intros e He. by apply Hspace.
      * intros e v He Hv Hp. exact (Hheld e _ He (Hreach e v He Hv Hp)).
  - intros ly. split; try done.
    intros i Hi. unfold view. change (entry (kn_sched (sy_kernel _)) i) with (entry (kn_sched (bt_kernel bl)) i).
    assert (is_Some (entry (kn_sched (bt_kernel bl)) i)) as [x Hx].
    { destruct (entry_lookup _ i (so_table _ Hs)) as (p & x & _ & _ & _ & -> & _); [lia|done]. }
    rewrite Hx. destruct (up_entries (frame_byte F) Rs _ _ _ _ i x Hup Hx) as (Hm & Hst & _). cbn. rewrite Hm, Hst. by eexists.
Qed.

End kmain.

(** ** A machine with one module

    Of 1024 pages the first 32 are in use: page 1 has the bitmap, page 2 the
    kernel's root table, page 3 the module. *)
Definition first_bytes : memory := λ x,
  if (frame_io 3 <=? x) && (x <? frame_io 4) then sample_image (x - frame_io 3 + 0x1000) else running_bytes x.
Definition first_vmm : vmm_state pmm_state :=
  mk_vmm (mk_pmm (mk_hw first_bytes true 0x2000 []) (frame_io 1) 128 96 0 0) (frame_io 2) 0.
Definition first_elf : range_t := mk_range (frame_io 3) 0x1000.
Definition first_ho : handover :=
  mk_handover 0 0 0 0 (mk_fb 0 0 0 0) [] 1 [mk_module (chars "test_ipc" ++ replicate 120 0) first_elf].
Definition first_memory : kernel_memory := mk_la (mk_compat first_vmm None) heap_init.
Definition first_boot : boot kernel_memory unit :=
  mk_boot (mk_kernel (mk_sched first_memory ∅ vec_init 0 0 0 0 1 false false ∅) (λ _ _, 0) [] 0 false 1 (mk_range 0 0) []) 0
    (mk_tables first_memory [] (init_tss 0) (mk_tss [0; 0; 0] (replicate 7 0) 0) (0, 0) (0, 0) 0 [] (0, 0) ∅) (mk_devices tt [] true).
(** Outside the module the bytes are those of [Running]. *)
Lemma first_bytes_running x : 0 ≤ x < 0x10000000000000000 → ¬ in_block (frame_io 3) 4096 x → load8 first_bytes x = load8 running_bytes x.
Proof.
  intros Hx Hno. unfold load8, first_bytes. rewrite u64_small by done. unfold in_block, frame_io in *.
  destruct (Z.leb_spec (3 * 4096 + MMAP_IO_BASE) x); [|done]. by rewrite (proj2 (Z.ltb_ge _ _)) by lia.
Qed.
Lemma first_page_free f : 0 ≤ f < 1024 → page_free (vm_pmm first_vmm) f ↔ page_free (vm_pmm running_vmm) f.
Proof.
  intros Hf. unfold page_free, is_set_pmm. cbn [pm_mem hw_mem pm_hw vm_pmm first_vmm running_vmm bitmap]. rewrite first_bytes_running; [done|..].
  - unfold frame_io, MMAP_IO_BASE. Z.div_mod_to_equations; lia.
  - unfold in_block, frame_io. Z.div_mod_to_equations; lia.
Qed.
Lemma first_fa_ok : pmm_fa_ok (vm_pmm first_vmm).
Proof.
  split; [split; [split|]|]; try (cbn; unfold block_ok, frame_io, MMAP_IO_BASE; lia).
  split; [cbn; lia|]. intros f x [Hf Hfree] Hx Hp. change (0 ≤ f < 128) in Hf.
  change (in_block (frame_io 1) 128 x) in Hp. unfold in_block, frame_io in *. assert (f = 1) as -> by lia.
  apply first_page_free in Hfree; [|lia]. by destruct (running_page_used 1 ltac:(lia)).
Qed.
Lemma first_space : space_ok first_vmm (frame_io 2) ∧ ∀ p t, valid_path p → table_at (vm_mem first_vmm) (frame_io 2) p = Some t → p = [] ∧ t = frame_io 2.
Proof.
  apply blank_space; [exact first_fa_ok|change (0 ≤ 2 < 8 * 128); lia| | |].
  - intros Hf%first_page_free; [|lia]. by destruct (running_page_used 2 ltac:(lia)).
  - intros x Hx Hpr. change (in_block (frame_io 1) 128 x) in Hpr. unfold in_block, frame_io in *. lia.
  - intros i Hi. apply load_le_zero. intros x Hx. change (load8 first_bytes x = 0). unfold in_block, entry_addr, frame_io, MMAP_IO_BASE in Hx.
    rewrite first_bytes_running by (unfold in_block, frame_io, MMAP_IO_BASE; lia). unfold load8. rewrite u64_small by lia. unfold running_bytes, frame_io, MMAP_IO_BASE.
    rewrite (proj2 (Z.ltb_ge _ _)) by lia. by rewrite andb_false_r.
Qed.
Lemma first_compat_ok : compat_ok [frame_io 2] (mk_compat first_vmm None).
Proof.
  split; [|by left|by left|done|].
  - apply blank_spaces. intros r ->%list_elem_of_singleton. exact first_space.
  - intros x Hx. change (in_block (frame_io 1) 128 x) in Hx. unfold in_block, frame_io in Hx. lia.
Qed.
Definition first_frames : list range_t := [mk_range 0x3000 0x1000].
Lemma first_frame_byte x : frame_byte first_frames x ↔ in_block (frame_io 3) 4096 x.
Proof.
  split; [by intros (r & ->%list_elem_of_singleton & Hx)|]. intros Hx. exists (mk_range 0x3000 0x1000). split; [by left|exact Hx].
Qed.
Lemma first_isolated : isolated (mk_holder first_memory [] first_frames [frame_io 2]).
Proof.
  apply isolated_init_frames; [exact first_compat_ok|by repeat constructor|apply NoDup_singleton|..].
  - by intros r q x ->%list_elem_of_singleton ->%list_elem_of_singleton.
  - intros x Hx%first_frame_byte. split; [exists 3; split; [change (0 ≤ 3 < 8 * 128); lia|done]|].
    intros [Hpr|[(f & [Hf Hfree] & Hin)|(r & ->%list_elem_of_singleton & p & t & Hp & Ht & Hin)]].
    + change (in_block (frame_io 1) 128 x) in Hpr. unfold in_block, frame_io in *. lia.
    + change (0 ≤ f < 128) in Hf. rewrite (same_frame _ _ _ Hin Hx) in Hfree. apply first_page_free in Hfree; [|lia].
      by destruct (running_page_used 3 ltac:(lia)).
    + destruct first_space as [_ Hroot]. destruct (Hroot p t Hp Ht) as [_ ->]. unfold in_block, frame_io in *. lia.
Qed.
(** The module is that of [Elf], elsewhere. *)
Definition first_phdr : Z := frame_io 3 + 0x40.
Lemma first_headers : image_phdrs first_bytes first_elf = [first_phdr; frame_io 3 + 0x78] ∧ p_type first_bytes (frame_io 3 + 0x78) ≠ PT_LOAD.
Proof. split; [vm_compute; reflexivity|vm_compute; discriminate]. Qed.
Lemma first_segment : p_memsz first_bytes first_phdr = 10 ∧ p_filesz first_bytes first_phdr = 3 ∧
  u64 (base first_elf + p_offset first_bytes first_phdr) = frame_io 3 + 0x100.
Proof. repeat split; vm_compute; reflexivity. Qed.
Lemma first_image : image_in first_frames first_elf first_bytes.
Proof.
  destruct first_headers as [Hph Hno]. destruct first_segment as (Hm & Hf & Hs).
  assert (∀ o n, 0 ≤ o → 0 ≤ n → o + n ≤ 4096 → @quiet_block ledger (ledger_view (frame_byte first_frames) []) (frame_io 3 + o) n ∧ block_ok (frame_io 3 + o) n) as Hin.
  { intros o n Ho Hn Hs'. split; [intros x Hx; apply first_frame_byte; unfold in_block in *; lia|unfold block_ok, frame_io, MMAP_IO_BASE; lia]. }
  unfold image_in. rewrite Hph. unfold image_ok. split; [|split]; [apply (Hin 0 64); lia|apply (Hin 0 64); lia|].
  rewrite !Forall_cons. split; [split; [|split]|split; [split; [|split]|apply Forall_nil_2]].
  - apply (Hin 0x40 48); lia.
  - apply (Hin 0x40 48); lia.
  - intros _. split; [|rewrite Hm, Hf; lia|].
    + apply (Hin 0x40 48); lia.
    + rewrite Hs, Hf. destruct (Hin 0x100 3) as [? ?]; [lia..|]. split; [done|]. split; [by apply Z.ltb_lt|done].
  - apply (Hin 0x78 48); lia.
  - apply (Hin 0x78 48); lia.
  - intros Ht. destruct (Hno Ht).
Qed.
Lemma first_laid_out : laid_out (user_ranges first_bytes first_elf).
Proof.
  assert (user_ranges first_bytes first_elf = [mk_range 0x400000 0x1000; mk_range 0xc0000000 0x4000]) as ->.
  { unfold user_ranges, segments_of. destruct first_headers as [-> Hno]. unfold loadable. rewrite !filter_cons, filter_nil, (decide_False _ _ Hno).
    rewrite decide_True by (vm_compute; reflexivity). vm_compute. reflexivity. }
  split; [by repeat constructor; try done|]. intros i j r q Hi Hj Hne.
  destruct i as [|[|i]], j as [|[|j]]; try done; injection Hi as <-; injection Hj as <-; unfold blocks_disjoint; cbn; lia.
Qed.
